(* ===== verification/_CoqProject ===== *)
-Q . S2P
Prelude.v
RustString.v
Float.v
Transit.v
Queue.v
Pod.v
Parser.v
PodParser.v
Blocks.v
Levels.v
LogFilter.v
Deps.v
LogEvents.v
LogBlock.v
Time.v
Clock.v
Stream.v
Wire.v
Adapters.v
LogEntry.v
MetricsBlock.v
Measure.v
Scan.v
SpanEvents.v
ThreadBlock.v
Sink.v
CompositeSink.v
Dispatch.v
SinkSpec.v
StreamSpec.v
DispatchSpec.v
Guards.v
ParserTotal.v
ParserTyped.v
ThreadBlockProcessor.v
HttpSink.v
DispatchFrame.v
HttpSpec.v
CallTree.v
GuardsSpec.v
Macros.v
Interop.v
Builder.v
BuilderSpec.v
Arrow.v
Tables.v
Sql.v
Lake.v
Statement.v
Metadata.v
LakeSpec.v
LibQueries.v
Codecs.v
Migration.v
Query.v
QuerySpec.v
SpanQuery.v
RowQueries.v
QueryExamples.v
RowExamples.v
SqlBridge.v
Service.v
ServiceSpec.v
Delivery.v
SpanGaps.v
DeliverySpec.v
EndToEnd.v
EndThreads.v
EndExamples.v
SpanTable.v
Lakehouse.v
LakehouseSpec.v
OldServer.v
OldServerSpec.v
