(* ===== verification/Prelude.v ===== *)
(** * Micromegas: a verification development

    Micromegas is a telemetry system.  A program that is instrumented records
    log entries, measures and the scopes of its threads in queues of bytes;
    when a queue is full its block is given to a sink, which encodes it and
    posts it to an ingestion server; the server keeps the payloads of the blocks
    in an object store and what describes them in a database (the lake); the
    analytics server reads them back, parses the bytes with the reflected types
    of the stream, and answers queries with record batches.  This library models
    that path from end to end, and proves that what is recorded is what is
    read.  The code is Rust, under [src/rust]; a file named here is relative to
    it.

    ** The parts, and the files that model them

    The library under everything
    - [Prelude.v]: the outcomes of a Rust computation (a result, an error, a
      panic, undefined behaviour, a recursion that does not end), bytes,
      integers of a width, loops; the tactics and hints that the other files
      share.
    - [RustString.v], [Float.v]: what is used of the standard library: UTF-8 and
      UTF-16, and [f64].

    transit: a format for queues of typed objects
    - [Transit.v] (reflect.rs, serialize.rs, static_string.rs, dyn_string.rs,
      parse_string.rs): reflected types, values, serialised strings.
    - [Queue.v], [Pod.v] (derive/, heterogeneous_queue.rs): what the macros
      generate: the queue, the copy of a structure, its reflection; for any
      layout that the compiler chooses.
    - [Parser.v] (parser.rs): from bytes and metadata to values;
      [PodParser.v], [Blocks.v], [ParserTotal.v], [ParserTyped.v]: what it makes
      of a queue, its termination, and the types of what it returns.
    - [Adapters.v] (uuid_utils.rs, and telemetry/src/compression.rs): identifiers
      for serde, compression over LZ4.

    tracing: the instrumented side
    - [Levels.v], [LogFilter.v] (levels.rs, logs/events.rs): levels, filters, and
      the atomic word of a description that threads share.
    - [Deps.v], [LogEvents.v], [LogBlock.v], [MetricsBlock.v], [SpanEvents.v],
      [ThreadBlock.v] (logs/, metrics/, spans/): the events, their queues, and
      the extraction of the dependencies of a block.
    - [Time.v], [Stream.v] (process_info.rs, event/): blocks and streams;
      [Clock.v] (time.rs): the counter and its frequency.
    - [Macros.v] (macros.rs, proc-macros/): the descriptions that the macros
      declare, and the functions that they instrument.
    - [Sink.v], [Dispatch.v], [Guards.v] (event/sink.rs, dispatch.rs, guards.rs,
      panic_hook.rs, flush_monitor.rs): the dispatcher as a transformer of a
      [World]; [SinkSpec.v], [StreamSpec.v], [DispatchSpec.v], [DispatchFrame.v],
      [GuardsSpec.v]: its contracts.

    telemetry, telemetry-sink: the way to the server
    - [Wire.v] (telemetry/src, stream_block.rs, stream_info.rs): what is posted.
    - [CompositeSink.v], [HttpSink.v], [HttpSpec.v] (composite_event_sink.rs,
      http_event_sink.rs): the sinks, the channel and its thread.
    - [Interop.v], [Builder.v], [BuilderSpec.v] (log_interop.rs,
      tracing_interop.rs, lib.rs): the crates log and tracing, and the guard that
      a program holds.

    ingestion, analytics: the lake
    - [Sql.v], [Lake.v], [LakeSpec.v] (ingestion/src, blob_storage.rs): the
      schema, its migration, the insertions, and the abstract lake;
      [Migration.v] (remote_data_lake.rs): servers that migrate at once.
    - [Statement.v], [LibQueries.v] (analytics/src/lib.rs, lake_size.rs): an
      abstract syntax of statements with the names that they may use, and the
      queries that no server calls.
    - [Metadata.v] (metadata.rs, lib.rs), [LogEntry.v], [Measure.v],
      [ThreadBlockProcessor.v], [CallTree.v]: what is read of a block.
    - [Arrow.v], [Tables.v], [Query.v] (the tables and query_*.rs): the queries of
      events; [Scan.v], [QuerySpec.v], [RowQueries.v], [SpanQuery.v]: what a loop
      over rows in order finds, and the rows that each query returns;
      [SpanGaps.v]: the blocks of a thread that the query of spans never reads.
    - [SqlBridge.v], [Service.v], [ServiceSpec.v] (sql_arrow_bridge.rs,
      analytics_service.rs, analytics-srv/src/main.rs): the service.
    - [Delivery.v], [DeliverySpec.v] (telemetry-ingestion-srv/src/main.rs): the
      ingestion server, what a process posts to it, and the rows of a stream that
      its lake finds, for any kind of event; [EndToEnd.v], [EndThreads.v]: all of
      it together, for the log and the measures, and for the threads.
    - [Codecs.v], [QueryExamples.v], [RowExamples.v], [EndExamples.v]:
      implementations of the interfaces to libraries, and lakes and processes to
      evaluate the theorems on.

    the older analytics server, whose modules main.rs does not declare
    - [SpanTable.v], [Lakehouse.v], [LakehouseSpec.v] (analytics-srv/src/lakehouse):
      tables of spans that are made when they are asked for.
    - [OldServer.v], [OldServerSpec.v] (analytics-srv/src/metrics.rs,
      analytics_service.rs, log_entry.rs): slices of logs, points of metrics.

    ** Interfaces

    A trait is a class ([InProcSerialize], [HeterogeneousQueue], [EventSink],
    [ThreadBlockProcessor]); what a part promises to another is a class of laws
    that the implementations prove and the clients assume ([LawfulSerialize],
    [EventKind], [LawfulSink]): the theorems of the dispatcher hold for a sink
    that records, for the composite sink and for the one that posts.  A library
    that the source calls is a class of operations with its documented laws
    ([Compression], [Cbor], [Rfc3339], [Arrow], [SqlOrder], [Timestamptz],
    [UuidText], [ObjectPath], [Facade], [Xxh32], [Parquet], [ParquetFile], [Lz4],
    [Dialect]), with an instance in
    [Codecs.v] or next to the class, so that no law is contradictory.

    ** The theorems

    - The pipelines: what is pushed on a queue is read by the analytics, through
      dependencies, encoding and parsing ([LogEntry], [Measure],
      [ThreadBlockProcessor], [CallTree]).
    - The format: the parser ends, unless the metadata has a type that contains
      itself, and when it returns it has read valid strings and values of the
      types of the metadata; on a buffer that is cut short it may read beyond the
      end ([ParserTotal], [ParserTyped], [Transit], [Queue]).
    - The process: the dispatcher gives its sink every event once and in order,
      and the shutdown leaves nothing behind ([DispatchSpec], [GuardsSpec],
      [BuilderSpec]); the sinks log and post what they must ([CompositeSink],
      [HttpSpec]); levels and filters ([Levels], [LogFilter], [Interop]).
    - The lake: it refines an abstract one, the queries find what was sent and
      return exactly the rows asked for ([LakeSpec], [QuerySpec], [RowQueries],
      [SpanQuery], [SqlBridge], [ServiceSpec]); servers that migrate it at once
      leave one schema ([Migration]).  A request that the tables cannot hold (a
      name that is too long, a text with a byte 0) is not stored.
    - The whole path: what a process logs and measures until it ends, and what
      its threads record until they are flushed, is what the queries of its log,
      its metrics, the events and the spans of its threads return, when its sink
      can post everything to a server that answers, once the process is over,
      and the records come in the order of their times ([EndToEnd],
      [EndThreads]).
    - The older server: a slice of a log, a table that is read back
      ([OldServerSpec], [LakehouseSpec]).
    - What goes wrong: defects that were found are theorems about the code as it
      is ([query_spans_gap], [every_second_block_lost], [late_measure_hides],
      [make_call_tree_limit], [lib_queries_fail], [exited_stream_visited], [queue_size_drifts],
      [find_max_match_empty_name], [capture_conflict], [no_second_system],
      [parser_cyclic_type]).

    ** Conventions, bounds and fuel

    An integer is a [Z]; where its width matters it is written out ([wrap_u],
    [wrap_i], [in_u], [in_i]); an arithmetic operation that may overflow is
    checked, as with overflow checks, and panics.  A buffer is shorter than 2^63
    bytes, which the language guarantees.  The loops of the parser have the
    length of the buffer as fuel, since each turn consumes a byte; the recursion
    over nested types has the number of types, since a deeper one meets a type
    twice; the loop of the thread of a sink that is dropped has the number of
    messages.  A fuel that runs out is the outcome [Diverges], which the theorems
    exclude.

    ** Not modelled, and why

    The reading of clocks, the drawing of identifiers and the order of a
    [HashMap] are inputs.  The failures of the database and of the object store,
    the connections to them, the serving of HTTP and the command lines are left
    out: they are calls of libraries.  An operation of the dispatcher runs as a
    whole; the threads of the process are interleaved between operations, and so
    is the thread of the HTTP sink ([HttpSink.v]), which receives, handles a
    message or ticks, and decrements the counter in three steps.  The filters of
    descriptions ([LogFilter.v]) are stepped by single accesses, and the migration
    ([Migration.v]) by transactions.  The entries that the library logs about itself while it works
    are left out, except those of the builder.  What the older server calls in
    packages that the repository does not have is a parameter, and its handlers
    that do nothing else are left out. *)

From Stdlib Require Export Strings.String Strings.Byte.
From stdpp Require Export base gmap strings list numbers.
From coqutil Require Export Byte Word.LittleEndianList.

#[global] Open Scope Z_scope.
#[global] Open Scope list_scope.

(** ** Outcomes of a Rust computation

    [Ok] and [Err] are the two sides of [anyhow::Result]; an error is the
    chain of its messages, outermost context first, each written as the
    format literal the source passes to [bail!] or [with_context].  [Panic]
    is an unwinding panic (a failed [assert!], an [unwrap] of nothing, a slice
    index out of range, an arithmetic overflow under overflow checks).  [Ub] is
    undefined behaviour: an [unsafe] read outside of the memory it may read.
    [Diverges] is a recursion that is deeper than the fuel of its model; the
    theorems that say a function returns rule it out. *)
Inductive exec (A : Type) : Type :=
| Ok (a : A)
| Err (msgs : list string)
| Panic
| Ub
| Diverges.
Arguments Ok {A} a.
Arguments Err {A} msgs.
Arguments Panic {A}.
Arguments Ub {A}.
Arguments Diverges {A}.

#[export] Instance exec_ret : MRet exec := fun A a => Ok a.
#[export] Instance exec_bind : MBind exec := fun A B f m =>
  match m with
  | Ok a => f a
  | Err e => Err e
  | Panic => Panic
  | Ub => Ub
  | Diverges => Diverges
  end.

Definition bail {A} (msg : string) : exec A := Err [msg].

Definition with_context {A} (msg : string) (m : exec A) : exec A :=
  match m with
  | Err e => Err (msg :: e)
  | _ => m
  end.

(** [assert!(b)] *)
Definition assert_true (b : bool) : exec () := if b then Ok () else Panic.

(** [o.unwrap()] *)
Definition unwrap {A} (o : option A) : exec A :=
  match o with
  | Some a => Ok a
  | None => Panic
  end.

(** A [for] loop over a list that threads a state through a fallible body. *)
Fixpoint foldM {A S} (f : S -> A -> exec S) (s : S) (l : list A) : exec S :=
  match l with
  | [] => Ok s
  | x :: l' => s' ← f s x; foldM f s' l'
  end.

(** ** Machine integers: a [w]-bit integer is the [Z] it denotes *)
Definition wrap_u (w z : Z) : Z := z mod 2 ^ w.
Definition wrap_i (w z : Z) : Z := (z + 2 ^ (w - 1)) mod 2 ^ w - 2 ^ (w - 1).

Definition in_u (w z : Z) : Prop := 0 <= z < 2 ^ w.
Definition in_i (w z : Z) : Prop := - 2 ^ (w - 1) <= z < 2 ^ (w - 1).

(** [a + b] and [a - b] on [usize] (64 bits), with overflow checks *)
Definition usize_add (a b : Z) : exec Z :=
  if a + b <? 2 ^ 64 then Ok (a + b) else Panic.
Definition usize_sub (a b : Z) : exec Z :=
  if b <=? a then Ok (a - b) else Panic.

(** ** Byte buffers

    Offsets and lengths are [Z], as [usize] values are; no offset is turned
    into a [nat] before it is known to be in range, so that the definitions
    evaluate on corrupted buffers whose sizes are huge. *)
Abbreviation buffer := (list byte).

Definition blen (b : buffer) : Z := Z.of_nat (length b).

Definition sub_bytes (b : buffer) (off n : Z) : buffer :=
  take (Z.to_nat n) (drop (Z.to_nat off) b).

Definition in_range (b : buffer) (off n : Z) : bool :=
  (0 <=? off) && (0 <=? n) && (off + n <=? blen b).

(** [read_unaligned(b.as_ptr().add(off))] of [n] bytes: undefined behaviour
    outside of the buffer. *)
Definition read_bytes (b : buffer) (off n : Z) : exec buffer :=
  if in_range b off n then Ok (sub_bytes b off n) else Ub.

(** [b[off]] and [&b[from..to]]: a panic outside of the buffer. *)
Definition index_byte (b : buffer) (off : Z) : exec Z :=
  if in_range b off 1
  then Ok (le_combine (sub_bytes b off 1))
  else Panic.
Definition slice_range (b : buffer) (from to : Z) : exec buffer :=
  if (from <=? to) && in_range b from (to - from)
  then Ok (sub_bytes b from (to - from))
  else Panic.

(** The bytes of a string and back: a Rust [String] is a byte sequence. *)
Abbreviation bytes_of := list_byte_of_string.
Abbreviation string_of := string_of_list_byte.
#[global] Arguments list_byte_of_string : simpl never.
#[global] Arguments string_of_list_byte : simpl never.
#[global] Arguments sub_bytes : simpl never.
#[global] Arguments read_bytes : simpl never.
#[global] Arguments blen : simpl never.

(** ** The monad's laws *)
Lemma bind_Ok_iff {A B} (m : exec A) (f : A -> exec B) (b : B) :
  (m ≫= f) = Ok b <-> exists a, m = Ok a /\ f a = Ok b.
Proof.
  split.
  - destruct m; intros H; try discriminate H. eauto.
  - intros (a & -> & H). exact H.
Qed.

Lemma bind_Ok {A B} (a : A) (f : A -> exec B) : (Ok a ≫= f) = f a.
Proof. reflexivity. Qed.

Lemma bind_assoc {A B C} (m : exec A) (f : A -> exec B) (g : B -> exec C) :
  ((m ≫= f) ≫= g) = (m ≫= (fun a => f a ≫= g)).
Proof. destruct m; reflexivity. Qed.

Lemma bind_ret_r {A} (m : exec A) : (m ≫= mret) = m.
Proof. destruct m; reflexivity. Qed.

Lemma with_context_Ok {A} msg (m : exec A) a :
  with_context msg m = Ok a <-> m = Ok a.
Proof. destruct m; split; intros H; try discriminate H; exact H. Qed.

Lemma foldM_app {A S} (f : S -> A -> exec S) (s : S) (l1 l2 : list A) :
  foldM f s (l1 ++ l2) = (s' ← foldM f s l1; foldM f s' l2).
Proof.
  revert s; induction l1 as [|x l1 IH]; intros s; cbn; [done|].
  rewrite bind_assoc. destruct (f s x); cbn; auto.
Qed.

(** Invert every [do]-block hypothesis that is known to return. *)
Ltac exec_inv H :=
  let a := fresh "r" in
  let Ha := fresh "Hr" in
  apply bind_Ok_iff in H as (a & Ha & H).

(** One step of evaluation of a [do]-block whose head is known. *)
Ltac exec_step :=
  match goal with
  | H : ?m = Ok _ |- context [?m ≫= _] => rewrite H; cbn [mbind exec_bind]
  end.

(** Rewrite with the equations that hold of the elements of a concrete list. *)
Ltac rewrite_forall H :=
  repeat (let E := fresh "E" in
    pose proof (Forall_inv H) as E; apply Forall_inv_tail in H; cbv beta in E;
    rewrite ?E; clear E).

(** ** Buffers *)
Lemma blen_nonneg b : 0 <= blen b.
Proof. unfold blen; lia. Qed.

Lemma blen_app a b : blen (a ++ b) = blen a + blen b.
Proof. unfold blen. rewrite length_app. lia. Qed.

Lemma blen_nil : blen [] = 0.
Proof. reflexivity. Qed.

Lemma blen_cons x b : blen (x :: b) = 1 + blen b.
Proof. unfold blen; cbn [length]; lia. Qed.

Lemma blen_le_split n z : blen (le_split n z) = Z.of_nat n.
Proof. unfold blen. by rewrite length_le_split. Qed.

Create HintDb mm discriminated.
Create Rewrite HintDb mm_blen.
#[export] Hint Resolve blen_nonneg : mm.
#[export] Hint Rewrite blen_app blen_nil blen_cons blen_le_split : mm_blen.

(** Arithmetic goals about buffer lengths. *)
Ltac blia :=
  autorewrite with mm_blen in *;
  repeat match goal with
  | |- context [blen ?b] =>
      lazymatch goal with
      | _ : 0 <= blen b |- _ => fail
      | _ => pose proof (blen_nonneg b)
      end
  | H : context [blen ?b] |- _ =>
      lazymatch goal with
      | _ : 0 <= blen b |- _ => fail
      | _ => pose proof (blen_nonneg b)
      end
  end;
  lia.

Lemma in_range_true b off n :
  in_range b off n = true <-> 0 <= off /\ 0 <= n /\ off + n <= blen b.
Proof. unfold in_range. rewrite !andb_true_iff, !Z.leb_le. tauto. Qed.

Lemma sub_bytes_app p x s off n :
  0 <= off -> 0 <= n -> off + n <= blen x ->
  sub_bytes (p ++ x ++ s) (blen p + off) n = sub_bytes x off n.
Proof.
  intros Ho Hn Hle. unfold sub_bytes, blen in *.
  replace (Z.to_nat (Z.of_nat (length p) + off))
    with (length p + Z.to_nat off)%nat by lia.
  rewrite <- drop_drop, drop_app_length.
  rewrite (drop_app_le x s) by lia.
  apply take_app_le. rewrite length_drop. lia.
Qed.

Lemma sub_bytes_all x : sub_bytes x 0 (blen x) = x.
Proof.
  unfold sub_bytes, blen. cbn [Z.to_nat drop]. rewrite Nat2Z.id.
  apply firstn_all.
Qed.

Lemma read_bytes_app p x s off n :
  0 <= off -> 0 <= n -> off + n <= blen x ->
  read_bytes (p ++ x ++ s) (blen p + off) n = read_bytes x off n.
Proof.
  intros Ho Hn Hle. unfold read_bytes.
  rewrite sub_bytes_app by assumption.
  rewrite (proj2 (in_range_true _ _ _)) by blia.
  rewrite (proj2 (in_range_true _ _ _)) by blia.
  reflexivity.
Qed.

Lemma read_bytes_all x n : n = blen x -> read_bytes x 0 n = Ok x.
Proof.
  intros ->. unfold read_bytes.
  rewrite (proj2 (in_range_true _ _ _)) by blia.
  by rewrite sub_bytes_all.
Qed.

Lemma read_bytes_here p x s n :
  n = blen x -> read_bytes (p ++ x ++ s) (blen p) n = Ok x.
Proof.
  intros ->. rewrite <- (Z.add_0_r (blen p)) at 1.
  rewrite read_bytes_app by blia. by apply read_bytes_all.
Qed.

Lemma read_bytes_Ok b off n bs :
  read_bytes b off n = Ok bs ->
  0 <= off /\ 0 <= n /\ off + n <= blen b /\ bs = sub_bytes b off n.
Proof.
  unfold read_bytes. destruct (in_range b off n) eqn:E; intros H; [|discriminate H].
  apply in_range_true in E. injection H as <-. tauto.
Qed.

Lemma index_byte_here p x s :
  index_byte (p ++ [x] ++ s) (blen p) = Ok (byte.unsigned x).
Proof.
  unfold index_byte. rewrite (proj2 (in_range_true _ _ _)) by blia.
  rewrite <- (Z.add_0_r (blen p)) at 1.
  rewrite sub_bytes_app by blia. by rewrite <- le_combine_1.
Qed.

Lemma slice_range_here p x s to :
  to = blen p + blen x -> slice_range (p ++ x ++ s) (blen p) to = Ok x.
Proof.
  intros ->. unfold slice_range.
  replace (blen p + blen x - blen p) with (blen x) by lia.
  rewrite (proj2 (in_range_true _ _ _)) by blia.
  rewrite (proj2 (Z.leb_le _ _)) by blia. cbn [andb].
  f_equal. rewrite <- (Z.add_0_r (blen p)) at 1.
  rewrite sub_bytes_app by blia. apply sub_bytes_all.
Qed.

(** ** Integers *)
Lemma usize_add_Ok a b : a + b < 2 ^ 64 -> usize_add a b = Ok (a + b).
Proof. intros H. unfold usize_add. by rewrite (proj2 (Z.ltb_lt _ _) H). Qed.

Lemma usize_sub_Ok a b : b <= a -> usize_sub a b = Ok (a - b).
Proof. intros H. unfold usize_sub. by rewrite (proj2 (Z.leb_le _ _) H). Qed.

Lemma wrap_u_id w z : in_u w z -> wrap_u w z = z.
Proof. apply Z.mod_small. Qed.

Lemma wrap_i_id w z : 0 < w -> in_i w z -> wrap_i w z = z.
Proof.
  intros Hw H. unfold wrap_i, in_i in *.
  assert (2 ^ w = 2 * 2 ^ (w - 1)) as E.
  { rewrite <- Z.pow_succ_r by lia. f_equal. lia. }
  rewrite Z.mod_small by lia. lia.
Qed.

Lemma wrap_i_range w z : 0 < w -> in_i w (wrap_i w z).
Proof.
  intros Hw. unfold wrap_i, in_i.
  assert (2 ^ w = 2 * 2 ^ (w - 1)) as E.
  { rewrite <- Z.pow_succ_r by lia. f_equal. lia. }
  pose proof (Z.mod_pos_bound (z + 2 ^ (w - 1)) (2 ^ w)). lia.
Qed.

(** A [w]-bit signed integer is the signed reading of its two's complement. *)
Lemma wrap_i_wrap_u w z : 0 < w -> in_i w z -> wrap_i w (wrap_u w z) = z.
Proof.
  intros Hw H. rewrite <- (wrap_i_id w z Hw H) at 2.
  unfold wrap_i, wrap_u. f_equal. apply Zplus_mod_idemp_l.
Qed.

Lemma le_combine_split_u (n : nat) z :
  in_u (8 * Z.of_nat n) z -> le_combine (le_split n z) = z.
Proof.
  intros H. rewrite le_combine_split. rewrite Z.mul_comm. by apply Z.mod_small.
Qed.

Lemma le_combine_split_i (n : nat) z :
  (0 < n)%nat -> in_i (8 * Z.of_nat n) z ->
  wrap_i (8 * Z.of_nat n) (le_combine (le_split n z)) = z.
Proof.
  intros Hn H. rewrite le_combine_split, (Z.mul_comm (Z.of_nat n)).
  change (_ mod _) with (wrap_u (8 * Z.of_nat n) z).
  apply wrap_i_wrap_u; [lia|done].
Qed.

Lemma le_combine_in_u bs w :
  w = 8 * blen bs -> in_u w (le_combine bs).
Proof. intros ->. apply le_combine_bound. Qed.
