(* ===== verification/RustString.v ===== *)
(** * Strings of the Rust standard library

    What the source uses of [std::string::String]: UTF-8 validation
    ([String::from_utf8]), lossy decoding of UTF-8 and UTF-16
    ([from_utf8_lossy], [from_utf16_lossy]).  A [String] is the Rocq [string]
    of its bytes.  Both decoders split the input in chunks the way
    [Utf8Chunks] does: a well-formed character, or the maximal prefix of one
    that is replaced by U+FFFD. *)

From S2P Require Import Prelude.

Definition byte_in (lo hi : Z) (b : byte) : bool :=
  (lo <=? byte.unsigned b) && (byte.unsigned b <=? hi).

(** A continuation byte *)
Definition cont (b : byte) : bool := byte_in 0x80 0xBF b.

(** The second byte of a three (four) byte sequence, given the first: no
    overlong encoding, no surrogate, nothing above U+10FFFF. *)
Definition second3 (b0 : byte) : byte -> bool :=
  if byte_in 0xE0 0xE0 b0 then byte_in 0xA0 0xBF
  else if byte_in 0xED 0xED b0 then byte_in 0x80 0x9F
  else cont.
Definition second4 (b0 : byte) : byte -> bool :=
  if byte_in 0xF0 0xF0 b0 then byte_in 0x90 0xBF
  else if byte_in 0xF4 0xF4 b0 then byte_in 0x80 0x8F
  else cont.

(** What stands at the head of a byte sequence: a character of [n] bytes or
    [n] bytes that start no character. *)
Inductive utf8_step := Char (n : nat) | Bad (n : nat).

(** [tail ok k bs]: the bytes after the first one, the second of which must
    satisfy [ok] and the others be continuation bytes, [k] of them in all;
    [seen] bytes are read already. *)
Fixpoint utf8_tail (ok : byte -> bool) (k seen : nat) (bs : list byte) : utf8_step :=
  match k with
  | O => Char seen
  | S k' =>
      match bs with
      | b :: bs' => if ok b then utf8_tail cont k' (S seen) bs' else Bad seen
      | [] => Bad seen
      end
  end.

Definition utf8_head (bs : list byte) : utf8_step :=
  match bs with
  | [] => Bad 0
  | b0 :: r =>
      if byte_in 0x00 0x7F b0 then Char 1
      else if byte_in 0xC2 0xDF b0 then utf8_tail cont 1 1 r
      else if byte_in 0xE0 0xEF b0 then utf8_tail (second3 b0) 2 1 r
      else if byte_in 0xF0 0xF4 b0 then utf8_tail (second4 b0) 3 1 r
      else Bad 1
  end.

(** The chunks of a byte sequence; [true] marks a character. *)
Fixpoint utf8_chunks_go (fuel : nat) (bs : list byte) : list (bool * list byte) :=
  match fuel, bs with
  | S fuel', _ :: _ =>
      match utf8_head bs with
      | Char n => (true, take n bs) :: utf8_chunks_go fuel' (drop n bs)
      | Bad n => (false, take n bs) :: utf8_chunks_go fuel' (drop n bs)
      end
  | _, _ => []
  end.
Definition utf8_chunks (bs : list byte) : list (bool * list byte) :=
  utf8_chunks_go (length bs) bs.

Definition utf8_valid (bs : list byte) : bool := forallb fst (utf8_chunks bs).

(** U+FFFD, the replacement character *)
Definition replacement : list byte := [xef; xbf; xbd].

(** [String::from_utf8] *)
Definition from_utf8 (bs : list byte) : option string :=
  if utf8_valid bs then Some (string_of bs) else None.

(** [String::from_utf8_lossy] *)
Definition lossy_chunk (c : bool * list byte) : list byte :=
  if c.1 then c.2 else replacement.
Definition from_utf8_lossy (bs : list byte) : string :=
  string_of (concat (map lossy_chunk (utf8_chunks bs))).

(** The UTF-8 encoding of a [char] *)
Definition encode_char (c : Z) : list byte :=
  if c <? 0x80 then [byte.of_Z c]
  else if c <? 0x800 then [byte.of_Z (0xC0 + c / 64); byte.of_Z (0x80 + c mod 64)]
  else if c <? 0x10000 then
    [byte.of_Z (0xE0 + c / 4096); byte.of_Z (0x80 + c / 64 mod 64);
     byte.of_Z (0x80 + c mod 64)]
  else
    [byte.of_Z (0xF0 + c / 262144); byte.of_Z (0x80 + c / 4096 mod 64);
     byte.of_Z (0x80 + c / 64 mod 64); byte.of_Z (0x80 + c mod 64)].

(** [char::decode_utf16]: an unpaired surrogate is an error ([None]). *)
Fixpoint decode_utf16 (us : list Z) : list (option Z) :=
  match us with
  | [] => []
  | u :: r =>
      if (u <? 0xD800) || (0xDFFF <? u) then Some u :: decode_utf16 r
      else if 0xDC00 <=? u then None :: decode_utf16 r
      else
        match r with
        | [] => [None]
        | u2 :: r2 =>
            if (u2 <? 0xDC00) || (0xDFFF <? u2) then None :: decode_utf16 r
            else Some (0x10000 + (u - 0xD800) * 1024 + (u2 - 0xDC00))
                 :: decode_utf16 r2
        end
  end.

(** [String::from_utf16_lossy] *)
Definition from_utf16_lossy (us : list Z) : string :=
  string_of
    (concat (map (fun o => match o with Some c => encode_char c | None => replacement end)
               (decode_utf16 us))).

(** ** Characters *)

(** A Unicode scalar value *)
Definition scalar (c : Z) : Prop :=
  0 <= c < 0xD800 \/ 0xE000 <= c <= 0x10FFFF.

Definition wf_char (c : list byte) : Prop :=
  c <> [] /\ utf8_head c = Char (length c).

Lemma utf8_tail_char ok k seen bs n :
  utf8_tail ok k seen bs = Char n -> n = (seen + k)%nat /\ (k <= length bs)%nat.
Proof.
  revert ok seen bs; induction k as [|k IH]; intros ok seen bs; cbn.
  - intros [= <-]. lia.
  - destruct bs as [|b bs]; [discriminate|].
    destruct (ok b); [|discriminate]. intros H%IH. cbn. lia.
Qed.

Lemma utf8_tail_bad ok k seen bs n :
  utf8_tail ok k seen bs = Bad n -> (seen <= n)%nat.
Proof.
  revert ok seen bs; induction k as [|k IH]; intros ok seen bs; cbn; [discriminate|].
  destruct bs as [|b bs]; [intros [= <-]; lia|].
  destruct (ok b); [intros H%IH; lia | intros [= <-]; lia].
Qed.

Lemma utf8_tail_take ok k seen bs r :
  utf8_tail ok k seen bs = Char (seen + k) ->
  utf8_tail ok k seen (take k bs ++ r) = Char (seen + k).
Proof.
  revert ok seen bs; induction k as [|k IH]; intros ok seen bs; cbn; [done|].
  destruct bs as [|b bs]; [discriminate|]. cbn.
  destruct (ok b); [|discriminate].
  rewrite <- Nat.add_succ_comm. apply IH.
Qed.

(** The step is at least one byte and a character fits in the input. *)
Lemma utf8_head_char bs n :
  utf8_head bs = Char n -> (1 <= n <= length bs)%nat.
Proof.
  destruct bs as [|b bs]; cbn [utf8_head]; [discriminate|].
  intros Hn; repeat case_match; try discriminate Hn;
    try (apply utf8_tail_char in Hn); try (injection Hn as <-); cbn; lia.
Qed.

Lemma utf8_head_bad b bs n : utf8_head (b :: bs) = Bad n -> (1 <= n)%nat.
Proof.
  cbn [utf8_head].
  intros Hn; repeat case_match; try discriminate Hn;
    try (apply utf8_tail_bad in Hn); try (injection Hn as <-); lia.
Qed.

(** A character is recognised whatever follows it. *)
Lemma utf8_head_take bs n r :
  utf8_head bs = Char n -> utf8_head (take n bs ++ r) = Char n.
Proof.
  destruct bs as [|b bs]; cbn [utf8_head]; [discriminate|].
  intros Hn; repeat case_match; try discriminate Hn.
  1: injection Hn as <-; cbn [take app utf8_head]; by case_match.
  all: pose proof (utf8_tail_char _ _ _ _ _ Hn) as [-> _];
    apply (utf8_tail_take _ _ _ _ r) in Hn;
    cbn [Nat.add take app utf8_head] in *;
    repeat case_match; congruence.
Qed.

Lemma wf_char_take bs n : utf8_head bs = Char n -> wf_char (take n bs).
Proof.
  intros H. pose proof (utf8_head_char _ _ H) as Hn.
  pose proof (utf8_head_take _ _ [] H) as Ht. rewrite app_nil_r in Ht.
  split.
  - destruct bs; cbn in *; [lia|]. destruct n; [lia|discriminate].
  - rewrite Ht. f_equal. rewrite length_take. lia.
Qed.

Lemma utf8_head_app c r : wf_char c -> utf8_head (c ++ r) = Char (length c).
Proof.
  intros [_ H]. pose proof (utf8_head_take _ _ r H) as Ht.
  by rewrite firstn_all in Ht.
Qed.

Lemma wf_replacement : wf_char replacement.
Proof. split; [discriminate | reflexivity]. Qed.

(** ** Chunks *)
Lemma utf8_chunks_fuel f bs :
  (length bs <= f)%nat -> utf8_chunks_go f bs = utf8_chunks bs.
Proof.
  unfold utf8_chunks. revert bs; induction f as [f IH] using lt_wf_ind.
  intros [|b bs] Hf; [by destruct f|].
  destruct f as [|f]; [cbn in Hf; lia|]. cbn [length utf8_chunks_go].
  destruct (utf8_head (b :: bs)) as [n|n] eqn:E; f_equal.
  all: assert (1 <= n)%nat by (apply utf8_head_char in E || apply utf8_head_bad in E; lia).
  all: assert (length (drop n (b :: bs)) <= length bs)%nat
    by (rewrite length_drop; cbn; lia).
  all: rewrite (IH f), (IH (length bs)) by (cbn in *; lia); reflexivity.
Qed.

Lemma utf8_chunks_cons b bs :
  utf8_chunks (b :: bs) =
  match utf8_head (b :: bs) with
  | Char n => (true, take n (b :: bs)) :: utf8_chunks (drop n (b :: bs))
  | Bad n => (false, take n (b :: bs)) :: utf8_chunks (drop n (b :: bs))
  end.
Proof.
  unfold utf8_chunks at 1. cbn [length utf8_chunks_go].
  destruct (utf8_head (b :: bs)) as [n|n] eqn:E; f_equal; apply utf8_chunks_fuel;
    rewrite length_drop; cbn;
    [apply utf8_head_char in E | apply utf8_head_bad in E]; lia.
Qed.

Lemma utf8_chunks_app c r :
  wf_char c -> utf8_chunks (c ++ r) = (true, c) :: utf8_chunks r.
Proof.
  intros H. pose proof (utf8_head_app _ r H) as E.
  destruct c as [|b c]; [by destruct H|]. cbn [app] in *.
  rewrite utf8_chunks_cons, E.
  change (b :: c ++ r) with ((b :: c) ++ r).
  by rewrite take_app_length, drop_app_length.
Qed.

Lemma utf8_chunks_concat cs :
  Forall wf_char cs -> utf8_chunks (concat cs) = map (pair true) cs.
Proof.
  induction 1 as [|c cs Hc _ IH]; [reflexivity|].
  cbn [concat map]. by rewrite utf8_chunks_app, IH.
Qed.

Lemma utf8_valid_concat cs : Forall wf_char cs -> utf8_valid (concat cs) = true.
Proof.
  intros H. unfold utf8_valid. rewrite utf8_chunks_concat by done.
  by induction H.
Qed.

Lemma utf8_chunks_spec bs :
  concat (map snd (utf8_chunks bs)) = bs /\
  Forall (fun c => c.1 = true -> wf_char c.2) (utf8_chunks bs).
Proof.
  induction bs as [bs IH] using (induction_ltof1 _ (@length byte)).
  destruct bs as [|b bs]; [by split; [|constructor]|].
  rewrite utf8_chunks_cons.
  destruct (utf8_head (b :: bs)) as [n|n] eqn:E.
  all: assert (1 <= n)%nat by (apply utf8_head_char in E || apply utf8_head_bad in E; lia).
  all: destruct (IH (drop n (b :: bs))) as [IH1 IH2];
    [unfold ltof; rewrite length_drop; cbn; lia|].
  all: cbn [map concat fst snd]; rewrite IH1, take_drop; split; [done|].
  all: constructor; [cbn; intros Hb; try discriminate Hb; by apply wf_char_take | done].
Qed.

(** ** Valid strings *)

(** A [String] is well formed when its bytes are valid UTF-8. *)
Definition valid_string (s : string) : Prop := utf8_valid (bytes_of s) = true.

Lemma from_utf8_bytes s : valid_string s -> from_utf8 (bytes_of s) = Some s.
Proof.
  unfold valid_string, from_utf8. intros ->. by rewrite string_of_list_byte_of_string.
Qed.

Lemma from_utf8_valid bs s : from_utf8 bs = Some s -> valid_string s.
Proof.
  unfold from_utf8, valid_string. destruct (utf8_valid bs) eqn:E; [|discriminate].
  intros [= <-]. by rewrite list_byte_of_string_of_list_byte.
Qed.

Lemma from_utf8_lossy_valid bs : valid_string (from_utf8_lossy bs).
Proof.
  unfold valid_string, from_utf8_lossy. rewrite list_byte_of_string_of_list_byte.
  apply utf8_valid_concat, Forall_map.
  destruct (utf8_chunks_spec bs) as [_ H].
  eapply Forall_impl; [|exact H]. intros [[] c]; cbn; intros Hc.
  - by apply Hc.
  - apply wf_replacement.
Qed.

Lemma from_utf8_lossy_id s : valid_string s -> from_utf8_lossy (bytes_of s) = s.
Proof.
  unfold valid_string, utf8_valid, from_utf8_lossy. intros H.
  rewrite <- (string_of_list_byte_of_string s) at 2. f_equal.
  rewrite <- (proj1 (utf8_chunks_spec (bytes_of s))) at 2. f_equal.
  apply map_ext_in. intros [b c] Hin.
  rewrite forallb_forall in H. specialize (H _ Hin). cbn in H. by subst b.
Qed.

#[local] Ltac Zify.zify_post_hook ::= Z.to_euclidean_division_equations.

Lemma byte_in_of_Z lo hi z :
  0 <= z < 256 -> byte_in lo hi (byte.of_Z z) = (lo <=? z) && (z <=? hi).
Proof.
  intros H. unfold byte_in. rewrite byte.unsigned_of_Z. unfold byte.wrap.
  by rewrite Z.mod_small.
Qed.

Lemma wf_encode_char c : scalar c -> wf_char (encode_char c).
Proof.
  intros H. unfold scalar in H. unfold encode_char, wf_char.
  repeat case_match;
    repeat match goal with
    | E : (_ <? _) = true |- _ => apply Z.ltb_lt in E
    | E : (_ <? _) = false |- _ => apply Z.ltb_ge in E
    end;
    (split; [discriminate|]);
    unfold utf8_head, utf8_tail, second3, second4, cont; cbn [length];
    rewrite ?byte_in_of_Z by lia.
  all: repeat match goal with
    | |- context [if ?b then _ else _] =>
        lazymatch b with
        | context [if _ then _ else _] => fail
        | _ => destruct b eqn:?; cbv beta; rewrite ?byte_in_of_Z by lia
        end
    end; try reflexivity; exfalso; lia.
Qed.

Lemma decode_utf16_scalar us :
  Forall (in_u 16) us ->
  Forall (fun o => match o with Some c => scalar c | None => True end) (decode_utf16 us).
Proof.
  induction us as [us IH] using (induction_ltof1 _ (@length Z)).
  destruct us as [|u r]; cbn [decode_utf16]; intros H; [constructor|].
  inversion_clear H as [|? ? Hu Hr]. unfold in_u in Hu.
  assert (forall r', (length r' <= length r)%nat -> Forall (in_u 16) r' ->
    Forall (fun o => match o with Some c => scalar c | None => True end) (decode_utf16 r'))
    as IH' by (intros; apply IH; [unfold ltof; cbn; lia|done]).
  destruct ((u <? 0xD800) || (0xDFFF <? u)) eqn:E1.
  { constructor; [|by apply IH']. apply orb_true_iff in E1. unfold scalar. lia. }
  apply orb_false_iff in E1 as [E1 E2].
  destruct (0xDC00 <=? u) eqn:E3; [constructor; [done|by apply IH']|].
  destruct r as [|u2 r2]; [by repeat constructor|].
  destruct ((u2 <? 0xDC00) || (0xDFFF <? u2)) eqn:E4.
  { constructor; [done|]. by apply IH'. }
  apply orb_false_iff in E4 as [E4 E5]. constructor.
  - unfold scalar. right. lia.
  - inversion_clear Hr. apply IH'; [cbn; lia|done].
Qed.

Lemma from_utf16_lossy_valid us :
  Forall (in_u 16) us -> valid_string (from_utf16_lossy us).
Proof.
  intros H%decode_utf16_scalar. unfold valid_string, from_utf16_lossy.
  rewrite list_byte_of_string_of_list_byte. apply utf8_valid_concat, Forall_map.
  eapply Forall_impl; [|exact H]. intros [c|]; cbn; intros Hc.
  - by apply wf_encode_char.
  - apply wf_replacement.
Qed.

#[export] Hint Resolve from_utf8_lossy_valid from_utf16_lossy_valid : mm.
