(* ===== verification/Float.v ===== *)
(** * IEEE 754 double precision

    [f64] is the Standard Library's executable specification of binary
    floating point at precision 53 and maximal exponent 1024.  This file adds
    the conversions the source uses: to and from the 64-bit pattern that is
    stored in memory, from integers ([as f64]), [round] and the saturating
    [as i64]. *)

From S2P Require Import Prelude.
From Stdlib Require Import Floats.SpecFloat.

Abbreviation f64 := spec_float.

Definition f64_mul (x y : f64) : f64 := SFmul 53 1024 x y.
Definition f64_div (x y : f64) : f64 := SFdiv 53 1024 x y.
Definition f64_add (x y : f64) : f64 := SFadd 53 1024 x y.

(** [z as f64]: the nearest double, ties to even *)
Definition f64_of_Z (z : Z) : f64 := binary_normalize 53 1024 z 0 false.

(** [f64::from_bits], with one NaN for all the patterns of NaN *)
Definition f64_of_bits (b : Z) : f64 :=
  let s := Z.testbit b 63 in
  let e := b / 2 ^ 52 mod 2 ^ 11 in
  let m := b mod 2 ^ 52 in
  if e =? 0 then
    match m with
    | Zpos p => S754_finite s p (-1074)
    | _ => S754_zero s
    end
  else if e =? 2047 then
    if m =? 0 then S754_infinity s else S754_nan
  else
    match m + 2 ^ 52 with
    | Zpos p => S754_finite s p (e - 1075)
    | _ => S754_nan
    end.

(** [f64::to_bits], with the quiet NaN for a NaN *)
Definition f64_to_bits (x : f64) : Z :=
  match x with
  | S754_zero s => Z.b2z s * 2 ^ 63
  | S754_infinity s => Z.b2z s * 2 ^ 63 + 2047 * 2 ^ 52
  | S754_nan => 2047 * 2 ^ 52 + 2 ^ 51
  | S754_finite s p e =>
      if Zpos p <? 2 ^ 52 then Z.b2z s * 2 ^ 63 + Zpos p
      else Z.b2z s * 2 ^ 63 + (e + 1075) * 2 ^ 52 + (Zpos p - 2 ^ 52)
  end.

(** [x.round()]: the nearest integer, ties away from zero.  A double with a
    non-negative exponent is an integer. *)
Definition round_magnitude (p : positive) (e : Z) : Z :=
  if 0 <=? e then Zpos p * 2 ^ e
  else (Zpos p + 2 ^ (- e - 1)) / 2 ^ (- e).

(** [x.round() as i64]: the cast saturates, and is 0 on NaN. *)
Definition i64_saturate (z : Z) : Z :=
  Z.max (- 2 ^ 63) (Z.min (2 ^ 63 - 1) z).
Definition f64_round_to_i64 (x : f64) : Z :=
  match x with
  | S754_zero _ => 0
  | S754_nan => 0
  | S754_infinity s => if s then - 2 ^ 63 else 2 ^ 63 - 1
  | S754_finite s p e =>
      i64_saturate (if s then - round_magnitude p e else round_magnitude p e)
  end.

(** A double in canonical form *)
Definition f64_ok (x : f64) : bool := valid_binary 53 1024 x.

Lemma digits2_pos_bounds p :
  2 ^ (Zpos (digits2_pos p) - 1) <= Zpos p < 2 ^ Zpos (digits2_pos p).
Proof.
  change (digits2_pos p) with (Pos.size p).
  pose proof (Pos.size_gt p) as H1. pose proof (Pos.size_le p) as H2.
  apply Pos2Z.pos_lt_pos in H1. apply Pos2Z.pos_le_pos in H2.
  rewrite Pos2Z.inj_pow in H1, H2.
  change (Zpos p~0) with (2 * Zpos p) in H2.
  assert (2 ^ Zpos (Pos.size p) = 2 * 2 ^ (Zpos (Pos.size p) - 1)) as E.
  { rewrite <- Z.pow_succ_r by lia. f_equal. lia. }
  lia.
Qed.

Lemma f64_ok_finite s p e :
  f64_ok (S754_finite s p e) = true ->
  (Zpos p < 2 ^ 52 /\ e = -1074) \/
  (2 ^ 52 <= Zpos p < 2 ^ 53 /\ -1074 <= e <= 971).
Proof.
  cbn [f64_ok valid_binary]. unfold bounded, canonical_mantissa, fexp, SpecFloat.emin.
  intros [H1%Z.eqb_eq H2%Z.leb_le]%andb_true_iff.
  pose proof (digits2_pos_bounds p) as H.
  set (d := Zpos (digits2_pos p)) in *.
  destruct (Z_lt_le_dec d 53) as [Hd|Hd].
  - assert (e = -1074) as -> by lia.
    left. split; [|lia].
    assert (2 ^ d <= 2 ^ 52) by (apply Z.pow_le_mono_r; lia). lia.
  - assert (d = 53) as E by lia. rewrite E in H.
    change (2 ^ (53 - 1)) with (2 ^ 52) in H. right. lia.
Qed.

Lemma f64_bits_fields s e m :
  0 <= e < 2 ^ 11 -> 0 <= m < 2 ^ 52 ->
  let b := Z.b2z s * 2 ^ 63 + e * 2 ^ 52 + m in
  Z.testbit b 63 = s /\ b / 2 ^ 52 mod 2 ^ 11 = e /\ b mod 2 ^ 52 = m.
Proof.
  intros He Hm b. unfold b.
  assert (Z.b2z s * 2 ^ 63 + e * 2 ^ 52 + m = (Z.b2z s * 2 ^ 11 + e) * 2 ^ 52 + m)
    as E by (change (2 ^ 63) with (2 ^ 11 * 2 ^ 52); lia).
  repeat split.
  - apply Z.b2z_inj. rewrite Z.testbit_spec' by lia.
    replace (Z.b2z s * 2 ^ 63 + e * 2 ^ 52 + m)
      with (Z.b2z s * 2 ^ 63 + (e * 2 ^ 52 + m)) by lia.
    rewrite Z.div_add_l by lia. rewrite (Z.div_small (e * 2 ^ 52 + m)) by lia.
    rewrite Z.add_0_r. destruct s; reflexivity.
  - rewrite E, Z.div_add_l by lia. rewrite (Z.div_small m) by lia.
    rewrite Z.add_0_r, Z.add_comm, Z.mod_add by lia. by apply Z.mod_small.
  - rewrite E, Z.add_comm, Z.mod_add by lia. by apply Z.mod_small.
Qed.

(** A double survives its trip through memory. *)
Lemma f64_of_to_bits x : f64_ok x = true -> f64_of_bits (f64_to_bits x) = x.
Proof.
  intros H. destruct x as [s|s| |s p e].
  - destruct s; reflexivity.
  - destruct s; reflexivity.
  - reflexivity.
  - apply f64_ok_finite in H. unfold f64_to_bits.
    destruct (Z.ltb_spec (Zpos p) (2 ^ 52)) as [Hp|Hp].
    + destruct H as [[_ ->]|]; [|lia].
      destruct (f64_bits_fields s 0 (Zpos p)) as (Hs & He & Hm); [lia..|].
      rewrite Z.mul_0_l, Z.add_0_r in *. unfold f64_of_bits.
      by rewrite Hs, He, Hm.
    + destruct H as [|[H1 H2]]; [lia|].
      destruct (f64_bits_fields s (e + 1075) (Zpos p - 2 ^ 52)) as (Hs & He & Hm); [lia..|].
      unfold f64_of_bits. rewrite Hs, He, Hm.
      rewrite (proj2 (Z.eqb_neq _ _)) by lia.
      rewrite (proj2 (Z.eqb_neq _ _)) by lia.
      replace (Zpos p - 2 ^ 52 + 2 ^ 52) with (Zpos p) by lia.
      f_equal. lia.
Qed.

Lemma f64_to_bits_range x : f64_ok x = true -> in_u 64 (f64_to_bits x).
Proof.
  intros H. unfold in_u. destruct x as [s|s| |s p e]; try (destruct s; cbn; lia).
  - cbn; lia.
  - apply f64_ok_finite in H. unfold f64_to_bits.
    destruct (Z.ltb_spec (Zpos p) (2 ^ 52)); destruct s; cbn [Z.b2z]; lia.
Qed.
