(* ===== verification/Transit.v ===== *)
(** * The transit library: reflection, values and serialization

    Models [transit/src/reflect.rs], the value types of
    [transit/src/parser.rs], [serialize.rs], [dyn_string.rs],
    [static_string.rs] and [parse_string.rs].  A pointer is the [Z] of its
    address; the static memory that [StaticString] copies from is a finite map
    from addresses to bytes.  The trait [InProcSerialize] is a class, and
    [LawfulSerialize] is the contract between the types that implement it and
    the queues that store them. *)

From S2P Require Import Prelude RustString Float.

(** ** reflect.rs *)
Record Member := mkMember {
  m_name : string;
  m_type_name : string;
  m_offset : Z;
  m_size : Z;
  m_is_reference : bool
}.

#[warnings="-register-all"]
Inductive UserDefinedType := mkUDT {
  udt_name : string;
  udt_size : Z;
  udt_members : list Member;
  udt_is_reference : bool;
  udt_secondary_udts : list UserDefinedType
}.

(** The trait [Reflect] *)
Class Reflect (T : Type) := reflect : UserDefinedType.
Arguments reflect T {_}.

(** ** parser.rs: values *)
#[warnings="-register-all"]
Inductive Value :=
| String_ (s : string)
| Object_ (o : Object)
| U8 (v : Z)
| U32 (v : Z)
| U64 (v : Z)
| I64 (v : Z)
| F64 (v : f64)
| None_
with Object := mkObject (type_name : string) (members : list (string * Value)).

Definition type_name (o : Object) : string := let 'mkObject n _ := o in n.
Definition members (o : Object) : list (string * Value) := let 'mkObject _ ms := o in ms.

(** The first member of that name: the loop of [Object::get] *)
Fixpoint find_member (name : string) (ms : list (string * Value)) : option Value :=
  match ms with
  | [] => None
  | (n, v) :: ms' => if String.eqb n name then Some v else find_member name ms'
  end.

(** [Object::get], for the [TransitValue::get] of the type read *)
Definition get {T} (transit_get : Value -> exec T) (o : Object) (name : string) : exec T :=
  match find_member name (members o) with
  | Some v => transit_get v
  | None => bail "member {} not found in {:?}"
  end.

Definition get_ref (o : Object) (name : string) : exec Value :=
  match find_member name (members o) with
  | Some v => Ok v
  | None => bail "member {} not found"
  end.

Definition get_u8 (v : Value) : exec Z :=
  match v with U8 x => Ok x | _ => bail "bad type cast u8 for value {:?}" end.
Definition get_u32 (v : Value) : exec Z :=
  match v with
  | U32 x => Ok x
  | U8 x => Ok x
  | _ => bail "bad type cast u32 for value {:?}"
  end.
Definition get_u64 (v : Value) : exec Z :=
  match v with
  | I64 x => Ok (wrap_u 64 x)
  | U64 x => Ok x
  | _ => bail "bad type cast u64 for value {:?}"
  end.
Definition get_i64 (v : Value) : exec Z :=
  match v with
  | I64 x => Ok x
  | U64 x => Ok (wrap_i 64 x)
  | _ => bail "bad type cast i64 for value {:?}"
  end.
Definition get_f64 (v : Value) : exec f64 :=
  match v with F64 x => Ok x | _ => bail "bad type cast f64 for value {:?}" end.
Definition get_string (v : Value) : exec string :=
  match v with String_ s => Ok s | _ => bail "bad type cast String for value {:?}" end.
Definition get_object (v : Value) : exec Object :=
  match v with Object_ o => Ok o | _ => bail "bad type cast String for value {:?}" end.

Definition as_str (v : Value) : option string :=
  match v with String_ s => Some s | _ => None end.

(** ** serialize.rs

    [write_any] appends the bytes of a value, least significant first;
    [read_any] reads them back.  Both are used at integer types, at [f64] and
    at the plain structures of the tracing library. *)
Definition write_any (n : nat) (v : Z) (b : buffer) : buffer := b ++ le_split n v.

Definition read_any_u (n : nat) (b : buffer) (ptr : Z) : exec Z :=
  bs ← read_bytes b ptr (Z.of_nat n); Ok (le_combine bs).
Definition read_any_i (n : nat) (b : buffer) (ptr : Z) : exec Z :=
  v ← read_any_u n b ptr; Ok (wrap_i (8 * Z.of_nat n) v).
Definition read_any_f64 (b : buffer) (ptr : Z) : exec f64 :=
  v ← read_any_u 8 b ptr; Ok (f64_of_bits v).

Inductive InProcSize := Const (size : Z) | Dynamic.

(** Static memory, from addresses to bytes *)
Abbreviation rodata := (gmap Z byte).

(** [slice::from_raw_parts(ptr, len)], copied *)
Definition read_mem (mem : rodata) (ptr len : Z) : exec buffer :=
  match mapM (fun a => mem !! a) (seqZ ptr len) with
  | Some bs => Ok bs
  | None => Ub
  end.

Class InProcSerialize (T : Type) := {
  IN_PROC_SIZE : InProcSize;
  get_value_size : T -> option Z;
  write_value : rodata -> T -> buffer -> exec buffer;
  read_value : buffer -> Z -> option Z -> exec T
}.
Arguments IN_PROC_SIZE T {_}.

(** ** dyn_string.rs *)
Record DynString := mkDynString { dyn_str : string }.

#[export] Instance DynString_InProcSerialize : InProcSerialize DynString := {|
  IN_PROC_SIZE := Dynamic;
  get_value_size s := Some (wrap_u 32 (blen (bytes_of (dyn_str s))));
  write_value _ s b := Ok (b ++ bytes_of (dyn_str s));
  read_value b ptr value_size :=
    buffer_size ← unwrap value_size;
    slice ← read_bytes b ptr buffer_size;
    s ← unwrap (from_utf8 slice);
    Ok (mkDynString s)
|}.

(** ** static_string.rs *)

(** A [&'static str]: its address and its length in bytes *)
Record str_ref := mkStr { str_ptr : Z; str_len : Z }.
#[export] Instance str_ref_eq_dec : EqDecision str_ref.
Proof. solve_decision. Defined.

Record StaticString := mkStaticString { ss_len : Z; ss_ptr : Z }.

(** [StaticString::from(&str)] *)
Definition StaticString_from (src : str_ref) : StaticString :=
  mkStaticString (wrap_u 32 (str_len src)) (str_ptr src).

#[export] Instance StaticString_Reflect : Reflect StaticString :=
  mkUDT "StaticString" 0 [] false [].

(** [self.len + id_size] on [u32] *)
Definition u32_add (a b : Z) : exec Z := if a + b <? 2 ^ 32 then Ok (a + b) else Panic.

#[export] Instance StaticString_InProcSerialize : InProcSerialize StaticString := {|
  IN_PROC_SIZE := Dynamic;
  get_value_size s := match u32_add (ss_len s) 8 with Ok n => Some n | _ => None end;
  write_value mem s b :=
    let b := write_any 8 (ss_ptr s) b in
    slice ← read_mem mem (ss_ptr s) (ss_len s);
    Ok (b ++ slice);
  read_value b ptr value_size_opt :=
    value_size ← unwrap value_size_opt;
    _ ← assert_true (8 <=? value_size);
    static_buffer_ptr ← read_any_u 8 b ptr;
    Ok (mkStaticString (value_size - 8) static_buffer_ptr)
|}.

(** ** parse_string.rs *)
Definition ANSI_CODE : Z := 0.
Definition WIDE_CODE : Z := 1.
Definition UTF8_CODE : Z := 2.

(** The [u16] slice over a byte slice of even length *)
Fixpoint u16_slice (bs : buffer) : list Z :=
  match bs with
  | b0 :: b1 :: r => le_combine [b0; b1] :: u16_slice r
  | _ => []
  end.

(** The string at the cursor and the cursor after it *)
Definition parse_string (b : buffer) (cursor : Z) : exec (string * Z) :=
  codec_id ← index_byte b cursor;
  cursor ← usize_add cursor 1;
  string_len_bytes ← read_any_u 4 b cursor;
  cursor ← usize_add cursor 4;
  end_ ← usize_add cursor string_len_bytes;
  string_buffer ← slice_range b cursor end_;
  let cursor := end_ in
  if codec_id =? ANSI_CODE then Ok (from_utf8_lossy string_buffer, cursor)
  else if codec_id =? WIDE_CODE then
    if negb (string_len_bytes mod 2 =? 0) then bail "wrong utf-16 buffer size"
    else Ok (from_utf16_lossy (u16_slice string_buffer), cursor)
  else if codec_id =? UTF8_CODE then Ok (from_utf8_lossy string_buffer, cursor)
  else bail "invalid codec [{}] in string".

(** ** Reads and writes *)
Lemma read_any_u_le_split n z p s :
  in_u (8 * Z.of_nat n) z ->
  read_any_u n (p ++ le_split n z ++ s) (blen p) = Ok z.
Proof.
  intros H. unfold read_any_u. rewrite read_bytes_here by blia. cbn.
  by rewrite le_combine_split_u.
Qed.

Lemma read_any_u_range n b ptr z :
  read_any_u n b ptr = Ok z -> in_u (8 * Z.of_nat n) z.
Proof.
  unfold read_any_u. intros H. exec_inv H. injection H as <-.
  apply read_bytes_Ok in Hr as (H1 & H2 & H3 & ->).
  apply le_combine_in_u. f_equal. unfold sub_bytes, blen in *.
  rewrite length_take, length_drop. lia.
Qed.

Lemma read_mem_blen mem ptr len bs :
  0 <= len -> read_mem mem ptr len = Ok bs -> blen bs = len.
Proof.
  unfold read_mem. intros Hlen. destruct (mapM _ _) as [l|] eqn:E; [|discriminate].
  intros [= <-]. apply length_mapM in E. unfold blen. rewrite <- E, length_seqZ. lia.
Qed.

Lemma u16_slice_range bs : Forall (in_u 16) (u16_slice bs).
Proof.
  induction bs as [bs IH] using (induction_ltof1 _ (@length byte)).
  destruct bs as [|b0 [|b1 r]]; cbn; try constructor.
  - apply (le_combine_in_u [b0; b1]). reflexivity.
  - apply IH. unfold ltof; cbn; lia.
Qed.

(** ** The serialization contract

    [wire m v] are the bytes that [write_value] appends for a value that may
    be pushed ([wire_ok]); [read_value] finds the value in them, wherever they
    stand; the size announced is the size written. *)
Definition announced (sz : InProcSize) (bs : buffer) : option Z :=
  match sz with Const _ => None | Dynamic => Some (blen bs) end.

Class LawfulSerialize (T : Type) `{InProcSerialize T} := {
  wire_ok : rodata -> T -> Prop;
  wire : rodata -> T -> buffer;
  wire_write m v b : wire_ok m v -> write_value m v b = Ok (b ++ wire m v);
  wire_size m v : wire_ok m v ->
    match IN_PROC_SIZE T with
    | Const n => blen (wire m v) = n
    | Dynamic => get_value_size v = Some (blen (wire m v)) /\ blen (wire m v) < 2 ^ 32
    end;
  wire_read m v p s : wire_ok m v ->
    read_value (p ++ wire m v ++ s) (blen p) (announced (IN_PROC_SIZE T) (wire m v)) = Ok v
}.

#[export] Program Instance DynString_Lawful : LawfulSerialize DynString := {|
  wire_ok _ s := valid_string (dyn_str s) /\ blen (bytes_of (dyn_str s)) < 2 ^ 32;
  wire _ s := bytes_of (dyn_str s)
|}.
Next Obligation. reflexivity. Qed.
Next Obligation.
  intros m v [_ H]. cbn. split; [|done]. f_equal. apply wrap_u_id. split; [apply blen_nonneg|done].
Qed.
Next Obligation.
  intros m [v] p s [Hv H]. cbn in *. rewrite read_bytes_here by done. cbn.
  by rewrite from_utf8_bytes.
Qed.

(** The contents of the static memory behind a [StaticString] *)
Definition ss_bytes (m : rodata) (s : StaticString) : buffer :=
  match read_mem m (ss_ptr s) (ss_len s) with Ok bs => bs | _ => [] end.

Definition ss_ok (m : rodata) (s : StaticString) : Prop :=
  in_u 64 (ss_ptr s) /\ 0 <= ss_len s < 2 ^ 32 - 8 /\
  read_mem m (ss_ptr s) (ss_len s) = Ok (ss_bytes m s).

Lemma ss_bytes_blen m s : ss_ok m s -> blen (ss_bytes m s) = ss_len s.
Proof. intros (_ & H & Hr). apply (read_mem_blen _ _ _ _ (proj1 H) Hr). Qed.

#[export] Program Instance StaticString_Lawful : LawfulSerialize StaticString := {|
  wire_ok := ss_ok;
  wire m s := le_split 8 (ss_ptr s) ++ ss_bytes m s
|}.
Next Obligation.
  intros m v b (H1 & H2 & H3). cbn. rewrite H3. cbn. unfold write_any. by rewrite <- app_assoc.
Qed.
Next Obligation.
  intros m v Hok. cbn. autorewrite with mm_blen. rewrite ss_bytes_blen by done.
  destruct Hok as (_ & H & _). unfold u32_add.
  rewrite (proj2 (Z.ltb_lt _ _)) by lia. split; [f_equal|]; lia.
Qed.
Next Obligation.
  intros m [l ptr] p s Hok. cbn. autorewrite with mm_blen. rewrite ss_bytes_blen by done.
  destruct Hok as (Hp & H & _). cbn in *. unfold assert_true.
  rewrite (proj2 (Z.leb_le _ _)) by lia. cbn. rewrite <- app_assoc.
  rewrite read_any_u_le_split by done. cbn. do 2 f_equal. lia.
Qed.

(** ** parse_string *)

(** Whatever the buffer holds, a string that [parse_string] returns is valid
    UTF-8, and the cursor moves past the codec, the length and the announced
    bytes, within the buffer. *)
Theorem parse_string_Ok b c s c' :
  parse_string b c = Ok (s, c') ->
  valid_string s /\ c + 5 <= c' <= blen b.
Proof.
  unfold parse_string. intros H.
  exec_inv H; exec_inv H; exec_inv H; exec_inv H; exec_inv H; exec_inv H.
  unfold usize_add in *. repeat case_match; simplify_eq.
  all: match goal with H : read_any_u _ _ _ = Ok _ |- _ => apply read_any_u_range in H as [? ?] end.
  all: match goal with H : slice_range _ _ _ = Ok _ |- _ => unfold slice_range in H;
    destruct (_ && _) eqn:E in H; [|discriminate H] end.
  all: apply andb_true_iff in E as [_ (? & ? & ?)%in_range_true].
  all: split; [auto using u16_slice_range with mm | lia].
Qed.

(** A wide string: an unpaired surrogate becomes the replacement character. *)
Lemma parse_string_Ok_witness :
  parse_string (map byte.of_Z [1; 4; 0; 0; 0; 97; 0; 0; 216]) 0 =
    Ok (string_of_list_byte (map byte.of_Z [97; 239; 191; 189]), 9) /\
  valid_string (string_of_list_byte (map byte.of_Z [97; 239; 191; 189])) /\ 0 + 5 <= 9.
Proof.
  assert (parse_string (map byte.of_Z [1; 4; 0; 0; 0; 97; 0; 0; 216]) 0 =
    Ok (string_of_list_byte (map byte.of_Z [97; 239; 191; 189]), 9)) as H by (vm_compute; reflexivity).
  split; [exact H|]. destruct (parse_string_Ok _ _ _ _ H) as [H1 [H2 _]]. split; assumption.
Defined.
