(* ===== verification/Queue.v ===== *)
(** * The heterogeneous queue

    What [declare_queue_struct!] generates (derive/src/declare_queue.rs) and
    the iterator of [heterogeneous_queue.rs].  A queue stores serialized
    objects of several types one after the other: the index of the type in
    the queue's type arguments (one byte), the size of the object in four
    bytes when the type has no constant size, the bytes of the object. *)

From S2P Require Import Prelude Transit.

(** ** The generated code

    A type argument of the queue, with the constructor of the generated
    enumeration [<Queue>Any] that it becomes. *)
Record type_arg (Any : Type) := TypeArg {
  ta_type : Type;
  ta_ser : InProcSerialize ta_type;
  ta_reflect : UserDefinedType;
  ta_any : ta_type -> Any
}.
Arguments TypeArg {Any} ta_type {ta_ser} ta_reflect ta_any.
Arguments ta_type {Any}.
Arguments ta_ser {Any}.
Arguments ta_reflect {Any}.
Arguments ta_any {Any}.

Class HeterogeneousQueue (Any : Type) := type_args : list (type_arg Any).
Arguments type_args Any {_}.

(** The generated structure.  The capacity is the one the buffer was allocated
    with: the source reads it on queues that are still empty. *)
Record Queue := mkQueue {
  q_buffer : buffer;
  q_obj_counter : Z;
  q_capacity : Z
}.

Definition queue_new (buffer_size : Z) : Queue := mkQueue [] 0 buffer_size.
Definition len_bytes (q : Queue) : Z := blen (q_buffer q).
Definition nb_objects (q : Queue) : Z := q_obj_counter q.
Definition capacity_bytes (q : Queue) : Z := q_capacity q.
Definition as_bytes (q : Queue) : buffer := q_buffer q.
Definition reflect_contained (Any : Type) `{HeterogeneousQueue Any} : list UserDefinedType :=
  map ta_reflect (type_args Any).

(** [push<T>], for a type [T] whose [TYPE_INDEX] is [type_index] *)
Definition push {T} `{InProcSerialize T} (mem : rodata) (type_index : Z) (value : T)
    (q : Queue) : exec Queue :=
  let obj_counter := q_obj_counter q + 1 in
  let b := q_buffer q ++ [byte.of_Z type_index] in
  let buffer_size_before := blen b in
  match IN_PROC_SIZE T with
  | Const size =>
      b ← write_value mem value b;
      _ ← assert_true (blen b =? buffer_size_before + size);
      Ok (mkQueue b obj_counter (q_capacity q))
  | Dynamic =>
      value_size ← unwrap (get_value_size value);
      let b := write_any 4 value_size b in
      b ← write_value mem value b;
      _ ← assert_true (blen b =? buffer_size_before + 4 + value_size);
      Ok (mkQueue b obj_counter (q_capacity q))
  end.

(** [read_value_at_offset]: the object at an offset and the next offset *)
Definition read_value_at_offset {Any} `{HeterogeneousQueue Any} (q : Queue) (offset : Z)
  : exec (Any * Z) :=
  let b := q_buffer q in
  index ← index_byte b offset;
  match type_args Any !! Z.to_nat index with
  | None => Panic
  | Some ta =>
      let begin_obj := offset + 1 in
      match @IN_PROC_SIZE _ (ta_ser ta) with
      | Const size =>
          obj ← @read_value _ (ta_ser ta) b begin_obj None;
          Ok (ta_any ta obj, offset + 1 + size)
      | Dynamic =>
          size_instance ← read_any_u 4 b begin_obj;
          obj ← @read_value _ (ta_ser ta) b (begin_obj + 4) (Some size_instance);
          Ok (ta_any ta obj, offset + 1 + 4 + size_instance)
      end
  end.

(** [QueueIterator]: the loop of a [for] over [q.iter()], with the objects it
    yields.  Every object takes at least one byte, so [length] steps and one
    more are enough. *)
Definition next {Any} `{HeterogeneousQueue Any} (q : Queue) (offset : Z)
  : exec (option (Any * Z)) :=
  if len_bytes q <=? offset then Ok None
  else r ← read_value_at_offset q offset; Ok (Some r).

Fixpoint iter_from {Any} `{HeterogeneousQueue Any} (fuel : nat) (q : Queue) (offset : Z)
  : exec (list Any) :=
  match fuel with
  | O => Diverges
  | S fuel' =>
      o ← next q offset;
      match o with
      | None => Ok []
      | Some (obj, offset') => objs ← iter_from fuel' q offset'; Ok (obj :: objs)
      end
  end.
Definition iter {Any} `{HeterogeneousQueue Any} (q : Queue) : exec (list Any) :=
  iter_from (S (length (q_buffer q))) q 0.

(** ** Frames *)

(** The bytes of an object in a queue *)
Definition frame (i : Z) (sz : InProcSize) (bs : buffer) : buffer :=
  byte.of_Z i ::
  match sz with
  | Const _ => bs
  | Dynamic => le_split 4 (blen bs) ++ bs
  end.

(** A value of one of the queue's types *)
Record item (Any : Type) `{HeterogeneousQueue Any} := Item {
  it_type : Type;
  it_ser : InProcSerialize it_type;
  it_lawful : LawfulSerialize it_type;
  it_index : Z;
  it_reflect : UserDefinedType;
  it_any : it_type -> Any;
  it_value : it_type;
  it_range : 0 <= it_index < 256;
  it_arg : type_args Any !! Z.to_nat it_index = Some (TypeArg it_type it_reflect it_any)
}.
Arguments Item {Any _} it_type {it_ser it_lawful}.
Arguments it_type {Any _}.
Arguments it_ser {Any _}.
Arguments it_lawful {Any _}.
Arguments it_index {Any _}.
Arguments it_reflect {Any _}.
Arguments it_any {Any _}.
Arguments it_value {Any _}.
Arguments it_range {Any _}.
Arguments it_arg {Any _}.
#[export] Existing Instances it_ser it_lawful.

Section items.
Context {Any : Type} `{HQ : HeterogeneousQueue Any}.

Definition item_ok (m : rodata) (it : item Any) : Prop := wire_ok m (it_value it).
Definition item_wire (m : rodata) (it : item Any) : buffer := wire m (it_value it).
Definition item_size (it : item Any) : InProcSize := IN_PROC_SIZE (it_type it).
Definition item_frame (m : rodata) (it : item Any) : buffer :=
  frame (it_index it) (item_size it) (item_wire m it).
Definition item_any (it : item Any) : Any := it_any it (it_value it).
Definition push_item (m : rodata) (q : Queue) (it : item Any) : exec Queue :=
  push m (it_index it) (it_value it) q.

(** Where an object stands in its frame: after the type index and, for a
    dynamic size, after the four bytes of the size. *)
Definition header_len (sz : InProcSize) : Z :=
  match sz with Const _ => 1 | Dynamic => 5 end.

Lemma blen_frame i sz bs : blen (frame i sz bs) = header_len sz + blen bs.
Proof. unfold frame. destruct sz; cbn [header_len]; rewrite blen_cons; blia. Qed.

Lemma byte_of_index (i : Z) : 0 <= i < 256 -> byte.unsigned (byte.of_Z i) = i.
Proof. intros H. rewrite byte.unsigned_of_Z. by apply Z.mod_small. Qed.

Lemma push_item_frame m q it :
  item_ok m it ->
  push_item m q it =
  Ok (mkQueue (q_buffer q ++ item_frame m it) (q_obj_counter q + 1) (q_capacity q)).
Proof.
  intros Hok. unfold push_item, push, item_frame, item_size.
  pose proof (wire_size m (it_value it) Hok) as Hs.
  change (wire m (it_value it)) with (item_wire m it) in *.
  destruct (IN_PROC_SIZE (it_type it)) as [n|] eqn:E; cbn [frame].
  - rewrite wire_write by done. cbn.
    change (wire m (it_value it)) with (item_wire m it).
    unfold assert_true. rewrite (proj2 (Z.eqb_eq _ _)) by blia. cbn.
    by rewrite <- app_assoc.
  - destruct Hs as [-> _]. cbn [unwrap mbind exec_bind]. unfold write_any.
    rewrite wire_write by done. cbn [mbind exec_bind].
    change (wire m (it_value it)) with (item_wire m it).
    unfold assert_true. rewrite (proj2 (Z.eqb_eq _ _)) by blia. cbn [mbind exec_bind].
    by rewrite <- !app_assoc.
Qed.

Lemma read_item_frame m it p s cap n :
  item_ok m it ->
  read_value_at_offset (mkQueue (p ++ item_frame m it ++ s) n cap) (blen p) =
  Ok (item_any it, blen p + blen (item_frame m it)).
Proof.
  intros Hok. unfold read_value_at_offset, item_frame, item_size. cbn [q_buffer].
  rewrite blen_frame.
  pose proof (wire_size m (it_value it) Hok) as Hs.
  pose proof (wire_read m (it_value it)) as Hr.
  change (wire m (it_value it)) with (item_wire m it) in *.
  unfold frame.
  change (p ++ (?x :: ?l) ++ s) with (p ++ [x] ++ (l ++ s)).
  rewrite index_byte_here. cbn [mbind exec_bind].
  rewrite byte_of_index by apply it_range.
  rewrite it_arg. cbn [ta_ser ta_any ta_type].
  destruct (IN_PROC_SIZE (it_type it)) as [k|] eqn:E; cbn [announced header_len] in *.
  - specialize (Hr (p ++ [byte.of_Z (it_index it)]) s Hok).
    rewrite <- app_assoc in Hr. autorewrite with mm_blen in Hr.
    change (blen p + (1 + 0)) with (blen p + 1) in Hr. cbn [app] in *.
    rewrite Hr. cbn. rewrite Hs. do 2 f_equal. lia.
  - destruct Hs as [_ Hs].
    pose proof (read_any_u_le_split 4 (blen (item_wire m it))
      (p ++ [byte.of_Z (it_index it)]) (item_wire m it ++ s)) as Hsz.
    specialize (Hr (p ++ [byte.of_Z (it_index it)] ++ le_split 4 (blen (item_wire m it))) s Hok).
    rewrite <- !app_assoc in *. autorewrite with mm_blen in Hr, Hsz.
    cbn [app] in *. change (blen p + (1 + 0)) with (blen p + 1) in Hsz.
    rewrite Hsz by (split; [apply blen_nonneg|exact Hs]). cbn [mbind exec_bind].
    replace (blen p + (1 + 0 + Z.of_nat 4)) with (blen p + 1 + 4) in Hr by lia.
    rewrite Hr. cbn [mbind exec_bind]. do 2 f_equal. lia.
Qed.

(** A queue that holds the frames of a list of items *)
Definition frames (m : rodata) (its : list (item Any)) : buffer :=
  concat (map (item_frame m) its).

Lemma push_items m its q :
  Forall (item_ok m) its ->
  foldM (push_item m) q its =
  Ok (mkQueue (q_buffer q ++ frames m its)
        (q_obj_counter q + Z.of_nat (length its)) (q_capacity q)).
Proof.
  revert q; induction its as [|it its IH]; intros q Hok; cbn [foldM].
  - unfold frames; cbn. rewrite app_nil_r, Z.add_0_r. by destruct q.
  - inversion_clear Hok as [|? ? Hit Hits].
    rewrite push_item_frame by done. cbn [mbind exec_bind]. rewrite IH by done.
    cbn [q_buffer q_obj_counter q_capacity]. unfold frames; cbn [map concat length].
    rewrite <- app_assoc. do 2 f_equal. lia.
Qed.

Lemma iter_frames m its p fuel n cap :
  Forall (item_ok m) its -> (length its < fuel)%nat ->
  iter_from fuel (mkQueue (p ++ frames m its) n cap) (blen p) = Ok (map item_any its).
Proof.
  revert p fuel; induction its as [|it its IH]; intros p fuel Hok Hf;
    (destruct fuel as [|fuel]; [cbn in Hf; lia|]);
    cbn [iter_from]; unfold next, len_bytes; cbn [q_buffer].
  - rewrite (proj2 (Z.leb_le _ _)) by (unfold frames; cbn; blia). reflexivity.
  - inversion_clear Hok as [|? ? Hit Hits]. unfold frames in *. cbn [map concat].
    pose proof (blen_frame (it_index it) (item_size it) (item_wire m it)) as Hl.
    fold (item_frame m it) in Hl.
    rewrite (proj2 (Z.leb_gt _ _)).
    2:{ rewrite !blen_app, Hl. destruct (item_size it); cbn [header_len]; blia. }
    rewrite (read_item_frame m) by done. cbn [mbind exec_bind].
    rewrite app_assoc, <- blen_app. rewrite IH; [done..|cbn in Hf; lia].
Qed.

Lemma length_frames m its : (length its <= length (frames m its))%nat.
Proof.
  unfold frames. induction its as [|it its IH]; cbn; [lia|].
  rewrite length_app.
  assert (1 <= length (item_frame m it))%nat by (unfold item_frame, frame; cbn; lia).
  lia.
Qed.
(** Iterating over a queue that holds frames yields their values. *)
Lemma iter_queue m its n cap :
  Forall (item_ok m) its -> iter (mkQueue (frames m its) n cap) = Ok (map item_any its).
Proof.
  intros Hok. unfold iter. cbn [q_buffer]. rewrite <- blen_nil.
  apply (iter_frames m its []); [done|]. pose proof (length_frames m its). lia.
Qed.
End items.

(** ** Properties *)

(** C13. Round trip of the queue: pushing values one after the other on a new
    queue succeeds, the queue counts them and iterating over it yields these
    values in the order in which they were pushed. *)
Theorem queue_iter_push {Any} `{HQ : HeterogeneousQueue Any} (m : rodata)
    (its : list (item Any)) (size : Z) (Hok : Forall (item_ok m) its) :
  exists q, foldM (push_item m) (queue_new size) its = Ok q /\
    nb_objects q = Z.of_nat (length its) /\
    iter q = Ok (map item_any its).
Proof.
  eexists. split; [by apply push_items|].
  split; [done|]. by apply (iter_queue m).
Qed.

(** *** A concrete queue of two types *)
Module QueueExample.
Inductive any := AnyStatic (s : StaticString) | AnyDyn (s : DynString).
#[local] Instance queue : HeterogeneousQueue any :=
  [TypeArg StaticString (reflect StaticString) AnyStatic;
   TypeArg DynString (mkUDT "DynString" 0 [] false []) AnyDyn].
Definition mem : rodata := {[ 100 := byte.of_Z 97; 101 := byte.of_Z 98 ]}.
Definition items : list (item any) :=
  [Item DynString 1 (mkUDT "DynString" 0 [] false []) AnyDyn (mkDynString "dynamic")
     ltac:(lia) eq_refl;
   Item StaticString 0 (reflect StaticString) AnyStatic (mkStaticString 2 100) ltac:(lia) eq_refl].
End QueueExample.
#[local] Existing Instance QueueExample.queue.

Lemma queue_iter_push_witness :
  exists q, foldM (push_item QueueExample.mem) (queue_new 64) QueueExample.items = Ok q /\
    nb_objects q = 2 /\
    iter q = Ok [QueueExample.AnyDyn (mkDynString "dynamic");
                 QueueExample.AnyStatic (mkStaticString 2 100)].
Proof.
  apply (queue_iter_push QueueExample.mem QueueExample.items 64).
  repeat apply Forall_cons; try apply Forall_nil; unfold item_ok; cbn;
    split_and!; try (vm_compute; done); unfold in_u; lia.
Defined.
