(* ===== verification/Pod.v ===== *)
(** * Plain structures: layout, serialization and derived reflection

    A plain structure of the program is serialized by copying its memory
    ([write_any::<Self>]): where its fields are in that memory is the choice of
    the compiler.  The class [Abi] is that choice and [LawfulAbi] what the
    language promises of it: the fields are inside of the structure and do not
    overlap.  [derive_reflect_impl] is the derive macro of
    [transit/derive/src/derive_reflect.rs]. *)

From S2P Require Import Prelude Float Transit.

(** ** Declarations *)

(** The types that a field may have ([syn::Type]); the macro refuses the others.
    The string is the type's tokens. *)
Inductive syn_type :=
| BareFn (fun_ : string)
| Path (type_path : string)
| Ptr (pointer_type : string)
| Reference_ (reference : string).

Record field := mkField {
  f_name : string;
  f_type : syn_type;
  f_size : Z
}.
Record struct_decl := mkStruct { s_name : string; s_fields : list field }.

(** The type's tokens, and whether it is a reference *)
Definition metadata_from_type (t : syn_type) : string * bool :=
  match t with
  | BareFn fun_ => (fun_, true)
  | Path type_path => (type_path, false)
  | Ptr pointer_type => (pointer_type, true)
  | Reference_ reference => (reference, true)
  end.

(** ** Layout *)
Class Abi := {
  struct_layout : struct_decl -> list Z * Z;
  padding : struct_decl -> list buffer -> buffer
}.
Definition offsets_of `{Abi} (d : struct_decl) : list Z := (struct_layout d).1.
Definition size_of `{Abi} (d : struct_decl) : Z := (struct_layout d).2.

(** Two ranges of bytes that do not overlap *)
Definition apart (x y : Z * Z) : Prop := x.1 + x.2 <= y.1 \/ y.1 + y.2 <= x.1.

Definition layout_ok (sizes offsets : list Z) (size : Z) : Prop :=
  length offsets = length sizes /\
  Forall (fun r => 0 <= r.1 /\ r.1 + r.2 <= size) (zip offsets sizes) /\
  ForallOrdPairs apart (zip offsets sizes).

Class LawfulAbi `{Abi} := {
  abi_layout d : Forall (fun f => 0 < f_size f) (s_fields d) ->
    layout_ok (map f_size (s_fields d)) (offsets_of d) (size_of d);
  abi_padding d fs : Forall (fun f => 0 < f_size f) (s_fields d) ->
    blen (padding d fs) = size_of d
}.

(** ** Memory of a structure *)
Definition write_at (b : buffer) (off : Z) (bs : buffer) : buffer :=
  take (Z.to_nat off) b ++ bs ++ drop (Z.to_nat off + length bs) b.

Fixpoint write_fields (b : buffer) (offsets : list Z) (fs : list buffer) : buffer :=
  match offsets, fs with
  | o :: offsets', f :: fs' => write_fields (write_at b o f) offsets' fs'
  | _, _ => b
  end.

Definition struct_bytes `{Abi} (d : struct_decl) (fs : list buffer) : buffer :=
  write_fields (padding d fs) (offsets_of d) fs.

Definition struct_fields `{Abi} (d : struct_decl) (bs : buffer) : list buffer :=
  zip_with (fun o f => sub_bytes bs o (f_size f)) (offsets_of d) (s_fields d).

(** A structure of the program: its declaration and the bytes of its fields, in
    the order of the declaration. *)
Class Pod (T : Type) := {
  decl : struct_decl;
  to_fields : T -> list buffer;
  of_fields : list buffer -> option T
}.
Arguments decl T {_}.

Definition pod_bytes `{Abi} {T} `{Pod T} (v : T) : buffer := struct_bytes (decl T) (to_fields v).
Definition pod_of_bytes `{Abi} {T} `{Pod T} (bs : buffer) : option T :=
  of_fields (struct_fields (decl T) bs).

(** The default methods of the trait [InProcSerialize] *)
#[export] Instance Pod_InProcSerialize `{Abi} {T} `{Pod T} : InProcSerialize T | 10 := {|
  IN_PROC_SIZE := Const (size_of (decl T));
  get_value_size _ := None;
  write_value _ v b := Ok (b ++ pod_bytes v);
  read_value b ptr _ :=
    bs ← read_bytes b ptr (size_of (decl T));
    match pod_of_bytes bs with Some v => Ok v | None => Ub end
|}.

(** ** The derive macro

    [reflect_of] resolves the path of a type to its implementation of the
    trait [Reflect]. *)
Definition is_intrinsic_type (type_name : string) : bool :=
  String.eqb type_name "i64" || String.eqb type_name "u64" || String.eqb type_name "u32"
  || String.eqb type_name "i32" || String.eqb type_name "f64".

Definition derive_member (f : field) (offset : Z) : Member :=
  let '(member_type_name, is_reference) := metadata_from_type (f_type f) in
  mkMember (f_name f) member_type_name offset (f_size f) is_reference.

Definition secondary_types (d : struct_decl) : list string :=
  map fst (filter (fun m => negb (m.2 || is_intrinsic_type m.1))
             (map (fun f => metadata_from_type (f_type f)) (s_fields d))).

Definition derive_reflect_impl `{Abi} (reflect_of : string -> UserDefinedType)
    (d : struct_decl) : UserDefinedType :=
  mkUDT (s_name d) (size_of d) (zip_with derive_member (s_fields d) (offsets_of d)) false
    (map reflect_of (secondary_types d)).

(** ** A field's bytes are found where its offset says *)
Lemma blen_write_at b off bs :
  0 <= off -> off + blen bs <= blen b -> blen (write_at b off bs) = blen b.
Proof.
  unfold write_at, blen. intros. rewrite !length_app, length_take, length_drop. lia.
Qed.

Lemma sub_bytes_write_same b off bs :
  0 <= off -> off + blen bs <= blen b -> sub_bytes (write_at b off bs) off (blen bs) = bs.
Proof.
  unfold write_at, sub_bytes, blen. intros. rewrite Nat2Z.id.
  rewrite drop_app_length' by (rewrite length_take; lia).
  by rewrite take_app_length.
Qed.

Lemma sub_bytes_lookup b off n i :
  0 <= off -> sub_bytes b off n !! i =
  (if (Z.of_nat i <? n) then b !! (Z.to_nat off + i)%nat else None).
Proof.
  intros. unfold sub_bytes. destruct (Z.ltb_spec (Z.of_nat i) n).
  - rewrite lookup_take_lt by lia. apply lookup_drop.
  - apply lookup_take_ge. lia.
Qed.

Lemma write_at_lookup_out b off bs i :
  0 <= off -> off + blen bs <= blen b ->
  Z.of_nat i < off \/ off + blen bs <= Z.of_nat i -> write_at b off bs !! i = b !! i.
Proof.
  unfold write_at, blen. intros Ho Hl [Hi|Hi].
  - rewrite lookup_app_l by (rewrite length_take; lia). by rewrite lookup_take_lt by lia.
  - rewrite lookup_app_r by (rewrite length_take; lia).
    rewrite length_take. rewrite lookup_app_r by lia. rewrite lookup_drop. f_equal. lia.
Qed.

Lemma sub_bytes_write_other b off bs off' n :
  0 <= off -> 0 <= off' -> off + blen bs <= blen b -> apart (off, blen bs) (off', n) ->
  sub_bytes (write_at b off bs) off' n = sub_bytes b off' n.
Proof.
  intros Ho Ho' Hl Ha. apply list_eq. intros i. rewrite !sub_bytes_lookup by done.
  destruct (Z.ltb_spec (Z.of_nat i) n); [|done].
  apply write_at_lookup_out; [done..|]. unfold apart in Ha; cbn in Ha. lia.
Qed.

Lemma write_fields_ok offsets fs b :
  length offsets = length fs ->
  Forall (fun r => 0 <= r.1 /\ r.1 + r.2 <= blen b) (zip offsets (map blen fs)) ->
  ForallOrdPairs apart (zip offsets (map blen fs)) ->
  blen (write_fields b offsets fs) = blen b /\
  (forall off n, 0 <= off -> Forall (fun r => apart r (off, n)) (zip offsets (map blen fs)) ->
     sub_bytes (write_fields b offsets fs) off n = sub_bytes b off n) /\
  Forall2 (fun o f => sub_bytes (write_fields b offsets fs) o (blen f) = f) offsets fs.
Proof.
  revert fs b; induction offsets as [|o offsets IH]; intros [|f fs] b Hl Hr Hp;
    cbn in Hl; try discriminate Hl; cbn [write_fields].
  - split; [done|]. split; [done|constructor].
  - cbn [map zip zip_with] in *. inversion_clear Hr as [|? ? [Ho Hf] Hr'].
    inversion_clear Hp as [|? ? Ha Hp']. cbn [fst snd] in *.
    pose proof (blen_write_at b o f Ho Hf) as Hb.
    destruct (IH fs (write_at b o f)) as (IH1 & IH2 & IH3).
    + by injection Hl.
    + by rewrite Hb.
    + done.
    + split; [by rewrite IH1|]. split.
      * intros off n Hoff Hall. inversion_clear Hall.
        rewrite IH2 by done. by apply sub_bytes_write_other.
      * constructor; [|exact IH3]. rewrite IH2; [by apply sub_bytes_write_same|done|].
        eapply Forall_impl; [|exact Ha]. intros y [?|?]; [right|left]; done.
Qed.

(** Field bytes that fit a declaration *)
Definition fields_fit (d : struct_decl) (fs : list buffer) : Prop :=
  Forall (fun f => 0 < f_size f) (s_fields d) /\ map blen fs = map f_size (s_fields d).

Section layout.
Context {HAbi : Abi} {HA : LawfulAbi}.

Lemma fields_fit_length d fs : fields_fit d fs -> length (offsets_of d) = length fs.
Proof.
  intros [Hs Hf]. destruct (abi_layout d Hs) as [Hl _].
  rewrite Hl, <- Hf. by rewrite length_map.
Qed.

Lemma struct_bytes_ok d fs :
  fields_fit d fs ->
  blen (struct_bytes d fs) = size_of d /\
  Forall2 (fun o f => sub_bytes (struct_bytes d fs) o (blen f) = f) (offsets_of d) fs.
Proof.
  intros Hfit. pose proof (fields_fit_length d fs Hfit) as Hlen.
  destruct Hfit as [Hs Hf]. destruct (abi_layout d Hs) as (_ & Hr & Hp).
  rewrite <- Hf in Hr, Hp.
  destruct (write_fields_ok (offsets_of d) fs (padding d fs)) as (H1 & _ & H3).
  - done.
  - by rewrite abi_padding by done.
  - done.
  - split; [|exact H3]. unfold struct_bytes. by rewrite H1, abi_padding by done.
Qed.

Lemma struct_fields_bytes d fs :
  fields_fit d fs -> struct_fields d (struct_bytes d fs) = fs.
Proof.
  intros Hfit. destruct (struct_bytes_ok d fs Hfit) as [_ H2].
  destruct Hfit as [_ Hf]. unfold struct_fields.
  remember (struct_bytes d fs) as b eqn:Eb. clear Eb.
  revert Hf. generalize (s_fields d). induction H2 as [|o f os fs H _ IH]; intros l Hf.
  - destruct l; [done|discriminate Hf].
  - destruct l as [|x l]; [discriminate Hf|]. cbn [map] in Hf. injection Hf as Hx Hl.
    cbn [zip_with]. rewrite <- Hx, H. f_equal. by apply IH.
Qed.

(** A field is inside of the structure. *)
Lemma field_offset_bounds d i o f :
  Forall (fun f => 0 < f_size f) (s_fields d) ->
  offsets_of d !! i = Some o -> s_fields d !! i = Some f ->
  0 <= o /\ o + f_size f <= size_of d.
Proof.
  intros Hs Ho Hf. destruct (abi_layout d Hs) as (_ & Hr & _).
  rewrite Forall_lookup in Hr.
  apply (Hr i (o, f_size f)). apply lookup_zip_with_Some. exists o, (f_size f).
  split; [done|]. split; [done|]. rewrite list_lookup_fmap, Hf. done.
Qed.
End layout.

(** ** Plain structures are lawful *)
Class LawfulPod (T : Type) `{HPod : Pod T} := {
  pod_ok : T -> Prop;
  pod_fit v : pod_ok v -> fields_fit (decl T) (to_fields v);
  pod_round v : pod_ok v -> of_fields (to_fields v) = Some v
}.

Lemma pod_of_pod_bytes {HAbi : Abi} {HA : LawfulAbi} {T} `{HP : LawfulPod T} (v : T) :
  pod_ok v -> pod_of_bytes (pod_bytes v) = Some v.
Proof.
  intros Hv. unfold pod_of_bytes, pod_bytes.
  rewrite struct_fields_bytes by by apply pod_fit. by apply pod_round.
Qed.

Lemma blen_pod_bytes {HAbi : Abi} {HA : LawfulAbi} {T} `{HP : LawfulPod T} (v : T) :
  pod_ok v -> blen (pod_bytes v) = size_of (decl T).
Proof. intros Hv. apply struct_bytes_ok. by apply pod_fit. Qed.

#[export] Program Instance Pod_Lawful {HAbi : Abi} {HA : LawfulAbi} {T} `{HP : LawfulPod T} :
  LawfulSerialize T := {|
  wire_ok _ v := pod_ok v;
  wire _ v := pod_bytes v
|}.
Next Obligation. intros. reflexivity. Qed.
Next Obligation. intros. cbn. by apply blen_pod_bytes. Qed.
Next Obligation.
  intros HAbi HA T HPod HP m v p s Hv. cbn.
  rewrite read_bytes_here by (symmetry; by apply blen_pod_bytes). cbn.
  by rewrite pod_of_pod_bytes.
Qed.

(** ** Bytes of the fields' types *)
Definition u32_bytes (z : Z) : buffer := le_split 4 z.
Definition u64_bytes (z : Z) : buffer := le_split 8 z.
Definition f64_bytes (x : f64) : buffer := le_split 8 (f64_to_bits x).
Abbreviation i64_bytes := u64_bytes.
Definition u32_of (bs : buffer) : Z := le_combine bs.
Definition u64_of (bs : buffer) : Z := le_combine bs.
Definition i64_of (bs : buffer) : Z := wrap_i 64 (le_combine bs).
Definition f64_of (bs : buffer) : f64 := f64_of_bits (le_combine bs).

Lemma u32_of_bytes z : in_u 32 z -> u32_of (u32_bytes z) = z.
Proof. intros H. by apply (le_combine_split_u 4). Qed.
Lemma u64_of_bytes z : in_u 64 z -> u64_of (u64_bytes z) = z.
Proof. intros H. by apply (le_combine_split_u 8). Qed.
Lemma i64_of_bytes z : in_i 64 z -> i64_of (u64_bytes z) = z.
Proof. intros H. apply (le_combine_split_i 8); [lia|exact H]. Qed.
Lemma f64_of_bytes x : f64_ok x = true -> f64_of (f64_bytes x) = x.
Proof.
  intros H. unfold f64_of, f64_bytes.
  rewrite (le_combine_split_u 8) by by apply f64_to_bits_range.
  by apply f64_of_to_bits.
Qed.
Create Rewrite HintDb mm_bytes.
#[export] Hint Rewrite u32_of_bytes u64_of_bytes i64_of_bytes f64_of_bytes
  using assumption : mm_bytes.

(** ** A natural layout

    Fields in the order of the declaration, each on a multiple of eight bytes,
    with null padding: one layout that the laws allow. *)
Definition round8 (z : Z) : Z := (z + 7) / 8 * 8.

Fixpoint natural_offsets (off : Z) (sizes : list Z) : list Z * Z :=
  match sizes with
  | [] => ([], off)
  | s :: sizes' =>
      let '(os, e) := natural_offsets (off + round8 s) sizes' in (off :: os, e)
  end.

Definition natural_abi : Abi := {|
  struct_layout d := natural_offsets 0 (map f_size (s_fields d));
  padding d _ := repeat x00 (Z.to_nat (natural_offsets 0 (map f_size (s_fields d))).2)
|}.

Lemma round8_ge z : z <= round8 z.
Proof. unfold round8. pose proof (Z.div_mod (z + 7) 8). pose proof (Z.mod_pos_bound (z + 7) 8). lia. Qed.

Lemma natural_offsets_ok sizes off :
  0 <= off -> Forall (fun s => 0 < s) sizes ->
  let l := natural_offsets off sizes in
  off <= l.2 /\ length l.1 = length sizes /\
  Forall (fun r => off <= r.1 /\ r.1 + r.2 <= l.2) (zip l.1 sizes) /\
  ForallOrdPairs apart (zip l.1 sizes).
Proof.
  intros Ho Hs. revert off Ho. induction Hs as [|s sizes Hs _ IH]; intros off Ho; cbn.
  - split; [lia|]. split; [done|]. split; constructor.
  - pose proof (round8_ge s). specialize (IH (off + round8 s) ltac:(lia)).
    destruct (natural_offsets _ _) as [os e]. cbn in *.
    destruct IH as (H1 & H2 & H3 & H4). split; [lia|]. split; [lia|]. split.
    + constructor; cbn; [lia|]. eapply Forall_impl; [|exact H3]. intros y Hy. cbn in *. lia.
    + constructor; [|done]. eapply Forall_impl; [|exact H3].
      intros y Hy. left. cbn in *. lia.
Qed.

Lemma natural_lawful : @LawfulAbi natural_abi.
Proof.
  split; intros d; [|intros fs]; intros Hs;
    (assert (Forall (fun s => 0 < s) (map f_size (s_fields d))) as Hs';
     [by apply Forall_fmap|]);
    destruct (natural_offsets_ok _ 0 (Z.le_refl 0) Hs') as (H1 & H2 & H3 & H4).
  - done.
  - unfold blen, padding, natural_abi. rewrite repeat_length. by apply Z2Nat.id.
Qed.
