(* ===== verification/Parser.v ===== *)
(** * The transit parser

    Models the functions of [transit/src/parser.rs]: reading the dependencies
    of a block into a map from ids to values, and the objects of a block with
    that map.  The metadata of a stream comes from the wire, as the buffers
    do: nothing is assumed of either in the definitions.

    A [HashMap<u64, Value>] is a [gmap Z Value].  The loops over a buffer have
    the fuel [S (length buffer)]: every turn moves the offset by one byte at
    least.  The recursion of [parse_pod_instance] over nested types has the
    fuel [S (length udts)]: a nesting that is deeper meets the same type
    twice, and as the recursion does not depend on the data it then never
    ends; that is the outcome [Diverges]. *)

From S2P Require Import Prelude RustString Float Transit.

Abbreviation dependencies_map := (gmap Z Value).

(** [udts.iter().position(|t| t.name == name)], then [&udts[index]] *)
Fixpoint find_udt (name : string) (udts : list UserDefinedType) : option UserDefinedType :=
  match udts with
  | [] => None
  | t :: udts' => if String.eqb (udt_name t) name then Some t else find_udt name udts'
  end.

(** [dependencies.get(&key)], cloned, or [Value::None] with a warning *)
Definition lookup_dependency (dependencies : dependencies_map) (key : Z) : Value :=
  default None_ (dependencies !! key).

(** [assert_eq!(size_of::<T>(), member.size)], then the read at the member's offset *)
Definition read_member {A} (read : buffer -> Z -> exec A) (size : Z) (m : Member)
    (offset : Z) (b : buffer) (mk : A -> Value) : exec Value :=
  _ ← assert_true (size =? m_size m);
  ptr ← usize_add offset (m_offset m);
  v ← read b ptr;
  Ok (mk v).

(** The closure that [parse_pod_instance] maps over the members of a type,
    for the function [parse_pod] that reads an instance of a nested type. *)
Definition parse_member (parse_pod : UserDefinedType -> Z -> exec Value)
    (udts : list UserDefinedType) (dependencies : dependencies_map) (offset : Z)
    (b : buffer) (m : Member) : exec (string * Value) :=
  let name := m_name m in
  let type_name := m_type_name m in
  if m_is_reference m then
    if m_size m <? 8 then Ok (name, None_)
    else
      ptr ← usize_add offset (m_offset m);
      key ← read_any_u 8 b ptr;
      Ok (name, lookup_dependency dependencies key)
  else
    value ←
      (if (String.eqb type_name "u8" || String.eqb type_name "uint8") then
         read_member (read_any_u 1) 1 m offset b U8
       else if (String.eqb type_name "u32" || String.eqb type_name "uint32") then
         read_member (read_any_u 4) 4 m offset b U32
       else if (String.eqb type_name "u64" || String.eqb type_name "uint64") then
         read_member (read_any_u 8) 8 m offset b U64
       else if (String.eqb type_name "i64" || String.eqb type_name "int64") then
         read_member (read_any_i 8) 8 m offset b I64
       else if String.eqb type_name "f64" then
         read_member read_any_f64 8 m offset b F64
       else
         match find_udt type_name udts with
         | Some member_udt =>
             ptr ← usize_add offset (m_offset m);
             parse_pod member_udt ptr
         | None => Ok None_
         end);
    Ok (name, value).

Fixpoint mapM_exec {A B} (f : A -> exec B) (l : list A) : exec (list B) :=
  match l with
  | [] => Ok []
  | x :: l' => y ← f x; ys ← mapM_exec f l'; Ok (y :: ys)
  end.

Fixpoint parse_pod_instance_fuel (fuel : nat) (udt : UserDefinedType)
    (udts : list UserDefinedType) (dependencies : dependencies_map) (offset : Z)
    (b : buffer) : exec Value :=
  match fuel with
  | O => Diverges
  | S fuel' =>
      members ← mapM_exec
        (parse_member
           (fun member_udt ptr => parse_pod_instance_fuel fuel' member_udt udts dependencies ptr b)
           udts dependencies offset b) (udt_members udt);
      let object := Object_ (mkObject (udt_name udt) members) in
      if udt_is_reference udt then
        match find_member "id" members with
        | Some v => Ok v
        | None => Ok object
        end
      else Ok object
  end.

Definition parse_pod_instance (udt : UserDefinedType) (udts : list UserDefinedType)
    (dependencies : dependencies_map) (offset : Z) (b : buffer) : exec Value :=
  parse_pod_instance_fuel (S (length udts)) udt udts dependencies offset b.

(** [hash.insert(id, value)] and the assertion that the id is new *)
Definition insert_new (hash : dependencies_map) (id : Z) (v : Value) : exec dependencies_map :=
  _ ← assert_true (bool_decide (hash !! id = None));
  Ok (<[id := v]> hash).

(** [udt.size], or the four bytes that precede an object of dynamic size; with
    the offset of the object. *)
Definition read_object_size (udt : UserDefinedType) (b : buffer) (offset : Z)
  : exec (Z * Z) :=
  if udt_size udt =? 0 then
    obj_size ← read_any_u 4 b offset;
    Ok (obj_size, offset + 4)
  else Ok (udt_size udt, offset).

(** One turn of the loop of [read_dependencies] *)
Definition read_dependency (udts : list UserDefinedType) (b : buffer) (offset : Z)
    (hash : dependencies_map) : exec (dependencies_map * Z) :=
  type_index ← index_byte b offset;
  match udts !! Z.to_nat type_index with
  | None => bail "Invalid type index parsing transit dependencies: {}"
  | Some udt =>
      '(object_size, offset) ← read_object_size udt b (offset + 1);
      hash ←
        (if String.eqb (udt_name udt) "StaticString" then
           string_id ← read_any_u 8 b offset;
           nb_utf8_bytes ← usize_sub object_size 8;
           slice ← read_bytes b (offset + 8) nb_utf8_bytes;
           string ← unwrap (from_utf8 slice);
           insert_new hash string_id (String_ string)
         else if String.eqb (udt_name udt) "StaticStringDependency" then
           string_id ← read_any_u 8 b offset;
           '(string, _) ← with_context "parsing string" (parse_string b (offset + 8));
           insert_new hash string_id (String_ string)
         else if udt_size udt =? 0 then
           bail "invalid user-defined type {:?}"
         else
           instance ← parse_pod_instance udt udts hash offset b;
           match instance with
           | Object_ obj =>
               id ← get get_u64 obj "id";
               insert_new hash id (Object_ obj)
           | _ => Ok hash
           end);
      offset ← usize_add offset object_size;
      Ok (hash, offset)
  end.

Fixpoint read_dependencies_from (fuel : nat) (udts : list UserDefinedType) (b : buffer)
    (offset : Z) (hash : dependencies_map) : exec dependencies_map :=
  match fuel with
  | O => Diverges
  | S fuel' =>
      if offset <? blen b then
        '(hash, offset) ← read_dependency udts b offset hash;
        read_dependencies_from fuel' udts b offset hash
      else Ok hash
  end.
Definition read_dependencies (udts : list UserDefinedType) (b : buffer) : exec dependencies_map :=
  read_dependencies_from (S (length b)) udts b 0 ∅.

(** ** Objects of dynamic size *)
Definition parse_log_string_event (dependencies : dependencies_map) (offset object_size : Z)
    (b : buffer) : exec (list (string * Value)) :=
  desc_id ← read_any_u 8 b offset;
  time ← read_any_i 8 b (offset + 8);
  let msg_offset := 8 * 2 in
  msg_size ← usize_sub object_size msg_offset;
  msg ← read_value (T := DynString) b (offset + msg_offset) (Some (wrap_u 32 msg_size));
  Ok [("time", I64 time); ("msg", String_ (dyn_str msg));
      ("desc", lookup_dependency dependencies desc_id)].

Definition parse_log_string_interop_event_v3 (udts : list UserDefinedType)
    (dependencies : dependencies_map) (b : buffer) : exec (list (string * Value)) :=
  match find_udt "StaticStringRef" udts with
  | Some string_ref_metadata =>
      time ← read_any_i 8 b 0;
      let cursor := 8 in
      level ← read_any_u 1 b cursor;
      let cursor := cursor + 1 in
      target ← parse_pod_instance string_ref_metadata udts dependencies cursor b;
      cursor ← usize_add cursor (udt_size string_ref_metadata);
      '(msg, _) ← parse_string b cursor;
      Ok [("time", I64 time); ("level", U8 level); ("target", target); ("msg", String_ msg)]
  | None => bail "Can't parse log string interop event with no metadata for StaticStringRef"
  end.

Definition parse_log_string_interop_event (udts : list UserDefinedType)
    (dependencies : dependencies_map) (offset object_size : Z) (b : buffer)
  : exec (list (string * Value)) :=
  match find_udt "StringId" udts with
  | Some stringid_metadata =>
      time ← read_any_i 8 b offset;
      let level_offset := offset + 8 in
      level ← read_any_u 4 b level_offset;
      let target_offset := level_offset + 4 in
      target ← parse_pod_instance stringid_metadata udts dependencies target_offset b;
      message_offset ← usize_add target_offset (udt_size stringid_metadata);
      msg_size ← usize_sub object_size (message_offset - offset);
      msg ← read_value (T := DynString) b message_offset (Some (wrap_u 32 msg_size));
      Ok [("time", I64 time); ("level", U32 level); ("target", target);
          ("msg", String_ (dyn_str msg))]
  | None => Ok []
  end.

Definition parse_custom_instance (udt : UserDefinedType) (udts : list UserDefinedType)
    (dependencies : dependencies_map) (offset object_size : Z) (b : buffer) : exec Value :=
  members ←
    (if String.eqb (udt_name udt) "LogStringEvent" then
       parse_log_string_event dependencies offset object_size b
     else if String.eqb (udt_name udt) "LogStringInteropEventV2" then
       parse_log_string_interop_event udts dependencies offset object_size b
     else if String.eqb (udt_name udt) "LogStringInteropEventV3" then
       end_ ← usize_add offset object_size;
       object_buffer ← slice_range b offset end_;
       match parse_log_string_interop_event_v3 udts dependencies object_buffer with
       | Err _ => Ok []
       | r => r
       end
     else Ok []);
  Ok (Object_ (mkObject (udt_name udt) members)).

(** One turn of the loop of [parse_object_buffer]: the instance and the next offset *)
Definition parse_object (dependencies : dependencies_map) (udts : list UserDefinedType)
    (b : buffer) (offset : Z) : exec (Value * (Z * Z)) :=
  type_index ← index_byte b offset;
  match udts !! Z.to_nat type_index with
  | None => bail "Invalid type index parsing transit objects: {}"
  | Some udt =>
      '(object_size, offset) ← read_object_size udt b (offset + 1);
      instance ←
        (if udt_size udt =? 0
         then parse_custom_instance udt udts dependencies offset object_size b
         else parse_pod_instance udt udts dependencies offset b);
      Ok (instance, (offset, object_size))
  end.

(** [parse_object_buffer], for a closure [fun_] over a state: it returns the
    final state, and whether every object was visited.  The closure's effects
    before an error are not in the result, as the callers drop them. *)
Fixpoint parse_object_buffer_from {S} (fuel : nat) (dependencies : dependencies_map)
    (udts : list UserDefinedType) (b : buffer) (fun_ : S -> Value -> exec (S * bool))
    (offset : Z) (s : S) : exec (S * bool) :=
  match fuel with
  | O => Diverges
  | Datatypes.S fuel' =>
      if offset <? blen b then
        '(instance, (offset, object_size)) ← parse_object dependencies udts b offset;
        '(s, continue) ← fun_ s instance;
        if continue : bool then
          offset ← usize_add offset object_size;
          parse_object_buffer_from fuel' dependencies udts b fun_ offset s
        else Ok (s, false)
      else Ok (s, true)
  end.
Definition parse_object_buffer {S} (dependencies : dependencies_map)
    (udts : list UserDefinedType) (b : buffer) (fun_ : S -> Value -> exec (S * bool))
    (s : S) : exec (S * bool) :=
  parse_object_buffer_from (Datatypes.S (length b)) dependencies udts b fun_ 0 s.
