(* ===== verification/PodParser.v ===== *)
(** * Parsing plain structures

    [tracing/src/string_id.rs], and what [parse_pod_instance] makes of the
    bytes of a structure whose metadata is derived: an object with one member
    per field, whatever layout the compiler chose. *)

From S2P Require Import Prelude Float Transit Pod Parser.

(** ** string_id.rs *)
Record StringId := mkStringId { sid_ptr : Z; sid_len : Z }.

Definition StringId_from (src : str_ref) : StringId :=
  mkStringId (str_ptr src) (wrap_u 32 (str_len src)).
Definition StaticString_from_id (src : StringId) : StaticString :=
  mkStaticString (sid_len src) (sid_ptr src).
Definition StringId_id (s : StringId) : Z := sid_ptr s.

#[export] Instance StringId_Pod : Pod StringId := {|
  decl := mkStruct "StringId"
    [mkField "ptr" (Ptr "* const u8") 8; mkField "len" (Path "u32") 4];
  to_fields s := [u64_bytes (sid_ptr s); u32_bytes (sid_len s)];
  of_fields fs :=
    match fs with
    | [ptr; len] => Some (mkStringId (u64_of ptr) (u32_of len))
    | _ => None
    end
|}.

Definition ptr_offset `{Abi} : Z := nth 0 (offsets_of (decl StringId)) 0.

#[export] Instance StringId_Reflect `{Abi} : Reflect StringId :=
  mkUDT "StringId" (size_of (decl StringId))
    [mkMember "id" "usize" ptr_offset 8 true] true [].

Definition sid_ok (s : StringId) : Prop := in_u 64 (sid_ptr s) /\ in_u 32 (sid_len s).

(** The declarations' side conditions: positive sizes, and field bytes of these sizes *)
Ltac solve_fit :=
  split; [repeat constructor; cbn [f_size]; lia
         | cbn; unfold u32_bytes, u64_bytes, f64_bytes; rewrite ?blen_le_split;
           rewrite ?blen_pod_bytes by assumption; reflexivity].

#[export] Program Instance StringId_LawfulPod : LawfulPod StringId := {| pod_ok := sid_ok |}.
Next Obligation. intros v Hv. solve_fit. Qed.
Next Obligation.
  intros [p l] [Hp Hl]. cbn in *. by rewrite u64_of_bytes, u32_of_bytes.
Qed.

(** ** Members of derived structures *)
Lemma read_bytes_sub b x n bs o k :
  read_bytes b x n = Ok bs -> 0 <= o -> 0 <= k -> o + k <= n ->
  read_bytes b (x + o) k = Ok (sub_bytes bs o k).
Proof.
  intros H Ho Hk Hle. apply read_bytes_Ok in H as (Hx & Hn & Hb & ->).
  unfold read_bytes. rewrite (proj2 (in_range_true _ _ _)) by lia. f_equal.
  apply list_eq. intros i. rewrite !sub_bytes_lookup by lia.
  destruct (Z.ltb_spec (Z.of_nat i) k); [|done].
  rewrite (proj2 (Z.ltb_lt _ _)) by lia. f_equal. lia.
Qed.

Lemma read_bytes_prefix b x n bs :
  read_bytes b x n = Ok bs -> read_bytes b x (blen bs) = Ok bs.
Proof.
  intros H. pose proof H as H'. apply read_bytes_Ok in H' as (Hx & Hn & Hb & ->).
  replace (blen (sub_bytes b x n)) with n; [done|].
  unfold sub_bytes, blen in *. rewrite length_take, length_drop. lia.
Qed.

Lemma read_any_u_bytes n b ptr bs :
  read_bytes b ptr (Z.of_nat n) = Ok bs -> read_any_u n b ptr = Ok (le_combine bs).
Proof. intros H. unfold read_any_u. by rewrite H. Qed.

Section reads.
Context {HAbi : Abi} {HA : LawfulAbi}.
Context (udts : list UserDefinedType) (deps : dependencies_map).

(** The bytes [bs] of a field are read as the value [v]. *)
Definition reads (f : field) (bs : buffer) (v : Value) : Prop :=
  forall b base o,
    read_bytes b (base + o) (f_size f) = Ok bs -> 0 <= base -> 0 <= o -> blen b < 2 ^ 63 ->
    parse_member
      (fun u ptr => parse_pod_instance_fuel (length udts) u udts deps ptr b)
      udts deps base b (derive_member f o) = Ok (f_name f, v).

Lemma reads_reference n t key :
  (metadata_from_type t).2 = true -> in_u 64 key ->
  reads (mkField n t 8) (u64_bytes key) (lookup_dependency deps key).
Proof.
  intros Ht Hk b base o Hr Hb Ho Hlt. unfold parse_member, derive_member. cbn [f_type f_name].
  destruct (metadata_from_type t) as [tn r]. cbn in Ht |- *. subst r.
  rewrite usize_add_Ok by (apply read_bytes_Ok in Hr; cbn in Hr; lia). cbn [m_is_reference m_size m_name m_offset Z.ltb Z.compare Pos.compare Pos.compare_cont mbind exec_bind].
  rewrite (read_any_u_bytes 8 _ _ _ Hr). cbn [mbind exec_bind].
  do 2 f_equal. unfold lookup_dependency. f_equal. f_equal.
  by apply (le_combine_split_u 8).
Qed.

Lemma reads_intrinsic {A} (read : buffer -> Z -> exec A) size (mk : A -> Value) n t bs v :
  (forall pp b base m, m_name m = n -> m_type_name m = t -> m_is_reference m = false ->
     m_size m = size ->
     parse_member pp udts deps base b m =
     (value ← read_member read size m base b mk; Ok (n, value))) ->
  (forall b ptr, read_bytes b ptr size = Ok bs -> read b ptr = Ok v) ->
  reads (mkField n (Path t) size) bs (mk v).
Proof.
  intros Hp Hv b base o Hr Hb Ho Hlt. rewrite Hp by done.
  unfold read_member, derive_member. cbn. rewrite Z.eqb_refl. cbn.
  cbn in Hr. rewrite usize_add_Ok by (apply read_bytes_Ok in Hr; lia). cbn. by rewrite (Hv _ _ Hr).
Qed.

Lemma reads_u32 n z : in_u 32 z -> reads (mkField n (Path "u32") 4) (u32_bytes z) (U32 z).
Proof.
  intros H. eapply (reads_intrinsic (read_any_u 4) 4 U32).
  - intros ? ? ? m Hn Ht Hr Hs. unfold parse_member. by rewrite Hr, Ht, Hn.
  - intros b ptr Hr. rewrite (read_any_u_bytes 4 _ _ _ Hr). f_equal. by apply u32_of_bytes.
Qed.

Lemma reads_u64 n z : in_u 64 z -> reads (mkField n (Path "u64") 8) (u64_bytes z) (U64 z).
Proof.
  intros H. eapply (reads_intrinsic (read_any_u 8) 8 U64).
  - intros ? ? ? m Hn Ht Hr Hs. unfold parse_member. by rewrite Hr, Ht, Hn.
  - intros b ptr Hr. rewrite (read_any_u_bytes 8 _ _ _ Hr). f_equal. by apply u64_of_bytes.
Qed.

Lemma reads_i64 n z : in_i 64 z -> reads (mkField n (Path "i64") 8) (i64_bytes z) (I64 z).
Proof.
  intros H. eapply (reads_intrinsic (read_any_i 8) 8 I64).
  - intros ? ? ? m Hn Ht Hr Hs. unfold parse_member. by rewrite Hr, Ht, Hn.
  - intros b ptr Hr. unfold read_any_i. rewrite (read_any_u_bytes 8 _ _ _ Hr).
    cbn [mbind exec_bind]. f_equal. by apply i64_of_bytes.
Qed.

Lemma reads_f64 n x : f64_ok x = true -> reads (mkField n (Path "f64") 8) (f64_bytes x) (F64 x).
Proof.
  intros H. eapply (reads_intrinsic read_any_f64 8 F64).
  - intros ? ? ? m Hn Ht Hr Hs. unfold parse_member. by rewrite Hr, Ht, Hn.
  - intros b ptr Hr. unfold read_any_f64. rewrite (read_any_u_bytes 8 _ _ _ Hr).
    cbn [mbind exec_bind]. f_equal. by apply f64_of_bytes.
Qed.

(** A structure, when its fields are read *)
Lemma parse_fields b base os fs vs fields :
  0 <= base -> blen b < 2 ^ 63 ->
  Forall2 (fun o f => read_bytes b (base + o) (blen f) = Ok f /\ 0 <= o) os fs ->
  map blen fs = map f_size fields ->
  Forall3 reads fields fs vs ->
  mapM_exec
    (parse_member (fun u ptr => parse_pod_instance_fuel (length udts) u udts deps ptr b)
       udts deps base b) (zip_with derive_member fields os) =
  Ok (zip (map f_name fields) vs).
Proof.
  intros Hbase Hlen Hos Hsz Hr. revert fields vs Hsz Hr.
  induction Hos as [|o f os fs [Ho Ho0] _ IH]; intros fields vs Hsz Hr;
    inversion Hr as [|fd f' v fields' fs' vs' Hf Hfs]; subst; [done|].
  cbn [map] in Hsz. injection Hsz as Hx Hsz. cbn [zip_with mapM_exec map zip].
  rewrite Hf with (b := b); [| |done|done|done].
  - cbn [mbind exec_bind]. by rewrite (IH fields' vs').
  - by rewrite <- Hx.
Qed.

Lemma parse_derived ro d fs vs p s :
  fields_fit d fs -> Forall3 reads (s_fields d) fs vs ->
  blen (p ++ struct_bytes d fs ++ s) < 2 ^ 63 ->
  parse_pod_instance (derive_reflect_impl ro d) udts deps (blen p)
    (p ++ struct_bytes d fs ++ s) =
  Ok (Object_ (mkObject (s_name d) (zip (map f_name (s_fields d)) vs))).
Proof.
  intros Hfit Hr Hlen. destruct (struct_bytes_ok d fs Hfit) as [Hsz Hos].
  unfold parse_pod_instance, derive_reflect_impl.
  cbn [parse_pod_instance_fuel udt_members udt_name udt_is_reference].
  rewrite (parse_fields _ _ _ fs vs); [done|apply blen_nonneg|done| |apply Hfit|done].
  apply Forall2_lookup. intros i.
  destruct (offsets_of d !! i) as [o|] eqn:Eo, (fs !! i) as [f|] eqn:Ef;
    rewrite Forall2_lookup in Hos; specialize (Hos i); rewrite Eo, Ef in Hos;
    inversion Hos as [? ? Hof|]; subst; constructor.
  destruct Hfit as [Hpos Hf].
  assert (map blen fs !! i = Some (blen f)) as Hbf by (by rewrite list_lookup_fmap, Ef).
  rewrite Hf, list_lookup_fmap in Hbf.
  destruct (s_fields d !! i) as [fd|] eqn:Efd; [|discriminate Hbf]. injection Hbf as Hbf.
  destruct (field_offset_bounds d i o fd Hpos Eo Efd) as [Ho0 Hob]. split; [|done].
  rewrite read_bytes_app by blia. rewrite <- Hof at 2.
  unfold read_bytes. rewrite (proj2 (in_range_true _ _ _)) by blia. done.
Qed.

(** The offset of the pointer of a [StringId] *)
Lemma StringId_ptr_bytes s :
  sid_ok s ->
  0 <= ptr_offset /\ ptr_offset + 8 <= size_of (decl StringId) /\
  sub_bytes (pod_bytes s) ptr_offset 8 = u64_bytes (sid_ptr s).
Proof.
  intros Hs. pose proof (pod_fit s Hs) as Hfit.
  destruct (struct_bytes_ok _ _ Hfit) as [_ Hos]. unfold ptr_offset, pod_bytes.
  pose proof (fun o f => field_offset_bounds (decl StringId) 0 o f (proj1 Hfit)) as Hb.
  cbn [to_fields StringId_Pod] in *.
  destruct (offsets_of (decl StringId)) as [|o os]; inversion Hos as [|? ? ? ? Ho]; subst.
  cbn [nth]. destruct (Hb o _ eq_refl eq_refl) as [? ?]. cbn [f_size] in *.
  split; [done|]. split; [done|].
  unfold u64_bytes at 2 in Ho. rewrite blen_le_split in Ho. exact Ho.
Qed.

(** An identifier of a string is read as the string that the dependencies have for it. *)
Lemma parse_StringId fuel s b ptr :
  sid_ok s -> 0 <= ptr -> blen b < 2 ^ 63 ->
  read_bytes b ptr (size_of (decl StringId)) = Ok (pod_bytes s) ->
  parse_pod_instance_fuel (S fuel) (reflect StringId) udts deps ptr b =
  Ok (lookup_dependency deps (sid_ptr s)).
Proof.
  intros Hs Hptr Hlen Hr. destruct (StringId_ptr_bytes s Hs) as (Ho & Hsz & Hbs).
  cbn [parse_pod_instance_fuel reflect StringId_Reflect udt_members mapM_exec].
  unfold parse_member at 1. cbn [m_is_reference m_size m_name m_offset].
  pose proof (read_bytes_Ok _ _ _ _ Hr) as (_ & _ & Hin & _).
  rewrite usize_add_Ok by lia. cbn [mbind exec_bind]. unfold read_any_u.
  change (Z.of_nat 8) with 8.
  rewrite (read_bytes_sub _ _ _ _ _ 8 Hr) by lia.
  rewrite Hbs. cbn. do 2 f_equal. apply u64_of_bytes, Hs.
Qed.

Lemma reads_StringId n s :
  find_udt "StringId" udts = Some (reflect StringId) -> sid_ok s ->
  reads (mkField n (Path "StringId") (size_of (decl StringId))) (pod_bytes s)
    (lookup_dependency deps (sid_ptr s)).
Proof.
  intros Hf Hs b base o Hr Hb Ho Hlt. unfold parse_member, derive_member. cbn [f_type f_name f_size metadata_from_type m_is_reference m_type_name m_name m_offset m_size].
  cbn [String.eqb Ascii.eqb Bool.eqb orb]. rewrite Hf.
  cbn [f_size] in Hr. pose proof (read_bytes_Ok _ _ _ _ Hr) as (? & ? & ? & _).
  destruct (StringId_ptr_bytes s Hs) as (? & ? & _).
  rewrite usize_add_Ok by lia. cbn [mbind exec_bind].
  assert (exists k, length udts = Datatypes.S k) as [k ->].
  { destruct udts; [discriminate Hf|]. eexists; reflexivity. }
  by rewrite (parse_StringId _ s).
Qed.
End reads.

(** The fields of a structure, one by one *)
Ltac solve_reads :=
  repeat (apply Forall3_cons; [|]); try apply Forall3_nil;
  first [by apply reads_reference | by apply reads_i64 | by apply reads_u64 | by apply reads_u32
        | by apply reads_f64 | by apply reads_StringId | idtac].
