(* ===== verification/Blocks.v ===== *)
(** * Parsing what a queue serialized

    The bridge between the two ends of the pipeline: the frames that a queue
    appends on the instrumented side and the parser that reads them on the
    analytics side.  [obj_reads] and [dep_reads] are what the item of one frame
    promises to the parser; the theorems here lift these promises to whole
    buffers, so that a queue's own file only deals with single events. *)

From S2P Require Import Prelude RustString Transit Queue Pod Parser PodParser.

(** ** Metadata on the wire: [secondary_udts] is not serialized *)
Definition received (u : UserDefinedType) : UserDefinedType :=
  mkUDT (udt_name u) (udt_size u) (udt_members u) (udt_is_reference u) [].

Lemma parse_pod_received u udts deps offset b :
  parse_pod_instance (received u) udts deps offset b = parse_pod_instance u udts deps offset b.
Proof. by destruct u. Qed.

(** The closure of [parse_object_buffer] over a list of values *)
Fixpoint fold_until {S} (f : S -> Value -> exec (S * bool)) (s : S) (vs : list Value)
  : exec (S * bool) :=
  match vs with
  | [] => Ok (s, true)
  | v :: vs' => '(s, continue) ← f s v; if continue : bool then fold_until f s vs' else Ok (s, false)
  end.

Section buffers.
Context {Any : Type} `{HQ : HeterogeneousQueue Any}.
Context (m : rodata) (udts : list UserDefinedType).

(** The parser reads the frame of the item as the value [v]. *)
Definition obj_reads (deps : dependencies_map) (it : item Any) (v : Value) : Prop :=
  forall p s, blen (p ++ item_frame m it ++ s) < 2 ^ 63 ->
  exists offset size,
    parse_object deps udts (p ++ item_frame m it ++ s) (blen p) = Ok (v, (offset, size)) /\
    offset + size = blen p + blen (item_frame m it).

(** The parser reads the frame of the item as the effect [eff] on the dependencies. *)
Definition dep_reads (it : item Any) (eff : dependencies_map -> exec dependencies_map) : Prop :=
  forall p s hash, blen (p ++ item_frame m it ++ s) < 2 ^ 63 ->
  read_dependency udts (p ++ item_frame m it ++ s) (blen p) hash =
  (hash' ← eff hash; Ok (hash', blen p + blen (item_frame m it))).

Lemma item_frame_pos it : 1 <= blen (item_frame m it).
Proof.
  unfold item_frame. rewrite blen_frame. unfold header_len. destruct (item_size it); blia.
Qed.

Lemma parse_object_buffer_frames_from {S} deps (f : S -> Value -> exec (S * bool)) its vs p fuel s :
  Forall2 (obj_reads deps) its vs -> blen (p ++ frames m its) < 2 ^ 63 ->
  (length its < fuel)%nat ->
  parse_object_buffer_from fuel deps udts (p ++ frames m its) f (blen p) s = fold_until f s vs.
Proof.
  intros Hr. revert p fuel s.
  induction Hr as [|it v its vs Hit _ IH]; intros p fuel s Hb Hf;
    (destruct fuel as [|fuel]; [cbn in Hf; lia|]); cbn [parse_object_buffer_from fold_until].
  - unfold frames; cbn [map concat]. rewrite app_nil_r, Z.ltb_irrefl. done.
  - unfold frames in *. cbn [map concat] in *.
    pose proof (item_frame_pos it) as Hpos.
    rewrite (proj2 (Z.ltb_lt _ _)) by blia.
    destruct (Hit p (concat (map (item_frame m) its)) Hb) as (o & sz & -> & Hnext).
    cbn [mbind exec_bind]. destruct (f s v) as [[s' [|]]| | | |]; cbn [mbind exec_bind]; try done.
    rewrite usize_add_Ok by (rewrite Hnext; revert Hb; blia). cbn [mbind exec_bind].
    rewrite Hnext, app_assoc, <- blen_app. apply IH; [|cbn in Hf; lia].
    by rewrite <- app_assoc.
Qed.

Lemma parse_object_buffer_frames {S} deps (f : S -> Value -> exec (S * bool)) its vs s :
  Forall2 (obj_reads deps) its vs -> blen (frames m its) < 2 ^ 63 ->
  parse_object_buffer deps udts (frames m its) f s = fold_until f s vs.
Proof.
  intros Hr Hb. unfold parse_object_buffer. rewrite <- blen_nil.
  apply (parse_object_buffer_frames_from deps f its vs []); [done|done|].
  pose proof (length_frames m its). lia.
Qed.

Lemma read_dependencies_frames_from its effs p fuel hash :
  Forall2 dep_reads its effs -> blen (p ++ frames m its) < 2 ^ 63 ->
  (length its < fuel)%nat ->
  read_dependencies_from fuel udts (p ++ frames m its) (blen p) hash =
  foldM (fun h eff => eff h) hash effs.
Proof.
  intros Hr. revert p fuel hash.
  induction Hr as [|it eff its effs Hit _ IH]; intros p fuel hash Hb Hf;
    (destruct fuel as [|fuel]; [cbn in Hf; lia|]); cbn [read_dependencies_from foldM].
  - unfold frames; cbn [map concat]. rewrite app_nil_r, Z.ltb_irrefl. done.
  - unfold frames in *. cbn [map concat] in *.
    pose proof (item_frame_pos it) as Hpos.
    rewrite (proj2 (Z.ltb_lt _ _)) by blia.
    rewrite (Hit p (concat (map (item_frame m) its)) hash Hb).
    destruct (eff hash) as [h'| | | |]; cbn [mbind exec_bind]; try done.
    rewrite app_assoc, <- blen_app. apply IH; [|cbn in Hf; lia].
    by rewrite <- app_assoc.
Qed.

Lemma read_dependencies_frames its effs :
  Forall2 dep_reads its effs -> blen (frames m its) < 2 ^ 63 ->
  read_dependencies udts (frames m its) = foldM (fun h eff => eff h) ∅ effs.
Proof.
  intros Hr Hb. unfold read_dependencies. rewrite <- blen_nil.
  apply (read_dependencies_frames_from its effs []); [done|done|].
  pose proof (length_frames m its). lia.
Qed.

Lemma read_object_size_const u b o n :
  udt_size u = n -> n <> 0 -> read_object_size u b o = Ok (n, o).
Proof.
  intros <- H. unfold read_object_size. by rewrite (proj2 (Z.eqb_neq _ _) H).
Qed.

Lemma read_object_size_dynamic u i bs p s :
  udt_size u = 0 -> blen bs < 2 ^ 32 ->
  read_object_size u (p ++ frame i Dynamic bs ++ s) (blen p + 1) =
  Ok (blen bs, blen p + 5).
Proof.
  intros H Hl. unfold read_object_size. rewrite H, Z.eqb_refl.
  pose proof (read_any_u_le_split 4 (blen bs) (p ++ [byte.of_Z i]) (bs ++ s)) as Hr.
  rewrite <- app_assoc in Hr. cbn [frame app] in *.
  autorewrite with mm_blen in Hr. rewrite <- app_assoc.
  replace (blen p + (1 + 0)) with (blen p + 1) in Hr by lia.
  rewrite Hr; [|split; [apply blen_nonneg|done]]. cbn [mbind exec_bind]. do 2 f_equal. lia.
Qed.
End buffers.

(** ** Items of one type *)
Section frames.
Context {HAbi : Abi} {HA : LawfulAbi}.
Context (udts : list UserDefinedType).

Lemma size_of_pos d fs : s_fields d <> [] -> fields_fit d fs -> 0 < size_of d.
Proof.
  intros Hne [Hpos Hf]. destruct (abi_layout d Hpos) as (Hl & _ & _).
  destruct (s_fields d) as [|f l] eqn:E; [done|].
  destruct (offsets_of d) as [|o os] eqn:Eo; [discriminate Hl|].
  rewrite <- E in Hpos.
  destruct (field_offset_bounds d 0 o f Hpos) as [? ?]; [by rewrite Eo|by rewrite E|].
  rewrite E in Hpos. inversion Hpos; subst. lia.
Qed.

Lemma index_byte_frame i sz bs p s :
  0 <= i < 256 -> index_byte (p ++ frame i sz bs ++ s) (blen p) = Ok i.
Proof.
  intros Hi. unfold frame. change ((?x :: ?l) ++ s) with ([x] ++ (l ++ s)).
  rewrite index_byte_here. by rewrite byte_of_index.
Qed.

Lemma parse_derived_frame deps ro d fs vs i p s :
  fields_fit d fs -> Forall3 (reads udts deps) (s_fields d) fs vs ->
  blen (p ++ frame i (Const (size_of d)) (struct_bytes d fs) ++ s) < 2 ^ 63 ->
  parse_pod_instance (received (derive_reflect_impl ro d)) udts deps (blen p + 1)
    (p ++ frame i (Const (size_of d)) (struct_bytes d fs) ++ s) =
  Ok (Object_ (mkObject (s_name d) (zip (map f_name (s_fields d)) vs))).
Proof.
  intros Hfit Hr Hb. rewrite parse_pod_received.
  pose proof (parse_derived udts deps ro d fs vs (p ++ [byte.of_Z i]) s Hfit Hr) as H.
  rewrite <- app_assoc in H. cbn [frame app] in *. autorewrite with mm_blen in H.
  rewrite Z.add_0_r in H. apply H. revert Hb. blia.
Qed.

(** A plain structure among the objects of a block *)
Lemma parse_object_pod deps ro d fs vs i p s :
  0 <= i < 256 -> udts !! Z.to_nat i = Some (received (derive_reflect_impl ro d)) ->
  s_fields d <> [] -> fields_fit d fs -> Forall3 (reads udts deps) (s_fields d) fs vs ->
  blen (p ++ frame i (Const (size_of d)) (struct_bytes d fs) ++ s) < 2 ^ 63 ->
  parse_object deps udts (p ++ frame i (Const (size_of d)) (struct_bytes d fs) ++ s) (blen p) =
  Ok (Object_ (mkObject (s_name d) (zip (map f_name (s_fields d)) vs)), (blen p + 1, size_of d)).
Proof.
  intros Hi Hu Hne Hfit Hr Hb. unfold parse_object.
  pose proof (size_of_pos d fs Hne Hfit) as Hpos.
  rewrite index_byte_frame by done. cbn [mbind exec_bind]. rewrite Hu.
  rewrite (read_object_size_const _ _ _ (size_of d)); [|done|lia]. cbn [mbind exec_bind].
  change (udt_size (received _)) with (size_of d).
  rewrite (proj2 (Z.eqb_neq _ _)) by lia.
  by rewrite (parse_derived_frame deps ro d fs vs).
Qed.

(** A static string among the dependencies *)
Lemma read_dependency_string m ss str i p s hash :
  0 <= i < 256 -> udts !! Z.to_nat i = Some (reflect StaticString) ->
  ss_ok m ss -> ss_bytes m ss = bytes_of str -> valid_string str ->
  blen (p ++ frame i Dynamic (wire m ss) ++ s) < 2 ^ 63 ->
  read_dependency udts (p ++ frame i Dynamic (wire m ss) ++ s) (blen p) hash =
  (hash' ← insert_new hash (ss_ptr ss) (String_ str);
   Ok (hash', blen p + blen (frame i Dynamic (wire m ss)))).
Proof.
  intros Hi Hu Hok Hstr Hv Hb. unfold read_dependency.
  rewrite index_byte_frame by done. cbn [mbind exec_bind]. rewrite Hu.
  pose proof (wire_size m ss Hok) as [_ Hsz]. pose proof Hok as (Hptr & Hlen & _).
  pose proof (blen_frame i Dynamic (wire m ss)) as Hbf. cbn [header_len] in Hbf.
  rewrite read_object_size_dynamic by done. cbn [mbind exec_bind].
  change (String.eqb (udt_name (reflect StaticString)) "StaticString") with true. cbn iota.
  assert (blen (wire m ss) = ss_len ss + 8) as Hw
    by (cbn [wire StaticString_Lawful]; rewrite blen_app, blen_le_split, ss_bytes_blen by done; lia).
  assert (p ++ frame i Dynamic (wire m ss) ++ s =
    (p ++ byte.of_Z i :: le_split 4 (blen (wire m ss))) ++ wire m ss ++ s) as Hsplit
    by (cbn [frame app]; rewrite <- !app_assoc; reflexivity).
  assert (blen (p ++ byte.of_Z i :: le_split 4 (blen (wire m ss))) = blen p + 5) as Hpre by blia.
  rewrite Hsplit in Hb |- *. clear Hsplit. rewrite Hbf, <- Hpre.
  remember (p ++ byte.of_Z i :: le_split 4 (blen (wire m ss))) as pre eqn:Epre. clear Epre.
  change (wire m ss) with (le_split 8 (ss_ptr ss) ++ ss_bytes m ss) in *.
  rewrite <- (app_assoc (le_split 8 _)). rewrite read_any_u_le_split by done. cbn [mbind exec_bind].
  rewrite usize_sub_Ok by lia. cbn [mbind exec_bind].
  rewrite (app_assoc pre).
  replace (blen pre + 8) with (blen (pre ++ le_split 8 (ss_ptr ss))) by blia.
  rewrite read_bytes_here by blia. cbn [mbind exec_bind].
  rewrite Hstr, from_utf8_bytes by done. cbn [unwrap mbind exec_bind].
  destruct (insert_new _ _ _); cbn [mbind exec_bind]; try done.
  rewrite usize_add_Ok by (rewrite <- Hstr; revert Hb; rewrite !blen_app; blia).
  cbn [mbind exec_bind]. rewrite <- Hstr. do 2 f_equal. lia.
Qed.

(** A record among the dependencies *)
Lemma read_dependency_pod hash ro d fs vs key i p s :
  0 <= i < 256 -> udts !! Z.to_nat i = Some (received (derive_reflect_impl ro d)) ->
  s_fields d <> [] -> fields_fit d fs -> Forall3 (reads udts hash) (s_fields d) fs vs ->
  String.eqb (s_name d) "StaticString" = false ->
  String.eqb (s_name d) "StaticStringDependency" = false ->
  get get_u64 (mkObject (s_name d) (zip (map f_name (s_fields d)) vs)) "id" = Ok key ->
  blen (p ++ frame i (Const (size_of d)) (struct_bytes d fs) ++ s) < 2 ^ 63 ->
  read_dependency udts (p ++ frame i (Const (size_of d)) (struct_bytes d fs) ++ s) (blen p) hash =
  (hash' ← insert_new hash key
     (Object_ (mkObject (s_name d) (zip (map f_name (s_fields d)) vs)));
   Ok (hash', blen p + blen (frame i (Const (size_of d)) (struct_bytes d fs)))).
Proof.
  intros Hi Hu Hne Hfit Hr Hn1 Hn2 Hid Hb. unfold read_dependency.
  pose proof (size_of_pos d fs Hne Hfit) as Hpos.
  rewrite index_byte_frame by done. cbn [mbind exec_bind]. rewrite Hu.
  rewrite (read_object_size_const _ _ _ (size_of d)); [|done|lia]. cbn [mbind exec_bind].
  change (udt_size (received _)) with (size_of d).
  change (udt_name (received _)) with (s_name d).
  rewrite Hn1, Hn2, (proj2 (Z.eqb_neq _ _)) by lia.
  rewrite (parse_derived_frame hash ro d fs vs) by done. cbn [mbind exec_bind].
  rewrite Hid. cbn [mbind exec_bind].
  destruct (insert_new _ _ _); cbn [mbind exec_bind]; try done.
  pose proof (blen_frame i (Const (size_of d)) (struct_bytes d fs)) as Hbf. cbn [header_len] in Hbf.
  destruct (struct_bytes_ok d fs Hfit) as [Hsz _].
  rewrite usize_add_Ok by (revert Hb; rewrite !blen_app, Hbf; blia).
  cbn [mbind exec_bind]. do 2 f_equal. lia.
Qed.
End frames.

(** An object of dynamic size stands after the five bytes of its header. *)
Lemma frame_dynamic_split i bs p s :
  exists pre, p ++ frame i Dynamic bs ++ s = pre ++ bs ++ s /\ blen pre = blen p + 5.
Proof.
  exists (p ++ byte.of_Z i :: le_split 4 (blen bs)). split; [|blia].
  cbn [frame app]. by rewrite <- !app_assoc.
Qed.

Lemma parse_object_dynamic deps udts u i bs p s :
  0 <= i < 256 -> udts !! Z.to_nat i = Some u -> udt_size u = 0 -> blen bs < 2 ^ 32 ->
  parse_object deps udts (p ++ frame i Dynamic bs ++ s) (blen p) =
  (instance ← parse_custom_instance u udts deps (blen p + 5) (blen bs)
     (p ++ frame i Dynamic bs ++ s);
   Ok (instance, (blen p + 5, blen bs))).
Proof.
  intros Hi Hu Hsz Hl. unfold parse_object. rewrite index_byte_frame by done.
  cbn [mbind exec_bind]. rewrite Hu, read_object_size_dynamic by done.
  cbn [mbind exec_bind]. by rewrite Hsz, Z.eqb_refl.
Qed.

(** ** Items of plain structures *)
Section pod_items.
Context {HAbi : Abi} {HA : LawfulAbi}.
Context {Any : Type} `{HQ : HeterogeneousQueue Any}.
Context {T : Type} `{HP : LawfulPod T}.
Context (m : rodata) (udts : list UserDefinedType) (ro : string -> UserDefinedType).
Context (i : Z) (any : T -> Any) (v : T) (Hi : 0 <= i < 256).
Context (Harg : type_args Any !! Z.to_nat i =
  Some (TypeArg T (derive_reflect_impl ro (decl T)) any)).
Hypothesis Hudt : udts !! Z.to_nat i = Some (received (derive_reflect_impl ro (decl T))).
Hypothesis Hfields : s_fields (decl T) <> [].
Hypothesis Hok : pod_ok v.

Lemma pod_item_obj_reads deps vs :
  Forall3 (reads udts deps) (s_fields (decl T)) (to_fields v) vs ->
  obj_reads m udts deps (Item T i (derive_reflect_impl ro (decl T)) any v Hi Harg)
    (Object_ (mkObject (s_name (decl T)) (zip (map f_name (s_fields (decl T))) vs))).
Proof.
  intros Hr p s Hb. do 2 eexists.
  split; [apply (parse_object_pod udts deps ro (decl T) (to_fields v) vs i);
    try done; by apply pod_fit|].
  unfold item_frame. rewrite blen_frame. cbn [header_len item_size it_type it_ser IN_PROC_SIZE
    Pod_InProcSerialize item_wire it_value it_lawful wire Pod_Lawful].
  rewrite (blen_pod_bytes v Hok). lia.
Qed.

Lemma pod_item_dep_reads key vs :
  (forall hash, Forall3 (reads udts hash) (s_fields (decl T)) (to_fields v) (vs hash)) ->
  String.eqb (s_name (decl T)) "StaticString" = false ->
  String.eqb (s_name (decl T)) "StaticStringDependency" = false ->
  (forall hash, get get_u64
     (mkObject (s_name (decl T)) (zip (map f_name (s_fields (decl T))) (vs hash))) "id" = Ok key) ->
  dep_reads m udts (Item T i (derive_reflect_impl ro (decl T)) any v Hi Harg)
    (fun hash => insert_new hash key
      (Object_ (mkObject (s_name (decl T)) (zip (map f_name (s_fields (decl T))) (vs hash))))).
Proof.
  intros Hr Hn1 Hn2 Hid p s hash Hb.
  apply (read_dependency_pod udts hash ro (decl T) (to_fields v) (vs hash) key i); try done.
  by apply pod_fit.
Qed.
End pod_items.

(** Items of static strings *)
Lemma string_item_dep_reads {Any} `{HQ : HeterogeneousQueue Any} m udts i u any s Hi Harg str :
  udts !! Z.to_nat i = Some (reflect StaticString) ->
  ss_ok m s -> ss_bytes m s = bytes_of str -> valid_string str ->
  dep_reads m udts (Item (Any := Any) StaticString i u any s Hi Harg)
    (fun hash => insert_new hash (ss_ptr s) (String_ str)).
Proof. intros Hu Hok Hs Hv p q hash Hb. by apply read_dependency_string. Qed.
