(* ===== verification/Levels.v ===== *)
(** * Levels and filters

    [tracing/src/levels.rs]: the levels of log entries and of measures, their
    filters, the comparisons between them, their names, and the maxima that
    the process compares them with.  The traits [PartialEq], [PartialOrd] and
    [Ord] are classes and their implementations are instances. *)

From S2P Require Import Prelude.

(** ** The enumerations *)
Module Level.
Inductive t := Fatal | Error | Warn | Info | Debug | Trace.
#[export] Instance eq_dec : EqDecision t.
Proof. solve_decision. Defined.
(** [self as u32] *)
Definition as_u32 (l : t) : Z :=
  match l with Fatal => 1 | Error => 2 | Warn => 3 | Info => 4 | Debug => 5 | Trace => 6 end.
Definition from_value (value : Z) : option t :=
  match value with
  | 1 => Some Fatal | 2 => Some Error | 3 => Some Warn
  | 4 => Some Info | 5 => Some Debug | 6 => Some Trace
  | _ => None
  end.
Definition from_u32 (u : Z) : option t :=
  match u with
  | 1 => Some Fatal | 2 => Some Error | 3 => Some Warn
  | 4 => Some Info | 5 => Some Debug | 6 => Some Trace
  | _ => None
  end.
Definition max : t := Trace.
End Level.
Abbreviation Level := Level.t.

Module LevelFilter.
Inductive t := Off | Fatal | Error | Warn | Info | Debug | Trace.
#[export] Instance eq_dec : EqDecision t.
Proof. solve_decision. Defined.
Definition as_u32 (l : t) : Z :=
  match l with
  | Off => 0 | Fatal => 1 | Error => 2 | Warn => 3 | Info => 4 | Debug => 5 | Trace => 6
  end.
Definition from_u32 (u : Z) : option t :=
  match u with
  | 0 => Some Off | 1 => Some Fatal | 2 => Some Error | 3 => Some Warn
  | 4 => Some Info | 5 => Some Debug | 6 => Some Trace
  | _ => None
  end.
Definition max : t := Trace.
Definition to_level (f : t) : option Level := Level.from_u32 (as_u32 f).
End LevelFilter.
Abbreviation LevelFilter := LevelFilter.t.

Module Verbosity.
Inductive t := Min | Med | Max.
#[export] Instance eq_dec : EqDecision t.
Proof. solve_decision. Defined.
Definition as_u32 (l : t) : Z := match l with Min => 1 | Med => 2 | Max => 3 end.
Definition from_usize (u : Z) : option t :=
  match u with 1 => Some Min | 2 => Some Med | 3 => Some Max | _ => None end.
Definition from_u32 (u : Z) : option t :=
  match u with 1 => Some Min | 2 => Some Med | 3 => Some Max | _ => None end.
Definition max : t := Max.
End Verbosity.
Abbreviation Verbosity := Verbosity.t.

Module LodFilter.
Inductive t := Off | Min | Med | Max.
#[export] Instance eq_dec : EqDecision t.
Proof. solve_decision. Defined.
Definition as_u32 (l : t) : Z := match l with Off => 0 | Min => 1 | Med => 2 | Max => 3 end.
Definition from_usize (u : Z) : option t :=
  match u with 0 => Some Off | 1 => Some Min | 2 => Some Med | 3 => Some Max | _ => None end.
Definition from_u32 (u : Z) : option t :=
  match u with 0 => Some Off | 1 => Some Min | 2 => Some Med | 3 => Some Max | _ => None end.
Definition max : t := Max.
Definition to_level (f : t) : option Verbosity := Verbosity.from_u32 (as_u32 f).
End LodFilter.
Abbreviation LodFilter := LodFilter.t.

#[export] Existing Instances Level.eq_dec LevelFilter.eq_dec Verbosity.eq_dec LodFilter.eq_dec.

Definition Level_to_level_filter (l : Level) : exec LevelFilter :=
  unwrap (LevelFilter.from_u32 (Level.as_u32 l)).
Definition Verbosity_to_level_filter (l : Verbosity) : exec LodFilter :=
  unwrap (LodFilter.from_u32 (Verbosity.as_u32 l)).

(** ** The comparison traits *)
Class PartialEq (A B : Type) := eq_ : A -> B -> bool.
Class PartialOrd (A B : Type) := {
  partial_cmp : A -> B -> option comparison;
  lt : A -> B -> bool;
  le : A -> B -> bool;
  gt : A -> B -> bool;
  ge : A -> B -> bool
}.
Class Ord (A : Type) := cmp : A -> A -> comparison.

#[export] Instance Level_eq_LevelFilter : PartialEq Level LevelFilter :=
  fun self other => Level.as_u32 self =? LevelFilter.as_u32 other.
#[export] Instance Level_Ord : Ord Level :=
  fun self other => Level.as_u32 self ?= Level.as_u32 other.
#[export] Instance Level_PartialOrd : PartialOrd Level Level := {|
  partial_cmp self other := Some (cmp self other);
  lt self other := Level.as_u32 self <? Level.as_u32 other;
  le self other := Level.as_u32 self <=? Level.as_u32 other;
  gt self other := Level.as_u32 self >? Level.as_u32 other;
  ge self other := Level.as_u32 self >=? Level.as_u32 other
|}.
#[export] Instance Level_PartialOrd_LevelFilter : PartialOrd Level LevelFilter := {|
  partial_cmp self other := Some (Level.as_u32 self ?= LevelFilter.as_u32 other);
  lt self other := Level.as_u32 self <? LevelFilter.as_u32 other;
  le self other := Level.as_u32 self <=? LevelFilter.as_u32 other;
  gt self other := Level.as_u32 self >? LevelFilter.as_u32 other;
  ge self other := Level.as_u32 self >=? LevelFilter.as_u32 other
|}.

#[export] Instance LevelFilter_eq_Level : PartialEq LevelFilter Level :=
  fun self other => eq_ other self.
#[export] Instance LevelFilter_Ord : Ord LevelFilter :=
  fun self other => LevelFilter.as_u32 self ?= LevelFilter.as_u32 other.
#[export] Instance LevelFilter_PartialOrd : PartialOrd LevelFilter LevelFilter := {|
  partial_cmp self other := Some (cmp self other);
  lt self other := LevelFilter.as_u32 self <? LevelFilter.as_u32 other;
  le self other := LevelFilter.as_u32 self <=? LevelFilter.as_u32 other;
  gt self other := LevelFilter.as_u32 self >? LevelFilter.as_u32 other;
  ge self other := LevelFilter.as_u32 self >=? LevelFilter.as_u32 other
|}.
#[export] Instance LevelFilter_PartialOrd_Level : PartialOrd LevelFilter Level := {|
  partial_cmp self other := Some (LevelFilter.as_u32 self ?= Level.as_u32 other);
  lt self other := LevelFilter.as_u32 self <? Level.as_u32 other;
  le self other := LevelFilter.as_u32 self <=? Level.as_u32 other;
  gt self other := LevelFilter.as_u32 self >? Level.as_u32 other;
  ge self other := LevelFilter.as_u32 self >=? Level.as_u32 other
|}.

#[export] Instance Verbosity_eq_LodFilter : PartialEq Verbosity LodFilter :=
  fun self other => Verbosity.as_u32 self =? LodFilter.as_u32 other.
#[export] Instance Verbosity_Ord : Ord Verbosity :=
  fun self other => Verbosity.as_u32 self ?= Verbosity.as_u32 other.
#[export] Instance Verbosity_PartialOrd : PartialOrd Verbosity Verbosity := {|
  partial_cmp self other := Some (cmp self other);
  lt self other := Verbosity.as_u32 self <? Verbosity.as_u32 other;
  le self other := Verbosity.as_u32 self <=? Verbosity.as_u32 other;
  gt self other := Verbosity.as_u32 self >? Verbosity.as_u32 other;
  ge self other := Verbosity.as_u32 self >=? Verbosity.as_u32 other
|}.
#[export] Instance Verbosity_PartialOrd_LodFilter : PartialOrd Verbosity LodFilter := {|
  partial_cmp self other := Some (Verbosity.as_u32 self ?= LodFilter.as_u32 other);
  lt self other := Verbosity.as_u32 self <? LodFilter.as_u32 other;
  le self other := Verbosity.as_u32 self <=? LodFilter.as_u32 other;
  gt self other := Verbosity.as_u32 self >? LodFilter.as_u32 other;
  ge self other := Verbosity.as_u32 self >=? LodFilter.as_u32 other
|}.

#[export] Instance LodFilter_eq_Verbosity : PartialEq LodFilter Verbosity :=
  fun self other => eq_ other self.
#[export] Instance LodFilter_Ord : Ord LodFilter :=
  fun self other => LodFilter.as_u32 self ?= LodFilter.as_u32 other.
#[export] Instance LodFilter_PartialOrd : PartialOrd LodFilter LodFilter := {|
  partial_cmp self other := Some (cmp self other);
  lt self other := LodFilter.as_u32 self <? LodFilter.as_u32 other;
  le self other := LodFilter.as_u32 self <=? LodFilter.as_u32 other;
  gt self other := LodFilter.as_u32 self >? LodFilter.as_u32 other;
  ge self other := LodFilter.as_u32 self >=? LodFilter.as_u32 other
|}.
#[export] Instance LodFilter_PartialOrd_Verbosity : PartialOrd LodFilter Verbosity := {|
  partial_cmp self other := Some (LodFilter.as_u32 self ?= Verbosity.as_u32 other);
  lt self other := LodFilter.as_u32 self <? Verbosity.as_u32 other;
  le self other := LodFilter.as_u32 self <=? Verbosity.as_u32 other;
  gt self other := LodFilter.as_u32 self >? Verbosity.as_u32 other;
  ge self other := LodFilter.as_u32 self >=? Verbosity.as_u32 other
|}.

(** ** Names *)
Definition LEVEL_NAMES : list string :=
  ["OFF"; "FATAL"; "ERROR"; "WARN"; "INFO"; "DEBUG"; "TRACE"].
Definition LOD_NAMES : list string := ["OFF"; "LOW"; "MED"; "HIGH"].

(** [str::eq_ignore_ascii_case] *)
Definition to_ascii_lowercase (c : Ascii.ascii) : Ascii.ascii :=
  let n := Ascii.nat_of_ascii c in
  if ((65 <=? n) && (n <=? 90))%nat then Ascii.ascii_of_nat (n + 32) else c.
Fixpoint eq_ignore_ascii_case (a b : string) : bool :=
  match a, b with
  | EmptyString, EmptyString => true
  | String c a', String d b' =>
      Ascii.eqb (to_ascii_lowercase c) (to_ascii_lowercase d) && eq_ignore_ascii_case a' b'
  | _, _ => false
  end.

(** [NAMES.iter().position(|&name| name.eq_ignore_ascii_case(level))] *)
Fixpoint position_from (i : Z) (names : list string) (level : string) : option Z :=
  match names with
  | [] => None
  | n :: names' =>
      if eq_ignore_ascii_case n level then Some i else position_from (i + 1) names' level
  end.
Definition position (names : list string) (level : string) : option Z :=
  position_from 0 names level.

Definition ok_or {T} (t : option T) : exec T :=
  match t with Some t => Ok t | None => bail "ParseLevelError" end.

(** [opt.map(|p| from(p).unwrap())] *)
Definition map_unwrap {T} (from : Z -> option T) (p : option Z) : exec (option T) :=
  match p with
  | Some i => t ← unwrap (from i); Ok (Some t)
  | None => Ok None
  end.
(** [opt.into_iter().filter(|&idx| idx != 0)] *)
Definition filter_nonzero (p : option Z) : option Z :=
  match p with Some i => if negb (i =? 0) then Some i else None | None => None end.

Definition Level_from_str (level : string) : exec Level :=
  t ← map_unwrap Level.from_u32 (filter_nonzero (position LEVEL_NAMES level)); ok_or t.
Definition LevelFilter_from_str (level : string) : exec LevelFilter :=
  t ← map_unwrap LevelFilter.from_u32 (position LEVEL_NAMES level); ok_or t.
Definition Verbosity_from_str (level : string) : exec Verbosity :=
  t ← map_unwrap Verbosity.from_usize (filter_nonzero (position LOD_NAMES level)); ok_or t.
Definition LodFilter_from_str (level : string) : exec LodFilter :=
  t ← map_unwrap LodFilter.from_usize (position LOD_NAMES level); ok_or t.

Definition Level_as_str (l : Level) : exec string :=
  unwrap (LEVEL_NAMES !! Z.to_nat (Level.as_u32 l)).
Definition LevelFilter_as_str (f : LevelFilter) : exec string :=
  unwrap (LEVEL_NAMES !! Z.to_nat (LevelFilter.as_u32 f)).
Definition Verbosity_as_str (l : Verbosity) : exec string :=
  unwrap (LOD_NAMES !! Z.to_nat (Verbosity.as_u32 l)).
Definition LodFilter_as_str (f : LodFilter) : exec string :=
  unwrap (LOD_NAMES !! Z.to_nat (LodFilter.as_u32 f)).

(** [(a..b).map(|i| from(i).unwrap())] *)
Fixpoint iter_range {T} (from : Z -> option T) (l : list Z) : exec (list T) :=
  match l with
  | [] => Ok []
  | i :: l' => t ← unwrap (from i); ts ← iter_range from l'; Ok (t :: ts)
  end.
Definition Level_iter : exec (list Level) := iter_range Level.from_u32 (seqZ 1 6).
Definition LevelFilter_iter : exec (list LevelFilter) := iter_range LevelFilter.from_u32 (seqZ 0 7).
Definition Verbosity_iter : exec (list Verbosity) := iter_range Verbosity.from_usize (seqZ 1 3).
Definition LodFilter_iter : exec (list LodFilter) := iter_range LodFilter.from_usize (seqZ 0 4).

(** ** The maxima of the process

    The two atomics.  [transmute] of a number that is no discriminant is
    undefined behaviour. *)
Record max_filters := mkMaxFilters { MAX_LEVEL_FILTER : Z; MAX_LOD_FILTER : Z }.
Definition initial_max_filters : max_filters := mkMaxFilters 0 0.

Definition transmute {T} (from : Z -> option T) (u : Z) : exec T :=
  match from u with Some t => Ok t | None => Ub end.

Definition set_max_level (level : LevelFilter) (st : max_filters) : max_filters :=
  mkMaxFilters (LevelFilter.as_u32 level) (MAX_LOD_FILTER st).
Definition max_level (st : max_filters) : exec LevelFilter :=
  transmute LevelFilter.from_u32 (MAX_LEVEL_FILTER st).
Definition set_max_lod (level : LodFilter) (st : max_filters) : max_filters :=
  mkMaxFilters (MAX_LEVEL_FILTER st) (LodFilter.as_u32 level).
Definition max_lod (st : max_filters) : exec LodFilter :=
  transmute LodFilter.from_u32 (MAX_LOD_FILTER st).

(** The maxima fixed at compile time, from the build's configuration *)
Definition MAX_LEVEL_INNER (debug_assertions : bool) (feature : string -> bool) : LevelFilter :=
  if negb debug_assertions && feature "release_max_level_off" then LevelFilter.Off
  else if negb debug_assertions && feature "release_max_level_error" then LevelFilter.Error
  else if negb debug_assertions && feature "release_max_level_warn" then LevelFilter.Warn
  else if negb debug_assertions && feature "release_max_level_info" then LevelFilter.Info
  else if negb debug_assertions && feature "release_max_level_debug" then LevelFilter.Debug
  else if negb debug_assertions && feature "release_max_level_trace" then LevelFilter.Trace
  else if feature "max_level_off" then LevelFilter.Off
  else if feature "max_level_error" then LevelFilter.Error
  else if feature "max_level_warn" then LevelFilter.Warn
  else if feature "max_level_info" then LevelFilter.Info
  else if feature "max_level_debug" then LevelFilter.Debug
  else LevelFilter.Trace.
Definition MAX_LOD_INNER (debug_assertions : bool) (feature : string -> bool) : LodFilter :=
  if negb debug_assertions && feature "release_max_lod_off" then LodFilter.Off
  else if negb debug_assertions && feature "release_max_lod_min" then LodFilter.Min
  else if negb debug_assertions && feature "release_max_lod_med" then LodFilter.Med
  else if negb debug_assertions && feature "release_max_lod_max" then LodFilter.Max
  else if feature "max_lod_off" then LodFilter.Off
  else if feature "max_lod_min" then LodFilter.Min
  else if feature "max_lod_med" then LodFilter.Med
  else LodFilter.Max.

(** ** Lemmas *)
Lemma Level_as_u32_range l : 1 <= Level.as_u32 l <= 6.
Proof. destruct l; cbn; lia. Qed.
Lemma Verbosity_as_u32_range l : 1 <= Verbosity.as_u32 l <= 3.
Proof. destruct l; cbn; lia. Qed.
Lemma LevelFilter_from_as_u32 f : LevelFilter.from_u32 (LevelFilter.as_u32 f) = Some f.
Proof. by destruct f. Qed.
Lemma LodFilter_from_as_u32 f : LodFilter.from_u32 (LodFilter.as_u32 f) = Some f.
Proof. by destruct f. Qed.

Fixpoint map_string (f : Ascii.ascii -> Ascii.ascii) (s : string) : string :=
  match s with
  | EmptyString => EmptyString
  | String c s' => String (f c) (map_string f s')
  end.

Lemma eq_ignore_ascii_case_true a b :
  eq_ignore_ascii_case a b = true <->
  map_string to_ascii_lowercase a = map_string to_ascii_lowercase b.
Proof.
  revert b; induction a as [|c a IH]; intros [|d b]; cbn; try (split; discriminate || done).
  rewrite andb_true_iff, Ascii.eqb_eq, IH. split; [by intros [-> ->]|by intros [= -> ->]].
Qed.

(** Names that differ even when the case is ignored *)
Definition distinct_names (names : list string) : Prop :=
  NoDup (map (map_string to_ascii_lowercase) names).

Lemma position_from_Some names level k i :
  distinct_names names ->
  position_from k names level = Some i <->
  k <= i /\ exists n, names !! Z.to_nat (i - k) = Some n /\ eq_ignore_ascii_case n level = true.
Proof.
  revert k; induction names as [|n names IH]; intros k Hd; cbn [position_from].
  - split; [discriminate|]. intros (_ & ? & H & _). by rewrite lookup_nil in H.
  - unfold distinct_names in *. cbn [map] in Hd. apply list.NoDup_cons in Hd as [Hn Hd].
    destruct (eq_ignore_ascii_case n level) eqn:E.
    + split; [intros [= ->]; split; [lia|]; exists n; by rewrite Z.sub_diag|].
      intros (Hk & n' & Hl & E'). destruct (Z.eq_dec i k) as [->|Hne]; [done|].
      exfalso. apply Hn. replace (Z.to_nat (i - k)) with (S (Z.to_nat (i - k - 1))) in Hl by lia.
      cbn in Hl. apply eq_ignore_ascii_case_true in E, E'. rewrite E, <- E'.
      apply list_elem_of_In, in_map, list_elem_of_In. by eapply list_elem_of_lookup_2.
    + rewrite IH by done. split; intros (Hk & n' & Hl & E'); (split; [|exists n'; split; [|done]]).
      * lia.
      * replace (Z.to_nat (i - k)) with (S (Z.to_nat (i - (k + 1)))) by lia. done.
      * destruct (Z.eq_dec i k) as [->|Hne]; [|lia].
        rewrite Z.sub_diag in Hl. injection Hl as ->. congruence.
      * destruct (Z.eq_dec i k) as [->|Hne];
          [rewrite Z.sub_diag in Hl; injection Hl as ->; congruence|].
        replace (Z.to_nat (i - k)) with (S (Z.to_nat (i - (k + 1)))) in Hl by lia. done.
Qed.

Lemma LEVEL_NAMES_distinct : distinct_names LEVEL_NAMES.
Proof. apply (bool_decide_unpack _). vm_compute. exact I. Qed.
Lemma LOD_NAMES_distinct : distinct_names LOD_NAMES.
Proof. apply (bool_decide_unpack _). vm_compute. exact I. Qed.

(** The positions of names: the numbers below [n] *)
Lemma position_range names level i :
  distinct_names names -> position names level = Some i -> 0 <= i < Z.of_nat (length names).
Proof.
  intros Hd H. apply position_from_Some in H as (H0 & n & Hl & _); [|done].
  rewrite Z.sub_0_r in Hl. apply lookup_lt_Some in Hl. lia.
Qed.


(** What a parser of names promises *)
Definition parses {T} (parse : string -> exec T) (as_str : T -> exec string) : Prop :=
  forall s,
  match parse s with
  | Ok l => exists n, as_str l = Ok n /\ eq_ignore_ascii_case n s = true
  | Err e => e = ["ParseLevelError"] /\
      forall l n, as_str l = Ok n -> eq_ignore_ascii_case n s = false
  | _ => False
  end.

Lemma parses_names {T} names (from : Z -> option T) as_u lo filt :
  distinct_names names -> 0 <= lo ->
  (forall t, from (as_u t) = Some t /\ lo <= as_u t) ->
  (forall i, lo <= i < Z.of_nat (length names) -> exists t, from i = Some t /\ as_u t = i) ->
  (forall i, 0 <= i -> filt (Some i) = if lo <=? i then Some i else None) -> filt None = None ->
  parses (fun s => t ← map_unwrap from (filt (position names s)); ok_or t)
    (fun t => unwrap (names !! Z.to_nat (as_u t))).
Proof.
  intros Hd Hlo Hfrom Hto Hfilt Hnone s.
  assert (forall t n, unwrap (names !! Z.to_nat (as_u t)) = Ok n ->
    eq_ignore_ascii_case n s = true -> position names s = Some (as_u t)) as Hpos.
  { intros t n Hn E. destruct (Hfrom t) as [_ Ht].
    apply position_from_Some; [done|]. split; [lia|]. exists n. rewrite Z.sub_0_r.
    destruct (names !! _); [by injection Hn as ->|discriminate Hn]. }
  destruct (position names s) as [i|] eqn:Ei; [|rewrite Hnone; cbn].
  - pose proof (position_range _ _ _ Hd Ei) as Hi. rewrite Hfilt by lia.
    destruct (Z.leb_spec lo i) as [Hle|Hlt]; cbn.
    + destruct (Hto i ltac:(lia)) as (t & -> & Ht). cbn.
      apply position_from_Some in Ei as (_ & n & Hn & E); [|done].
      rewrite Z.sub_0_r in Hn. exists n. by rewrite Ht, Hn.
    + split; [done|]. intros t n Hn. destruct (eq_ignore_ascii_case n s) eqn:E; [|done].
      specialize (Hpos t n Hn E). injection Hpos as ->. destruct (Hfrom t). lia.
  - split; [done|]. intros t n Hn. destruct (eq_ignore_ascii_case n s) eqn:E; [|done].
    by specialize (Hpos t n Hn E).
Qed.

(** Small integers, one by one *)
Ltac each_index i Hi n :=
  let rec go k := lazymatch k with
    | O => exfalso; cbn in Hi; lia
    | S ?k' => destruct (Z.eq_dec i (Z.of_nat k')) as [->|?]; [|go k'] end in go n.

Lemma parses_level_names :
  parses Level_from_str Level_as_str /\ parses LevelFilter_from_str LevelFilter_as_str.
Proof.
  split.
  - apply (parses_names LEVEL_NAMES Level.from_u32 Level.as_u32 1 filter_nonzero);
      [apply LEVEL_NAMES_distinct|lia|by intros []| | |done].
    + intros i Hi. each_index i Hi 7%nat; try (eexists; split; reflexivity). cbn in Hi; lia.
    + intros i Hi. cbn. destruct (Z.eqb_spec i 0), (Z.leb_spec 1 i); try lia; done.
  - apply (parses_names LEVEL_NAMES LevelFilter.from_u32 LevelFilter.as_u32 0 id);
      [apply LEVEL_NAMES_distinct|lia|by intros []| | |done].
    + intros i Hi. each_index i Hi 7%nat; eexists; split; reflexivity.
    + intros i Hi. by rewrite (proj2 (Z.leb_le _ _) Hi).
Qed.

Lemma parses_lod_names :
  parses Verbosity_from_str Verbosity_as_str /\ parses LodFilter_from_str LodFilter_as_str.
Proof.
  split.
  - apply (parses_names LOD_NAMES Verbosity.from_usize Verbosity.as_u32 1 filter_nonzero);
      [apply LOD_NAMES_distinct|lia|by intros []| | |done].
    + intros i Hi. each_index i Hi 4%nat; try (eexists; split; reflexivity). cbn in Hi; lia.
    + intros i Hi. cbn. destruct (Z.eqb_spec i 0), (Z.leb_spec 1 i); try lia; done.
  - apply (parses_names LOD_NAMES LodFilter.from_usize LodFilter.as_u32 0 id);
      [apply LOD_NAMES_distinct|lia|by intros []| | |done].
    + intros i Hi. each_index i Hi 4%nat; eexists; split; reflexivity.
    + intros i Hi. by rewrite (proj2 (Z.leb_le _ _) Hi).
Qed.

(** The two maxima always hold discriminants. *)
Definition last_level (f : LevelFilter) (cs : list (LevelFilter + LodFilter)) : LevelFilter :=
  foldl (fun f c => match c with inl f' => f' | inr _ => f end) f cs.
Definition last_lod (g : LodFilter) (cs : list (LevelFilter + LodFilter)) : LodFilter :=
  foldl (fun g c => match c with inl _ => g | inr g' => g' end) g cs.
Definition max_step (st : max_filters) (c : LevelFilter + LodFilter) : max_filters :=
  match c with inl f => set_max_level f st | inr g => set_max_lod g st end.

Lemma max_steps f g cs :
  foldl max_step (mkMaxFilters (LevelFilter.as_u32 f) (LodFilter.as_u32 g)) cs =
  mkMaxFilters (LevelFilter.as_u32 (last_level f cs)) (LodFilter.as_u32 (last_lod g cs)).
Proof. revert f g; induction cs as [|[f'|g'] cs IH]; intros f g; [done|apply IH|apply IH]. Qed.

(** ** Properties *)

(** C14. Parsing the name of a level, of a filter, of a verbosity or of its
    filter never panics: it returns the value whose name is the text, whatever
    the case of its letters, and an error when there is none; the name "OFF"
    is the name of a filter and of no level. *)
Theorem levels_parse :
  parses Level_from_str Level_as_str /\ parses LevelFilter_from_str LevelFilter_as_str /\
  parses Verbosity_from_str Verbosity_as_str /\ parses LodFilter_from_str LodFilter_as_str.
Proof. pose proof parses_level_names. pose proof parses_lod_names. tauto. Qed.

(** A level compares with a filter as its own filter does, in both
    orders and for every operator; [Off] is below every level. *)
Theorem level_filter_comparisons (l : Level) (f : LevelFilter) :
  exists f', Level_to_level_filter l = Ok f' /\ LevelFilter.to_level f' = Some l /\
    partial_cmp l f = Some (cmp f' f) /\ partial_cmp f l = Some (cmp f f') /\
    eq_ l f = bool_decide (f' = f) /\ eq_ f l = bool_decide (f' = f) /\
    lt l f = lt f' f /\ le l f = le f' f /\ gt l f = gt f' f /\ ge l f = ge f' f /\
    lt f l = lt f f' /\ le f l = le f f' /\ gt f l = gt f f' /\ ge f l = ge f f' /\
    le l LevelFilter.Off = false.
Proof. destruct l, f; eexists; repeat split. Qed.

(** Reading the maxima is sound after any sequence of calls: the
    [transmute] always sees a discriminant, and it is the one of the last
    filter that was set ([Off] when none was). *)
Theorem max_filters_sound (cs : list (LevelFilter + LodFilter)) :
  let st := foldl max_step initial_max_filters cs in
  max_level st = Ok (last_level LevelFilter.Off cs) /\ max_lod st = Ok (last_lod LodFilter.Off cs).
Proof.
  cbv zeta. change initial_max_filters with
    (mkMaxFilters (LevelFilter.as_u32 LevelFilter.Off) (LodFilter.as_u32 LodFilter.Off)).
  rewrite max_steps. unfold max_level, max_lod, transmute. cbn [MAX_LEVEL_FILTER MAX_LOD_FILTER].
  by rewrite LevelFilter_from_as_u32, LodFilter_from_as_u32.
Qed.
