(* ===== verification/LogFilter.v ===== *)
(** * The filter of a log description

    [LogMetadata::level_filter] and [LogMetadata::set_level_filter] of
    [tracing/src/logs/events.rs]: an atomic word holds a filter and a 16-bit
    generation, and threads replace it with a compare-and-exchange loop.  Every
    access to the atomic is one step of a thread, and threads are interleaved
    by an arbitrary schedule. *)

From S2P Require Import Prelude Levels.

Definition FILTER_LEVEL_UNSET_VALUE : Z := 0xF.

Inductive FilterState := Outdated | NotSet | Set_ (level_filter : LevelFilter).

(** [(word >> 16) as u16] *)
Definition generation_of (word : Z) : Z := wrap_u 16 (Z.shiftr word 16).

(** [level_filter], for the word that was loaded *)
Definition level_filter (word generation : Z) : FilterState :=
  if generation_of word <? generation then Outdated else
  match LevelFilter.from_u32 (Z.land word FILTER_LEVEL_UNSET_VALUE) with
  | Some f => Set_ f
  | None => NotSet
  end.

(** The word that [set_level_filter] wants to store *)
Definition new_word (generation : Z) (level_filter : option LevelFilter) : Z :=
  Z.lor (match level_filter with Some f => LevelFilter.as_u32 f | None => FILTER_LEVEL_UNSET_VALUE end)
        (Z.shiftl generation 16).

(** ** The loop, one access to the atomic at a time *)
Inductive program_point := Load | CompareExchange (current : Z) | Returned.
#[export] Instance program_point_eq_dec : EqDecision program_point.
Proof. solve_decision. Defined.
Record setter := mkSetter { s_generation : Z; s_filter : option LevelFilter; s_at : program_point }.

Definition at_ (p : program_point) (s : setter) : setter := mkSetter (s_generation s) (s_filter s) p.

(** The loop goes on when the word has an older generation. *)
Definition try_or_return (s : setter) (word : Z) : setter :=
  if s_generation s <=? generation_of word then at_ Returned s else at_ (CompareExchange word) s.

Definition setter_step (word : Z) (s : setter) : Z * setter :=
  match s_at s with
  | Load => (word, try_or_return s word)
  | CompareExchange current =>
      if word =? current then (new_word (s_generation s) (s_filter s), at_ Returned s)
      else (word, try_or_return s word)
  | Returned => (word, s)
  end.

(** A schedule says which thread makes each step. *)
Fixpoint run_setters (schedule : list nat) (word : Z) (threads : list setter) : Z * list setter :=
  match schedule with
  | [] => (word, threads)
  | i :: schedule =>
      match threads !! i with
      | Some s =>
          let '(word, s) := setter_step word s in
          run_setters schedule word (<[i := s]> threads)
      | None => run_setters schedule word threads
      end
  end.

(** [set_level_filter] when no other thread interferes *)
Definition set_level_filter (word generation : Z) (level_filter : option LevelFilter) : Z :=
  if generation <=? generation_of word then word else new_word generation level_filter.

(** ** Lemmas *)
Lemma generation_of_new g f : in_u 16 g -> generation_of (new_word g f) = g.
Proof.
  intros Hg. unfold generation_of, new_word. rewrite Z.shiftr_lor.
  replace (Z.shiftr (match f with Some f => LevelFilter.as_u32 f | None => _ end) 16) with 0
    by (destruct f as [[]|]; reflexivity).
  rewrite Z.lor_0_l, Z.shiftr_shiftl_l by lia. change (16 - 16) with 0. rewrite Z.shiftl_0_r.
  by apply wrap_u_id.
Qed.

Lemma generation_of_range w : in_u 16 (generation_of w).
Proof. apply Z.mod_pos_bound. lia. Qed.

(** What is stored is read back, until a generation is asked for that is newer. *)
Lemma level_filter_new_word g f g' :
  in_u 16 g ->
  level_filter (new_word g f) g' =
  if g <? g' then Outdated else match f with Some f => Set_ f | None => NotSet end.
Proof.
  intros Hg. unfold level_filter. rewrite generation_of_new by done.
  destruct (g <? g'); [done|]. unfold new_word. rewrite Z.land_lor_distr_l.
  replace (Z.land (Z.shiftl g 16) FILTER_LEVEL_UNSET_VALUE) with 0.
  - rewrite Z.lor_0_r. by destruct f as [[]|].
  - symmetry. apply Z.bits_inj'. intros n Hn. rewrite Z.land_spec, Z.bits_0.
    unfold FILTER_LEVEL_UNSET_VALUE. destruct (Z_lt_ge_dec n 16) as [?|?].
    + by rewrite Z.shiftl_spec_low.
    + change 0xF with (Z.ones 4). rewrite Z.ones_spec_high by lia. by rewrite andb_false_r.
Qed.

(** Alone, a thread returns after at most two steps. *)
Lemma run_setter_alone word g f :
  run_setters [0%nat; 0%nat] word [mkSetter g f Load] =
  (set_level_filter word g f, [mkSetter g f Returned]).
Proof.
  unfold set_level_filter. cbn. unfold try_or_return. cbn.
  destruct (g <=? generation_of word); cbn; [done|]. by rewrite Z.eqb_refl.
Qed.

(** ** Invariant

    A thread that is about to compare has seen a word of an older generation
    than its own; if that generation is still the current one, the word is
    still the same. *)
Definition setter_ok (word : Z) (s : setter) : Prop :=
  in_u 16 (s_generation s) /\
  match s_at s with
  | Load => True
  | CompareExchange current =>
      generation_of current < s_generation s /\ generation_of current <= generation_of word /\
      (generation_of current = generation_of word -> current = word)
  | Returned => s_generation s <= generation_of word
  end.

(** The steps that a thread has left, whatever the others do *)
Definition steps_left (s : setter) : Z :=
  match s_at s with
  | Load => s_generation s + 2
  | CompareExchange current => s_generation s - generation_of current
  | Returned => 0
  end.

(** What a step does to the word: nothing, or a newer generation *)
Definition newer (word word' : Z) : Prop := word' = word \/ generation_of word < generation_of word'.

Lemma newer_trans a b c : newer a b -> newer b c -> newer a c.
Proof. unfold newer. intros [->|?] [->|?]; auto; right; lia. Qed.

Lemma setter_ok_newer word word' s : newer word word' -> setter_ok word s -> setter_ok word' s.
Proof.
  intros [->|Hn] [Hg Hs]; [by split|]. split; [done|].
  destruct (s_at s); [done| |lia]. destruct Hs as (H1 & H2 & H3). split_and!; lia.
Qed.

Lemma setter_step_ok word s word' s' :
  setter_ok word s -> setter_step word s = (word', s') ->
  setter_ok word' s' /\ newer word word' /\
  (word' = word \/ word' = new_word (s_generation s) (s_filter s)) /\
  s_generation s' = s_generation s /\ s_filter s' = s_filter s /\
  (s_at s <> Returned -> 0 <= steps_left s' < steps_left s).
Proof.
  intros [Hg Hs]. unfold setter_step. pose proof (generation_of_range word) as Hw.
  unfold in_u in *. destruct s as [g f [|cur|]]; cbn in *.
  - unfold try_or_return. cbn. destruct (Z.leb_spec g (generation_of word)); intros [= <- <-];
      unfold setter_ok, newer, steps_left; cbn; split_and!; auto; lia.
  - destruct Hs as (H1 & H2 & H3). destruct (Z.eqb_spec word cur) as [->|Hne].
    + intros [= <- <-]. unfold setter_ok, newer, steps_left; cbn. rewrite generation_of_new by done.
      split_and!; auto; lia.
    + assert (generation_of cur < generation_of word) by (destruct (Z.eq_dec (generation_of cur)
        (generation_of word)) as [E|]; [by apply H3 in E; subst|lia]).
      unfold try_or_return. cbn. destruct (Z.leb_spec g (generation_of word)); intros [= <- <-];
      unfold setter_ok, newer, steps_left; cbn; split_and!; auto; lia.
  - intros [= <- <-]. unfold setter_ok, newer, steps_left; cbn. split_and!; auto; try lia; done.
Qed.

Lemma Forall_insert_newer word word' i s' (threads : list setter) :
  newer word word' -> Forall (setter_ok word) threads -> setter_ok word' s' ->
  Forall (setter_ok word') (<[i := s']> threads).
Proof.
  intros Hn Hl Hs. apply Forall_insert; [|done].
  eapply list.Forall_impl; [exact Hl|]. intros s. by apply setter_ok_newer.
Qed.

(** The words that a run may leave *)
Definition candidates (word : Z) (threads : list setter) : list Z :=
  word :: map (fun s => new_word (s_generation s) (s_filter s)) threads.

Lemma candidates_insert word (threads : list setter) i s s' :
  threads !! i = Some s -> s_generation s' = s_generation s -> s_filter s' = s_filter s ->
  candidates word (<[i := s']> threads) = candidates word threads.
Proof.
  intros Hi E1 E2. unfold candidates. f_equal.
  etransitivity; [apply (list_fmap_insert (fun s => new_word (s_generation s) (s_filter s)))|].
  apply list_insert_id. rewrite list_lookup_fmap, Hi. cbn. by rewrite E1, E2.
Qed.

Lemma run_setters_ok schedule word threads word' threads' :
  Forall (setter_ok word) threads -> run_setters schedule word threads = (word', threads') ->
  Forall (setter_ok word') threads' /\ newer word word' /\ In word' (candidates word threads).
Proof.
  revert word threads. induction schedule as [|i schedule IH]; intros word threads Hok Hr; cbn in Hr.
  { injection Hr as <- <-. split; [done|]. split; by left. }
  destruct (threads !! i) as [s|] eqn:Hi; [|by apply IH in Hr].
  destruct (setter_step word s) as [w1 s1] eqn:Hs.
  pose proof (proj1 (Forall_lookup _ _) Hok i s Hi) as Hsok.
  destruct (setter_step_ok _ _ _ _ Hsok Hs) as (H1 & H2 & H3 & E1 & E2 & _).
  apply IH in Hr as (R1 & R2 & R3); [|by eapply Forall_insert_newer].
  split; [done|]. split; [by eapply newer_trans|].
  unfold candidates in R3. destruct R3 as [R3|R3].
  - subst word'. destruct H3 as [->| ->]; [by left|right].
    apply in_map_iff. exists s. split; [done|]. apply list_elem_of_In. by eapply list_elem_of_lookup_2.
  - right. pose proof (candidates_insert word threads i s s1 Hi E1 E2) as E.
    unfold candidates in E. injection E as E. by rewrite <- E.
Qed.

Lemma steps_left_Returned word s : setter_ok word s -> steps_left s <= 0 -> s_at s = Returned.
Proof.
  intros [Hg Hs]. unfold steps_left, in_u in *. destruct (s_at s); [lia| |done].
  destruct Hs as (? & _). lia.
Qed.

Lemma run_setters_returns schedule word (threads : list setter) i s :
  Forall (setter_ok word) threads -> threads !! i = Some s ->
  steps_left s <= Z.of_nat (count_occ Nat.eq_dec schedule i) ->
  exists s', (run_setters schedule word threads).2 !! i = Some s' /\ s_at s' = Returned.
Proof.
  revert word threads s. induction schedule as [|j schedule IH]; intros word threads s Hok Hi Hn.
  { exists s. split; [done|]. eapply steps_left_Returned; [|exact Hn]. by eapply Forall_lookup_1. }
  cbn [run_setters count_occ] in *.
  destruct (threads !! j) as [t|] eqn:Hj.
  - destruct (setter_step word t) as [w1 t1] eqn:Ht.
    pose proof (Forall_lookup_1 _ _ _ _ Hok Hj) as Htok.
    destruct (setter_step_ok _ _ _ _ Htok Ht) as (H1 & H2 & _ & _ & _ & Hd).
    destruct (Nat.eq_dec j i) as [->|Hne].
    + rewrite Hi in Hj. injection Hj as <-. apply (IH _ _ t1); [by eapply Forall_insert_newer| |].
      * apply list_lookup_insert_eq. by eapply lookup_lt_Some.
      * destruct (decide (s_at s = Returned)) as [E|E]; [|specialize (Hd E); lia].
        unfold setter_step in Ht. rewrite E in Ht. injection Ht as <- <-.
        unfold steps_left. rewrite E. lia.
    + apply (IH _ _ s); [by eapply Forall_insert_newer| |done].
      by rewrite list_lookup_insert_ne.
  - destruct (Nat.eq_dec j i) as [->|Hne]; [congruence|]. by apply (IH _ _ s).
Qed.

(** ** Properties *)

(** C24. Setting the filter of a description is linearizable: however the
    threads are interleaved, the generation never decreases, the word is the
    initial one or one that a thread asked for, and when every thread has
    returned its generation is at least that of each of them. *)
Theorem set_level_filter_schedules schedule word threads word' threads' :
  Forall (fun s => in_u 16 (s_generation s) /\ s_at s = Load) threads ->
  run_setters schedule word threads = (word', threads') ->
  generation_of word <= generation_of word' /\ In word' (candidates word threads) /\
  forall s, In s threads' -> s_at s = Returned -> s_generation s <= generation_of word'.
Proof.
  intros Hl Hr. assert (Forall (setter_ok word) threads) as Hok.
  { eapply list.Forall_impl; [exact Hl|]. intros s [Hg Hs]. split; [done|]. by rewrite Hs. }
  destruct (run_setters_ok _ _ _ _ _ Hok Hr) as (H1 & H2 & H3).
  split; [destruct H2 as [->|]; lia|]. split; [done|]. intros s Hs Ha.
  apply (proj1 (List.Forall_forall _ _) H1) in Hs as [_ Hs]. by rewrite Ha in Hs.
Qed.

(** C25. The loop is wait-free: whatever the other threads do, a thread returns
    after at most as many of its own steps as its generation plus two. *)
Theorem set_level_filter_terminates schedule word threads i s :
  Forall (fun s => in_u 16 (s_generation s) /\ s_at s = Load) threads ->
  threads !! i = Some s ->
  s_generation s + 2 <= Z.of_nat (count_occ Nat.eq_dec schedule i) ->
  exists s', (run_setters schedule word threads).2 !! i = Some s' /\ s_at s' = Returned.
Proof.
  intros Hl Hi Hn. assert (Forall (setter_ok word) threads) as Hok.
  { eapply list.Forall_impl; [exact Hl|]. intros t [Hg Hs]. split; [done|]. by rewrite Hs. }
  assert (steps_left s <= Z.of_nat (count_occ Nat.eq_dec schedule i)) as Hs.
  { pose proof (proj1 (Forall_lookup _ _) Hl i s Hi) as [_ E]. unfold steps_left. by rewrite E. }
  clear Hl Hn. by eapply run_setters_returns.
Qed.

(** *** Two threads *)
Lemma set_level_filter_schedules_witness :
  exists word' threads',
    run_setters [0; 1; 1; 0; 0]%nat 0
      [mkSetter 1 (Some LevelFilter.Warn) Load; mkSetter 2 None Load] = (word', threads') /\
    generation_of word' = 2 /\ level_filter word' 2 = NotSet /\ level_filter word' 3 = Outdated /\
    generation_of 0 <= generation_of word'.
Proof.
  do 2 eexists. split; [vm_compute; reflexivity|]. do 3 (split; [vm_compute; reflexivity|]).
  refine (proj1 (set_level_filter_schedules [0; 1; 1; 0; 0]%nat 0
    [mkSetter 1 (Some LevelFilter.Warn) Load; mkSetter 2 None Load] _ _ _ _)).
  - repeat apply Forall_cons; try apply Forall_nil; unfold in_u; cbn; lia || (split; [lia|done]).
  - vm_compute. reflexivity.
Defined.

Lemma set_level_filter_terminates_witness :
  exists s', (run_setters [0; 1; 1; 0; 0]%nat 0
      [mkSetter 1 (Some LevelFilter.Warn) Load; mkSetter 2 None Load]).2 !! 0%nat = Some s' /\
    s_at s' = Returned.
Proof.
  apply (set_level_filter_terminates [0; 1; 1; 0; 0]%nat 0
    [mkSetter 1 (Some LevelFilter.Warn) Load; mkSetter 2 None Load] 0
    (mkSetter 1 (Some LevelFilter.Warn) Load)).
  - repeat apply Forall_cons; try apply Forall_nil; unfold in_u; cbn; lia || (split; [lia|done]).
  - reflexivity.
  - vm_compute. discriminate.
Defined.
