(* ===== verification/Deps.v ===== *)
(** * Static metadata and the extraction of dependencies

    The descriptions that events point to ([LogMetadata], [MetricMetadata],
    [SpanMetadata], [SpanLocation]) are static objects of the instrumented
    process; [statics] is that memory.  [record_string] is the statement that
    the three functions [record_*_dependencies] repeat for every string.  The
    invariant [DInv] of a queue of dependencies under construction is what the
    parser will make of it. *)

From S2P Require Import Prelude RustString Transit Queue Pod Parser PodParser Blocks Levels.

(** ** The descriptions *)
Record LogMetadata := mkLogMetadata {
  lm_level : Level;
  lm_level_filter : Z;
  lm_fmt_str : str_ref;
  lm_target : str_ref;
  lm_module_path : str_ref;
  lm_file : str_ref;
  lm_line : Z
}.
Record MetricMetadata := mkMetricMetadata {
  mm_lod : Verbosity;
  mm_name : str_ref;
  mm_unit : str_ref;
  mm_target : str_ref;
  mm_module_path : str_ref;
  mm_file : str_ref;
  mm_line : Z
}.
Record SpanLocation := mkSpanLocation {
  sl_lod : Verbosity;
  sl_target : str_ref;
  sl_module_path : str_ref;
  sl_file : str_ref;
  sl_line : Z
}.
Record SpanMetadata := mkSpanMetadata { sm_name : str_ref; sm_location : SpanLocation }.

(** The static memory: bytes of strings, and descriptions by address *)
Record statics := mkStatics {
  st_bytes : rodata;
  st_logs : gmap Z LogMetadata;
  st_metrics : gmap Z MetricMetadata;
  st_spans : gmap Z SpanMetadata;
  st_locations : gmap Z SpanLocation
}.

(** [&*(ptr as *const T)] *)
Definition deref {T} (mem : gmap Z T) (ptr : Z) : exec T :=
  match mem !! ptr with Some x => Ok x | None => Ub end.

(** ** Recording *)

(** [recorded_deps.insert(key)]: whether the key is new, and the set after *)
Definition insert_key (recorded_deps : gset Z) (key : Z) : bool * gset Z :=
  (bool_decide (key ∉ recorded_deps), {[key]} ∪ recorded_deps).

(** [if recorded_deps.insert(s.ptr as u64) { deps.push(s); }], for a queue in
    which [StaticString] has the type index [type_index] *)
Definition record_string (mem : rodata) (type_index : Z) (s : StaticString)
    (st : gset Z * Queue) : exec (gset Z * Queue) :=
  let '(recorded_deps, deps) := st in
  let '(is_new, recorded_deps) := insert_key recorded_deps (ss_ptr s) in
  if is_new then
    deps ← push mem type_index s deps;
    Ok (recorded_deps, deps)
  else Ok (recorded_deps, deps).

(** Runs a sequence of [record_string] whose outcome is known. *)
Ltac run_strings H :=
  repeat (let s := fresh "s" in let E := fresh "E" in
    apply bind_Ok_iff in H as (s & E & H); rewrite E; cbn [mbind exec_bind]; clear E);
  injection H as ->; cbn [mbind exec_bind].

(** ** Strings of the program

    [strs] is the string that stands at an address.  Two references to the
    same address are to the same string: the source identifies a static string
    by its address alone. *)
Definition str_in (strs : gmap Z string) (m : rodata) (ptr len : Z) (s : string) : Prop :=
  strs !! ptr = Some s /\ valid_string s /\ in_u 64 ptr /\ 0 <= len < 2 ^ 32 - 8 /\
  read_mem m ptr len = Ok (bytes_of s).

Definition str_ok (strs : gmap Z string) (m : rodata) (r : str_ref) : Prop :=
  exists s, str_in strs m (str_ptr r) (str_len r) s.

Definition str_value (strs : gmap Z string) (r : str_ref) : Value :=
  match strs !! str_ptr r with Some s => String_ s | None => None_ end.

Lemma str_ok_static strs m r :
  str_ok strs m r -> exists s, strs !! str_ptr r = Some s /\ valid_string s /\
    ss_ok m (StaticString_from r) /\ ss_bytes m (StaticString_from r) = bytes_of s.
Proof.
  intros (s & Hs & Hv & Hp & Hl & Hm). exists s. split; [done|]. split; [done|].
  unfold ss_ok, ss_bytes, StaticString_from. cbn [ss_ptr ss_len].
  rewrite wrap_u_id by (unfold in_u; lia). rewrite Hm. done.
Qed.

(** A [StringId] is the reference whose length it holds. *)
Definition id_ref (s : StringId) : str_ref := mkStr (sid_ptr s) (sid_len s).

Lemma StaticString_from_id_ref strs m s :
  str_ok strs m (id_ref s) -> StaticString_from_id s = StaticString_from (id_ref s).
Proof.
  intros (str & _ & _ & _ & Hl & _). unfold StaticString_from_id, StaticString_from. cbn in *.
  by rewrite wrap_u_id by (unfold in_u; lia).
Qed.

Section extraction.
Context {Any : Type} `{HQ : HeterogeneousQueue Any}.
Context (m : rodata) (udts : list UserDefinedType).
Context (strs : gmap Z string) (dep_value : Z -> Value).

(** Items that the parser reads as one more dependency *)
Definition dep_item (it : item Any) (key : Z) (v : dependencies_map -> Value) : Prop :=
  item_ok m it /\ dep_reads m udts it (fun h => insert_new h key (v h)).

(** The queue [deps] holds the dependencies of the recorded keys, except for
    the [pending] key whose record is not pushed yet. *)
Definition DInv (recorded pending : gset Z) (deps : Queue) : Prop :=
  exists its effs h,
    q_buffer deps = frames m its /\ Forall2 (dep_reads m udts) its effs /\
    foldM (fun h eff => eff h) ∅ effs = Ok h /\
    dom h = recorded ∖ pending /\ pending ⊆ recorded /\
    (forall k v, h !! k = Some v -> v = dep_value k).

Lemma DInv_new size : DInv ∅ ∅ (queue_new size).
Proof.
  exists [], [], ∅. by split_and!.
Qed.

(** Starting the record of a new key *)
Lemma DInv_pending recorded key deps :
  DInv recorded ∅ deps -> key ∉ recorded -> DInv ({[key]} ∪ recorded) {[key]} deps.
Proof.
  intros (its & effs & h & H1 & H2 & H3 & H4 & H5 & H6) Hk.
  exists its, effs, h. split_and!; try done; set_solver.
Qed.

Lemma frames_snoc its it : frames m (its ++ [it]) = frames m its ++ item_frame m it.
Proof. unfold frames. rewrite map_app, concat_app. cbn. by rewrite app_nil_r. Qed.

(** Pushing a dependency whose key is not in the map yet *)
Lemma DInv_push recorded pending recorded' pending' deps it key v :
  DInv recorded pending deps -> dep_item it key v ->
  key ∉ recorded ∖ pending ->
  recorded' ∖ pending' = {[key]} ∪ (recorded ∖ pending) -> pending' ⊆ recorded' ->
  (forall h, dom h = recorded ∖ pending -> (forall k v, h !! k = Some v -> v = dep_value k) ->
     v h = dep_value key) ->
  exists deps', push_item m deps it = Ok deps' /\ DInv recorded' pending' deps'.
Proof.
  intros (its & effs & h & H1 & H2 & H3 & H4 & H5 & H6) [Hok Hr] Hk Hd Hp Hv.
  eexists. split; [by apply push_item_frame|].
  exists (its ++ [it]), (effs ++ [fun h => insert_new h key (v h)]), (<[key := v h]> h).
  cbn [q_buffer]. split_and!.
  - by rewrite frames_snoc, H1.
  - apply Forall2_app; [done|]. by constructor.
  - rewrite foldM_app, H3. cbn [mbind exec_bind foldM]. unfold insert_new.
    rewrite bool_decide_eq_true_2; [done|]. apply not_elem_of_dom. by rewrite H4.
  - by rewrite dom_insert_L, H4, Hd.
  - done.
  - intros k w Hkw. apply lookup_insert_Some in Hkw as [[<- <-]|[_ Hkw]]; [by apply Hv|by apply H6].
Qed.

(** What the parser reads in the end *)
Lemma DInv_read recorded deps :
  DInv recorded ∅ deps -> blen (as_bytes deps) < 2 ^ 63 ->
  exists h, read_dependencies udts (as_bytes deps) = Ok h /\ dom h = recorded /\
    forall k, k ∈ recorded -> lookup_dependency h k = dep_value k.
Proof.
  intros (its & effs & h & H1 & H2 & H3 & H4 & H5 & H6) Hb.
  unfold as_bytes in *. rewrite H1 in *. exists h.
  rewrite (read_dependencies_frames m udts its effs) by done.
  split; [done|]. assert (dom h = recorded) as Hd by set_solver. split; [done|].
  intros k Hk. rewrite <- Hd in Hk. apply elem_of_dom in Hk as [v Hk].
  unfold lookup_dependency. rewrite Hk. cbn. by apply H6.
Qed.
(** The queue's item for a static string *)
Context (ss_index : Z) (ss_item : StaticString -> item Any).
Hypothesis ss_item_push : forall q s, push_item m q (ss_item s) = push m ss_index s q.
Hypothesis ss_item_dep : forall s str,
  ss_ok m s -> ss_bytes m s = bytes_of str -> valid_string str ->
  dep_item (ss_item s) (ss_ptr s) (fun _ => String_ str).

Lemma record_string_DInv recorded pending deps s str :
  DInv recorded pending deps ->
  ss_ok m s -> ss_bytes m s = bytes_of str -> valid_string str ->
  ss_ptr s ∉ pending -> dep_value (ss_ptr s) = String_ str ->
  exists deps', record_string m ss_index s (recorded, deps) = Ok ({[ss_ptr s]} ∪ recorded, deps') /\
    DInv ({[ss_ptr s]} ∪ recorded) pending deps'.
Proof.
  intros Hinv Hok Hb Hvs Hp Hv. unfold record_string, insert_key.
  case_bool_decide as Hin.
  - destruct (DInv_push recorded pending ({[ss_ptr s]} ∪ recorded) pending deps (ss_item s)
      (ss_ptr s) (fun _ => String_ str)) as (deps' & Hpush & Hinv').
    + done.
    + by apply ss_item_dep.
    + set_solver.
    + set_solver.
    + destruct Hinv as (? & ? & ? & _ & _ & _ & _ & ? & _). set_solver.
    + intros. by rewrite Hv.
    + rewrite ss_item_push in Hpush. exists deps'. rewrite Hpush. done.
  - exists deps. split; [done|]. replace ({[ss_ptr s]} ∪ recorded) with recorded by set_solver. done.
Qed.

(** The same, for a reference to a string of the program *)
Lemma record_str_ref recorded pending deps s r :
  DInv recorded pending deps ->
  s = StaticString_from r -> str_ok strs m r -> str_ptr r ∉ pending ->
  dep_value (str_ptr r) = str_value strs r ->
  exists deps', record_string m ss_index s (recorded, deps) =
      Ok ({[str_ptr r]} ∪ recorded, deps') /\
    DInv ({[str_ptr r]} ∪ recorded) pending deps'.
Proof.
  intros Hinv -> Hok Hp Hv. apply str_ok_static in Hok as (str & Hs & Hvs & Hss & Hb).
  unfold str_value in Hv. rewrite Hs in Hv. by apply (record_string_DInv _ _ _ (StaticString_from r) str).
Qed.

(** Several strings, one after the other *)
Abbreviation record_strings := (foldM (fun s r => record_string m ss_index (StaticString_from r) s)).

Lemma record_strings_DInv recorded pending deps rs :
  DInv recorded pending deps ->
  Forall (fun r => str_ok strs m r /\ (str_ptr r ∉ pending) /\
    dep_value (str_ptr r) = str_value strs r) rs ->
  exists recorded' deps', record_strings (recorded, deps) rs = Ok (recorded', deps') /\
    DInv recorded' pending deps' /\ recorded ⊆ recorded' /\ forall r, r ∈ rs -> str_ptr r ∈ recorded'.
Proof.
  intros Hinv Hrs. revert recorded deps Hinv.
  induction Hrs as [|r rs (Hok & Hp & Hv) _ IH]; intros recorded deps Hinv; cbn [foldM].
  - exists recorded, deps. split_and!; try done. intros r Hr. by apply elem_of_nil in Hr.
  - destruct (record_str_ref recorded pending deps _ r Hinv eq_refl Hok Hp Hv) as (d1 & -> & H1).
    cbn [mbind exec_bind]. destruct (IH _ _ H1) as (rec2 & d2 & -> & H2 & Hsub & Hall).
    exists rec2, d2. split; [done|]. split; [done|]. split; [set_solver|].
    intros r' Hr'. apply elem_of_cons in Hr' as [->|Hr']; [set_solver|by apply Hall].
Qed.

(** A description: its strings, then its record *)
Lemma record_new_DInv recorded deps a rs it v :
  DInv recorded ∅ deps -> a ∉ recorded -> strs !! a = None -> Forall (str_ok strs m) rs ->
  (forall r, str_ok strs m r -> dep_value (str_ptr r) = str_value strs r) ->
  dep_item it a v ->
  (forall h, Forall (fun r => lookup_dependency h (str_ptr r) = str_value strs r) rs ->
     v h = dep_value a) ->
  exists recorded' deps' deps'',
    record_strings ({[a]} ∪ recorded, deps) rs = Ok (recorded', deps') /\
    push_item m deps' it = Ok deps'' /\ DInv recorded' ∅ deps'' /\ {[a]} ∪ recorded ⊆ recorded'.
Proof.
  intros Hinv Hnew Hna Hrs Hdv Hit Hv.
  assert (forall r, str_ok strs m r -> str_ptr r ∉ ({[a]} : gset Z)) as Hpend.
  { intros r (s & Hs & _) Hin. apply elem_of_singleton in Hin. congruence. }
  pose proof (DInv_pending _ _ _ Hinv Hnew) as H0.
  destruct (record_strings_DInv _ _ _ rs H0) as (rec1 & d1 & Hrec & H1 & Hsub & Hin).
  { eapply Forall_impl; [|exact Hrs]. intros r Hr. auto. }
  destruct (DInv_push _ _ rec1 ∅ d1 it a v H1 Hit) as (d2 & Hpush & H2).
  - set_solver.
  - apply set_eq. intros k. destruct (decide (k = a)); set_solver.
  - set_solver.
  - intros h Hdom Hh. apply Hv. apply Forall_forall. intros r Hr.
    pose proof (proj1 (Forall_forall _ _) Hrs r Hr) as Hok.
    assert (str_ptr r ∈ dom h) as Hd.
    { rewrite Hdom. apply elem_of_difference. split; [by apply Hin, list_elem_of_In|by apply Hpend]. }
    apply elem_of_dom in Hd as [w Hw]. unfold lookup_dependency. rewrite Hw. cbn.
    rewrite (Hh _ _ Hw). by apply Hdv.
  - by exists rec1, d1, d2.
Qed.
End extraction.

(** ** Blocks

    From the promises of single events to a whole block: pushing the events,
    extracting their dependencies and parsing both buffers gives the parser
    the value of every event, in order. *)
Section block.
Context {Any DepsAny : Type} `{HQ : HeterogeneousQueue Any} `{HDQ : HeterogeneousQueue DepsAny}.
Context (m : rodata) (udts deps_udts : list UserDefinedType).
Context (to_item : Any -> item Any) (push_event : Queue -> Any -> exec Queue).
Context (extract_event : gset Z * Queue -> Any -> exec (gset Z * Queue)).
Context (event_ok : Any -> Prop) (event_keys : Any -> gset Z).
Context (event_value : (Z -> Value) -> Any -> Value) (dep_value : Z -> Value).

Abbreviation Inv := (DInv (Any := DepsAny) m deps_udts dep_value).

Hypothesis push_to_item : forall q a, push_event q a = push_item m q (to_item a).
Hypothesis any_to_item : forall a, item_any (to_item a) = a.
Hypothesis ok_item : forall a, event_ok a -> item_ok m (to_item a).
Hypothesis item_reads : forall deps a, event_ok a ->
  obj_reads m udts deps (to_item a) (event_value (lookup_dependency deps) a).
Hypothesis event_value_ext : forall f g a,
  (forall k, k ∈ event_keys a -> f k = g k) -> event_value f a = event_value g a.
Hypothesis extract_event_DInv : forall s a, Inv s.1 ∅ s.2 -> event_ok a ->
  exists s', extract_event s a = Ok s' /\ Inv s'.1 ∅ s'.2 /\ event_keys a ∪ s.1 ⊆ s'.1.

Lemma extract_events_DInv evs s :
  Inv s.1 ∅ s.2 -> Forall event_ok evs ->
  exists s', foldM extract_event s evs = Ok s' /\ Inv s'.1 ∅ s'.2 /\ s.1 ⊆ s'.1 /\
    forall a, a ∈ evs -> event_keys a ⊆ s'.1.
Proof.
  intros Hinv Hok. revert s Hinv. induction Hok as [|a evs Ha _ IH]; intros s Hinv; cbn [foldM].
  - exists s. split; [done|]. split; [done|]. split; [done|]. intros a Ha. by apply elem_of_nil in Ha.
  - destruct (extract_event_DInv s a Hinv Ha) as (s1 & -> & H1 & Hk). cbn [mbind exec_bind].
    destruct (IH s1 H1) as (s2 & -> & H2 & Hsub & Hall). exists s2.
    split; [done|]. split; [done|]. split; [set_solver|].
    intros b Hb. apply elem_of_cons in Hb as [->|Hb]; [set_solver|by apply Hall].
Qed.

Definition extract_from (q : Queue) : exec Queue :=
  objs ← iter q;
  '(_, deps) ← foldM extract_event (∅, queue_new (1024 * 1024)) objs;
  Ok deps.

Lemma extract_from_ok evs q :
  iter q = Ok evs -> Forall event_ok evs ->
  exists deps, extract_from q = Ok deps /\
    (blen (as_bytes deps) < 2 ^ 63 ->
     exists h, read_dependencies deps_udts (as_bytes deps) = Ok h /\
       forall a k, a ∈ evs -> k ∈ event_keys a -> lookup_dependency h k = dep_value k).
Proof.
  intros Hit Hok. unfold extract_from. rewrite Hit. cbn [mbind exec_bind].
  destruct (extract_events_DInv evs (∅, queue_new (1024 * 1024))) as ([r d] & -> & Hinv & _ & Hk).
  - apply DInv_new.
  - done.
  - cbn [mbind exec_bind]. exists d. split; [done|]. intros Hb.
    destruct (DInv_read _ _ _ _ _ Hinv Hb) as (h & Hh & _ & Hlook). exists h. split; [done|].
    intros a k Ha Hka. apply Hlook. by apply (Hk a Ha).
Qed.

Lemma push_events_items evs q :
  foldM push_event q evs = foldM (push_item m) q (map to_item evs).
Proof.
  revert q; induction evs as [|a evs IH]; intros q; cbn [foldM map]; [done|].
  rewrite push_to_item. destruct (push_item m q (to_item a)); cbn [mbind exec_bind]; try done.
Qed.

Lemma map_item_any evs : map item_any (map to_item evs) = evs.
Proof. induction evs as [|a evs IH]; cbn [map]; [done|]. by rewrite any_to_item, IH. Qed.

Lemma items_ok evs : Forall event_ok evs -> Forall (item_ok m) (map to_item evs).
Proof. induction 1; cbn [map]; constructor; auto. Qed.

Lemma events_read deps evs :
  Forall event_ok evs ->
  (forall a k, a ∈ evs -> k ∈ event_keys a -> lookup_dependency deps k = dep_value k) ->
  Forall2 (obj_reads m udts deps) (map to_item evs) (map (event_value dep_value) evs).
Proof.
  intros Hok. induction Hok as [|a evs Ha _ IH]; intros Hlook; cbn [map]; constructor.
  - rewrite <- (event_value_ext (lookup_dependency deps)); [by apply item_reads|].
    intros k Hk. apply (Hlook a); [set_solver|done].
  - apply IH. intros b k Hb. apply Hlook. set_solver.
Qed.

Lemma block_values evs size :
  Forall event_ok evs ->
  exists q deps, foldM push_event (queue_new size) evs = Ok q /\
    nb_objects q = Z.of_nat (length evs) /\ extract_from q = Ok deps /\
    (blen (as_bytes deps) < 2 ^ 63 -> blen (as_bytes q) < 2 ^ 63 ->
     exists h, read_dependencies deps_udts (as_bytes deps) = Ok h /\
     forall S (f : S -> Value -> exec (S * bool)) s,
       parse_object_buffer h udts (as_bytes q) f s =
       fold_until f s (map (event_value dep_value) evs)).
Proof.
  intros Hok. pose proof (items_ok evs Hok) as Hits.
  pose proof (push_items m _ (queue_new size) Hits) as Hpush. rewrite length_map in Hpush.
  set (q := mkQueue _ _ _) in Hpush.
  assert (iter q = Ok evs) as Hit
    by (pose proof (iter_queue m _ (Z.of_nat (length evs)) size Hits) as Hi;
        rewrite map_item_any in Hi; exact Hi).
  destruct (extract_from_ok evs q Hit Hok) as (deps & Hdeps & Hread).
  exists q, deps. split; [by rewrite push_events_items|]. split; [done|]. split; [done|].
  intros Hbd Hbq. destruct (Hread Hbd) as (h & Hh & Hlook). exists h. split; [done|].
  intros S f s. apply (parse_object_buffer_frames m udts h f (map to_item evs)); [|done].
  by apply events_read.
Qed.
End block.
