(* ===== verification/LogEvents.v ===== *)
(** * Log events

    [tracing/src/logs/events.rs]: the events of the log stream, the two that
    serialize themselves, the record of a log description, and what the parser
    reads of each. *)

From S2P Require Import Prelude RustString Transit Queue Pod Parser PodParser Blocks Levels.
From S2P Require Import Deps.

(** ** The structures *)
Record LogStaticStrEvent := mkLogStaticStrEvent { lss_desc : Z; lss_time : Z }.

Record LogStringEvent := mkLogStringEvent {
  lse_desc : Z;
  lse_time : Z;
  lse_dyn_str : DynString
}.

Record LogStaticStrInteropEvent := mkLogStaticStrInteropEvent {
  lssi_time : Z;
  lssi_level : Z;
  lssi_target : StringId;
  lssi_msg : StringId
}.

Record LogStringInteropEvent := mkLogStringInteropEvent {
  lsi_time : Z;
  lsi_level : Z;
  lsi_target : StringId;
  lsi_msg : DynString
}.

Record LogMetadataRecord := mkLogMetadataRecord {
  lmr_id : Z;
  lmr_fmt_str : Z;
  lmr_target : Z;
  lmr_module_path : Z;
  lmr_file : Z;
  lmr_line : Z;
  lmr_level : Z
}.

(** ** Serialization *)
#[export] Instance LogStaticStrEvent_Pod : Pod LogStaticStrEvent := {|
  decl := mkStruct "LogStaticStrEvent"
    [mkField "desc" (Reference_ "& 'static LogMetadata < 'static >") 8;
     mkField "time" (Path "i64") 8];
  to_fields e := [u64_bytes (lss_desc e); i64_bytes (lss_time e)];
  of_fields fs :=
    match fs with
    | [desc; time] => Some (mkLogStaticStrEvent (u64_of desc) (i64_of time))
    | _ => None
    end
|}.

#[export] Instance LogStaticStrInteropEvent_Pod `{Abi} : Pod LogStaticStrInteropEvent := {|
  decl := mkStruct "LogStaticStrInteropEvent"
    [mkField "time" (Path "i64") 8; mkField "level" (Path "u32") 4;
     mkField "target" (Path "StringId") (size_of (decl StringId));
     mkField "msg" (Path "StringId") (size_of (decl StringId))];
  to_fields e := [i64_bytes (lssi_time e); u32_bytes (lssi_level e);
                  pod_bytes (lssi_target e); pod_bytes (lssi_msg e)];
  of_fields fs :=
    match fs with
    | [time; level; target; msg] =>
        target ← pod_of_bytes target;
        msg ← pod_of_bytes msg;
        Some (mkLogStaticStrInteropEvent (i64_of time) (u32_of level) target msg)
    | _ => None
    end
|}.

#[export] Instance LogMetadataRecord_Pod : Pod LogMetadataRecord := {|
  decl := mkStruct "LogMetadataRecord"
    [mkField "id" (Path "u64") 8; mkField "fmt_str" (Ptr "* const u8") 8;
     mkField "target" (Ptr "* const u8") 8; mkField "module_path" (Ptr "* const u8") 8;
     mkField "file" (Ptr "* const u8") 8; mkField "line" (Path "u32") 4;
     mkField "level" (Path "u32") 4];
  to_fields r := [u64_bytes (lmr_id r); u64_bytes (lmr_fmt_str r); u64_bytes (lmr_target r);
                  u64_bytes (lmr_module_path r); u64_bytes (lmr_file r);
                  u32_bytes (lmr_line r); u32_bytes (lmr_level r)];
  of_fields fs :=
    match fs with
    | [i; f; t; mp; fi; li; le] =>
        Some (mkLogMetadataRecord (u64_of i) (u64_of f) (u64_of t) (u64_of mp) (u64_of fi)
                (u32_of li) (u32_of le))
    | _ => None
    end
|}.

(** The paths of types that the derived structures of the library name, besides
    the intrinsic types, are all [StringId]. *)
Definition tracing_reflect_of `{Abi} (type_path : string) : UserDefinedType := reflect StringId.

#[export] Instance LogStaticStrEvent_Reflect `{Abi} : Reflect LogStaticStrEvent :=
  derive_reflect_impl tracing_reflect_of (decl LogStaticStrEvent).
#[export] Instance LogStaticStrInteropEvent_Reflect `{Abi} : Reflect LogStaticStrInteropEvent :=
  derive_reflect_impl tracing_reflect_of (decl LogStaticStrInteropEvent).
#[export] Instance LogMetadataRecord_Reflect `{Abi} : Reflect LogMetadataRecord :=
  derive_reflect_impl tracing_reflect_of (decl LogMetadataRecord).
#[export] Instance LogStringEvent_Reflect : Reflect LogStringEvent :=
  mkUDT "LogStringEvent" 0 [] false [].
#[export] Instance LogStringInteropEvent_Reflect : Reflect LogStringInteropEvent :=
  mkUDT "LogStringInteropEventV2" 0 [] false [].

(** A sum of [u32], with overflow checks *)
Definition u32_sum (l : list Z) : option Z :=
  let z := foldr Z.add 0 l in if z <? 2 ^ 32 then Some z else None.

#[export] Instance LogStringEvent_InProcSerialize : InProcSerialize LogStringEvent := {|
  IN_PROC_SIZE := Dynamic;
  get_value_size e :=
    n ← get_value_size (lse_dyn_str e);
    u32_sum [8; 8; n];
  write_value mem e b :=
    let b := write_any 8 (lse_desc e) b in
    let b := write_any 8 (lse_time e) b in
    write_value mem (lse_dyn_str e) b;
  read_value b ptr value_size :=
    desc ← read_any_u 8 b ptr;
    let time_offset := 8 in
    time ← read_any_i 8 b (ptr + time_offset);
    buffer_size ← unwrap value_size;
    let string_offset := 8 + time_offset in
    msg_size ← usize_sub buffer_size string_offset;
    msg ← read_value b (ptr + string_offset) (Some msg_size);
    Ok (mkLogStringEvent desc time msg)
|}.

#[export] Instance LogStringInteropEvent_InProcSerialize `{Abi} :
  InProcSerialize LogStringInteropEvent := {|
  IN_PROC_SIZE := Dynamic;
  get_value_size e :=
    n ← get_value_size (lsi_msg e);
    u32_sum [8; 4; wrap_u 32 (size_of (decl StringId)); n];
  write_value mem e b :=
    let b := write_any 8 (lsi_time e) b in
    let b := write_any 4 (lsi_level e) b in
    let b := b ++ pod_bytes (lsi_target e) in
    write_value mem (lsi_msg e) b;
  read_value b ptr value_size :=
    time ← read_any_i 8 b ptr;
    let level_offset := 8 in
    level ← read_any_u 4 b (ptr + level_offset);
    let target_offset := level_offset + 4 in
    target ← read_value (T := StringId) b (ptr + target_offset) None;
    buffer_size ← unwrap value_size;
    let msg_offset := target_offset + size_of (decl StringId) in
    msg_size ← usize_sub buffer_size (wrap_u 32 msg_offset);
    msg ← read_value b (ptr + msg_offset) (Some msg_size);
    Ok (mkLogStringInteropEvent time level target msg)
|}.

(** ** Lawfulness *)
Definition lss_ok (e : LogStaticStrEvent) : Prop := in_u 64 (lss_desc e) /\ in_i 64 (lss_time e).
Definition lssi_ok (e : LogStaticStrInteropEvent) : Prop :=
  in_i 64 (lssi_time e) /\ in_u 32 (lssi_level e) /\ sid_ok (lssi_target e) /\ sid_ok (lssi_msg e).
Definition lmr_ok (r : LogMetadataRecord) : Prop :=
  in_u 64 (lmr_id r) /\ in_u 64 (lmr_fmt_str r) /\ in_u 64 (lmr_target r) /\
  in_u 64 (lmr_module_path r) /\ in_u 64 (lmr_file r) /\ in_u 32 (lmr_line r) /\
  in_u 32 (lmr_level r).

Lemma size_of_StringId_pos {HAbi : Abi} {HA : LawfulAbi} : 8 <= size_of (decl StringId).
Proof.
  destruct (StringId_ptr_bytes (mkStringId 0 0)) as (H1 & H2 & _); [by split|]. lia.
Qed.

(** Fields that hold a [StringId] *)
Tactic Notation "solve_fit_ids" reference(P) :=
  split; [repeat constructor; cbn [f_size]; pose proof size_of_StringId_pos; lia
         | unfold P;
           cbn [to_fields map decl s_fields f_size]; unfold u32_bytes, u64_bytes, f64_bytes;
           rewrite ?blen_le_split, ?(blen_pod_bytes (T := StringId)) by assumption; reflexivity].

#[export] Program Instance LogStaticStrEvent_LawfulPod : LawfulPod LogStaticStrEvent :=
  {| pod_ok := lss_ok |}.
Next Obligation. intros v Hv. solve_fit. Qed.
Next Obligation.
  intros [d t] [Hd Ht]. cbn in *. by rewrite u64_of_bytes, i64_of_bytes.
Qed.

#[export] Program Instance LogStaticStrInteropEvent_LawfulPod {HAbi : Abi} {HA : LawfulAbi} :
  LawfulPod LogStaticStrInteropEvent := {| pod_ok := lssi_ok |}.
Next Obligation. intros HAbi HA v (H1 & H2 & H3 & H4). solve_fit_ids LogStaticStrInteropEvent_Pod. Qed.
Next Obligation.
  intros HAbi HA [t l ta msg] (H1 & H2 & H3 & H4).
  unfold LogStaticStrInteropEvent_Pod. cbn [to_fields of_fields lssi_time lssi_level lssi_target lssi_msg] in *.
  rewrite i64_of_bytes, u32_of_bytes, !(pod_of_pod_bytes (T := StringId)) by done. done.
Qed.

#[export] Program Instance LogMetadataRecord_LawfulPod : LawfulPod LogMetadataRecord :=
  {| pod_ok := lmr_ok |}.
Next Obligation. intros v Hv. solve_fit. Qed.
Next Obligation.
  intros [i f t mp fi li le] (H1 & H2 & H3 & H4 & H5 & H6 & H7). cbn in *.
  by rewrite !u64_of_bytes, !u32_of_bytes.
Qed.

(** *** The events that serialize themselves *)
Definition lse_ok (e : LogStringEvent) : Prop :=
  in_u 64 (lse_desc e) /\ in_i 64 (lse_time e) /\ valid_string (dyn_str (lse_dyn_str e)) /\
  blen (bytes_of (dyn_str (lse_dyn_str e))) < 2 ^ 32 - 16.
Definition lsi_ok `{Abi} (e : LogStringInteropEvent) : Prop :=
  in_i 64 (lsi_time e) /\ in_u 32 (lsi_level e) /\ sid_ok (lsi_target e) /\
  valid_string (dyn_str (lsi_msg e)) /\
  12 + size_of (decl StringId) + blen (bytes_of (dyn_str (lsi_msg e))) < 2 ^ 32.

(** Reads at a distance from the start of a part of the buffer *)
Lemma read_any_u_at n z p x s off :
  off = blen x -> in_u (8 * Z.of_nat n) z ->
  forall y, read_any_u n (p ++ (x ++ le_split n z ++ y) ++ s) (blen p + off) = Ok z.
Proof.
  intros -> Hz y. rewrite <- blen_app, <- (app_assoc x), (app_assoc p x), <- (app_assoc (le_split n z)).
  by apply read_any_u_le_split.
Qed.
Lemma read_any_u_start n z p s y :
  in_u (8 * Z.of_nat n) z -> read_any_u n (p ++ (le_split n z ++ y) ++ s) (blen p) = Ok z.
Proof. intros Hz. rewrite <- (Z.add_0_r (blen p)). by apply (read_any_u_at n z p [] s 0). Qed.
Lemma read_any_i_at n z p x s off :
  (0 < n)%nat -> off = blen x -> in_i (8 * Z.of_nat n) z ->
  forall y, read_any_i n (p ++ (x ++ le_split n z ++ y) ++ s) (blen p + off) = Ok z.
Proof.
  intros Hn -> Hz y. rewrite <- blen_app, <- (app_assoc x), (app_assoc p x), <- (app_assoc (le_split n z)).
  unfold read_any_i, read_any_u. rewrite read_bytes_here by blia. cbn [mbind exec_bind].
  f_equal. by apply le_combine_split_i.
Qed.
Lemma read_any_i_start n z p s y :
  (0 < n)%nat -> in_i (8 * Z.of_nat n) z ->
  read_any_i n (p ++ (le_split n z ++ y) ++ s) (blen p) = Ok z.
Proof. intros Hn Hz. rewrite <- (Z.add_0_r (blen p)). by apply (read_any_i_at n z p [] s 0). Qed.
Lemma read_DynString_at d p x s off n :
  off = blen x -> n = blen (bytes_of (dyn_str d)) -> valid_string (dyn_str d) ->
  read_value (T := DynString) (p ++ (x ++ bytes_of (dyn_str d)) ++ s) (blen p + off) (Some n) = Ok d.
Proof.
  intros -> -> Hv. rewrite <- blen_app, <- (app_assoc x), (app_assoc p x).
  cbn. rewrite read_bytes_here by done. cbn. rewrite from_utf8_bytes by done. by destruct d.
Qed.

#[export] Program Instance LogStringEvent_Lawful : LawfulSerialize LogStringEvent := {|
  wire_ok _ e := lse_ok e;
  wire _ e := le_split 8 (lse_desc e) ++ le_split 8 (lse_time e) ++ bytes_of (dyn_str (lse_dyn_str e))
|}.
Next Obligation. intros m v b H. cbn. unfold write_any. by rewrite <- !app_assoc. Qed.
Next Obligation.
  intros m v (H1 & H2 & H3 & H4). pose proof (blen_nonneg (bytes_of (dyn_str (lse_dyn_str v)))).
  cbn [IN_PROC_SIZE LogStringEvent_InProcSerialize get_value_size DynString_InProcSerialize mbind option_bind].
  rewrite wrap_u_id by (unfold in_u; lia). unfold u32_sum. cbn [foldr].
  rewrite (proj2 (Z.ltb_lt _ _)) by lia. rewrite !blen_app, !blen_le_split. split; [f_equal|]; lia.
Qed.
Next Obligation.
  intros m [d t ms] p s (H1 & H2 & H3 & H4). cbn [lse_desc lse_time lse_dyn_str] in *.
  cbn [read_value LogStringEvent_InProcSerialize announced IN_PROC_SIZE unwrap].
  rewrite read_any_u_start by done. cbn [mbind exec_bind].
  rewrite (read_any_i_at 8 t p (le_split 8 d) s 8) by (done || lia). cbn [mbind exec_bind].
  rewrite !blen_app, !blen_le_split.
  rewrite usize_sub_Ok by blia. cbn [mbind exec_bind].
  rewrite (app_assoc (le_split 8 d)).
  rewrite read_DynString_at; [done|by rewrite blen_app, !blen_le_split|lia|done].
Qed.

#[export] Program Instance LogStringInteropEvent_Lawful {HAbi : Abi} {HA : LawfulAbi} :
  LawfulSerialize LogStringInteropEvent := {|
  wire_ok _ e := lsi_ok e;
  wire _ e := le_split 8 (lsi_time e) ++ le_split 4 (lsi_level e) ++ pod_bytes (lsi_target e)
    ++ bytes_of (dyn_str (lsi_msg e))
|}.
Next Obligation. intros HAbi HA m v b H. cbn. unfold write_any. by rewrite <- !app_assoc. Qed.
Next Obligation.
  intros HAbi HA m v (H1 & H2 & H3 & H4 & H5).
  pose proof (blen_nonneg (bytes_of (dyn_str (lsi_msg v)))). pose proof size_of_StringId_pos.
  cbn [IN_PROC_SIZE LogStringInteropEvent_InProcSerialize get_value_size
    DynString_InProcSerialize mbind option_bind].
  rewrite !wrap_u_id by (unfold in_u; lia). unfold u32_sum. cbn [foldr].
  rewrite (proj2 (Z.ltb_lt _ _)) by lia.
  rewrite !blen_app, !blen_le_split, (blen_pod_bytes (T := StringId)) by done.
  split; [f_equal|]; lia.
Qed.
Next Obligation.
  intros HAbi HA m [t l ta ms] p s (H1 & H2 & H3 & H4 & H5).
  cbn [lsi_time lsi_level lsi_target lsi_msg] in *.
  pose proof (blen_nonneg (bytes_of (dyn_str ms))). pose proof size_of_StringId_pos.
  pose proof (blen_pod_bytes (T := StringId) ta H3) as Hta.
  unfold read_value at 1, LogStringInteropEvent_InProcSerialize.
  cbn [announced IN_PROC_SIZE unwrap].
  rewrite read_any_i_start by (done || lia). cbn [mbind exec_bind].
  rewrite (read_any_u_at 4 l p (le_split 8 t) s 8) by (done || lia). cbn [mbind exec_bind].
  pose proof (wire_read (T := StringId) m ta (p ++ le_split 8 t ++ le_split 4 l)
    (bytes_of (dyn_str ms) ++ s) H3) as Hr.
  cbn [wire Pod_Lawful announced IN_PROC_SIZE Pod_InProcSerialize] in Hr.
  rewrite <- !app_assoc in Hr. rewrite !blen_app, !blen_le_split in Hr.
  rewrite !blen_app, !blen_le_split, Hta.
  assert (forall z, (le_split 8 t ++ le_split 4 l ++ pod_bytes ta ++ z) ++ s =
    le_split 8 t ++ le_split 4 l ++ pod_bytes ta ++ z ++ s) as Hs
    by (intros; by rewrite <- !app_assoc).
  rewrite Hs. replace (blen p + (8 + 4)) with (blen p + (Z.of_nat 8 + Z.of_nat 4)) by lia.
  rewrite Hr. cbn [mbind exec_bind].
  rewrite wrap_u_id by (unfold in_u; lia).
  rewrite usize_sub_Ok by lia. cbn [mbind exec_bind].
  rewrite <- Hs, (app_assoc (le_split 4 l)), (app_assoc (le_split 8 t)).
  rewrite read_DynString_at; [done| |lia|done].
  rewrite !blen_app, !blen_le_split, Hta. lia.
Qed.
