(* ===== verification/LogBlock.v ===== *)
(** * The log queue and its dependencies

    [tracing/src/logs/block.rs], and what the parser of [transit] makes of a
    block of logs: every event is read as an object whose description is the
    one that the event pointed to. *)

From S2P Require Import Prelude RustString Transit Queue Pod Parser PodParser Blocks Levels.
From S2P Require Import Deps LogEvents.

(** ** The queues *)
Module LogMsgQueueAny.
Inductive t :=
| LogStaticStrEvent (evt : LogEvents.LogStaticStrEvent)
| LogStringEvent (evt : LogEvents.LogStringEvent)
| LogStaticStrInteropEvent (evt : LogEvents.LogStaticStrInteropEvent)
| LogStringInteropEvent (evt : LogEvents.LogStringInteropEvent).
End LogMsgQueueAny.
Abbreviation LogMsgQueueAny := LogMsgQueueAny.t.

Module LogDepsQueueAny.
Inductive t :=
| StaticString (evt : Transit.StaticString)
| LogMetadataRecord (evt : LogEvents.LogMetadataRecord).
End LogDepsQueueAny.
Abbreviation LogDepsQueueAny := LogDepsQueueAny.t.

#[export] Instance LogMsgQueue `{Abi} : HeterogeneousQueue LogMsgQueueAny :=
  [TypeArg LogStaticStrEvent (reflect LogStaticStrEvent) LogMsgQueueAny.LogStaticStrEvent;
   TypeArg LogStringEvent (reflect LogStringEvent) LogMsgQueueAny.LogStringEvent;
   TypeArg LogStaticStrInteropEvent (reflect LogStaticStrInteropEvent)
     LogMsgQueueAny.LogStaticStrInteropEvent;
   TypeArg LogStringInteropEvent (reflect LogStringInteropEvent)
     LogMsgQueueAny.LogStringInteropEvent].

#[export] Instance LogDepsQueue `{Abi} : HeterogeneousQueue LogDepsQueueAny :=
  [TypeArg StaticString (reflect StaticString) LogDepsQueueAny.StaticString;
   TypeArg LogMetadataRecord (reflect LogMetadataRecord) LogDepsQueueAny.LogMetadataRecord].

(** [events_mut().push(event)], for each type of event *)
Definition push_log_event `{Abi} (mem : rodata) (q : Queue) (a : LogMsgQueueAny) : exec Queue :=
  match a with
  | LogMsgQueueAny.LogStaticStrEvent evt => push mem 0 evt q
  | LogMsgQueueAny.LogStringEvent evt => push mem 1 evt q
  | LogMsgQueueAny.LogStaticStrInteropEvent evt => push mem 2 evt q
  | LogMsgQueueAny.LogStringInteropEvent evt => push mem 3 evt q
  end.

(** ** Dependencies *)
Definition record_log_event_dependencies `{Abi} (st : statics) (log_ptr : Z)
    (recorded_deps : gset Z) (deps : Queue) : exec (gset Z * Queue) :=
  log_desc ← deref (st_logs st) log_ptr;
  let '(is_new, recorded_deps) := insert_key recorded_deps log_ptr in
  if is_new then
    s ← record_string (st_bytes st) 0 (StaticString_from (lm_fmt_str log_desc)) (recorded_deps, deps);
    s ← record_string (st_bytes st) 0 (StaticString_from (lm_target log_desc)) s;
    s ← record_string (st_bytes st) 0 (StaticString_from (lm_module_path log_desc)) s;
    '(recorded_deps, deps) ←
      record_string (st_bytes st) 0 (StaticString_from (lm_file log_desc)) s;
    deps ← push (st_bytes st) 1
      (mkLogMetadataRecord log_ptr (str_ptr (lm_fmt_str log_desc)) (str_ptr (lm_target log_desc))
         (str_ptr (lm_module_path log_desc)) (str_ptr (lm_file log_desc)) (lm_line log_desc)
         (Level.as_u32 (lm_level log_desc))) deps;
    Ok (recorded_deps, deps)
  else Ok (recorded_deps, deps).

(** The body of the loop of [extract] *)
Definition extract_log_event `{Abi} (st : statics) (s : gset Z * Queue) (x : LogMsgQueueAny)
  : exec (gset Z * Queue) :=
  match x with
  | LogMsgQueueAny.LogStaticStrEvent evt =>
      record_log_event_dependencies st (lss_desc evt) s.1 s.2
  | LogMsgQueueAny.LogStringEvent evt =>
      record_log_event_dependencies st (lse_desc evt) s.1 s.2
  | LogMsgQueueAny.LogStaticStrInteropEvent evt =>
      s ← record_string (st_bytes st) 0 (StaticString_from_id (lssi_target evt)) s;
      record_string (st_bytes st) 0 (StaticString_from_id (lssi_msg evt)) s
  | LogMsgQueueAny.LogStringInteropEvent evt =>
      record_string (st_bytes st) 0 (StaticString_from_id (lsi_target evt)) s
  end.

Definition extract_logs `{Abi} (st : statics) (q : Queue) : exec Queue :=
  objs ← iter q (Any := LogMsgQueueAny);
  '(_, deps) ← foldM (extract_log_event st) (∅, queue_new (1024 * 1024)) objs;
  Ok deps.

(** ** Items *)
Section log_block.
Context {HAbi : Abi} {HA : LawfulAbi}.

Definition log_item (a : LogMsgQueueAny) : item LogMsgQueueAny :=
  match a with
  | LogMsgQueueAny.LogStaticStrEvent evt =>
      Item LogStaticStrEvent 0 (reflect LogStaticStrEvent) LogMsgQueueAny.LogStaticStrEvent evt
        ltac:(lia) eq_refl
  | LogMsgQueueAny.LogStringEvent evt =>
      Item LogStringEvent 1 (reflect LogStringEvent) LogMsgQueueAny.LogStringEvent evt
        ltac:(lia) eq_refl
  | LogMsgQueueAny.LogStaticStrInteropEvent evt =>
      Item LogStaticStrInteropEvent 2 (reflect LogStaticStrInteropEvent)
        LogMsgQueueAny.LogStaticStrInteropEvent evt ltac:(lia) eq_refl
  | LogMsgQueueAny.LogStringInteropEvent evt =>
      Item LogStringInteropEvent 3 (reflect LogStringInteropEvent)
        LogMsgQueueAny.LogStringInteropEvent evt ltac:(lia) eq_refl
  end.

Definition log_dep_string (s : StaticString) : item LogDepsQueueAny :=
  Item StaticString 0 (reflect StaticString) LogDepsQueueAny.StaticString s ltac:(lia) eq_refl.
Definition log_dep_record (r : LogMetadataRecord) : item LogDepsQueueAny :=
  Item LogMetadataRecord 1 (reflect LogMetadataRecord) LogDepsQueueAny.LogMetadataRecord r
    ltac:(lia) eq_refl.

Lemma push_log_item m q a : push_log_event m q a = push_item m q (log_item a).
Proof. by destruct a. Qed.

(** ** What the parser reads *)

(** The metadata that the parser has: the queue's types at their indices, and
    the type of the string identifiers. *)
Definition log_udts_ok (udts : list UserDefinedType) : Prop :=
  udts !! 0%nat = Some (received (reflect LogStaticStrEvent)) /\
  udts !! 1%nat = Some (received (reflect LogStringEvent)) /\
  udts !! 2%nat = Some (received (reflect LogStaticStrInteropEvent)) /\
  udts !! 3%nat = Some (received (reflect LogStringInteropEvent)) /\
  find_udt "StringId" udts = Some (reflect StringId).
Definition log_deps_udts_ok (udts : list UserDefinedType) : Prop :=
  udts !! 0%nat = Some (reflect StaticString) /\
  udts !! 1%nat = Some (received (reflect LogMetadataRecord)).

(** The object that an event is read as, for a lookup of dependencies *)
Definition log_event_value (dep : Z -> Value) (a : LogMsgQueueAny) : Value :=
  match a with
  | LogMsgQueueAny.LogStaticStrEvent e =>
      Object_ (mkObject "LogStaticStrEvent" [("desc", dep (lss_desc e)); ("time", I64 (lss_time e))])
  | LogMsgQueueAny.LogStringEvent e =>
      Object_ (mkObject "LogStringEvent"
        [("time", I64 (lse_time e)); ("msg", String_ (dyn_str (lse_dyn_str e)));
         ("desc", dep (lse_desc e))])
  | LogMsgQueueAny.LogStaticStrInteropEvent e =>
      Object_ (mkObject "LogStaticStrInteropEvent"
        [("time", I64 (lssi_time e)); ("level", U32 (lssi_level e));
         ("target", dep (sid_ptr (lssi_target e))); ("msg", dep (sid_ptr (lssi_msg e)))])
  | LogMsgQueueAny.LogStringInteropEvent e =>
      Object_ (mkObject "LogStringInteropEventV2"
        [("time", I64 (lsi_time e)); ("level", U32 (lsi_level e));
         ("target", dep (sid_ptr (lsi_target e))); ("msg", String_ (dyn_str (lsi_msg e)))])
  end.

(** The object that a record of a description is read as *)
Definition log_record_value (dep : Z -> Value) (k : Z) (md : LogMetadata) : Value :=
  Object_ (mkObject "LogMetadataRecord"
    [("id", U64 k); ("fmt_str", dep (str_ptr (lm_fmt_str md)));
     ("target", dep (str_ptr (lm_target md))); ("module_path", dep (str_ptr (lm_module_path md)));
     ("file", dep (str_ptr (lm_file md))); ("line", U32 (lm_line md));
     ("level", U32 (Level.as_u32 (lm_level md)))]).

Lemma parse_LogStringEvent m deps e pre s :
  lse_ok e ->
  parse_log_string_event deps (blen pre) (blen (wire (T := LogStringEvent) m e))
    (pre ++ wire (T := LogStringEvent) m e ++ s) =
  Ok [("time", I64 (lse_time e)); ("msg", String_ (dyn_str (lse_dyn_str e)));
      ("desc", lookup_dependency deps (lse_desc e))].
Proof.
  destruct e as [d t ms]. intros (H1 & H2 & H3 & H4). cbn [lse_desc lse_time lse_dyn_str] in *.
  cbn [wire LogStringEvent_Lawful lse_desc lse_time lse_dyn_str]. unfold parse_log_string_event.
  rewrite read_any_u_start by done. cbn [mbind exec_bind].
  rewrite (read_any_i_at 8 t pre (le_split 8 d) s 8) by (done || lia). cbn [mbind exec_bind].
  rewrite !blen_app, !blen_le_split.
  rewrite usize_sub_Ok by blia. cbn [mbind exec_bind].
  rewrite wrap_u_id by (unfold in_u; blia).
  rewrite (app_assoc (le_split 8 d)).
  rewrite (read_DynString_at ms); [done|by rewrite blen_app, !blen_le_split|lia|done].
Qed.

Lemma parse_LogStringInteropEvent m udts deps e pre s :
  find_udt "StringId" udts = Some (reflect StringId) -> lsi_ok e ->
  blen (pre ++ wire (T := LogStringInteropEvent) m e ++ s) < 2 ^ 63 ->
  parse_log_string_interop_event udts deps (blen pre)
    (blen (wire (T := LogStringInteropEvent) m e))
    (pre ++ wire (T := LogStringInteropEvent) m e ++ s) =
  Ok [("time", I64 (lsi_time e)); ("level", U32 (lsi_level e));
      ("target", lookup_dependency deps (sid_ptr (lsi_target e)));
      ("msg", String_ (dyn_str (lsi_msg e)))].
Proof.
  destruct e as [t l ta ms]. intros HU (H1 & H2 & H3 & H4 & H5) Hb.
  cbn [lsi_time lsi_level lsi_target lsi_msg] in *.
  cbn [wire LogStringInteropEvent_Lawful lsi_time lsi_level lsi_target lsi_msg] in *.
  unfold parse_log_string_interop_event. rewrite HU.
  pose proof (blen_nonneg (bytes_of (dyn_str ms))). pose proof size_of_StringId_pos.
  pose proof (blen_pod_bytes (T := StringId) ta H3) as Hta.
  rewrite read_any_i_start by (done || lia). cbn [mbind exec_bind].
  rewrite (read_any_u_at 4 l pre (le_split 8 t) s 8) by (done || lia). cbn [mbind exec_bind].
  change (udt_size (reflect StringId)) with (size_of (decl StringId)).
  unfold parse_pod_instance.
  rewrite (parse_StringId udts deps (length udts) ta); [|done|blia|done|].
  2:{ replace (blen pre + 8 + 4) with (blen (pre ++ le_split 8 t ++ le_split 4 l))
        by (rewrite !blen_app, !blen_le_split; lia).
      replace (pre ++ (le_split 8 t ++ le_split 4 l ++ pod_bytes ta ++ bytes_of (dyn_str ms)) ++ s)
        with ((pre ++ le_split 8 t ++ le_split 4 l) ++ pod_bytes ta ++ (bytes_of (dyn_str ms) ++ s))
        by by rewrite <- !app_assoc.
      by apply read_bytes_here. }
  cbn [mbind exec_bind].
  rewrite usize_add_Ok by (revert Hb; rewrite !blen_app, !blen_le_split; blia).
  cbn [mbind exec_bind]. rewrite !blen_app, !blen_le_split, Hta.
  rewrite usize_sub_Ok by lia. cbn [mbind exec_bind]. rewrite wrap_u_id by (unfold in_u; lia).
  rewrite (app_assoc (le_split 4 l)), (app_assoc (le_split 8 t)).
  replace (blen pre + 8 + 4 + size_of (decl StringId))
    with (blen pre + (8 + 4 + size_of (decl StringId))) by lia.
  rewrite (read_DynString_at ms); [done| |lia|done].
  rewrite !blen_app, !blen_le_split, Hta. lia.
Qed.

Lemma log_item_reads m udts deps a :
  log_udts_ok udts -> item_ok m (log_item a) ->
  obj_reads m udts deps (log_item a) (log_event_value (lookup_dependency deps) a).
Proof.
  intros (U0 & U1 & U2 & U3 & UI) Hok.
  destruct a as [e|e|e|e]; unfold item_ok in Hok; cbn [log_item it_value] in Hok.
  - destruct Hok as (H1 & H2).
    apply (pod_item_obj_reads m udts tracing_reflect_of 0 _ _ _ _ U0) with
      (vs := [lookup_dependency deps (lss_desc e); I64 (lss_time e)]); [done|by split|].
    cbn. solve_reads.
  - intros p s Hb.
    change (item_frame m (log_item _)) with (frame 1 Dynamic (wire m e)) in *.
    destruct (frame_dynamic_split 1 (wire m e) p s) as (pre & Hpre & Hlen).
    exists (blen pre), (blen (wire m e)).
    rewrite blen_frame. cbn [header_len].
    pose proof (wire_size m e Hok) as [_ Hw].
    rewrite (parse_object_dynamic deps udts _ 1 (wire m e) p s (conj (Z.le_0_1) eq_refl) U1) by done.
    rewrite Hpre, <- Hlen in *.
    unfold parse_custom_instance. cbn [udt_name received reflect LogStringEvent_Reflect].
    change (String.eqb "LogStringEvent" "LogStringEvent") with true. cbn iota.
    rewrite (parse_LogStringEvent m deps e pre s Hok). cbn [mbind exec_bind].
    split; [reflexivity|lia].
  - destruct Hok as (H1 & H2 & H3 & H4).
    apply (pod_item_obj_reads m udts tracing_reflect_of 2 _ _ _ _ U2) with
      (vs := [I64 (lssi_time e); U32 (lssi_level e);
        lookup_dependency deps (sid_ptr (lssi_target e));
        lookup_dependency deps (sid_ptr (lssi_msg e))]); [done|by split|].
    unfold LogStaticStrInteropEvent_Pod. cbn [decl s_fields to_fields]. solve_reads.
  - intros p s Hb.
    change (item_frame m (log_item _)) with (frame 3 Dynamic (wire m e)) in *.
    destruct (frame_dynamic_split 3 (wire m e) p s) as (pre & Hpre & Hlen).
    exists (blen pre), (blen (wire m e)).
    rewrite blen_frame. cbn [header_len].
    pose proof (wire_size m e Hok) as [_ Hw].
    rewrite (parse_object_dynamic deps udts _ 3 (wire m e) p s ltac:(by split) U3) by done.
    rewrite Hpre, <- Hlen in *.
    unfold parse_custom_instance. cbn [udt_name received reflect LogStringInteropEvent_Reflect].
    change (String.eqb "LogStringInteropEventV2" "LogStringEvent") with false.
    change (String.eqb "LogStringInteropEventV2" "LogStringInteropEventV2") with true. cbn iota.
    rewrite (parse_LogStringInteropEvent m udts deps e pre s UI Hok Hb). cbn [mbind exec_bind].
    split; [reflexivity|lia].
Qed.

(** The ids that an event needs *)
Definition log_event_keys (a : LogMsgQueueAny) : gset Z :=
  match a with
  | LogMsgQueueAny.LogStaticStrEvent e => {[lss_desc e]}
  | LogMsgQueueAny.LogStringEvent e => {[lse_desc e]}
  | LogMsgQueueAny.LogStaticStrInteropEvent e =>
      {[sid_ptr (lssi_target e); sid_ptr (lssi_msg e)]}
  | LogMsgQueueAny.LogStringInteropEvent e => {[sid_ptr (lsi_target e)]}
  end.

(** The value of an event depends on the dependencies it names only. *)
Lemma log_event_value_ext f g a :
  (forall k, k ∈ log_event_keys a -> f k = g k) -> log_event_value f a = log_event_value g a.
Proof.
  intros H. destruct a as [e|e|e|e]; cbn [log_event_value log_event_keys] in *;
    rewrite !H by set_solver; reflexivity.
Qed.

(** ** Extraction *)
Section extraction.
Context (st : statics) (strs : gmap Z string) (deps_udts : list UserDefinedType).
Context (Hudts : log_deps_udts_ok deps_udts).

Definition str_dep (k : Z) : Value :=
  match strs !! k with Some s => String_ s | None => None_ end.

Definition log_dep_value (k : Z) : Value :=
  match st_logs st !! k with
  | Some md => log_record_value str_dep k md
  | None => str_dep k
  end.

(** The static log descriptions: strings of the program, at addresses that are
    not the address of a string. *)
Definition log_metadata_ok : Prop :=
  forall a md, st_logs st !! a = Some md ->
  in_u 64 a /\ strs !! a = None /\ in_u 32 (lm_line md) /\
  str_ok strs (st_bytes st) (lm_fmt_str md) /\ str_ok strs (st_bytes st) (lm_target md) /\
  str_ok strs (st_bytes st) (lm_module_path md) /\ str_ok strs (st_bytes st) (lm_file md).
Context (Hmd : log_metadata_ok).


Definition log_event_ok (a : LogMsgQueueAny) : Prop :=
  item_ok (st_bytes st) (log_item a) /\
  match a with
  | LogMsgQueueAny.LogStaticStrEvent e => is_Some (st_logs st !! lss_desc e)
  | LogMsgQueueAny.LogStringEvent e => is_Some (st_logs st !! lse_desc e)
  | LogMsgQueueAny.LogStaticStrInteropEvent e =>
      str_ok strs (st_bytes st) (id_ref (lssi_target e)) /\
      str_ok strs (st_bytes st) (id_ref (lssi_msg e))
  | LogMsgQueueAny.LogStringInteropEvent e =>
      str_ok strs (st_bytes st) (id_ref (lsi_target e))
  end.

Abbreviation LInv := (DInv (st_bytes st) deps_udts log_dep_value).

Lemma log_dep_string_dep s str :
  ss_ok (st_bytes st) s -> ss_bytes (st_bytes st) s = bytes_of str -> valid_string str ->
  dep_item (st_bytes st) deps_udts (log_dep_string s) (ss_ptr s) (fun _ => String_ str).
Proof.
  intros H1 H2 H3. split; [exact H1|]. by apply string_item_dep_reads; [apply Hudts|..].
Qed.

Lemma log_dep_str r :
  str_ok strs (st_bytes st) r -> log_dep_value (str_ptr r) = str_value strs r.
Proof.
  intros (s & Hs & _). unfold log_dep_value, str_dep, str_value.
  destruct (st_logs st !! str_ptr r) eqn:E; [|done].
  apply Hmd in E as (_ & E & _). congruence.
Qed.

Lemma record_log_str recorded pending deps s r :
  LInv recorded pending deps -> s = StaticString_from r -> str_ok strs (st_bytes st) r ->
  str_ptr r ∉ pending ->
  exists deps', record_string (st_bytes st) 0 s (recorded, deps) =
      Ok ({[str_ptr r]} ∪ recorded, deps') /\ LInv ({[str_ptr r]} ∪ recorded) pending deps'.
Proof.
  intros Hinv Hs Hok Hp.
  apply (record_str_ref (st_bytes st) deps_udts strs log_dep_value 0 log_dep_string); try done.
  - intros. apply log_dep_string_dep; done.
  - by apply log_dep_str.
Qed.

(** The record of a description, once its strings are recorded *)
Lemma log_dep_record_dep a md :
  st_logs st !! a = Some md ->
  dep_item (st_bytes st) deps_udts
    (log_dep_record (mkLogMetadataRecord a (str_ptr (lm_fmt_str md)) (str_ptr (lm_target md))
      (str_ptr (lm_module_path md)) (str_ptr (lm_file md)) (lm_line md) (Level.as_u32 (lm_level md))))
    a (fun h => log_record_value (lookup_dependency h) a md).
Proof.
  intros Ha. destruct (Hmd a md Ha) as (Hu & _ & Hl & Hf & Ht & Hmp & Hfi).
  assert (forall r, str_ok strs (st_bytes st) r -> in_u 64 (str_ptr r)) as Hptr
    by (intros r (? & ? & ? & ? & _); done).
  assert (in_u 32 (Level.as_u32 (lm_level md))) as Hlv
    by (pose proof (Level_as_u32_range (lm_level md)); unfold in_u; lia).
  split; [split_and!; by try apply Hptr|].
  apply (pod_item_dep_reads (st_bytes st) deps_udts tracing_reflect_of 1 _ _ _ _ (proj2 Hudts))
    with (vs := fun h => [U64 a; lookup_dependency h (str_ptr (lm_fmt_str md));
      lookup_dependency h (str_ptr (lm_target md)); lookup_dependency h (str_ptr (lm_module_path md));
      lookup_dependency h (str_ptr (lm_file md)); U32 (lm_line md);
      U32 (Level.as_u32 (lm_level md))]); try done.
  - split_and!; by try apply Hptr.
  - intros h. cbn. apply Hptr in Hf, Ht, Hmp, Hfi. solve_reads.
Qed.

Lemma record_log_event_DInv recorded deps a :
  LInv recorded ∅ deps -> is_Some (st_logs st !! a) ->
  exists recorded' deps',
    record_log_event_dependencies st a recorded deps = Ok (recorded', deps') /\
    LInv recorded' ∅ deps' /\ {[a]} ∪ recorded ⊆ recorded'.
Proof.
  intros Hinv [md Ha]. unfold record_log_event_dependencies, deref, insert_key. rewrite Ha.
  cbn [mbind exec_bind]. case_bool_decide as Hnew; [|do 2 eexists; split; [done|]].
  2:{ replace ({[a]} ∪ recorded) with recorded by set_solver. done. }
  destruct (Hmd a md Ha) as (Hu & Hna & Hl & Hf & Ht & Hmp & Hfi).
  edestruct (record_new_DInv (st_bytes st) deps_udts strs log_dep_value 0 log_dep_string
      (fun _ _ => eq_refl) log_dep_string_dep recorded deps a
      [lm_fmt_str md; lm_target md; lm_module_path md; lm_file md])
    as (rec1 & d1 & d2 & Hrec & Hpush & Hinv' & Hsub);
    [done|done|done|by repeat constructor|apply log_dep_str|by apply log_dep_record_dep| |].
  - intros h Hlook. unfold log_dep_value. rewrite Ha. unfold log_record_value.
    rewrite_forall Hlook. reflexivity.
  - cbn [foldM] in Hrec. run_strings Hrec.
    change (push_item _ d1 _) with (push (st_bytes st) 1 (mkLogMetadataRecord a
      (str_ptr (lm_fmt_str md)) (str_ptr (lm_target md)) (str_ptr (lm_module_path md))
      (str_ptr (lm_file md)) (lm_line md) (Level.as_u32 (lm_level md))) d1) in Hpush.
    rewrite Hpush. by do 2 eexists.
Qed.

Lemma extract_log_event_DInv s a :
  LInv s.1 ∅ s.2 -> log_event_ok a ->
  exists s', extract_log_event st s a = Ok s' /\ LInv s'.1 ∅ s'.2 /\ log_event_keys a ∪ s.1 ⊆ s'.1.
Proof.
  destruct s as [recorded deps]. intros Hinv [_ Ha]. destruct a as [e|e|e|e]; cbn [extract_log_event fst snd] in *.
  - destruct (record_log_event_DInv _ _ _ Hinv Ha) as (r & d & -> & ? & ?). by exists (r, d).
  - destruct (record_log_event_DInv _ _ _ Hinv Ha) as (r & d & -> & ? & ?). by exists (r, d).
  - destruct Ha as [Ht Hm].
    destruct (record_log_str _ _ _ _ _ Hinv (StaticString_from_id_ref _ _ _ Ht) Ht)
      as (d1 & -> & Hi1); [set_solver|]. cbn [mbind exec_bind].
    destruct (record_log_str _ _ _ _ _ Hi1 (StaticString_from_id_ref _ _ _ Hm) Hm)
      as (d2 & -> & Hi2); [set_solver|].
    eexists. split; [done|]. split; [done|]. cbn. set_solver.
  - destruct (record_log_str _ _ _ _ _ Hinv (StaticString_from_id_ref _ _ _ Ha) Ha)
      as (d1 & -> & Hi1); [set_solver|].
    eexists. split; [done|]. split; [done|]. cbn. set_solver.
Qed.

End extraction.

(** *** A block of logs, from the events to the values *)
Lemma log_block_values st strs udts deps_udts evs size :
  log_udts_ok udts -> log_deps_udts_ok deps_udts -> log_metadata_ok st strs ->
  Forall (log_event_ok st strs) evs ->
  exists q deps, foldM (push_log_event (st_bytes st)) (queue_new size) evs = Ok q /\
    nb_objects q = Z.of_nat (length evs) /\ extract_logs st q = Ok deps /\
    (blen (as_bytes deps) < 2 ^ 63 -> blen (as_bytes q) < 2 ^ 63 ->
     exists h, read_dependencies deps_udts (as_bytes deps) = Ok h /\
     forall S (f : S -> Value -> exec (S * bool)) s,
       parse_object_buffer h udts (as_bytes q) f s =
       fold_until f s (map (log_event_value (log_dep_value st strs)) evs)).
Proof.
  intros Hu Hdu Hmd Hok.
  apply (block_values (st_bytes st) udts deps_udts log_item (push_log_event (st_bytes st))
    (extract_log_event st) (log_event_ok st strs) log_event_keys log_event_value); try done.
  - intros. apply push_log_item.
  - by intros [].
  - by intros a [? _].
  - intros deps a [Ha _]. by apply log_item_reads.
  - apply log_event_value_ext.
  - intros. by apply extract_log_event_DInv.
Qed.
End log_block.
