(* ===== verification/Time.v ===== *)
(** * Clocks and time conversions

    [tracing/src/time.rs] (the clock itself is an input of the model),
    [tracing/src/process_info.rs] and [analytics/src/time.rs].  A
    [DateTime<Utc>] and a [TimeDelta] are their number of nanoseconds. *)

From S2P Require Import Prelude Float.

(** ** Checked [i64] arithmetic *)
Definition i64_checked (z : Z) : exec Z :=
  if (- 2 ^ 63 <=? z) && (z <? 2 ^ 63) then Ok z else Panic.

(** ** Times *)
Abbreviation DateTime := Z.
Abbreviation TimeDelta := Z.

Record DualTime := mkDualTime { dt_ticks : Z; dt_time : DateTime }.

(** [DateTime::timestamp_nanos_opt]: nothing outside of the range of [i64] *)
Definition timestamp_nanos_opt (t : DateTime) : option Z :=
  if (- 2 ^ 63 <=? t) && (t <? 2 ^ 63) then Some t else None.
(** [TimeDelta::num_seconds] and [TimeDelta::subsec_nanos]: both have the sign
    of the delta. *)
Definition num_seconds (d : TimeDelta) : Z := Z.quot d (10 ^ 9).
Definition subsec_nanos (d : TimeDelta) : Z := Z.rem d (10 ^ 9).

Abbreviation Uuid := Z.

(** The text of an identifier, [format!("{id}")], and [Uuid::try_parse] *)
Class UuidText := uuid_to_string : Uuid -> string.
Class UuidParse := try_parse : string -> option Uuid.

Record ProcessInfo := mkProcessInfo {
  process_id : Uuid;
  exe : string;
  username : string;
  realname : string;
  computer : string;
  distro : string;
  cpu_brand : string;
  tsc_frequency : Z;
  start_time : DateTime;
  start_ticks : Z;
  parent_process_id : option Uuid;
  properties : gmap string string
}.

(** ** Conversions *)
Definition f64_1000 : f64 := f64_of_Z 1000.
Definition NANOS_PER_SEC : f64 := f64_mul (f64_mul f64_1000 f64_1000) f64_1000.

Record ConvertTicks := mkConvertTicks {
  ct_tick_offset : Z;
  ct_process_start_ns : Z;
  ct_frequency : Z;
  ct_inv_tsc_frequency_ms : f64;
  ct_inv_tsc_frequency_ns : f64
}.

Definition get_tsc_frequency_inverse_ms (tsc_frequency : Z) : f64 :=
  f64_div f64_1000 (f64_of_Z tsc_frequency).
Definition get_tsc_frequency_inverse_ns (tsc_frequency : Z) : f64 :=
  f64_div NANOS_PER_SEC (f64_of_Z tsc_frequency).
Definition get_process_tick_length_ms (process_info : ProcessInfo) : f64 :=
  get_tsc_frequency_inverse_ms (tsc_frequency process_info).

Definition from_meta_data (start_ticks process_start_ns frequency : Z) : ConvertTicks :=
  mkConvertTicks start_ticks process_start_ns frequency
    (get_tsc_frequency_inverse_ms frequency) (get_tsc_frequency_inverse_ns frequency).

Definition ConvertTicks_new (process : ProcessInfo) : ConvertTicks :=
  from_meta_data (start_ticks process) (default 0 (timestamp_nanos_opt (start_time process)))
    (tsc_frequency process).

Definition get_time (c : ConvertTicks) (ts : Z) : exec f64 :=
  d ← i64_checked (ts - ct_tick_offset c);
  Ok (f64_mul (f64_of_Z d) (ct_inv_tsc_frequency_ms c)).

Definition to_ticks (c : ConvertTicks) (delta : TimeDelta) : Z :=
  let seconds := f64_of_Z (num_seconds delta) in
  let seconds := f64_add seconds (f64_div (f64_of_Z (subsec_nanos delta)) NANOS_PER_SEC) in
  let freq := f64_of_Z (ct_frequency c) in
  f64_round_to_i64 (f64_mul seconds freq).

Definition ticks_to_nanoseconds (c : ConvertTicks) (ticks : Z) : exec Z :=
  d ← i64_checked (ticks - ct_tick_offset c);
  let ns_since_process_start :=
    f64_round_to_i64 (f64_mul (f64_of_Z d) (ct_inv_tsc_frequency_ns c)) in
  i64_checked (ct_process_start_ns c + ns_since_process_start).

(** A clock at one gigahertz counts the nanoseconds. *)
Example ticks_at_1GHz :
  ticks_to_nanoseconds (from_meta_data 1000 5000000000 1000000000) 123456789 = Ok 5123455789.
Proof. vm_compute. reflexivity. Qed.

Lemma i64_checked_Ok z v : i64_checked z = Ok v <-> v = z /\ in_i 64 z.
Proof.
  unfold i64_checked, in_i. destruct (_ && _) eqn:E.
  - apply andb_true_iff in E as [E1%Z.leb_le E2%Z.ltb_lt].
    change (- 2 ^ (64 - 1)) with (- 2 ^ 63). change (2 ^ (64 - 1)) with (2 ^ 63).
    split; [by intros [= ->]|by intros [-> _]].
  - split; [discriminate|]. intros [_ [H1 H2]]. apply andb_false_iff in E as [E|E];
    [apply Z.leb_gt in E|apply Z.ltb_ge in E];
    change (64 - 1) with 63 in *; lia.
Qed.

Lemma f64_round_to_i64_range x : in_i 64 (f64_round_to_i64 x).
Proof.
  unfold in_i, f64_round_to_i64, i64_saturate. change (64 - 1) with 63.
  destruct x as [s|[]| |[] p e]; lia.
Qed.

(** Times are computed, or the computation overflows: nothing else. *)
Lemma ticks_to_nanoseconds_cases c t :
  ticks_to_nanoseconds c t = Panic \/ exists ns, ticks_to_nanoseconds c t = Ok ns /\ in_i 64 ns.
Proof.
  unfold ticks_to_nanoseconds. destruct (i64_checked (t - _)) eqn:E1; cbn [mbind exec_bind];
    [|unfold i64_checked in E1; destruct (_ && _); discriminate E1|by left
     |unfold i64_checked in E1; destruct (_ && _); discriminate E1..].
  destruct (i64_checked (_ + _)) eqn:E2; try (by left);
    try (unfold i64_checked in E2; destruct (_ && _); discriminate E2).
  right. apply i64_checked_Ok in E2 as [-> H]. by eexists.
Qed.
