(* ===== verification/Clock.v ===== *)
(** * The clock of the process

    [tracing/src/time.rs]: the counter of the processor, the frequency that
    turns its ticks into seconds, and its fallbacks.  What the processor, the
    registry and [/proc/cpuinfo] say is an input; the text is parsed as
    [str::lines], [split], [trim] and [parse::<f64>] do. *)

From Stdlib Require Import Floats.SpecFloat Strings.Ascii.
From S2P Require Import Prelude RustString Float Time.

(** ** The counter *)

(** [_rdtsc() as i64], for the unsigned counter [tsc] *)
Definition now_x86 (tsc : Z) : Z := wrap_i 64 tsc.
(** On [aarch64] the register is read as it is. *)
Definition now_aarch64 (tick_counter : Z) : Z := tick_counter.
Definition DualTime_now (ticks : Z) (utc_now : DateTime) : DualTime := mkDualTime ticks utc_now.

(** ** Text *)

(** The characters of a string, as their bytes *)
Definition chars (s : string) : list (list byte) := map snd (utf8_chunks (bytes_of s)).
(** [White_Space], the property of Unicode *)
Definition white_space : list Z :=
  seqZ 9 5 ++ [0x20; 0x85; 0xA0; 0x1680] ++ seqZ 0x2000 11 ++ [0x2028; 0x2029; 0x202F; 0x205F; 0x3000].
Definition is_whitespace (c : list byte) : bool :=
  existsb (fun w => String.eqb (string_of_list_byte c) (string_of_list_byte (encode_char w))) white_space.
Fixpoint trim_start (cs : list (list byte)) : list (list byte) :=
  match cs with
  | c :: cs' => if is_whitespace c then trim_start cs' else cs
  | [] => []
  end.
Definition trim (s : string) : string :=
  string_of_list_byte (concat (rev (trim_start (rev (trim_start (chars s)))))).

(** [s.split(c)]: never empty *)
Fixpoint split (c : ascii) (s : string) : list string :=
  match s with
  | EmptyString => [EmptyString]
  | String a s' =>
      if Ascii.eqb a c then EmptyString :: split c s'
      else match split c s' with l :: ls => String a l :: ls | [] => [String a EmptyString] end
  end.
Fixpoint strip_cr (s : string) : string :=
  match s with
  | String "013" EmptyString => EmptyString
  | String a s' => String a (strip_cr s')
  | EmptyString => EmptyString
  end.
(** [s.lines()]: a final end of line does not begin a line; [\r\n] ends one. *)
Definition lines (s : string) : list string :=
  let ls := split "010" s in
  match rev ls with
  | EmptyString :: others => map strip_cr (rev others)
  | last_ :: others => map strip_cr (rev others) ++ [last_]
  | [] => []
  end.
Fixpoint starts_with (prefix s : string) : bool :=
  match prefix, s with
  | EmptyString, _ => true
  | String a prefix, String b s => Ascii.eqb a b && starts_with prefix s
  | String _ _, EmptyString => false
  end.

(** ** parse::<f64>

    [Float ::= Sign? ( 'inf' | 'infinity' | 'nan' | Number )] where
    [Number ::= ( Digit+ | Digit+ '.' Digit* | Digit* '.' Digit+ ) Exp?]. *)
Definition digit (a : ascii) : option Z :=
  let n := Z.of_nat (nat_of_ascii a) in if (48 <=? n) && (n <=? 57) then Some (n - 48) else None.
(** The value of the digits that a text begins with, added to [acc], their number, and the rest *)
Fixpoint digits (acc : Z) (n : nat) (s : string) : Z * nat * string :=
  match s with
  | String a s' => match digit a with Some d => digits (10 * acc + d) (S n) s' | None => (acc, n, s) end
  | EmptyString => (acc, n, s)
  end.
Definition sign (s : string) : bool * string :=
  match s with String "+" s' => (false, s') | String "-" s' => (true, s') | _ => (false, s) end.
Definition exponent (s : string) : option Z :=
  match s with
  | EmptyString => Some 0
  | String "e" s' | String "E" s' =>
      let '(neg, s'') := sign s' in
      match digits 0 0 s'' with
      | (e, S _, EmptyString) => Some (if neg : bool then - e else e)
      | _ => None
      end
  | _ => None
  end.
(** The double nearest to [m * 10 ^ e] *)
Definition f64_of_decimal (neg : bool) (m e : Z) : f64 :=
  match m with
  | Zpos p =>
      if 0 <=? e then binary_normalize 53 1024 ((if neg then -1 else 1) * (m * 10 ^ e)) 0 neg
      else f64_div (S754_finite neg p 0) (S754_finite false (Z.to_pos (10 ^ (- e))) 0)
  | _ => S754_zero neg
  end.
Definition lower (s : string) : string :=
  string_of_list_ascii (map (fun a => let n := nat_of_ascii a in
    if (65 <=? n)%nat && (n <=? 90)%nat then ascii_of_nat (n + 32) else a) (list_ascii_of_string s)).
Definition parse_f64 (s : string) : option f64 :=
  let '(neg, s) := sign s in
  if String.eqb (lower s) "inf" || String.eqb (lower s) "infinity" then Some (S754_infinity neg)
  else if String.eqb (lower s) "nan" then Some S754_nan
  else
    let '(m, n, rest) := digits 0 0 s in
    let '(m, frac, rest) :=
      match rest with String "." rest => digits m 0 rest | _ => (m, 0%nat, rest) end in
    if (n + frac =? 0)%nat then None
    else e ← exponent rest; Some (f64_of_decimal neg m (e - Z.of_nat frac)).

(** [x as u64]: towards zero, saturated; 0 on NaN *)
Definition u64_saturate (z : Z) : Z := Z.max 0 (Z.min (2 ^ 64 - 1) z).
Definition f64_to_u64 (x : f64) : Z :=
  match x with
  | S754_zero _ => 0
  | S754_nan => 0
  | S754_infinity s => if s then 0 else 2 ^ 64 - 1
  | S754_finite s p e =>
      let z := if 0 <=? e then Zpos p * 2 ^ e else Zpos p / 2 ^ (- e) in
      u64_saturate (if s then - z else z)
  end.

(** ** frequency *)

(** The first line that can be parsed, among those of a processor: the lines
    are read up to that one only. *)
Fixpoint find_mhz (ls : list string) : exec (option f64) :=
  match ls with
  | [] => Ok None
  | l :: ls =>
      if starts_with "cpu MHz" l then
        field ← unwrap (nth_error (split ":" l) 1);
        match parse_f64 (trim field) with
        | Some x => Ok (Some x)
        | None => find_mhz ls
        end
      else find_mhz ls
  end.
(** [None] when [/proc/cpuinfo] cannot be read *)
Definition frequency_fallback_linux (cpuinfo : option string) : exec Z :=
  match cpuinfo with
  | Some cpuinfo =>
      x ← find_mhz (lines cpuinfo);
      Ok (f64_to_u64 (f64_mul (default (f64_of_Z 0) x) (f64_of_Z 1000000)))
  | None => Ok 0
  end.

(** [RegOpenKeyExA] and [RegQueryValueExA] return 0 when they succeed; the
    second writes the value. *)
Definition frequency_fallback_windows (open query value : Z) : exec Z :=
  if open =? 0 then
    if query =? 0 then
      if value * 1000000 <? 2 ^ 64 then Ok (value * 1000000) else Panic
    else Ok 0
  else Ok 0.
Definition frequency_fallback_other : exec Z := Ok 0.

(** [cpuid.get_tsc_info().map(|tsc_info| tsc_info.tsc_frequency())] *)
Definition frequency (x86 : bool) (cpuid : option (option Z)) (frequency_fallback : exec Z) : exec Z :=
  if x86 then match cpuid with Some (Some frequency) => Ok frequency | _ => frequency_fallback end
  else frequency_fallback.

(** ** Bounds *)
Lemma now_x86_range tsc : in_i 64 (now_x86 tsc).
Proof. by apply wrap_i_range. Qed.

Lemma f64_to_u64_range x : in_u 64 (f64_to_u64 x).
Proof.
  unfold in_u. destruct x as [s|s| |s p e]; cbn [f64_to_u64]; try lia; [destruct s; lia|].
  unfold u64_saturate. lia.
Qed.
(** The fallback of Linux returns a [u64], or panics on a line of a frequency
    that has no colon. *)
Lemma find_mhz_cases ls :
  (exists x, find_mhz ls = Ok x) \/
  (find_mhz ls = Panic /\ exists l, In l ls /\ starts_with "cpu MHz" l = true /\ nth_error (split ":" l) 1 = None).
Proof.
  induction ls as [|l ls IH]; [left; by eexists|]. cbn [find_mhz].
  assert (forall m, ((exists x, m = Ok x) \/
    (m = Panic /\ exists l, In l ls /\ starts_with "cpu MHz" l = true /\ nth_error (split ":" l) 1 = None)) ->
    (exists x : option f64, m = Ok x) \/
    (m = Panic /\ exists l', In l' (l :: ls) /\ starts_with "cpu MHz" l' = true /\
      nth_error (split ":" l') 1 = None)) as Hw.
  { intros m [Hm|(Hm & l' & Hin & Hl')]; [by left|]. right. split; [done|]. exists l'. split; [by right|done]. }
  destruct (starts_with "cpu MHz" l) eqn:Es; [|by apply Hw].
  destruct (nth_error (split ":" l) 1) as [field|] eqn:Ef; cbn [unwrap mbind exec_bind].
  - destruct (parse_f64 (trim field)); [left; by eexists|by apply Hw].
  - right. split; [done|]. exists l. split; [by left|done].
Qed.
Lemma frequency_fallback_linux_range cpuinfo f :
  frequency_fallback_linux cpuinfo = Ok f -> in_u 64 f.
Proof.
  unfold frequency_fallback_linux. destruct cpuinfo as [s|]; [|intros [= <-]; unfold in_u; lia].
  intros H. exec_inv H. injection H as <-. apply f64_to_u64_range.
Qed.

(** ** Examples *)
Definition newline : string := String "010" EmptyString.
Definition tab : string := String "009" EmptyString.
Definition cpuinfo : string :=
  String.concat newline ["processor" ++ tab ++ ": 0"; "cpu MHz" ++ tab ++ tab ++ ": 2399.998"; "flags: fpu"; ""]%string.
Example frequency_of_cpuinfo : frequency_fallback_linux (Some cpuinfo) = Ok 2399998000.
Proof. vm_compute. reflexivity. Qed.
Example frequency_unknown : frequency_fallback_linux (Some "cpu MHz : unknown") = Ok 0.
Proof. vm_compute. reflexivity. Qed.
Example frequency_no_colon : frequency_fallback_linux (Some "cpu MHz 2400") = Panic.
Proof. vm_compute. reflexivity. Qed.
Example parse_examples :
  map parse_f64 ["1"; "-.5"; "1.5e3"; "+inf"; ""; "."; "1e"; "0x1"; "1_0"]%string =
  [Some (f64_of_Z 1); Some (f64_of_decimal true 5 (-1)); Some (f64_of_Z 1500); Some (S754_infinity false);
   None; None; None; None; None].
Proof. vm_compute. reflexivity. Qed.
