(* ===== verification/Stream.v ===== *)
(** * Blocks and streams

    [tracing/src/event/block.rs] and [tracing/src/event/stream.rs].  What the
    source takes from the machine is an argument: the clock ([now]) and the
    fresh identifiers.  The one [Arc] of the current block is only cloned by
    [replace_block], which drops the other reference, so that [Arc::get_mut]
    always finds it unique. *)

From S2P Require Import Prelude Transit Queue Time.

Record EventBlock := mkEventBlock {
  eb_process_id : Uuid;
  eb_stream_id : Uuid;
  eb_begin : DualTime;
  eb_events : Queue;
  eb_end : option DualTime;
  eb_event_offset : Z
}.

Definition close (now : DualTime) (b : EventBlock) : EventBlock :=
  mkEventBlock (eb_process_id b) (eb_stream_id b) (eb_begin b) (eb_events b) (Some now)
    (eb_event_offset b).

Definition EventBlock_new (now : DualTime) (buffer_size : Z) (process_id stream_id : Uuid)
    (event_offset : Z) : EventBlock :=
  mkEventBlock process_id stream_id now (queue_new buffer_size) None event_offset.

Definition block_len_bytes (b : EventBlock) : Z := len_bytes (eb_events b).
Definition block_capacity_bytes (b : EventBlock) : Z := capacity_bytes (eb_events b).
Definition block_nb_objects (b : EventBlock) : Z := nb_objects (eb_events b).
Definition object_offset (b : EventBlock) : Z := eb_event_offset b.
Definition hint_max_obj_size (b : EventBlock) : Z := 128.

Record StreamDesc := mkStreamDesc {
  sd_stream_id : Uuid;
  sd_process_id : Uuid;
  sd_tags : list string;
  sd_properties : gmap string string
}.

Definition StreamDesc_new (new_v4 : Uuid) (process_id : Uuid) (tags : list string)
    (properties : gmap string string) : StreamDesc :=
  mkStreamDesc new_v4 process_id tags properties.

Record EventStream := mkEventStream {
  es_stream_desc : StreamDesc;
  es_current_block : EventBlock;
  es_full_threshold : Z
}.

Definition EventStream_new (new_v4 : Uuid) (now : DualTime) (buffer_size : Z) (process_id : Uuid)
    (tags : list string) (properties : gmap string string) : exec EventStream :=
  let stream_desc := StreamDesc_new new_v4 process_id tags properties in
  let block := EventBlock_new now buffer_size process_id (sd_stream_id stream_desc) 0 in
  let max_obj_size := hint_max_obj_size block in
  full_threshold ← usize_sub buffer_size max_obj_size;
  Ok (mkEventStream stream_desc block full_threshold).

Definition stream_id (s : EventStream) : Uuid := sd_stream_id (es_stream_desc s).
Definition stream_process_id (s : EventStream) : Uuid := sd_process_id (es_stream_desc s).
Definition tags (s : EventStream) : list string := sd_tags (es_stream_desc s).
Definition stream_properties (s : EventStream) : gmap string string :=
  sd_properties (es_stream_desc s).

Definition set_full (s : EventStream) : EventStream :=
  mkEventStream (es_stream_desc s) (es_current_block s) 0.

(** The old block and the stream with the new one *)
Definition replace_block (new_block : EventBlock) (s : EventStream)
  : exec (EventBlock * EventStream) :=
  let old_block := es_current_block s in
  let max_obj_size := hint_max_obj_size new_block in
  full_threshold ← usize_sub (block_capacity_bytes new_block) max_obj_size;
  Ok (old_block, mkEventStream (es_stream_desc s) new_block full_threshold).

Definition is_full (s : EventStream) : bool :=
  es_full_threshold s <? block_len_bytes (es_current_block s).
Definition is_empty (s : EventStream) : bool := block_len_bytes (es_current_block s) =? 0.
Definition get_block_ref (s : EventStream) : EventBlock := es_current_block s.

(** [stream.get_events_mut()] and a change of these events *)
Definition with_events_mut (f : Queue -> exec Queue) (s : EventStream) : exec EventStream :=
  let b := es_current_block s in
  events ← f (eb_events b);
  Ok (mkEventStream (es_stream_desc s)
        (mkEventBlock (eb_process_id b) (eb_stream_id b) (eb_begin b) events (eb_end b)
           (eb_event_offset b)) (es_full_threshold s)).
