(* ===== verification/Wire.v ===== *)
(** * Wire formats

    [telemetry/src/block_wire_format.rs], [telemetry/src/stream_info.rs],
    [telemetry-sink/src/stream_info.rs], [telemetry-sink/src/stream_block.rs]
    and [parse_block] of [analytics/src/lib.rs].  The codecs are libraries: LZ4,
    CBOR and RFC 3339 are the classes [Compression], [Cbor] and [Rfc3339], and
    their laws are the documented fact that decoding undoes encoding. *)

From S2P Require Import Prelude RustString Transit Queue Parser Blocks Time Stream.

(** ** Formats *)
Record BlockPayload := mkBlockPayload { bp_dependencies : buffer; bp_objects : buffer }.

Record Block := mkBlock {
  bk_block_id : Uuid;
  bk_stream_id : Uuid;
  bk_process_id : Uuid;
  bk_begin_time : string;
  bk_begin_ticks : Z;
  bk_end_time : string;
  bk_end_ticks : Z;
  bk_payload : BlockPayload;
  bk_object_offset : Z;
  bk_nb_objects : Z
}.

Record StreamInfo := mkStreamInfo {
  si_process_id : Uuid;
  si_stream_id : Uuid;
  si_dependencies_metadata : list UserDefinedType;
  si_objects_metadata : list UserDefinedType;
  si_tags : list string;
  si_properties : gmap string string
}.

(** [StreamInfo::get_thread_name], for the text of an identifier *)
Definition get_thread_name (uuid_to_string : Uuid -> string) (s : StreamInfo) : string :=
  let opt_name :=
    match si_properties s !! "thread-name" with
    | Some name => Some name
    | None => si_properties s !! "thread-id"
    end in
  match opt_name with
  | Some name => name
  | None => uuid_to_string (si_stream_id s)
  end.

(** What [#[serde(skip)]] makes of the metadata of a stream on the wire *)
Definition received_stream (s : StreamInfo) : StreamInfo :=
  mkStreamInfo (si_process_id s) (si_stream_id s)
    (map received (si_dependencies_metadata s)) (map received (si_objects_metadata s))
    (si_tags s) (si_properties s).

(** ** Codecs *)
Class Compression := {
  compress : buffer -> exec buffer;
  decompress : buffer -> exec buffer
}.
Class LawfulCompression `{Compression} :=
  decompress_compress b : exists c, compress b = Ok c /\ decompress c = Ok b.

(** CBOR for a type; [sent] is what the wire keeps of a value. *)
Class Cbor (T : Type) := {
  encode_cbor : T -> exec buffer;
  from_reader : buffer -> exec T
}.
Class LawfulCbor (T : Type) `{Cbor T} (sent : T -> T) :=
  cbor_round_trip x : exists c, encode_cbor x = Ok c /\ from_reader c = Ok (sent x).

Class Rfc3339 := {
  to_rfc3339 : DateTime -> string;
  parse_from_rfc3339 : string -> exec DateTime
}.
Class LawfulRfc3339 `{Rfc3339} :=
  rfc3339_round_trip t : parse_from_rfc3339 (to_rfc3339 t) = Ok t.

(** ** telemetry-sink: stream information *)

(** The recursion of [extract_secondary_udts] follows the types nested in
    [secondary_udts]. *)
Fixpoint extract_secondary_udts (secondary_types : gmap string UserDefinedType)
    (udt : UserDefinedType) : gmap string UserDefinedType :=
  (fix loop (secondary_types : gmap string UserDefinedType) (l : list UserDefinedType) :=
     match l with
     | [] => secondary_types
     | secondary :: l' =>
         loop (extract_secondary_udts (<[udt_name secondary := secondary]> secondary_types)
                 secondary) l'
     end) secondary_types (udt_secondary_udts udt).

(** The order in which a [HashMap] is iterated is not specified: it is the
    parameter [into_iter]. *)
Definition flatten_metadata
    (into_iter : gmap string UserDefinedType -> list (string * UserDefinedType))
    (udts : list UserDefinedType) : list UserDefinedType :=
  let secondary_types := foldl extract_secondary_udts ∅ udts in
  udts ++ map snd (into_iter secondary_types).

Definition make_stream_info
    (into_iter : gmap string UserDefinedType -> list (string * UserDefinedType))
    (Any DepsAny : Type) `{HeterogeneousQueue Any} `{HeterogeneousQueue DepsAny}
    (stream : EventStream) : StreamInfo :=
  let dependencies_meta := flatten_metadata into_iter (reflect_contained DepsAny) in
  let obj_meta := flatten_metadata into_iter (reflect_contained Any) in
  mkStreamInfo (stream_process_id stream) (stream_id stream) dependencies_meta obj_meta
    (tags stream) (stream_properties stream).

(** ** telemetry-sink: blocks

    [extract] is the method of [ExtractDeps] for the queue of the block. *)
Definition encode_block `{Compression} `{Rfc3339} (extract : Queue -> exec Queue) (new_v4 : Uuid)
    (block : EventBlock) (process_info : ProcessInfo) : exec Block :=
  end_ ← unwrap (eb_end block);
  deps ← extract (eb_events block);
  dependencies ← compress (as_bytes deps);
  objects ← compress (as_bytes (eb_events block));
  begin_ticks ← i64_checked (dt_ticks (eb_begin block) - start_ticks process_info);
  end_ticks ← i64_checked (dt_ticks end_ - start_ticks process_info);
  Ok (mkBlock new_v4 (eb_stream_id block) (eb_process_id block)
        (to_rfc3339 (dt_time (eb_begin block))) begin_ticks
        (to_rfc3339 (dt_time end_)) end_ticks
        (mkBlockPayload dependencies objects)
        (wrap_i 64 (object_offset block)) (wrap_i 32 (block_nb_objects block))).

Definition encode_bin `{Compression} `{Rfc3339} `{Cbor Block} (extract : Queue -> exec Queue) (new_v4 : Uuid)
    (block : EventBlock) (process_info : ProcessInfo) : exec buffer :=
  b ← encode_block extract new_v4 block process_info;
  encode_cbor b.

(** ** analytics: [parse_block] *)
Definition parse_block `{Compression} {S} (stream : StreamInfo) (payload : BlockPayload)
    (fun_ : S -> Value -> exec (S * bool)) (s : S) : exec (S * bool) :=
  let dep_udts := si_dependencies_metadata stream in
  dep_bytes ← with_context "decompressing dependencies payload" (decompress (bp_dependencies payload));
  dependencies ← with_context "reading dependencies" (read_dependencies dep_udts dep_bytes);
  let obj_udts := si_objects_metadata stream in
  obj_bytes ← with_context "decompressing objects payload" (decompress (bp_objects payload));
  with_context "parsing object buffer" (parse_object_buffer dependencies obj_udts obj_bytes fun_ s).

(** ** Lemmas *)

(** The documented law of the iteration: every entry, once, in some order *)
Definition iterates (into_iter : gmap string UserDefinedType -> list (string * UserDefinedType)) : Prop :=
  forall m, into_iter m ≡ₚ map_to_list m.

Lemma iterates_singleton into_iter k v :
  iterates into_iter -> into_iter {[k := v]} = [(k, v)].
Proof.
  intros H. specialize (H {[k := v]}). rewrite map_to_list_singleton in H.
  by apply Permutation_singleton_r in H.
Qed.

Lemma iterates_empty into_iter : iterates into_iter -> into_iter ∅ = [].
Proof.
  intros H. specialize (H ∅). rewrite map_to_list_empty in H. by apply Permutation_nil_r.
Qed.

Lemma parse_block_Ok `{LawfulCompression} {S} stream deps_bytes obj_bytes payload deps
    (f : S -> Value -> exec (S * bool)) s :
  compress deps_bytes = Ok (bp_dependencies payload) -> compress obj_bytes = Ok (bp_objects payload) ->
  read_dependencies (si_dependencies_metadata stream) deps_bytes = Ok deps ->
  parse_block stream payload f s =
  with_context "parsing object buffer"
    (parse_object_buffer deps (si_objects_metadata stream) obj_bytes f s).
Proof.
  intros Hd Ho Hr. unfold parse_block.
  destruct (decompress_compress deps_bytes) as (c & Hc & Hdc). rewrite Hd in Hc.
  injection Hc as <-. rewrite Hdc. cbn [with_context mbind exec_bind]. rewrite Hr.
  cbn [with_context mbind exec_bind].
  destruct (decompress_compress obj_bytes) as (c & Hc & Hoc). rewrite Ho in Hc.
  injection Hc as <-. rewrite Hoc. cbn [with_context mbind exec_bind]. done.
Qed.

(** A block whose events and dependencies are known is encoded. *)
Lemma encode_block_Ok `{LawfulCompression} `{Rfc3339} extract new_v4 b e deps p :
  eb_end b = Some e -> extract (eb_events b) = Ok deps ->
  in_i 64 (dt_ticks (eb_begin b) - start_ticks p) -> in_i 64 (dt_ticks e - start_ticks p) ->
  exists block, encode_block extract new_v4 b p = Ok block /\
    compress (as_bytes deps) = Ok (bp_dependencies (bk_payload block)) /\
    compress (as_bytes (eb_events b)) = Ok (bp_objects (bk_payload block)).
Proof.
  intros He Hx Hb1 Hb2. unfold encode_block. rewrite He. cbn [unwrap mbind exec_bind].
  rewrite Hx. cbn [mbind exec_bind].
  destruct (decompress_compress (as_bytes deps)) as (c1 & -> & _). cbn [mbind exec_bind].
  destruct (decompress_compress (as_bytes (eb_events b))) as (c2 & -> & _). cbn [mbind exec_bind].
  rewrite (proj2 (i64_checked_Ok _ _) (conj eq_refl Hb1)). cbn [mbind exec_bind].
  rewrite (proj2 (i64_checked_Ok _ _) (conj eq_refl Hb2)). cbn [mbind exec_bind].
  eexists. split; [done|]. done.
Qed.

(** *** A codec for examples: the identity *)
Definition identity_compression : Compression := {| compress := Ok; decompress := Ok |}.
Lemma identity_compression_lawful : @LawfulCompression identity_compression.
Proof. intros b. by exists b. Qed.
