(* ===== verification/Adapters.v ===== *)
(** * Adapters of libraries

    [transit/src/uuid_utils.rs], the functions that serde calls on the
    identifiers of the wire formats, and [telemetry/src/compression.rs], which
    drives an LZ4 encoder and decoder.  The libraries are classes. *)

From S2P Require Import Prelude Transit Time Wire.

(** ** uuid_utils.rs

    [deserialized] is what [Deserialize::deserialize] returns, and the result of
    a serializer is the text that it is given. *)
Section uuid_utils.
Context `{UuidText} `{UuidParse}.

Definition parse_str (s : string) : exec Uuid :=
  match try_parse s with Some u => Ok u | None => bail "invalid uuid" end.
Definition uuid_from_string (deserialized : exec string) : exec Uuid :=
  s ← deserialized; parse_str s.
Definition opt_uuid_from_string (deserialized : exec (option string)) : exec (option Uuid) :=
  opt_s ← deserialized;
  match opt_s with
  | Some s => if String.eqb s EmptyString then Ok None else u ← parse_str s; Ok (Some u)
  | None => Ok None
  end.
Definition ser_uuid_to_string (value : Uuid) : string := uuid_to_string value.
Definition opt_uuid_to_string (value : option Uuid) : string :=
  match value with Some v => uuid_to_string v | None => EmptyString end.

(** The text of an identifier is read back, and is not empty. *)
Class LawfulUuidParse := {
  try_parse_to_string u : try_parse (uuid_to_string u) = Some u;
  uuid_to_string_not_empty u : uuid_to_string u <> EmptyString
}.

Lemma uuid_round_trip `{LawfulUuidParse} u : uuid_from_string (Ok (ser_uuid_to_string u)) = Ok u.
Proof. cbn. unfold parse_str, ser_uuid_to_string. by rewrite try_parse_to_string. Qed.
Lemma opt_uuid_round_trip `{LawfulUuidParse} o :
  opt_uuid_from_string (Ok (Some (opt_uuid_to_string o))) = Ok o.
Proof.
  cbn. destruct o as [u|]; [|done]. cbn [opt_uuid_to_string].
  destruct (String.eqb_spec (uuid_to_string u) EmptyString) as [E|_]; [by apply uuid_to_string_not_empty in E|].
  unfold parse_str. by rewrite try_parse_to_string.
Qed.
End uuid_utils.

(** ** compression.rs *)

(** An encoder writes to a buffer and says how many bytes it took; a decoder
    reads to the end; both are closed at the end. *)
Class Lz4 := {
  encoder : Type;
  decoder : Type;
  encoder_build : Z -> exec encoder;
  encoder_write : encoder -> buffer -> exec (encoder * Z);
  encoder_finish : encoder -> buffer * exec unit;
  decoder_new : buffer -> exec decoder;
  decoder_read_to_end : decoder -> exec (decoder * buffer);
  decoder_finish : decoder -> exec unit
}.

#[export] Instance lz4_compression `{Lz4} : Compression := {|
  compress src :=
    e ← with_context "allocating lz4 encoder" (encoder_build 10);
    '(e, _) ← with_context "writing to lz4 encoder" (encoder_write e src);
    let '(compressed, res) := encoder_finish e in
    _ ← with_context "closing lz4 encoder" res;
    Ok compressed;
  decompress compressed :=
    d ← with_context "allocating lz4 decoder" (decoder_new compressed);
    '(d, decompressed) ← with_context "reading lz4-compressed buffer" (decoder_read_to_end d);
    _ ← decoder_finish d;
    Ok decompressed
|}.

(** The encoder takes the whole buffer at once, and what it writes is decoded. *)
Class LawfulLz4 `{Lz4} :=
  lz4_round_trip level src : exists e e' compressed d d',
    encoder_build level = Ok e /\ encoder_write e src = Ok (e', blen src) /\
    encoder_finish e' = (compressed, Ok tt) /\
    decoder_new compressed = Ok d /\ decoder_read_to_end d = Ok (d', src) /\ decoder_finish d' = Ok tt.

#[export] Instance lz4_lawful `{LawfulLz4} : LawfulCompression.
Proof.
  intros b. destruct (lz4_round_trip 10 b) as (e & e' & compressed & d & d' & E1 & E2 & E3 & E4 & E5 & E6).
  exists compressed. cbn [compress decompress lz4_compression]. rewrite E1. cbn. rewrite E2. cbn. rewrite E3. cbn.
  split; [done|]. rewrite E4. cbn. rewrite E5. cbn. by rewrite E6.
Qed.
