(* ===== verification/LogEntry.v ===== *)
(** * Log entries

    [analytics/src/log_entry.rs], and the theorem of the log pipeline: what
    the analytics reads in a block are the entries that were logged. *)

From S2P Require Import Prelude RustString Transit Queue Pod Parser PodParser Blocks Levels.
From S2P Require Import Deps LogEvents LogBlock Time Stream Wire.

Record LogEntry := mkLogEntry {
  le_time : Z;
  le_level : Z;
  le_target : string;
  le_msg : string
}.

Definition read_static_str_event (obj : Object) : exec (Z * Z * string * string) :=
  ticks ← with_context "reading time from LogStaticStrEvent" (get get_i64 obj "time");
  desc ← with_context "reading desc from LogStaticStrEvent" (get get_object obj "desc");
  level ← with_context "reading level from LogStaticStrEvent" (get get_u32 desc "level");
  target ← with_context "reading target from LogStaticStrEvent" (get get_string desc "target");
  msg ← with_context "reading fmt_str from LogStaticStrEvent" (get get_string desc "fmt_str");
  Ok (ticks, level, target, msg).

Definition read_string_event (obj : Object) : exec (Z * Z * string * string) :=
  ticks ← with_context "reading time from LogStringEvent" (get get_i64 obj "time");
  desc ← with_context "reading desc from LogStringEvent" (get get_object obj "desc");
  level ← with_context "reading level from LogStringEvent" (get get_u32 desc "level");
  target ← with_context "reading target from LogStringEvent" (get get_string desc "target");
  msg ← with_context "reading msg from LogStringEvent" (get get_string obj "msg");
  Ok (ticks, level, target, msg).

Definition read_interop_event (obj : Object) : exec (Z * Z * string * string) :=
  ticks ← with_context "reading time from {}" (get get_i64 obj "time");
  level ← with_context "reading level from {}" (get get_u32 obj "level");
  target ← with_context "reading target from {}" (get get_string obj "target");
  msg ← with_context "reading msg from {}" (get get_string obj "msg");
  Ok (ticks, level, target, msg).

(** [Ok(Some(LogEntry {..}))]: the level is cast to [i32] *)
Definition make_log_entry (convert_ticks : ConvertTicks) (r : Z * Z * string * string)
  : exec (option LogEntry) :=
  let '(ticks, level, target, msg) := r in
  time ← ticks_to_nanoseconds convert_ticks ticks;
  Ok (Some (mkLogEntry time (wrap_i 32 level) target msg)).

Definition log_entry_from_value (convert_ticks : ConvertTicks) (val : Value)
  : exec (option LogEntry) :=
  match val with
  | Object_ obj =>
      let name := type_name obj in
      if String.eqb name "LogStaticStrEvent" then
        read_static_str_event obj ≫= make_log_entry convert_ticks
      else if String.eqb name "LogStringEvent" then
        read_string_event obj ≫= make_log_entry convert_ticks
      else if String.eqb name "LogStaticStrInteropEvent"
              || String.eqb name "LogStringInteropEventV2"
              || String.eqb name "LogStringInteropEventV3" then
        read_interop_event obj ≫= make_log_entry convert_ticks
      else Ok None
  | _ => Ok None
  end.

(** The closure of [for_each_log_entry_in_block] *)
Definition on_log_value {S} (convert_ticks : ConvertTicks) (fun_ : S -> LogEntry -> exec (S * bool))
    (s : S) (val : Value) : exec (S * bool) :=
  entry ← with_context "log_entry_from_value" (log_entry_from_value convert_ticks val);
  match entry with
  | Some log_entry =>
      '(s, continue) ← fun_ s log_entry;
      Ok (s, continue)
  | None => Ok (s, true)
  end.

(** [for_each_log_entry_in_block], from the payload that was fetched *)
Definition for_each_log_entry_in_block `{Compression} {S} (convert_ticks : ConvertTicks)
    (stream : StreamInfo) (payload : BlockPayload) (fun_ : S -> LogEntry -> exec (S * bool)) (s : S)
  : exec S :=
  '(s, _) ← with_context "parse_block" (parse_block stream payload (on_log_value convert_ticks fun_) s);
  Ok s.

(** ** The entry that an event should become *)

(** What was logged: ticks, level, target and message, from the event and the
    static memory of the process. *)
Definition logged (st : statics) (strs : gmap Z string) (a : LogMsgQueueAny)
  : option (Z * Z * string * string) :=
  match a with
  | LogMsgQueueAny.LogStaticStrEvent e =>
      md ← st_logs st !! lss_desc e;
      target ← strs !! str_ptr (lm_target md);
      msg ← strs !! str_ptr (lm_fmt_str md);
      Some (lss_time e, Level.as_u32 (lm_level md), target, msg)
  | LogMsgQueueAny.LogStringEvent e =>
      md ← st_logs st !! lse_desc e;
      target ← strs !! str_ptr (lm_target md);
      Some (lse_time e, Level.as_u32 (lm_level md), target, dyn_str (lse_dyn_str e))
  | LogMsgQueueAny.LogStaticStrInteropEvent e =>
      target ← strs !! sid_ptr (lssi_target e);
      msg ← strs !! sid_ptr (lssi_msg e);
      Some (lssi_time e, lssi_level e, target, msg)
  | LogMsgQueueAny.LogStringInteropEvent e =>
      target ← strs !! sid_ptr (lsi_target e);
      Some (lsi_time e, lsi_level e, target, dyn_str (lsi_msg e))
  end.

Lemma str_ok_lookup strs m r : str_ok strs m r -> exists s, strs !! str_ptr r = Some s.
Proof. intros (s & H & _). by exists s. Qed.

Section pipeline.
Context {HAbi : Abi} {HA : LawfulAbi}.

(** Every event of a queue has an entry, and the parser's value for it is read
    as this entry. *)
Lemma log_entry_of_event st strs ct a :
  log_metadata_ok st strs -> log_event_ok st strs a ->
  exists r, logged st strs a = Some r /\
    log_entry_from_value ct (log_event_value (log_dep_value st strs) a) = make_log_entry ct r.
Proof.
  intros Hmd Ha. assert (forall r, str_ok strs (st_bytes st) r -> forall s, strs !! str_ptr r = Some s ->
    log_dep_value st strs (str_ptr r) = String_ s) as Hdep.
  { intros r Hr s Hs. rewrite log_dep_str by done. unfold str_value. by rewrite Hs. }
  destruct Ha as [_ Ha]. destruct a as [e|e|e|e]; cbn [logged log_event_value] in *.
  - destruct Ha as [md Hm]. destruct (Hmd _ _ Hm) as (_ & _ & _ & Hf & Ht & _).
    apply str_ok_lookup in Hf as [f Hf], Ht as [t Ht].
    rewrite Hm. cbn [mbind option_bind]. rewrite Ht. cbn [mbind option_bind]. rewrite Hf.
    cbn [mbind option_bind]. eexists. split; [done|].
    unfold log_dep_value. rewrite Hm. unfold log_record_value, str_dep. rewrite Ht, Hf. done.
  - destruct Ha as [md Hm]. destruct (Hmd _ _ Hm) as (_ & _ & _ & Hf & Ht & _).
    apply str_ok_lookup in Ht as [t Ht].
    rewrite Hm. cbn [mbind option_bind]. rewrite Ht. cbn [mbind option_bind].
    eexists. split; [done|].
    unfold log_dep_value. rewrite Hm. unfold log_record_value, str_dep. rewrite Ht. done.
  - destruct Ha as [Ht Hm]. pose proof (str_ok_lookup _ _ _ Ht) as [t Ht'].
    pose proof (str_ok_lookup _ _ _ Hm) as [ms Hm'].
    pose proof (Hdep _ Ht _ Ht') as Et. pose proof (Hdep _ Hm _ Hm') as Em.
    unfold id_ref in *. cbn [str_ptr] in *. rewrite Ht'. cbn [mbind option_bind]. rewrite Hm'.
    cbn [mbind option_bind]. eexists. split; [done|]. rewrite Et, Em. done.
  - pose proof (str_ok_lookup _ _ _ Ha) as [t Ht']. pose proof (Hdep _ Ha _ Ht') as Et.
    unfold id_ref in *. cbn [str_ptr] in *. rewrite Ht'.
    cbn [mbind option_bind]. eexists. split; [done|]. rewrite Et. done.
Qed.

(** The metadata of the stream, as the analytics receives it *)
Lemma log_stream_udts into_iter stream :
  iterates into_iter ->
  let info := received_stream (make_stream_info into_iter LogMsgQueueAny LogDepsQueueAny stream) in
  log_udts_ok (si_objects_metadata info) /\ log_deps_udts_ok (si_dependencies_metadata info).
Proof.
  intros Hit. cbv zeta. unfold received_stream, make_stream_info. cbn [si_objects_metadata si_dependencies_metadata].
  unfold flatten_metadata.
  replace (foldl extract_secondary_udts ∅ (reflect_contained LogMsgQueueAny))
    with ({["StringId" := reflect StringId]} : gmap string UserDefinedType) by reflexivity.
  replace (foldl extract_secondary_udts ∅ (reflect_contained LogDepsQueueAny))
    with (∅ : gmap string UserDefinedType) by reflexivity.
  rewrite iterates_singleton, iterates_empty by done. split; [|by split].
  by split_and!.
Qed.
End pipeline.

(** [for_each_log_entry_in_block], seen from the events that were logged *)
Definition event_entry (st : statics) (strs : gmap Z string) (ct : ConvertTicks) (a : LogMsgQueueAny)
  : exec LogEntry :=
  match logged st strs a with
  | Some (ticks, level, target, msg) =>
      time ← ticks_to_nanoseconds ct ticks;
      Ok (mkLogEntry time (wrap_i 32 level) target msg)
  | None => Ub
  end.

Fixpoint visit {A E S} (entry : A -> exec E) (f : S -> E -> exec (S * bool)) (s : S) (evs : list A)
  : exec S :=
  match evs with
  | [] => Ok s
  | a :: evs' =>
      e ← entry a;
      '(s, continue) ← f s e;
      if continue : bool then visit entry f s evs' else Ok s
  end.

Lemma visit_log_values `{HA : LawfulAbi} {S} st strs ct (f : S -> LogEntry -> exec (S * bool)) evs s :
  log_metadata_ok st strs -> Forall (log_event_ok st strs) evs ->
  ('(s, _) ← fold_until (on_log_value ct f) s
      (map (log_event_value (log_dep_value st strs)) evs); Ok s) =
  visit (event_entry st strs ct) f s evs.
Proof.
  intros Hmd Hok. revert s. induction Hok as [|a evs Ha _ IH]; intros s; cbn [map fold_until visit]; [done|].
  destruct (log_entry_of_event st strs ct a Hmd Ha) as ([[[t l] tg] ms] & Hl & He).
  assert (forall s, on_log_value ct f s (log_event_value (log_dep_value st strs) a) =
    (entry ← with_context "log_entry_from_value" (make_log_entry ct (t, l, tg, ms));
     match entry with
     | Some log_entry => '(s, continue) ← f s log_entry; Ok (s, continue)
     | None => Ok (s, true)
     end)) as Hon by (intros; unfold on_log_value; by rewrite He).
  assert (event_entry st strs ct a =
    (time ← ticks_to_nanoseconds ct t; Ok (mkLogEntry time (wrap_i 32 l) tg ms))) as ->
    by (unfold event_entry; by rewrite Hl).
  rewrite Hon. unfold make_log_entry.
  destruct (ticks_to_nanoseconds_cases ct t) as [->|(ns & -> & _)];
    cbn [mbind exec_bind with_context]; [done|].
  destruct (f s _) as [[s' [|]]| | | |]; cbn [mbind exec_bind]; try done; apply IH.
Qed.

(** ** Properties *)

(** C5. The log pipeline is a round trip: whatever events are pushed on a new
    log queue, and whatever layout the compiler chose for their structures,
    the block that the sink encodes is read by the analytics, with the stream
    metadata that the sink sent, as exactly these events in the order of the
    pushes: the entry of each has the ticks, the level, the target and the
    message that were logged, and the visitor sees them one by one until it
    stops. *)
Theorem log_block_round_trip `{HA : LawfulAbi} `{HC : LawfulCompression} `{Rfc3339}
    into_iter st strs evs size stream :
  iterates into_iter -> log_metadata_ok st strs -> Forall (log_event_ok st strs) evs ->
  exists q deps,
    foldM (push_log_event (st_bytes st)) (queue_new size) evs = Ok q /\
    extract_logs st q = Ok deps /\
    (blen (as_bytes deps) < 2 ^ 63 -> blen (as_bytes q) < 2 ^ 63 ->
     forall new_v4 b e p,
       eb_events b = q -> eb_end b = Some e ->
       in_i 64 (dt_ticks (eb_begin b) - start_ticks p) -> in_i 64 (dt_ticks e - start_ticks p) ->
       exists block, encode_block (extract_logs st) new_v4 b p = Ok block /\
       forall ct S (f : S -> LogEntry -> exec (S * bool)) s,
         for_each_log_entry_in_block ct
           (received_stream (make_stream_info into_iter LogMsgQueueAny LogDepsQueueAny stream))
           (bk_payload block) f s =
         with_context "parse_block" (with_context "parsing object buffer"
           (visit (event_entry st strs ct) f s evs))).
Proof.
  intros Hit Hmd Hok.
  destruct (log_stream_udts into_iter stream Hit) as [Hu Hdu].
  destruct (log_block_values st strs _ _ evs size Hu Hdu Hmd Hok) as (q & deps & Hq & _ & Hx & Hv).
  exists q, deps. split; [done|]. split; [done|].
  intros Hbd Hbq new_v4 b e p <- He Hb1 Hb2. destruct (Hv Hbd Hbq) as (h & Hh & Hparse).
  destruct (encode_block_Ok _ new_v4 b e deps p He Hx Hb1 Hb2) as (block & -> & Hcd & Hco).
  exists block. split; [done|]. intros ct S f s. unfold for_each_log_entry_in_block.
  rewrite (parse_block_Ok _ _ _ _ h _ s Hcd Hco Hh), Hparse.
  rewrite <- (visit_log_values st strs ct f evs s Hmd Hok).
  by destruct (fold_until _ _ _) as [[s' c]| | | |].
Qed.

(** *** A concrete process *)
Module LogExample.
(** Four strings at fixed addresses, and one description that points to them *)
Definition strings : list (Z * string) :=
  [(1000, "server started"); (2000, "app"); (3000, "app::main"); (4000, "src/main.rs")].
Definition strs : gmap Z string := list_to_map strings.
Definition bytes_at (e : Z * string) : list (Z * byte) :=
  zip (seqZ e.1 (blen (bytes_of e.2))) (bytes_of e.2).
Definition ref_of (e : Z * string) : str_ref := mkStr e.1 (blen (bytes_of e.2)).
Definition md : LogMetadata :=
  mkLogMetadata Level.Info 15 (mkStr 1000 14) (mkStr 2000 3) (mkStr 3000 9) (mkStr 4000 11) 42.
Definition st : statics :=
  mkStatics (list_to_map (concat (map bytes_at strings))) {[ 5000 := md ]} ∅ ∅ ∅.
Definition evs : list LogMsgQueueAny :=
  [LogMsgQueueAny.LogStaticStrEvent (mkLogStaticStrEvent 5000 1010);
   LogMsgQueueAny.LogStringEvent (mkLogStringEvent 5000 1020 (mkDynString "x = 1"));
   LogMsgQueueAny.LogStaticStrInteropEvent
     (mkLogStaticStrInteropEvent 1030 3 (mkStringId 2000 3) (mkStringId 1000 14));
   LogMsgQueueAny.LogStringInteropEvent
     (mkLogStringInteropEvent 1040 2 (mkStringId 3000 9) (mkDynString "dynamic"))].
Definition process : ProcessInfo :=
  mkProcessInfo 7 "app" "u" "u" "c" "d" "cpu" 1000000000 0 1000 None ∅.
Definition stream : EventStream :=
  mkEventStream (mkStreamDesc 9 7 ["log"] ∅)
    (mkEventBlock 7 9 (mkDualTime 1000 0) (queue_new 1024) None 0) 896.
Definition ct : ConvertTicks := ConvertTicks_new process.
Definition rfc : Rfc3339 :=
  {| to_rfc3339 _ := "1970-01-01T00:00:00+00:00"; parse_from_rfc3339 _ := Ok 0 |}.

Lemma log_str_ok_of e : In e strings -> str_ok strs (st_bytes st) (ref_of e).
Proof.
  intros H. exists e.2. unfold ref_of. cbn [str_ptr str_len].
  repeat destruct H as [<-|H]; try destruct H; split_and!; try lia; vm_compute; done.
Qed.

Lemma log_md_ok : log_metadata_ok st strs.
Proof.
  intros a m Ha. cbn [st_logs st] in Ha. apply lookup_singleton_Some in Ha as [<- <-].
  split_and!; try (vm_compute; done).
  - apply (log_str_ok_of (1000, "server started")). cbn. tauto.
  - apply (log_str_ok_of (2000, "app")). cbn. tauto.
  - apply (log_str_ok_of (3000, "app::main")). cbn. tauto.
  - apply (log_str_ok_of (4000, "src/main.rs")). cbn. tauto.
Qed.

Lemma log_evs_ok : Forall (@log_event_ok natural_abi natural_lawful st strs) evs.
Proof.
  assert (forall i l, (exists e, In e strings /\ mkStr i l = ref_of e) ->
    str_ok strs (st_bytes st) (mkStr i l)) as Hid
    by (intros i l (e & He & ->); by apply log_str_ok_of).
  repeat apply Forall_cons; try apply Forall_nil; unfold log_event_ok, item_ok; cbn;
    split_and!; try (vm_compute; done); try (by eexists); apply Hid.
  all: first [exists (2000, "app"); cbn; split; [tauto|done]
             |exists (1000, "server started"); cbn; split; [tauto|done]
             |exists (3000, "app::main"); cbn; split; [tauto|done]].
Qed.
End LogExample.

Lemma log_block_round_trip_witness :
  exists q deps block, 
    foldM (@push_log_event natural_abi (st_bytes LogExample.st)) (queue_new 1024) LogExample.evs = Ok q /\
    @extract_logs natural_abi LogExample.st q = Ok deps /\
    @encode_block identity_compression LogExample.rfc (@extract_logs natural_abi LogExample.st) 11
      (mkEventBlock 7 9 (mkDualTime 1000 0) q (Some (mkDualTime 2000 1000)) 0) LogExample.process
      = Ok block /\
    @for_each_log_entry_in_block identity_compression _ LogExample.ct
      (received_stream (@make_stream_info map_to_list LogMsgQueueAny LogDepsQueueAny
         (@LogMsgQueue natural_abi) (@LogDepsQueue natural_abi) LogExample.stream))
      (bk_payload block) (fun acc e => Ok (acc ++ [e], true)) [] =
    Ok [mkLogEntry 10 4 "app" "server started"; mkLogEntry 20 4 "app" "x = 1";
        mkLogEntry 30 3 "app" "server started"; mkLogEntry 40 2 "app::main" "dynamic"].
Proof.
  destruct (@log_block_round_trip natural_abi natural_lawful identity_compression
    identity_compression_lawful LogExample.rfc map_to_list LogExample.st LogExample.strs
    LogExample.evs 1024 LogExample.stream (fun m => Permutation_refl _) LogExample.log_md_ok
    LogExample.log_evs_ok) as (q & deps & Hq & Hx & Hrest).
  assert (blen (as_bytes q) < 2 ^ 63) as Hbq
    by (vm_compute in Hq; injection Hq as <-; vm_compute; reflexivity).
  assert (blen (as_bytes deps) < 2 ^ 63) as Hbd.
  { vm_compute in Hq. injection Hq as <-. vm_compute in Hx. injection Hx as <-.
    vm_compute. reflexivity. }
  destruct (Hrest Hbd Hbq 11 (mkEventBlock 7 9 (mkDualTime 1000 0) q (Some (mkDualTime 2000 1000)) 0)
    (mkDualTime 2000 1000) LogExample.process eq_refl eq_refl) as (block & Hblock & Hread);
    [vm_compute; split; [discriminate|reflexivity]..|].
  exists q, deps, block. split; [exact Hq|]. split; [exact Hx|]. split; [exact Hblock|].
  rewrite Hread. vm_compute. reflexivity.
Defined.
