(* ===== verification/MetricsBlock.v ===== *)
(** * Metrics

    [tracing/src/metrics/events.rs], [tracing/src/metrics/block.rs] and
    [analytics/src/measure.rs]: the events of the metrics stream, their
    dependencies, and the measures that the analytics reads. *)

From S2P Require Import Prelude RustString Float Transit Queue Pod Parser PodParser Blocks.
From S2P Require Import Levels Deps LogEvents LogBlock Time Stream Wire LogEntry.

(** ** Events *)
Record IntegerMetricEvent := mkIntegerMetricEvent { ime_desc : Z; ime_value : Z; ime_time : Z }.
Record FloatMetricEvent := mkFloatMetricEvent { fme_desc : Z; fme_value : f64; fme_time : Z }.
Record MetricMetadataRecord := mkMetricMetadataRecord {
  mmr_id : Z;
  mmr_name : Z;
  mmr_unit : Z;
  mmr_target : Z;
  mmr_module_path : Z;
  mmr_file : Z;
  mmr_line : Z;
  mmr_lod : Z
}.

#[export] Instance IntegerMetricEvent_Pod : Pod IntegerMetricEvent := {|
  decl := mkStruct "IntegerMetricEvent"
    [mkField "desc" (Reference_ "& 'static MetricMetadata") 8;
     mkField "value" (Path "u64") 8; mkField "time" (Path "i64") 8];
  to_fields e := [u64_bytes (ime_desc e); u64_bytes (ime_value e); i64_bytes (ime_time e)];
  of_fields fs :=
    match fs with
    | [desc; value; time] => Some (mkIntegerMetricEvent (u64_of desc) (u64_of value) (i64_of time))
    | _ => None
    end
|}.

#[export] Instance FloatMetricEvent_Pod : Pod FloatMetricEvent := {|
  decl := mkStruct "FloatMetricEvent"
    [mkField "desc" (Reference_ "& 'static MetricMetadata") 8;
     mkField "value" (Path "f64") 8; mkField "time" (Path "i64") 8];
  to_fields e := [u64_bytes (fme_desc e); f64_bytes (fme_value e); i64_bytes (fme_time e)];
  of_fields fs :=
    match fs with
    | [desc; value; time] => Some (mkFloatMetricEvent (u64_of desc) (f64_of value) (i64_of time))
    | _ => None
    end
|}.

#[export] Instance MetricMetadataRecord_Pod : Pod MetricMetadataRecord := {|
  decl := mkStruct "MetricMetadataRecord"
    [mkField "id" (Path "u64") 8; mkField "name" (Ptr "* const u8") 8;
     mkField "unit" (Ptr "* const u8") 8; mkField "target" (Ptr "* const u8") 8;
     mkField "module_path" (Ptr "* const u8") 8; mkField "file" (Ptr "* const u8") 8;
     mkField "line" (Path "u32") 4; mkField "lod" (Path "u32") 4];
  to_fields r := [u64_bytes (mmr_id r); u64_bytes (mmr_name r); u64_bytes (mmr_unit r);
                  u64_bytes (mmr_target r); u64_bytes (mmr_module_path r); u64_bytes (mmr_file r);
                  u32_bytes (mmr_line r); u32_bytes (mmr_lod r)];
  of_fields fs :=
    match fs with
    | [i; n; u; t; mp; fi; li; lo] =>
        Some (mkMetricMetadataRecord (u64_of i) (u64_of n) (u64_of u) (u64_of t) (u64_of mp)
                (u64_of fi) (u32_of li) (u32_of lo))
    | _ => None
    end
|}.

#[export] Instance IntegerMetricEvent_Reflect `{Abi} : Reflect IntegerMetricEvent :=
  derive_reflect_impl tracing_reflect_of (decl IntegerMetricEvent).
#[export] Instance FloatMetricEvent_Reflect `{Abi} : Reflect FloatMetricEvent :=
  derive_reflect_impl tracing_reflect_of (decl FloatMetricEvent).
#[export] Instance MetricMetadataRecord_Reflect `{Abi} : Reflect MetricMetadataRecord :=
  derive_reflect_impl tracing_reflect_of (decl MetricMetadataRecord).

Definition ime_ok (e : IntegerMetricEvent) : Prop :=
  in_u 64 (ime_desc e) /\ in_u 64 (ime_value e) /\ in_i 64 (ime_time e).
Definition fme_ok (e : FloatMetricEvent) : Prop :=
  in_u 64 (fme_desc e) /\ f64_ok (fme_value e) = true /\ in_i 64 (fme_time e).
Definition mmr_ok (r : MetricMetadataRecord) : Prop :=
  in_u 64 (mmr_id r) /\ in_u 64 (mmr_name r) /\ in_u 64 (mmr_unit r) /\ in_u 64 (mmr_target r) /\
  in_u 64 (mmr_module_path r) /\ in_u 64 (mmr_file r) /\ in_u 32 (mmr_line r) /\
  in_u 32 (mmr_lod r).

#[export] Program Instance IntegerMetricEvent_LawfulPod : LawfulPod IntegerMetricEvent :=
  {| pod_ok := ime_ok |}.
Next Obligation. intros v Hv. solve_fit. Qed.
Next Obligation.
  intros [d v t] (Hd & Hv & Ht). cbn in *. by rewrite !u64_of_bytes, i64_of_bytes.
Qed.

#[export] Program Instance FloatMetricEvent_LawfulPod : LawfulPod FloatMetricEvent :=
  {| pod_ok := fme_ok |}.
Next Obligation. intros v Hv. solve_fit. Qed.
Next Obligation.
  intros [d v t] (Hd & Hv & Ht). cbn in *. by rewrite u64_of_bytes, f64_of_bytes, i64_of_bytes.
Qed.

#[export] Program Instance MetricMetadataRecord_LawfulPod : LawfulPod MetricMetadataRecord :=
  {| pod_ok := mmr_ok |}.
Next Obligation. intros v Hv. solve_fit. Qed.
Next Obligation.
  intros [i n u t mp fi li lo] (H1 & H2 & H3 & H4 & H5 & H6 & H7 & H8). cbn in *.
  by rewrite !u64_of_bytes, !u32_of_bytes.
Qed.

(** ** Queues *)
Module MetricsMsgQueueAny.
Inductive t :=
| IntegerMetricEvent (evt : MetricsBlock.IntegerMetricEvent)
| FloatMetricEvent (evt : MetricsBlock.FloatMetricEvent).
End MetricsMsgQueueAny.
Abbreviation MetricsMsgQueueAny := MetricsMsgQueueAny.t.

Module MetricsDepsQueueAny.
Inductive t :=
| StaticString (evt : Transit.StaticString)
| MetricMetadataRecord (evt : MetricsBlock.MetricMetadataRecord).
End MetricsDepsQueueAny.
Abbreviation MetricsDepsQueueAny := MetricsDepsQueueAny.t.

#[export] Instance MetricsMsgQueue `{Abi} : HeterogeneousQueue MetricsMsgQueueAny :=
  [TypeArg IntegerMetricEvent (reflect IntegerMetricEvent) MetricsMsgQueueAny.IntegerMetricEvent;
   TypeArg FloatMetricEvent (reflect FloatMetricEvent) MetricsMsgQueueAny.FloatMetricEvent].

#[export] Instance MetricsDepsQueue `{Abi} : HeterogeneousQueue MetricsDepsQueueAny :=
  [TypeArg StaticString (reflect StaticString) MetricsDepsQueueAny.StaticString;
   TypeArg MetricMetadataRecord (reflect MetricMetadataRecord)
     MetricsDepsQueueAny.MetricMetadataRecord].

Definition push_metric_event `{Abi} (mem : rodata) (q : Queue) (a : MetricsMsgQueueAny) : exec Queue :=
  match a with
  | MetricsMsgQueueAny.IntegerMetricEvent evt => push mem 0 evt q
  | MetricsMsgQueueAny.FloatMetricEvent evt => push mem 1 evt q
  end.

(** ** Dependencies *)
Definition record_metric_event_dependencies `{Abi} (st : statics) (metric_ptr : Z)
    (recorded_deps : gset Z) (deps : Queue) : exec (gset Z * Queue) :=
  metric_desc ← deref (st_metrics st) metric_ptr;
  let '(is_new, recorded_deps) := insert_key recorded_deps metric_ptr in
  if is_new then
    s ← record_string (st_bytes st) 0 (StaticString_from (mm_name metric_desc)) (recorded_deps, deps);
    s ← record_string (st_bytes st) 0 (StaticString_from (mm_unit metric_desc)) s;
    s ← record_string (st_bytes st) 0 (StaticString_from (mm_target metric_desc)) s;
    s ← record_string (st_bytes st) 0 (StaticString_from (mm_module_path metric_desc)) s;
    '(recorded_deps, deps) ←
      record_string (st_bytes st) 0 (StaticString_from (mm_file metric_desc)) s;
    deps ← push (st_bytes st) 1
      (mkMetricMetadataRecord metric_ptr (str_ptr (mm_name metric_desc))
         (str_ptr (mm_unit metric_desc)) (str_ptr (mm_target metric_desc))
         (str_ptr (mm_module_path metric_desc)) (str_ptr (mm_file metric_desc))
         (mm_line metric_desc) (Verbosity.as_u32 (mm_lod metric_desc))) deps;
    Ok (recorded_deps, deps)
  else Ok (recorded_deps, deps).

Definition extract_metric_event `{Abi} (st : statics) (s : gset Z * Queue) (x : MetricsMsgQueueAny)
  : exec (gset Z * Queue) :=
  match x with
  | MetricsMsgQueueAny.IntegerMetricEvent evt =>
      record_metric_event_dependencies st (ime_desc evt) s.1 s.2
  | MetricsMsgQueueAny.FloatMetricEvent evt =>
      record_metric_event_dependencies st (fme_desc evt) s.1 s.2
  end.

Definition extract_metrics `{Abi} (st : statics) (q : Queue) : exec Queue :=
  objs ← iter q (Any := MetricsMsgQueueAny);
  '(_, deps) ← foldM (extract_metric_event st) (∅, queue_new (1024 * 1024)) objs;
  Ok deps.

(** ** What the parser reads *)
Definition metric_event_value (dep : Z -> Value) (a : MetricsMsgQueueAny) : Value :=
  match a with
  | MetricsMsgQueueAny.IntegerMetricEvent e =>
      Object_ (mkObject "IntegerMetricEvent"
        [("desc", dep (ime_desc e)); ("value", U64 (ime_value e)); ("time", I64 (ime_time e))])
  | MetricsMsgQueueAny.FloatMetricEvent e =>
      Object_ (mkObject "FloatMetricEvent"
        [("desc", dep (fme_desc e)); ("value", F64 (fme_value e)); ("time", I64 (fme_time e))])
  end.

Definition metric_record_value (dep : Z -> Value) (k : Z) (md : MetricMetadata) : Value :=
  Object_ (mkObject "MetricMetadataRecord"
    [("id", U64 k); ("name", dep (str_ptr (mm_name md))); ("unit", dep (str_ptr (mm_unit md)));
     ("target", dep (str_ptr (mm_target md))); ("module_path", dep (str_ptr (mm_module_path md)));
     ("file", dep (str_ptr (mm_file md))); ("line", U32 (mm_line md));
     ("lod", U32 (Verbosity.as_u32 (mm_lod md)))]).

Definition metric_event_desc (a : MetricsMsgQueueAny) : Z :=
  match a with
  | MetricsMsgQueueAny.IntegerMetricEvent e => ime_desc e
  | MetricsMsgQueueAny.FloatMetricEvent e => fme_desc e
  end.

Definition metric_udts_ok `{Abi} (udts : list UserDefinedType) : Prop :=
  udts !! 0%nat = Some (received (reflect IntegerMetricEvent)) /\
  udts !! 1%nat = Some (received (reflect FloatMetricEvent)).
Definition metric_deps_udts_ok `{Abi} (udts : list UserDefinedType) : Prop :=
  udts !! 0%nat = Some (reflect StaticString) /\
  udts !! 1%nat = Some (received (reflect MetricMetadataRecord)).

Section metrics_block.
Context {HAbi : Abi} {HA : LawfulAbi}.

Definition metric_item (a : MetricsMsgQueueAny) : item MetricsMsgQueueAny :=
  match a with
  | MetricsMsgQueueAny.IntegerMetricEvent evt =>
      Item IntegerMetricEvent 0 (reflect IntegerMetricEvent) MetricsMsgQueueAny.IntegerMetricEvent
        evt ltac:(lia) eq_refl
  | MetricsMsgQueueAny.FloatMetricEvent evt =>
      Item FloatMetricEvent 1 (reflect FloatMetricEvent) MetricsMsgQueueAny.FloatMetricEvent
        evt ltac:(lia) eq_refl
  end.
Definition metric_dep_string (s : StaticString) : item MetricsDepsQueueAny :=
  Item StaticString 0 (reflect StaticString) MetricsDepsQueueAny.StaticString s ltac:(lia) eq_refl.
Definition metric_dep_record (r : MetricMetadataRecord) : item MetricsDepsQueueAny :=
  Item MetricMetadataRecord 1 (reflect MetricMetadataRecord)
    MetricsDepsQueueAny.MetricMetadataRecord r ltac:(lia) eq_refl.

Lemma metric_item_reads m udts deps a :
  metric_udts_ok udts -> item_ok m (metric_item a) ->
  obj_reads m udts deps (metric_item a) (metric_event_value (lookup_dependency deps) a).
Proof.
  intros (U0 & U1) Hok.
  destruct a as [e|e]; unfold item_ok in Hok; cbn [metric_item it_value] in Hok;
    destruct Hok as (H1 & H2 & H3).
  - apply (pod_item_obj_reads m udts tracing_reflect_of 0 _ _ _ _ U0) with
      (vs := [lookup_dependency deps (ime_desc e); U64 (ime_value e); I64 (ime_time e)]);
      [done|by split|]. cbn. solve_reads.
  - apply (pod_item_obj_reads m udts tracing_reflect_of 1 _ _ _ _ U1) with
      (vs := [lookup_dependency deps (fme_desc e); F64 (fme_value e); I64 (fme_time e)]);
      [done|by split|]. cbn. solve_reads.
Qed.

Section extraction.
Context (st : statics) (strs : gmap Z string) (deps_udts : list UserDefinedType).
Context (Hudts : metric_deps_udts_ok deps_udts).

Definition metric_dep_value (k : Z) : Value :=
  match st_metrics st !! k with
  | Some md => metric_record_value (str_dep strs) k md
  | None => str_dep strs k
  end.

Definition metric_metadata_ok : Prop :=
  forall a md, st_metrics st !! a = Some md ->
  in_u 64 a /\ strs !! a = None /\ in_u 32 (mm_line md) /\
  Forall (str_ok strs (st_bytes st))
    [mm_name md; mm_unit md; mm_target md; mm_module_path md; mm_file md].
Context (Hmd : metric_metadata_ok).

Definition metric_event_ok (a : MetricsMsgQueueAny) : Prop :=
  item_ok (st_bytes st) (metric_item a) /\ is_Some (st_metrics st !! metric_event_desc a).

Abbreviation MInv := (DInv (st_bytes st) deps_udts metric_dep_value).

Lemma metric_dep_string_dep s str :
  ss_ok (st_bytes st) s -> ss_bytes (st_bytes st) s = bytes_of str -> valid_string str ->
  dep_item (st_bytes st) deps_udts (metric_dep_string s) (ss_ptr s) (fun _ => String_ str).
Proof.
  intros H1 H2 H3. split; [exact H1|]. by apply string_item_dep_reads; [apply Hudts|..].
Qed.

Lemma metric_dep_str r :
  str_ok strs (st_bytes st) r -> metric_dep_value (str_ptr r) = str_value strs r.
Proof.
  intros (s & Hs & _). unfold metric_dep_value, str_dep, str_value.
  destruct (st_metrics st !! str_ptr r) eqn:E; [|done].
  apply Hmd in E as (_ & E & _). congruence.
Qed.

Lemma metric_dep_record_dep a md :
  st_metrics st !! a = Some md ->
  dep_item (st_bytes st) deps_udts
    (metric_dep_record (mkMetricMetadataRecord a (str_ptr (mm_name md)) (str_ptr (mm_unit md))
      (str_ptr (mm_target md)) (str_ptr (mm_module_path md)) (str_ptr (mm_file md))
      (mm_line md) (Verbosity.as_u32 (mm_lod md))))
    a (fun h => metric_record_value (lookup_dependency h) a md).
Proof.
  intros Ha. destruct (Hmd a md Ha) as (Hu & _ & Hl & Hs).
  eapply (Forall_impl (fun r => in_u 64 (str_ptr r))) in Hs; [|by intros r (? & ? & ? & ? & _)].
  repeat match type of Hs with Forall _ (_ :: _) =>
    pose proof (Forall_inv Hs); apply Forall_inv_tail in Hs end.
  assert (in_u 32 (Verbosity.as_u32 (mm_lod md))) as Hlv
    by (pose proof (Verbosity_as_u32_range (mm_lod md)); unfold in_u; lia).
  split; [by split_and!|].
  apply (pod_item_dep_reads (st_bytes st) deps_udts tracing_reflect_of 1 _ _ _ _ (proj2 Hudts))
    with (vs := fun h => [U64 a; lookup_dependency h (str_ptr (mm_name md));
      lookup_dependency h (str_ptr (mm_unit md)); lookup_dependency h (str_ptr (mm_target md));
      lookup_dependency h (str_ptr (mm_module_path md)); lookup_dependency h (str_ptr (mm_file md));
      U32 (mm_line md); U32 (Verbosity.as_u32 (mm_lod md))]); try done.
  intros h. cbn. solve_reads.
Qed.

Lemma extract_metric_event_DInv s a :
  MInv s.1 ∅ s.2 -> metric_event_ok a ->
  exists s', extract_metric_event st s a = Ok s' /\ MInv s'.1 ∅ s'.2 /\
    {[metric_event_desc a]} ∪ s.1 ⊆ s'.1.
Proof.
  destruct s as [recorded deps]. intros Hinv [_ [md Ha]].
  assert (extract_metric_event st (recorded, deps) a =
    record_metric_event_dependencies st (metric_event_desc a) recorded deps) as -> by by destruct a.
  revert Ha. generalize (metric_event_desc a) as k. intros k Ha. cbn [fst snd] in *.
  unfold record_metric_event_dependencies, deref, insert_key. rewrite Ha.
  cbn [mbind exec_bind]. case_bool_decide as Hnew; [|eexists; split; [done|]].
  2:{ cbn. replace ({[k]} ∪ recorded) with recorded by set_solver. done. }
  destruct (Hmd k md Ha) as (Hu & Hna & Hl & Hs).
  edestruct (record_new_DInv (st_bytes st) deps_udts strs metric_dep_value 0 metric_dep_string
      (fun _ _ => eq_refl) metric_dep_string_dep recorded deps k
      [mm_name md; mm_unit md; mm_target md; mm_module_path md; mm_file md])
    as (rec1 & d1 & d2 & Hrec & Hpush & Hinv' & Hsub);
    [done|done|done|done|apply metric_dep_str|by apply metric_dep_record_dep| |].
  - intros h Hlook. unfold metric_dep_value. rewrite Ha. unfold metric_record_value.
    rewrite_forall Hlook. reflexivity.
  - cbn [foldM] in Hrec. run_strings Hrec.
    change (push_item _ d1 _) with (push (st_bytes st) 1 (mkMetricMetadataRecord k
      (str_ptr (mm_name md)) (str_ptr (mm_unit md)) (str_ptr (mm_target md))
      (str_ptr (mm_module_path md)) (str_ptr (mm_file md)) (mm_line md)
      (Verbosity.as_u32 (mm_lod md))) d1) in Hpush.
    rewrite Hpush. by eexists.
Qed.
End extraction.

Lemma metric_event_value_ext f g a :
  (forall k, k ∈ ({[metric_event_desc a]} : gset Z) -> f k = g k) ->
  metric_event_value f a = metric_event_value g a.
Proof. intros H. destruct a; cbn in *; by rewrite H by set_solver. Qed.

Lemma metrics_block_values st strs udts deps_udts evs size :
  metric_udts_ok udts -> metric_deps_udts_ok deps_udts -> metric_metadata_ok st strs ->
  Forall (metric_event_ok st) evs ->
  exists q deps, foldM (push_metric_event (st_bytes st)) (queue_new size) evs = Ok q /\
    nb_objects q = Z.of_nat (length evs) /\ extract_metrics st q = Ok deps /\
    (blen (as_bytes deps) < 2 ^ 63 -> blen (as_bytes q) < 2 ^ 63 ->
     exists h, read_dependencies deps_udts (as_bytes deps) = Ok h /\
     forall S (f : S -> Value -> exec (S * bool)) s,
       parse_object_buffer h udts (as_bytes q) f s =
       fold_until f s (map (metric_event_value (metric_dep_value st strs)) evs)).
Proof.
  intros Hu Hdu Hmd Hok.
  apply (block_values (st_bytes st) udts deps_udts metric_item (push_metric_event (st_bytes st))
    (extract_metric_event st) (metric_event_ok st) (fun a => {[metric_event_desc a]})
    metric_event_value); try done.
  - by intros q [].
  - by intros [].
  - by intros a [? _].
  - intros deps a [Ha _]. by apply metric_item_reads.
  - apply metric_event_value_ext.
  - intros. by apply (extract_metric_event_DInv st strs).
Qed.
End metrics_block.
