(* ===== verification/Measure.v ===== *)
(** * Measures

    [analytics/src/measure.rs], and the theorem of the metrics pipeline. *)

From S2P Require Import Prelude RustString Float Transit Queue Pod Parser PodParser Blocks.
From S2P Require Import Levels Deps LogEvents LogBlock Time Stream Wire LogEntry MetricsBlock.

Record Measure := mkMeasure {
  me_time : Z;
  me_target : string;
  me_name : string;
  me_unit : string;
  me_value : f64
}.

Definition read_float_metric (obj : Object) : exec (Z * f64 * string * string * string) :=
  ticks ← with_context "reading time from FloatMetricEvent" (get get_i64 obj "time");
  value ← with_context "reading value from FloatMetricEvent" (get get_f64 obj "value");
  desc ← with_context "reading desc from FloatMetricEvent" (get get_object obj "desc");
  target ← with_context "reading target from FloatMetricEvent" (get get_string desc "target");
  name ← with_context "reading name from FloatMetricEvent" (get get_string desc "name");
  unit ← with_context "reading unit from FloatMetricEvent" (get get_string desc "unit");
  Ok (ticks, value, target, name, unit).

Definition read_integer_metric (obj : Object) : exec (Z * f64 * string * string * string) :=
  ticks ← with_context "reading time from IntegerMetricEvent" (get get_i64 obj "time");
  value ← with_context "reading value from IntegerMetricEvent" (get get_u64 obj "value");
  desc ← with_context "reading desc from IntegerMetricEvent" (get get_object obj "desc");
  target ← with_context "reading target from IntegerMetricEvent" (get get_string desc "target");
  name ← with_context "reading name from IntegerMetricEvent" (get get_string desc "name");
  unit ← with_context "reading unit from IntegerMetricEvent" (get get_string desc "unit");
  Ok (ticks, f64_of_Z value, target, name, unit).

(** [Ok(Some(Measure {..}))] *)
Definition make_measure (convert_ticks : ConvertTicks) (r : Z * f64 * string * string * string)
  : exec (option Measure) :=
  let '(ticks, value, target, name, unit) := r in
  time ← ticks_to_nanoseconds convert_ticks ticks;
  Ok (Some (mkMeasure time target name unit value)).

Definition measure_from_value (convert_ticks : ConvertTicks) (val : Value) : exec (option Measure) :=
  match val with
  | Object_ obj =>
      if String.eqb (type_name obj) "FloatMetricEvent" then
        read_float_metric obj ≫= make_measure convert_ticks
      else if String.eqb (type_name obj) "IntegerMetricEvent" then
        read_integer_metric obj ≫= make_measure convert_ticks
      else Ok None
  | _ => Ok None
  end.

(** The closure of [for_each_measure_in_block] *)
Definition on_measure_value {S} (convert_ticks : ConvertTicks)
    (fun_ : S -> Measure -> exec (S * bool)) (s : S) (val : Value) : exec (S * bool) :=
  measure ← with_context "measure_from_value" (measure_from_value convert_ticks val);
  match measure with
  | Some measure =>
      '(s, continue) ← fun_ s measure;
      Ok (s, continue)
  | None => Ok (s, true)
  end.

(** [for_each_measure_in_block], from the payload that was fetched *)
Definition for_each_measure_in_block `{Compression} {S} (convert_ticks : ConvertTicks)
    (stream : StreamInfo) (payload : BlockPayload) (fun_ : S -> Measure -> exec (S * bool)) (s : S)
  : exec (S * bool) :=
  with_context "parse_block"
    (parse_block stream payload (on_measure_value convert_ticks fun_) s).

(** ** The measure that an event should become *)
Definition metric_event_time (a : MetricsMsgQueueAny) : Z :=
  match a with
  | MetricsMsgQueueAny.IntegerMetricEvent e => ime_time e
  | MetricsMsgQueueAny.FloatMetricEvent e => fme_time e
  end.
Definition metric_event_number (a : MetricsMsgQueueAny) : f64 :=
  match a with
  | MetricsMsgQueueAny.IntegerMetricEvent e => f64_of_Z (ime_value e)
  | MetricsMsgQueueAny.FloatMetricEvent e => fme_value e
  end.

Definition measured (st : statics) (strs : gmap Z string) (a : MetricsMsgQueueAny)
  : option (Z * f64 * string * string * string) :=
  md ← st_metrics st !! metric_event_desc a;
  target ← strs !! str_ptr (mm_target md);
  name ← strs !! str_ptr (mm_name md);
  unit ← strs !! str_ptr (mm_unit md);
  Some (metric_event_time a, metric_event_number a, target, name, unit).

Definition event_measure (st : statics) (strs : gmap Z string) (ct : ConvertTicks)
    (a : MetricsMsgQueueAny) : exec Measure :=
  match measured st strs a with
  | Some (ticks, value, target, name, unit) =>
      time ← ticks_to_nanoseconds ct ticks;
      Ok (mkMeasure time target name unit value)
  | None => Ub
  end.

(** The visitor of events and whether it saw them all *)
Fixpoint visit_all {A E S} (entry : A -> exec E) (f : S -> E -> exec (S * bool)) (s : S) (evs : list A)
  : exec (S * bool) :=
  match evs with
  | [] => Ok (s, true)
  | a :: evs' =>
      e ← entry a;
      '(s, continue) ← f s e;
      if continue : bool then visit_all entry f s evs' else Ok (s, false)
  end.

Section pipeline.
Context {HAbi : Abi} {HA : LawfulAbi}.

Lemma measure_of_event st strs ct a :
  metric_metadata_ok st strs -> metric_event_ok st a ->
  exists r, measured st strs a = Some r /\
    measure_from_value ct (metric_event_value (metric_dep_value st strs) a) = make_measure ct r.
Proof.
  intros Hmd [_ [md Ha]]. destruct (Hmd _ _ Ha) as (_ & _ & _ & Hs).
  assert (forall r, In r [mm_name md; mm_unit md; mm_target md] ->
    exists s, strs !! str_ptr r = Some s) as Hlook.
  { intros r Hr. apply (str_ok_lookup strs (st_bytes st)).
    eapply List.Forall_forall; [exact Hs|]. cbn in *. tauto. }
  destruct (Hlook (mm_target md)) as [t Ht]; [cbn; tauto|].
  destruct (Hlook (mm_name md)) as [n Hn]; [cbn; tauto|].
  destruct (Hlook (mm_unit md)) as [u Hu]; [cbn; tauto|].
  unfold measured. rewrite Ha. cbn [mbind option_bind]. rewrite Ht. cbn [mbind option_bind].
  rewrite Hn. cbn [mbind option_bind]. rewrite Hu. cbn [mbind option_bind].
  eexists. split; [done|].
  destruct a as [e|e]; cbn [metric_event_desc metric_event_value] in *;
    unfold metric_dep_value; rewrite Ha; unfold metric_record_value, str_dep;
    rewrite Ht, Hn, Hu; reflexivity.
Qed.

Lemma visit_measure_values {S} st strs ct (f : S -> Measure -> exec (S * bool)) evs s :
  metric_metadata_ok st strs -> Forall (metric_event_ok st) evs ->
  fold_until (on_measure_value ct f) s
    (map (metric_event_value (metric_dep_value st strs)) evs) =
  visit_all (event_measure st strs ct) f s evs.
Proof.
  intros Hmd Hok. revert s. induction Hok as [|a evs Ha _ IH]; intros s; [done|].
  cbn [map fold_until visit_all].
  destruct (measure_of_event st strs ct a Hmd Ha) as ([[[[t x] tg] n] u] & Hl & He).
  assert (forall s, on_measure_value ct f s (metric_event_value (metric_dep_value st strs) a) =
    (measure ← with_context "measure_from_value" (make_measure ct (t, x, tg, n, u));
     match measure with
     | Some measure => '(s, continue) ← f s measure; Ok (s, continue)
     | None => Ok (s, true)
     end)) as Hon by (intros; unfold on_measure_value; by rewrite He).
  assert (event_measure st strs ct a =
    (time ← ticks_to_nanoseconds ct t; Ok (mkMeasure time tg n u x))) as ->
    by (unfold event_measure; by rewrite Hl).
  rewrite Hon. unfold make_measure.
  destruct (ticks_to_nanoseconds_cases ct t) as [->|(ns & -> & _)];
    cbn [mbind exec_bind with_context]; [done|].
  destruct (f s _) as [[s' [|]]| | | |]; cbn [mbind exec_bind]; try done; apply IH.
Qed.

Lemma metrics_stream_udts into_iter stream :
  iterates into_iter ->
  let info := received_stream
    (make_stream_info into_iter MetricsMsgQueueAny MetricsDepsQueueAny stream) in
  metric_udts_ok (si_objects_metadata info) /\ metric_deps_udts_ok (si_dependencies_metadata info).
Proof.
  intros Hit. cbv zeta. unfold received_stream, make_stream_info.
  cbn [si_objects_metadata si_dependencies_metadata]. unfold flatten_metadata.
  replace (foldl extract_secondary_udts ∅ (reflect_contained MetricsMsgQueueAny))
    with (∅ : gmap string UserDefinedType) by reflexivity.
  replace (foldl extract_secondary_udts ∅ (reflect_contained MetricsDepsQueueAny))
    with (∅ : gmap string UserDefinedType) by reflexivity.
  rewrite iterates_empty by done. by split.
Qed.
End pipeline.

(** ** Properties *)

(** C6. The metrics pipeline is a round trip: the block that the sink encodes
    for events pushed on a metrics queue is read by the analytics as the
    measures that were recorded, in order: the ticks, the name, the unit and
    the target of the description, and the value (an integer becomes the
    nearest double). *)
Theorem metrics_block_round_trip `{HA : LawfulAbi} `{HC : LawfulCompression} `{Rfc3339}
    into_iter st strs evs size stream :
  iterates into_iter -> metric_metadata_ok st strs -> Forall (metric_event_ok st) evs ->
  exists q deps,
    foldM (push_metric_event (st_bytes st)) (queue_new size) evs = Ok q /\
    extract_metrics st q = Ok deps /\
    (blen (as_bytes deps) < 2 ^ 63 -> blen (as_bytes q) < 2 ^ 63 ->
     forall new_v4 b e p,
       eb_events b = q -> eb_end b = Some e ->
       in_i 64 (dt_ticks (eb_begin b) - start_ticks p) -> in_i 64 (dt_ticks e - start_ticks p) ->
       exists block, encode_block (extract_metrics st) new_v4 b p = Ok block /\
       forall ct S (f : S -> Measure -> exec (S * bool)) s,
         for_each_measure_in_block ct
           (received_stream
              (make_stream_info into_iter MetricsMsgQueueAny MetricsDepsQueueAny stream))
           (bk_payload block) f s =
         with_context "parse_block" (with_context "parsing object buffer"
           (visit_all (event_measure st strs ct) f s evs))).
Proof.
  intros Hit Hmd Hok.
  destruct (metrics_stream_udts into_iter stream Hit) as [Hu Hdu].
  destruct (metrics_block_values st strs _ _ evs size Hu Hdu Hmd Hok) as (q & deps & Hq & _ & Hx & Hv).
  exists q, deps. split; [done|]. split; [done|].
  intros Hbd Hbq new_v4 b e p <- He Hb1 Hb2. destruct (Hv Hbd Hbq) as (h & Hh & Hparse).
  destruct (encode_block_Ok _ new_v4 b e deps p He Hx Hb1 Hb2) as (block & -> & Hcd & Hco).
  exists block. split; [done|]. intros ct S f s. unfold for_each_measure_in_block.
  rewrite (parse_block_Ok _ _ _ _ h _ s Hcd Hco Hh), Hparse.
  by rewrite <- (visit_measure_values st strs ct f evs s Hmd Hok).
Qed.

Module MetricExample.
Definition strings : list (Z * string) :=
  [(1000, "frame time"); (2000, "ms"); (3000, "app"); (4000, "app::main"); (5000, "src/main.rs")].
Definition strs : gmap Z string := list_to_map strings.
Definition ref_of (e : Z * string) : str_ref := mkStr e.1 (blen (bytes_of e.2)).
Definition md : MetricMetadata :=
  mkMetricMetadata Verbosity.Med (mkStr 1000 10) (mkStr 2000 2) (mkStr 3000 3) (mkStr 4000 9)
    (mkStr 5000 11) 7.
Definition st : statics :=
  mkStatics (list_to_map (concat (map LogExample.bytes_at strings))) ∅ {[ 6000 := md ]} ∅ ∅.
Definition evs : list MetricsMsgQueueAny :=
  [MetricsMsgQueueAny.IntegerMetricEvent (mkIntegerMetricEvent 6000 16 1100);
   MetricsMsgQueueAny.FloatMetricEvent (mkFloatMetricEvent 6000 (f64_of_Z 17) 1200)].

Lemma metric_str_ok_of e : In e strings -> str_ok strs (st_bytes st) (ref_of e).
Proof.
  intros H. exists e.2. unfold ref_of. cbn [str_ptr str_len].
  repeat destruct H as [<-|H]; try destruct H; split_and!; try lia; vm_compute; done.
Qed.

Lemma metric_md_ok : metric_metadata_ok st strs.
Proof.
  intros a m Ha. cbn [st_metrics st] in Ha. apply lookup_singleton_Some in Ha as [<- <-].
  split; [by vm_compute|]. split; [by vm_compute|]. split; [by vm_compute|].
  change (Forall (str_ok strs (st_bytes st)) (map ref_of strings)).
  apply List.Forall_forall. intros r Hr. apply in_map_iff in Hr as (e & <- & He).
  by apply metric_str_ok_of.
Qed.

Lemma metric_evs_ok : Forall (@metric_event_ok natural_abi natural_lawful st) evs.
Proof.
  repeat apply Forall_cons; try apply Forall_nil; unfold metric_event_ok, item_ok; cbn;
    split_and!; try (vm_compute; done); by eexists.
Qed.
End MetricExample.

Lemma metrics_block_round_trip_witness :
  exists q deps block,
    foldM (@push_metric_event natural_abi (st_bytes MetricExample.st)) (queue_new 1024)
      MetricExample.evs = Ok q /\
    @extract_metrics natural_abi MetricExample.st q = Ok deps /\
    @encode_block identity_compression LogExample.rfc (@extract_metrics natural_abi MetricExample.st)
      11 (mkEventBlock 7 9 (mkDualTime 1000 0) q (Some (mkDualTime 2000 1000)) 0) LogExample.process
      = Ok block /\
    @for_each_measure_in_block identity_compression _ LogExample.ct
      (received_stream (@make_stream_info map_to_list MetricsMsgQueueAny MetricsDepsQueueAny
         (@MetricsMsgQueue natural_abi) (@MetricsDepsQueue natural_abi) LogExample.stream))
      (bk_payload block) (fun acc e => Ok (acc ++ [e], true)) [] =
    Ok ([mkMeasure 100 "app" "frame time" "ms" (f64_of_Z 16);
         mkMeasure 200 "app" "frame time" "ms" (f64_of_Z 17)], true).
Proof.
  destruct (@metrics_block_round_trip natural_abi natural_lawful identity_compression
    identity_compression_lawful LogExample.rfc map_to_list MetricExample.st MetricExample.strs
    MetricExample.evs 1024 LogExample.stream (fun m => Permutation_refl _) MetricExample.metric_md_ok
    MetricExample.metric_evs_ok) as (q & deps & Hq & Hx & Hrest).
  assert (blen (as_bytes q) < 2 ^ 63) as Hbq
    by (vm_compute in Hq; injection Hq as <-; vm_compute; reflexivity).
  assert (blen (as_bytes deps) < 2 ^ 63) as Hbd.
  { vm_compute in Hq. injection Hq as <-. vm_compute in Hx. injection Hx as <-.
    vm_compute. reflexivity. }
  destruct (Hrest Hbd Hbq 11 (mkEventBlock 7 9 (mkDualTime 1000 0) q (Some (mkDualTime 2000 1000)) 0)
    (mkDualTime 2000 1000) LogExample.process eq_refl eq_refl) as (block & Hblock & Hread);
    [vm_compute; split; [discriminate|reflexivity]..|].
  exists q, deps, block. split; [exact Hq|]. split; [exact Hx|]. split; [exact Hblock|].
  rewrite Hread. vm_compute. reflexivity.
Defined.
