(* ===== verification/Scan.v ===== *)
(** * Scanning rows

    The queries of log entries, of measures and of the events of a thread read
    the blocks of a stream one after the other, give the rows between two times
    to a builder, and stop at a row that is later, or when they have enough.
    What they have in common is here: when the rows come in the order of their
    times, the builder has exactly the rows that were wanted, up to the
    limit. *)

From Stdlib Require Import Sorting.Sorted.
From S2P Require Import Prelude LogEntry Measure.

Lemma firstn_app_firstn {A} n (l l' : list A) : firstn n (firstn n l ++ l') = firstn n (l ++ l').
Proof.
  destruct (Nat.le_gt_cases (length l) n) as [Hl|Hl]; [by rewrite (firstn_all2 l)|].
  rewrite (firstn_app n (firstn n l)), (firstn_app n l), length_firstn.
  rewrite (firstn_all2 (firstn n l)) by (rewrite length_firstn; lia). do 2 f_equal. lia.
Qed.

Lemma sorted_app_l {A} (R : A -> A -> Prop) l l' : StronglySorted R (l ++ l') -> StronglySorted R l.
Proof.
  induction l as [|x l IH]; intros Hs; [constructor|]. inversion_clear Hs as [|? ? Hs' Hx].
  constructor; [by apply IH|]. by apply list.Forall_app in Hx as [Hx _].
Qed.
Lemma sorted_app_r {A} (R : A -> A -> Prop) l l' : StronglySorted R (l ++ l') -> StronglySorted R l'.
Proof. induction l as [|x l IH]; intros Hs; [done|]. inversion_clear Hs. by apply IH. Qed.
Lemma sorted_app_across {A} (R : A -> A -> Prop) l l' x y :
  StronglySorted R (l ++ l') -> In x l -> In y l' -> R x y.
Proof.
  induction l as [|z l IH]; intros Hs Hx Hy; [done|]. inversion_clear Hs as [|? ? Hs' Hz].
  destruct Hx as [->|Hx]; [|by apply IH]. eapply List.Forall_forall; [exact Hz|]. apply in_or_app. by right.
Qed.

(** Without an error, the visitor that says whether it saw them all is the
    other one. *)
Lemma visit_of_all {E S} (f : S -> E -> exec (S * bool)) s es r c :
  visit_all Ok f s es = Ok (r, c) -> visit Ok f s es = Ok r.
Proof.
  revert s. induction es as [|e es IH]; intros s; cbn [visit_all visit mbind exec_bind].
  { by intros [= <- <-]. }
  destruct (f s e) as [[s' []]| | | |]; cbn [mbind exec_bind]; try done; [apply IH|].
  by intros [= <- <-].
Qed.

(** A loop over blocks that a block may end *)
Fixpoint read_until {B S} (read : B -> S -> exec (S * bool)) (bs : list B) (s : S) : exec S :=
  match bs with
  | [] => Ok s
  | b :: bs =>
      '(s, continue) ← read b s;
      if continue : bool then read_until read bs s else Ok s
  end.

Section scan.
Context {E St : Type} (time : E -> Z) (begin_ns end_ns lim : Z).
(** The builder of rows, and what it needs of them *)
Context (built : list E -> St) (ok : list E -> Prop).
Hypothesis ok_prefix : forall l l', ok (l ++ l') -> ok l.

Definition wanted (e : E) : bool := (begin_ns <=? time e) && (time e <=? end_ns).
Definition found (l es : list E) : list E := firstn (Z.to_nat lim) (l ++ List.filter wanted es).
Definition in_time : list E -> Prop := StronglySorted (fun x y => time x <= time y).

(** A visitor appends a row that is wanted while there is room.  It may stop
    at a row that is too late, or when there is no room left. *)
Definition step_ok (f : St -> E -> exec (St * bool)) (e : E) : Prop :=
  forall l, Z.of_nat (length l) <= Z.max 0 lim ->
  let l' := if wanted e && (Z.of_nat (length l) <? lim) then l ++ [e] else l in
  ok l' ->
  exists c, f (built l) e = Ok (built l', c) /\
    (c = false -> end_ns < time e \/ lim <= Z.of_nat (length l')).

(** What was found can only grow by rows that are wanted. *)
Definition done_with (l es : list E) : Prop :=
  Exists (fun e => end_ns < time e) es \/ lim <= Z.of_nat (length (found l es)).

Lemma found_app l es es' : found l (es ++ es') = found (found l es) es'.
Proof. unfold found. by rewrite firstn_app_firstn, List.filter_app, app_assoc. Qed.
Lemma found_nil l : Z.of_nat (length l) <= Z.max 0 lim -> found l [] = l.
Proof. intros Hl. unfold found. rewrite app_nil_r. apply firstn_all2. lia. Qed.
Lemma found_length l es : Z.of_nat (length (found l es)) <= Z.max 0 lim.
Proof. unfold found. rewrite length_firstn. lia. Qed.
Lemma found_one l e :
  Z.of_nat (length l) <= Z.max 0 lim ->
  found l [e] = if wanted e && (Z.of_nat (length l) <? lim) then l ++ [e] else l.
Proof.
  intros Hl. unfold found. cbn [List.filter]. destruct (wanted e); cbn [andb].
  - destruct (Z.ltb_spec (Z.of_nat (length l)) lim).
    + apply firstn_all2. rewrite length_app. cbn. lia.
    + rewrite firstn_app. replace (Z.to_nat lim - length l)%nat with 0%nat by lia.
      rewrite app_nil_r. apply firstn_all2. lia.
  - rewrite app_nil_r. apply firstn_all2. lia.
Qed.

Lemma found_done l es es' :
  in_time (es ++ es') -> done_with l es -> found l (es ++ es') = found l es.
Proof.
  intros Hs Hd. rewrite found_app. destruct Hd as [Hlate|Hfull].
  - assert (List.filter wanted es' = []) as E1.
    { apply List.Exists_exists in Hlate as (e & He & Hlate).
      assert (forall e', In e' es' -> end_ns < time e') as Hlater.
      { intros e' He'. pose proof (sorted_app_across _ _ _ _ _ Hs He He'). cbn in *. lia. }
      clear -Hlater. induction es' as [|e' es' IH]; [done|]. cbn.
      rewrite IH by (intros; apply Hlater; by right).
      unfold wanted. rewrite (proj2 (Z.leb_gt (time e') end_ns)), andb_false_r; [done|]. apply Hlater. by left. }
    unfold found at 1. rewrite E1, app_nil_r. apply firstn_all2. pose proof (found_length l es). lia.
  - unfold found at 1. rewrite firstn_app.
    replace (Z.to_nat lim - length (found l es))%nat with 0%nat by lia.
    rewrite app_nil_r. apply firstn_all2. pose proof (found_length l es). lia.
Qed.

Lemma scan_visit f es : forall l,
  in_time es -> Forall (step_ok f) es -> Z.of_nat (length l) <= Z.max 0 lim -> ok (found l es) ->
  exists c, visit_all Ok f (built l) es = Ok (built (found l es), c) /\ (c = false -> done_with l es).
Proof.
  induction es as [|e es IH]; intros l Hs Hf Hl Hok.
  { exists true. cbn [visit_all]. by rewrite found_nil. }
  inversion Hf as [|? ? He Hes]; subst. change (e :: es) with ([e] ++ es) in *.
  rewrite found_app in Hok.
  destruct (He l Hl) as (c & E1 & Hstop).
  { rewrite <- found_one by done. unfold found at 1 in Hok. rewrite firstn_app in Hok.
    apply ok_prefix in Hok. by rewrite firstn_all2 in Hok by (pose proof (found_length l [e]); lia). }
  rewrite <- found_one in E1, Hstop by done.
  cbn [app visit_all mbind exec_bind]. rewrite E1. cbn [mbind exec_bind]. destruct c.
  - inversion_clear Hs as [|? ? Hs' _].
    destruct (IH (found l [e]) Hs' Hes (found_length l [e]) Hok) as (c & E2 & Hd).
    exists c. rewrite E2. change (e :: es) with ([e] ++ es). rewrite found_app. split; [done|].
    intros Hc. destruct (Hd Hc) as [Hlate|Hfull]; [left; apply Exists_app; by right|right].
    by rewrite found_app.
  - assert (done_with l [e]) as Hd by (destruct (Hstop eq_refl); [left; by constructor|by right]).
    exists false. change (e :: es) with ([e] ++ es). split; [by rewrite (found_done l [e] es Hs Hd)|]. intros _.
    destruct Hd as [Hlate|Hfull]; [left; apply Exists_app; by left|right].
    by rewrite (found_done l [e] es Hs (or_intror Hfull)).
Qed.

(** Blocks whose rows are visited, and which end the loop when a row does *)
Lemma scan_blocks {B} (read : B -> St -> exec (St * bool)) (rows : B -> list E) f bs : forall l,
  (forall b s r, In b bs -> visit_all Ok f s (rows b) = Ok r -> read b s = Ok r) ->
  in_time (concat (map rows bs)) -> Forall (step_ok f) (concat (map rows bs)) ->
  Z.of_nat (length l) <= Z.max 0 lim -> ok (found l (concat (map rows bs))) ->
  read_until read bs (built l) = Ok (built (found l (concat (map rows bs)))).
Proof.
  induction bs as [|b bs IH]; intros l Hread Hs Hf Hl Hok.
  { cbn [map concat read_until]. by rewrite found_nil. }
  cbn [map concat read_until] in *. apply list.Forall_app in Hf as [Hf1 Hf2].
  rewrite found_app in Hok.
  destruct (scan_visit f (rows b) l) as (c & E1 & Hd); [by eapply sorted_app_l|done|done| |].
  { unfold found at 1 in Hok. rewrite firstn_app in Hok. apply ok_prefix in Hok.
    by rewrite firstn_all2 in Hok by (pose proof (found_length l (rows b)); lia). }
  rewrite (Hread b _ _ (or_introl eq_refl) E1). cbn [mbind exec_bind]. destruct c.
  - rewrite found_app. apply IH; [|by eapply sorted_app_r|done|apply found_length|done].
    intros b' s r Hb. apply Hread. by right.
  - by rewrite (found_done l (rows b) _ Hs (Hd eq_refl)).
Qed.
End scan.
