(* ===== verification/SpanEvents.v ===== *)
(** * Span events

    [tracing/src/spans/events.rs]: the events of the threads' streams and the
    records of the descriptions they point to. *)

From S2P Require Import Prelude RustString Transit Queue Pod Parser PodParser Blocks Levels.
From S2P Require Import Deps LogEvents.

(** ** The structures *)
Record BeginThreadSpanEvent := mkBeginThreadSpanEvent {
  bts_thread_span_desc : Z;
  bts_time : Z
}.
Record EndThreadSpanEvent := mkEndThreadSpanEvent {
  ets_thread_span_desc : Z;
  ets_time : Z
}.
Record BeginThreadNamedSpanEvent := mkBeginThreadNamedSpanEvent {
  btn_thread_span_location : Z;
  btn_name : StringId;
  btn_time : Z
}.
Record EndThreadNamedSpanEvent := mkEndThreadNamedSpanEvent {
  etn_thread_span_location : Z;
  etn_name : StringId;
  etn_time : Z
}.
Record BeginAsyncSpanEvent := mkBeginAsyncSpanEvent {
  bas_span_desc : Z;
  bas_span_id : Z;
  bas_time : Z
}.
Record EndAsyncSpanEvent := mkEndAsyncSpanEvent {
  eas_span_desc : Z;
  eas_span_id : Z;
  eas_time : Z
}.
Record BeginAsyncNamedSpanEvent := mkBeginAsyncNamedSpanEvent {
  ban_span_location : Z;
  ban_name : StringId;
  ban_span_id : Z;
  ban_time : Z
}.
Record EndAsyncNamedSpanEvent := mkEndAsyncNamedSpanEvent {
  ean_span_location : Z;
  ean_name : StringId;
  ean_span_id : Z;
  ean_time : Z
}.

Record SpanRecord := mkSpanRecord {
  sr_id : Z;
  sr_name : Z;
  sr_target : Z;
  sr_module_path : Z;
  sr_file : Z;
  sr_line : Z;
  sr_lod : Z
}.
Record SpanLocationRecord := mkSpanLocationRecord {
  slr_id : Z;
  slr_target : Z;
  slr_module_path : Z;
  slr_file : Z;
  slr_line : Z;
  slr_lod : Z
}.

(** ** Serialization *)
#[export] Instance BeginThreadSpanEvent_Pod : Pod BeginThreadSpanEvent := {|
  decl := mkStruct "BeginThreadSpanEvent"
    [mkField "thread_span_desc" (Reference_ "& 'static SpanMetadata") 8;
     mkField "time" (Path "i64") 8];
  to_fields e := [u64_bytes (bts_thread_span_desc e); i64_bytes (bts_time e)];
  of_fields fs :=
    match fs with
    | [thread_span_desc; time] =>
        Some (mkBeginThreadSpanEvent (u64_of thread_span_desc) (i64_of time))
    | _ => None
    end
|}.
#[export] Instance EndThreadSpanEvent_Pod : Pod EndThreadSpanEvent := {|
  decl := mkStruct "EndThreadSpanEvent"
    [mkField "thread_span_desc" (Reference_ "& 'static SpanMetadata") 8;
     mkField "time" (Path "i64") 8];
  to_fields e := [u64_bytes (ets_thread_span_desc e); i64_bytes (ets_time e)];
  of_fields fs :=
    match fs with
    | [thread_span_desc; time] =>
        Some (mkEndThreadSpanEvent (u64_of thread_span_desc) (i64_of time))
    | _ => None
    end
|}.
#[export] Instance BeginThreadNamedSpanEvent_Pod `{Abi} : Pod BeginThreadNamedSpanEvent := {|
  decl := mkStruct "BeginThreadNamedSpanEvent"
    [mkField "thread_span_location" (Reference_ "& 'static SpanLocation") 8;
     mkField "name" (Path "StringId") (size_of (decl StringId));
     mkField "time" (Path "i64") 8];
  to_fields e := [u64_bytes (btn_thread_span_location e); pod_bytes (btn_name e); i64_bytes (btn_time e)];
  of_fields fs :=
    match fs with
    | [thread_span_location; name; time] =>
        name ← pod_of_bytes name;
        Some (mkBeginThreadNamedSpanEvent (u64_of thread_span_location) name (i64_of time))
    | _ => None
    end
|}.
#[export] Instance EndThreadNamedSpanEvent_Pod `{Abi} : Pod EndThreadNamedSpanEvent := {|
  decl := mkStruct "EndThreadNamedSpanEvent"
    [mkField "thread_span_location" (Reference_ "& 'static SpanLocation") 8;
     mkField "name" (Path "StringId") (size_of (decl StringId));
     mkField "time" (Path "i64") 8];
  to_fields e := [u64_bytes (etn_thread_span_location e); pod_bytes (etn_name e); i64_bytes (etn_time e)];
  of_fields fs :=
    match fs with
    | [thread_span_location; name; time] =>
        name ← pod_of_bytes name;
        Some (mkEndThreadNamedSpanEvent (u64_of thread_span_location) name (i64_of time))
    | _ => None
    end
|}.
#[export] Instance BeginAsyncSpanEvent_Pod : Pod BeginAsyncSpanEvent := {|
  decl := mkStruct "BeginAsyncSpanEvent"
    [mkField "span_desc" (Reference_ "& 'static SpanMetadata") 8;
     mkField "span_id" (Path "u64") 8;
     mkField "time" (Path "i64") 8];
  to_fields e := [u64_bytes (bas_span_desc e); u64_bytes (bas_span_id e); i64_bytes (bas_time e)];
  of_fields fs :=
    match fs with
    | [span_desc; span_id; time] =>
        Some (mkBeginAsyncSpanEvent (u64_of span_desc) (u64_of span_id) (i64_of time))
    | _ => None
    end
|}.
#[export] Instance EndAsyncSpanEvent_Pod : Pod EndAsyncSpanEvent := {|
  decl := mkStruct "EndAsyncSpanEvent"
    [mkField "span_desc" (Reference_ "& 'static SpanMetadata") 8;
     mkField "span_id" (Path "u64") 8;
     mkField "time" (Path "i64") 8];
  to_fields e := [u64_bytes (eas_span_desc e); u64_bytes (eas_span_id e); i64_bytes (eas_time e)];
  of_fields fs :=
    match fs with
    | [span_desc; span_id; time] =>
        Some (mkEndAsyncSpanEvent (u64_of span_desc) (u64_of span_id) (i64_of time))
    | _ => None
    end
|}.
#[export] Instance BeginAsyncNamedSpanEvent_Pod `{Abi} : Pod BeginAsyncNamedSpanEvent := {|
  decl := mkStruct "BeginAsyncNamedSpanEvent"
    [mkField "span_location" (Reference_ "& 'static SpanLocation") 8;
     mkField "name" (Path "StringId") (size_of (decl StringId));
     mkField "span_id" (Path "u64") 8;
     mkField "time" (Path "i64") 8];
  to_fields e := [u64_bytes (ban_span_location e); pod_bytes (ban_name e); u64_bytes (ban_span_id e); i64_bytes (ban_time e)];
  of_fields fs :=
    match fs with
    | [span_location; name; span_id; time] =>
        name ← pod_of_bytes name;
        Some (mkBeginAsyncNamedSpanEvent (u64_of span_location) name (u64_of span_id) (i64_of time))
    | _ => None
    end
|}.
#[export] Instance EndAsyncNamedSpanEvent_Pod `{Abi} : Pod EndAsyncNamedSpanEvent := {|
  decl := mkStruct "EndAsyncNamedSpanEvent"
    [mkField "span_location" (Reference_ "& 'static SpanLocation") 8;
     mkField "name" (Path "StringId") (size_of (decl StringId));
     mkField "span_id" (Path "u64") 8;
     mkField "time" (Path "i64") 8];
  to_fields e := [u64_bytes (ean_span_location e); pod_bytes (ean_name e); u64_bytes (ean_span_id e); i64_bytes (ean_time e)];
  of_fields fs :=
    match fs with
    | [span_location; name; span_id; time] =>
        name ← pod_of_bytes name;
        Some (mkEndAsyncNamedSpanEvent (u64_of span_location) name (u64_of span_id) (i64_of time))
    | _ => None
    end
|}.
#[export] Instance SpanRecord_Pod : Pod SpanRecord := {|
  decl := mkStruct "SpanRecord"
    [mkField "id" (Path "u64") 8;
     mkField "name" (Ptr "* const u8") 8;
     mkField "target" (Ptr "* const u8") 8;
     mkField "module_path" (Ptr "* const u8") 8;
     mkField "file" (Ptr "* const u8") 8;
     mkField "line" (Path "u32") 4;
     mkField "lod" (Path "u32") 4];
  to_fields e := [u64_bytes (sr_id e); u64_bytes (sr_name e); u64_bytes (sr_target e); u64_bytes (sr_module_path e); u64_bytes (sr_file e); u32_bytes (sr_line e); u32_bytes (sr_lod e)];
  of_fields fs :=
    match fs with
    | [id; name; target; module_path; file; line; lod] =>
        Some (mkSpanRecord (u64_of id) (u64_of name) (u64_of target) (u64_of module_path) (u64_of file) (u32_of line) (u32_of lod))
    | _ => None
    end
|}.
#[export] Instance SpanLocationRecord_Pod : Pod SpanLocationRecord := {|
  decl := mkStruct "SpanLocationRecord"
    [mkField "id" (Path "u64") 8;
     mkField "target" (Ptr "* const u8") 8;
     mkField "module_path" (Ptr "* const u8") 8;
     mkField "file" (Ptr "* const u8") 8;
     mkField "line" (Path "u32") 4;
     mkField "lod" (Path "u32") 4];
  to_fields e := [u64_bytes (slr_id e); u64_bytes (slr_target e); u64_bytes (slr_module_path e); u64_bytes (slr_file e); u32_bytes (slr_line e); u32_bytes (slr_lod e)];
  of_fields fs :=
    match fs with
    | [id; target; module_path; file; line; lod] =>
        Some (mkSpanLocationRecord (u64_of id) (u64_of target) (u64_of module_path) (u64_of file) (u32_of line) (u32_of lod))
    | _ => None
    end
|}.
#[export] Instance BeginThreadSpanEvent_Reflect `{Abi} : Reflect BeginThreadSpanEvent :=
  derive_reflect_impl tracing_reflect_of (decl BeginThreadSpanEvent).
#[export] Instance EndThreadSpanEvent_Reflect `{Abi} : Reflect EndThreadSpanEvent :=
  derive_reflect_impl tracing_reflect_of (decl EndThreadSpanEvent).
#[export] Instance BeginThreadNamedSpanEvent_Reflect `{Abi} : Reflect BeginThreadNamedSpanEvent :=
  derive_reflect_impl tracing_reflect_of (decl BeginThreadNamedSpanEvent).
#[export] Instance EndThreadNamedSpanEvent_Reflect `{Abi} : Reflect EndThreadNamedSpanEvent :=
  derive_reflect_impl tracing_reflect_of (decl EndThreadNamedSpanEvent).
#[export] Instance BeginAsyncSpanEvent_Reflect `{Abi} : Reflect BeginAsyncSpanEvent :=
  derive_reflect_impl tracing_reflect_of (decl BeginAsyncSpanEvent).
#[export] Instance EndAsyncSpanEvent_Reflect `{Abi} : Reflect EndAsyncSpanEvent :=
  derive_reflect_impl tracing_reflect_of (decl EndAsyncSpanEvent).
#[export] Instance BeginAsyncNamedSpanEvent_Reflect `{Abi} : Reflect BeginAsyncNamedSpanEvent :=
  derive_reflect_impl tracing_reflect_of (decl BeginAsyncNamedSpanEvent).
#[export] Instance EndAsyncNamedSpanEvent_Reflect `{Abi} : Reflect EndAsyncNamedSpanEvent :=
  derive_reflect_impl tracing_reflect_of (decl EndAsyncNamedSpanEvent).
#[export] Instance SpanRecord_Reflect `{Abi} : Reflect SpanRecord :=
  derive_reflect_impl tracing_reflect_of (decl SpanRecord).
#[export] Instance SpanLocationRecord_Reflect `{Abi} : Reflect SpanLocationRecord :=
  derive_reflect_impl tracing_reflect_of (decl SpanLocationRecord).

(** ** Lawfulness *)
Definition bts_ok (e : BeginThreadSpanEvent) : Prop :=
  in_u 64 (bts_thread_span_desc e) /\ in_i 64 (bts_time e).
Definition ets_ok (e : EndThreadSpanEvent) : Prop :=
  in_u 64 (ets_thread_span_desc e) /\ in_i 64 (ets_time e).
Definition btn_ok (e : BeginThreadNamedSpanEvent) : Prop :=
  in_u 64 (btn_thread_span_location e) /\ sid_ok (btn_name e) /\ in_i 64 (btn_time e).
Definition etn_ok (e : EndThreadNamedSpanEvent) : Prop :=
  in_u 64 (etn_thread_span_location e) /\ sid_ok (etn_name e) /\ in_i 64 (etn_time e).
Definition bas_ok (e : BeginAsyncSpanEvent) : Prop :=
  in_u 64 (bas_span_desc e) /\ in_u 64 (bas_span_id e) /\ in_i 64 (bas_time e).
Definition eas_ok (e : EndAsyncSpanEvent) : Prop :=
  in_u 64 (eas_span_desc e) /\ in_u 64 (eas_span_id e) /\ in_i 64 (eas_time e).
Definition ban_ok (e : BeginAsyncNamedSpanEvent) : Prop :=
  in_u 64 (ban_span_location e) /\ sid_ok (ban_name e) /\ in_u 64 (ban_span_id e) /\ in_i 64 (ban_time e).
Definition ean_ok (e : EndAsyncNamedSpanEvent) : Prop :=
  in_u 64 (ean_span_location e) /\ sid_ok (ean_name e) /\ in_u 64 (ean_span_id e) /\ in_i 64 (ean_time e).
Definition sr_ok (e : SpanRecord) : Prop :=
  in_u 64 (sr_id e) /\ in_u 64 (sr_name e) /\ in_u 64 (sr_target e) /\ in_u 64 (sr_module_path e) /\ in_u 64 (sr_file e) /\ in_u 32 (sr_line e) /\ in_u 32 (sr_lod e).
Definition slr_ok (e : SpanLocationRecord) : Prop :=
  in_u 64 (slr_id e) /\ in_u 64 (slr_target e) /\ in_u 64 (slr_module_path e) /\ in_u 64 (slr_file e) /\ in_u 32 (slr_line e) /\ in_u 32 (slr_lod e).
#[export] Program Instance BeginThreadSpanEvent_LawfulPod : LawfulPod BeginThreadSpanEvent := {| pod_ok := bts_ok |}.
Next Obligation. intros v Hv. solve_fit. Qed.
Next Obligation.
  intros [x0 x1] (H0 & H1). cbn in *.
  by rewrite !u64_of_bytes, !i64_of_bytes.
Qed.
#[export] Program Instance EndThreadSpanEvent_LawfulPod : LawfulPod EndThreadSpanEvent := {| pod_ok := ets_ok |}.
Next Obligation. intros v Hv. solve_fit. Qed.
Next Obligation.
  intros [x0 x1] (H0 & H1). cbn in *.
  by rewrite !u64_of_bytes, !i64_of_bytes.
Qed.
#[export] Program Instance BeginThreadNamedSpanEvent_LawfulPod {HAbi : Abi} {HA : LawfulAbi} :
  LawfulPod BeginThreadNamedSpanEvent := {| pod_ok := btn_ok |}.
Next Obligation. intros HAbi HA v (H0 & H1 & H2). solve_fit_ids BeginThreadNamedSpanEvent_Pod. Qed.
Next Obligation.
  intros HAbi HA [x0 x1 x2] (H0 & H1 & H2). unfold BeginThreadNamedSpanEvent_Pod.
  cbn [to_fields of_fields btn_thread_span_location btn_name btn_time] in *.
  rewrite !u64_of_bytes, !i64_of_bytes, !(pod_of_pod_bytes (T := StringId)) by done. done.
Qed.
#[export] Program Instance EndThreadNamedSpanEvent_LawfulPod {HAbi : Abi} {HA : LawfulAbi} :
  LawfulPod EndThreadNamedSpanEvent := {| pod_ok := etn_ok |}.
Next Obligation. intros HAbi HA v (H0 & H1 & H2). solve_fit_ids EndThreadNamedSpanEvent_Pod. Qed.
Next Obligation.
  intros HAbi HA [x0 x1 x2] (H0 & H1 & H2). unfold EndThreadNamedSpanEvent_Pod.
  cbn [to_fields of_fields etn_thread_span_location etn_name etn_time] in *.
  rewrite !u64_of_bytes, !i64_of_bytes, !(pod_of_pod_bytes (T := StringId)) by done. done.
Qed.
#[export] Program Instance BeginAsyncSpanEvent_LawfulPod : LawfulPod BeginAsyncSpanEvent := {| pod_ok := bas_ok |}.
Next Obligation. intros v Hv. solve_fit. Qed.
Next Obligation.
  intros [x0 x1 x2] (H0 & H1 & H2). cbn in *.
  by rewrite !u64_of_bytes, !i64_of_bytes.
Qed.
#[export] Program Instance EndAsyncSpanEvent_LawfulPod : LawfulPod EndAsyncSpanEvent := {| pod_ok := eas_ok |}.
Next Obligation. intros v Hv. solve_fit. Qed.
Next Obligation.
  intros [x0 x1 x2] (H0 & H1 & H2). cbn in *.
  by rewrite !u64_of_bytes, !i64_of_bytes.
Qed.
#[export] Program Instance BeginAsyncNamedSpanEvent_LawfulPod {HAbi : Abi} {HA : LawfulAbi} :
  LawfulPod BeginAsyncNamedSpanEvent := {| pod_ok := ban_ok |}.
Next Obligation. intros HAbi HA v (H0 & H1 & H2 & H3). solve_fit_ids BeginAsyncNamedSpanEvent_Pod. Qed.
Next Obligation.
  intros HAbi HA [x0 x1 x2 x3] (H0 & H1 & H2 & H3). unfold BeginAsyncNamedSpanEvent_Pod.
  cbn [to_fields of_fields ban_span_location ban_name ban_span_id ban_time] in *.
  rewrite !u64_of_bytes, !i64_of_bytes, !(pod_of_pod_bytes (T := StringId)) by done. done.
Qed.
#[export] Program Instance EndAsyncNamedSpanEvent_LawfulPod {HAbi : Abi} {HA : LawfulAbi} :
  LawfulPod EndAsyncNamedSpanEvent := {| pod_ok := ean_ok |}.
Next Obligation. intros HAbi HA v (H0 & H1 & H2 & H3). solve_fit_ids EndAsyncNamedSpanEvent_Pod. Qed.
Next Obligation.
  intros HAbi HA [x0 x1 x2 x3] (H0 & H1 & H2 & H3). unfold EndAsyncNamedSpanEvent_Pod.
  cbn [to_fields of_fields ean_span_location ean_name ean_span_id ean_time] in *.
  rewrite !u64_of_bytes, !i64_of_bytes, !(pod_of_pod_bytes (T := StringId)) by done. done.
Qed.
#[export] Program Instance SpanRecord_LawfulPod : LawfulPod SpanRecord := {| pod_ok := sr_ok |}.
Next Obligation. intros v Hv. solve_fit. Qed.
Next Obligation.
  intros [x0 x1 x2 x3 x4 x5 x6] (H0 & H1 & H2 & H3 & H4 & H5 & H6). cbn in *.
  by rewrite !u64_of_bytes, !u32_of_bytes.
Qed.
#[export] Program Instance SpanLocationRecord_LawfulPod : LawfulPod SpanLocationRecord := {| pod_ok := slr_ok |}.
Next Obligation. intros v Hv. solve_fit. Qed.
Next Obligation.
  intros [x0 x1 x2 x3 x4 x5] (H0 & H1 & H2 & H3 & H4 & H5). cbn in *.
  by rewrite !u64_of_bytes, !u32_of_bytes.
Qed.
