(* ===== verification/ThreadBlock.v ===== *)
(** * The queue of a thread and its dependencies

    [tracing/src/spans/block.rs], and what the parser of [transit] makes of a
    block of a thread's stream. *)

From S2P Require Import Prelude RustString Transit Queue Pod Parser PodParser Blocks Levels.
From S2P Require Import Deps LogEvents LogBlock SpanEvents.

(** ** The queues *)
Module ThreadEventQueueAny.
Inductive t :=
| BeginThreadSpanEvent (evt : SpanEvents.BeginThreadSpanEvent)
| EndThreadSpanEvent (evt : SpanEvents.EndThreadSpanEvent)
| BeginThreadNamedSpanEvent (evt : SpanEvents.BeginThreadNamedSpanEvent)
| EndThreadNamedSpanEvent (evt : SpanEvents.EndThreadNamedSpanEvent)
| BeginAsyncSpanEvent (evt : SpanEvents.BeginAsyncSpanEvent)
| EndAsyncSpanEvent (evt : SpanEvents.EndAsyncSpanEvent)
| BeginAsyncNamedSpanEvent (evt : SpanEvents.BeginAsyncNamedSpanEvent)
| EndAsyncNamedSpanEvent (evt : SpanEvents.EndAsyncNamedSpanEvent).
End ThreadEventQueueAny.
Abbreviation ThreadEventQueueAny := ThreadEventQueueAny.t.

Module ThreadDepsQueueAny.
Inductive t :=
| SpanRecord (evt : SpanEvents.SpanRecord)
| SpanLocationRecord (evt : SpanEvents.SpanLocationRecord)
| StaticString (evt : Transit.StaticString).
End ThreadDepsQueueAny.
Abbreviation ThreadDepsQueueAny := ThreadDepsQueueAny.t.

#[export] Instance ThreadEventQueue `{Abi} : HeterogeneousQueue ThreadEventQueueAny :=
  [TypeArg BeginThreadSpanEvent (reflect BeginThreadSpanEvent) ThreadEventQueueAny.BeginThreadSpanEvent;
   TypeArg EndThreadSpanEvent (reflect EndThreadSpanEvent) ThreadEventQueueAny.EndThreadSpanEvent;
   TypeArg BeginThreadNamedSpanEvent (reflect BeginThreadNamedSpanEvent) ThreadEventQueueAny.BeginThreadNamedSpanEvent;
   TypeArg EndThreadNamedSpanEvent (reflect EndThreadNamedSpanEvent) ThreadEventQueueAny.EndThreadNamedSpanEvent;
   TypeArg BeginAsyncSpanEvent (reflect BeginAsyncSpanEvent) ThreadEventQueueAny.BeginAsyncSpanEvent;
   TypeArg EndAsyncSpanEvent (reflect EndAsyncSpanEvent) ThreadEventQueueAny.EndAsyncSpanEvent;
   TypeArg BeginAsyncNamedSpanEvent (reflect BeginAsyncNamedSpanEvent) ThreadEventQueueAny.BeginAsyncNamedSpanEvent;
   TypeArg EndAsyncNamedSpanEvent (reflect EndAsyncNamedSpanEvent) ThreadEventQueueAny.EndAsyncNamedSpanEvent].

#[export] Instance ThreadDepsQueue `{Abi} : HeterogeneousQueue ThreadDepsQueueAny :=
  [TypeArg SpanRecord (reflect SpanRecord) ThreadDepsQueueAny.SpanRecord;
   TypeArg SpanLocationRecord (reflect SpanLocationRecord) ThreadDepsQueueAny.SpanLocationRecord;
   TypeArg StaticString (reflect StaticString) ThreadDepsQueueAny.StaticString].

Definition push_thread_event `{Abi} (mem : rodata) (q : Queue) (a : ThreadEventQueueAny) : exec Queue :=
  match a with
  | ThreadEventQueueAny.BeginThreadSpanEvent evt => push mem 0 evt q
  | ThreadEventQueueAny.EndThreadSpanEvent evt => push mem 1 evt q
  | ThreadEventQueueAny.BeginThreadNamedSpanEvent evt => push mem 2 evt q
  | ThreadEventQueueAny.EndThreadNamedSpanEvent evt => push mem 3 evt q
  | ThreadEventQueueAny.BeginAsyncSpanEvent evt => push mem 4 evt q
  | ThreadEventQueueAny.EndAsyncSpanEvent evt => push mem 5 evt q
  | ThreadEventQueueAny.BeginAsyncNamedSpanEvent evt => push mem 6 evt q
  | ThreadEventQueueAny.EndAsyncNamedSpanEvent evt => push mem 7 evt q
  end.

(** ** Dependencies *)
Definition record_scope_event_dependencies `{Abi} (st : statics) (thread_span_ptr : Z)
    (recorded_deps : gset Z) (deps : Queue) : exec (gset Z * Queue) :=
  thread_span_desc ← deref (st_spans st) thread_span_ptr;
  let location := sm_location thread_span_desc in
  let '(is_new, recorded_deps) := insert_key recorded_deps thread_span_ptr in
  if is_new then
    s ← record_string (st_bytes st) 2 (StaticString_from (sm_name thread_span_desc))
          (recorded_deps, deps);
    s ← record_string (st_bytes st) 2 (StaticString_from (sl_target location)) s;
    s ← record_string (st_bytes st) 2 (StaticString_from (sl_module_path location)) s;
    '(recorded_deps, deps) ←
      record_string (st_bytes st) 2 (StaticString_from (sl_file location)) s;
    deps ← push (st_bytes st) 0
      (mkSpanRecord thread_span_ptr (str_ptr (sm_name thread_span_desc))
         (str_ptr (sl_target location)) (str_ptr (sl_module_path location))
         (str_ptr (sl_file location)) (sl_line location) (Verbosity.as_u32 (sl_lod location))) deps;
    Ok (recorded_deps, deps)
  else Ok (recorded_deps, deps).

Definition record_named_scope_event_dependencies `{Abi} (st : statics) (location_id : Z)
    (name : StringId) (recorded_deps : gset Z) (deps : Queue) : exec (gset Z * Queue) :=
  thread_span_location ← deref (st_locations st) location_id;
  let '(is_new, recorded_deps) := insert_key recorded_deps location_id in
  s ←
    (if is_new then
       s ← record_string (st_bytes st) 2 (StaticString_from (sl_target thread_span_location))
             (recorded_deps, deps);
       s ← record_string (st_bytes st) 2 (StaticString_from (sl_module_path thread_span_location)) s;
       '(recorded_deps, deps) ←
         record_string (st_bytes st) 2 (StaticString_from (sl_file thread_span_location)) s;
       deps ← push (st_bytes st) 1
         (mkSpanLocationRecord location_id (str_ptr (sl_target thread_span_location))
            (str_ptr (sl_module_path thread_span_location)) (str_ptr (sl_file thread_span_location))
            (sl_line thread_span_location) (Verbosity.as_u32 (sl_lod thread_span_location))) deps;
       Ok (recorded_deps, deps)
     else Ok (recorded_deps, deps));
  record_string (st_bytes st) 2 (StaticString_from_id name) s.

Definition extract_thread_event `{Abi} (st : statics) (s : gset Z * Queue) (x : ThreadEventQueueAny)
  : exec (gset Z * Queue) :=
  match x with
  | ThreadEventQueueAny.BeginThreadSpanEvent evt =>
      record_scope_event_dependencies st (bts_thread_span_desc evt) s.1 s.2
  | ThreadEventQueueAny.EndThreadSpanEvent evt =>
      record_scope_event_dependencies st (ets_thread_span_desc evt) s.1 s.2
  | ThreadEventQueueAny.BeginThreadNamedSpanEvent evt =>
      record_named_scope_event_dependencies st (btn_thread_span_location evt) (btn_name evt) s.1 s.2
  | ThreadEventQueueAny.EndThreadNamedSpanEvent evt =>
      record_named_scope_event_dependencies st (etn_thread_span_location evt) (etn_name evt) s.1 s.2
  | ThreadEventQueueAny.BeginAsyncSpanEvent evt =>
      record_scope_event_dependencies st (bas_span_desc evt) s.1 s.2
  | ThreadEventQueueAny.EndAsyncSpanEvent evt =>
      record_scope_event_dependencies st (eas_span_desc evt) s.1 s.2
  | ThreadEventQueueAny.BeginAsyncNamedSpanEvent evt =>
      record_named_scope_event_dependencies st (ban_span_location evt) (ban_name evt) s.1 s.2
  | ThreadEventQueueAny.EndAsyncNamedSpanEvent evt =>
      record_named_scope_event_dependencies st (ean_span_location evt) (ean_name evt) s.1 s.2
  end.

Definition extract_thread `{Abi} (st : statics) (q : Queue) : exec Queue :=
  objs ← iter q (Any := ThreadEventQueueAny);
  '(_, deps) ← foldM (extract_thread_event st) (∅, queue_new (1024 * 1024)) objs;
  Ok deps.

(** ** What the parser reads *)
Definition thread_event_value (dep : Z -> Value) (a : ThreadEventQueueAny) : Value :=
  match a with
  | ThreadEventQueueAny.BeginThreadSpanEvent e =>
      Object_ (mkObject "BeginThreadSpanEvent"
        [("thread_span_desc", dep (bts_thread_span_desc e)); ("time", I64 (bts_time e))])
  | ThreadEventQueueAny.EndThreadSpanEvent e =>
      Object_ (mkObject "EndThreadSpanEvent"
        [("thread_span_desc", dep (ets_thread_span_desc e)); ("time", I64 (ets_time e))])
  | ThreadEventQueueAny.BeginThreadNamedSpanEvent e =>
      Object_ (mkObject "BeginThreadNamedSpanEvent"
        [("thread_span_location", dep (btn_thread_span_location e)); ("name", dep (sid_ptr (btn_name e))); ("time", I64 (btn_time e))])
  | ThreadEventQueueAny.EndThreadNamedSpanEvent e =>
      Object_ (mkObject "EndThreadNamedSpanEvent"
        [("thread_span_location", dep (etn_thread_span_location e)); ("name", dep (sid_ptr (etn_name e))); ("time", I64 (etn_time e))])
  | ThreadEventQueueAny.BeginAsyncSpanEvent e =>
      Object_ (mkObject "BeginAsyncSpanEvent"
        [("span_desc", dep (bas_span_desc e)); ("span_id", U64 (bas_span_id e)); ("time", I64 (bas_time e))])
  | ThreadEventQueueAny.EndAsyncSpanEvent e =>
      Object_ (mkObject "EndAsyncSpanEvent"
        [("span_desc", dep (eas_span_desc e)); ("span_id", U64 (eas_span_id e)); ("time", I64 (eas_time e))])
  | ThreadEventQueueAny.BeginAsyncNamedSpanEvent e =>
      Object_ (mkObject "BeginAsyncNamedSpanEvent"
        [("span_location", dep (ban_span_location e)); ("name", dep (sid_ptr (ban_name e))); ("span_id", U64 (ban_span_id e)); ("time", I64 (ban_time e))])
  | ThreadEventQueueAny.EndAsyncNamedSpanEvent e =>
      Object_ (mkObject "EndAsyncNamedSpanEvent"
        [("span_location", dep (ean_span_location e)); ("name", dep (sid_ptr (ean_name e))); ("span_id", U64 (ean_span_id e)); ("time", I64 (ean_time e))])
  end.

Definition span_record_value (dep : Z -> Value) (k : Z) (md : SpanMetadata) : Value :=
  let location := sm_location md in
  Object_ (mkObject "SpanRecord"
    [("id", U64 k); ("name", dep (str_ptr (sm_name md)));
     ("target", dep (str_ptr (sl_target location)));
     ("module_path", dep (str_ptr (sl_module_path location)));
     ("file", dep (str_ptr (sl_file location))); ("line", U32 (sl_line location));
     ("lod", U32 (Verbosity.as_u32 (sl_lod location)))]).

Definition location_record_value (dep : Z -> Value) (k : Z) (location : SpanLocation) : Value :=
  Object_ (mkObject "SpanLocationRecord"
    [("id", U64 k); ("target", dep (str_ptr (sl_target location)));
     ("module_path", dep (str_ptr (sl_module_path location)));
     ("file", dep (str_ptr (sl_file location))); ("line", U32 (sl_line location));
     ("lod", U32 (Verbosity.as_u32 (sl_lod location)))]).

(** The description or location that an event points to, and its name *)
Definition thread_event_ref (a : ThreadEventQueueAny) : Z + Z * StringId :=
  match a with
  | ThreadEventQueueAny.BeginThreadSpanEvent e => inl (bts_thread_span_desc e)
  | ThreadEventQueueAny.EndThreadSpanEvent e => inl (ets_thread_span_desc e)
  | ThreadEventQueueAny.BeginThreadNamedSpanEvent e => inr (btn_thread_span_location e, btn_name e)
  | ThreadEventQueueAny.EndThreadNamedSpanEvent e => inr (etn_thread_span_location e, etn_name e)
  | ThreadEventQueueAny.BeginAsyncSpanEvent e => inl (bas_span_desc e)
  | ThreadEventQueueAny.EndAsyncSpanEvent e => inl (eas_span_desc e)
  | ThreadEventQueueAny.BeginAsyncNamedSpanEvent e => inr (ban_span_location e, ban_name e)
  | ThreadEventQueueAny.EndAsyncNamedSpanEvent e => inr (ean_span_location e, ean_name e)
  end.
Definition thread_event_keys (a : ThreadEventQueueAny) : gset Z :=
  match thread_event_ref a with
  | inl d => {[d]}
  | inr (l, n) => {[l; sid_ptr n]}
  end.

Definition thread_udts_ok `{Abi} (udts : list UserDefinedType) : Prop :=
  udts !! 0%nat = Some (received (reflect BeginThreadSpanEvent)) /\
  udts !! 1%nat = Some (received (reflect EndThreadSpanEvent)) /\
  udts !! 2%nat = Some (received (reflect BeginThreadNamedSpanEvent)) /\
  udts !! 3%nat = Some (received (reflect EndThreadNamedSpanEvent)) /\
  udts !! 4%nat = Some (received (reflect BeginAsyncSpanEvent)) /\
  udts !! 5%nat = Some (received (reflect EndAsyncSpanEvent)) /\
  udts !! 6%nat = Some (received (reflect BeginAsyncNamedSpanEvent)) /\
  udts !! 7%nat = Some (received (reflect EndAsyncNamedSpanEvent)) /\
  find_udt "StringId" udts = Some (reflect StringId).
Definition thread_deps_udts_ok `{Abi} (udts : list UserDefinedType) : Prop :=
  udts !! 0%nat = Some (received (reflect SpanRecord)) /\
  udts !! 1%nat = Some (received (reflect SpanLocationRecord)) /\
  udts !! 2%nat = Some (reflect StaticString).

Section thread_block.
Context {HAbi : Abi} {HA : LawfulAbi}.

Definition thread_item (a : ThreadEventQueueAny) : item ThreadEventQueueAny :=
  match a with
  | ThreadEventQueueAny.BeginThreadSpanEvent evt =>
      Item BeginThreadSpanEvent 0 (reflect BeginThreadSpanEvent) ThreadEventQueueAny.BeginThreadSpanEvent evt
        ltac:(lia) eq_refl
  | ThreadEventQueueAny.EndThreadSpanEvent evt =>
      Item EndThreadSpanEvent 1 (reflect EndThreadSpanEvent) ThreadEventQueueAny.EndThreadSpanEvent evt
        ltac:(lia) eq_refl
  | ThreadEventQueueAny.BeginThreadNamedSpanEvent evt =>
      Item BeginThreadNamedSpanEvent 2 (reflect BeginThreadNamedSpanEvent) ThreadEventQueueAny.BeginThreadNamedSpanEvent evt
        ltac:(lia) eq_refl
  | ThreadEventQueueAny.EndThreadNamedSpanEvent evt =>
      Item EndThreadNamedSpanEvent 3 (reflect EndThreadNamedSpanEvent) ThreadEventQueueAny.EndThreadNamedSpanEvent evt
        ltac:(lia) eq_refl
  | ThreadEventQueueAny.BeginAsyncSpanEvent evt =>
      Item BeginAsyncSpanEvent 4 (reflect BeginAsyncSpanEvent) ThreadEventQueueAny.BeginAsyncSpanEvent evt
        ltac:(lia) eq_refl
  | ThreadEventQueueAny.EndAsyncSpanEvent evt =>
      Item EndAsyncSpanEvent 5 (reflect EndAsyncSpanEvent) ThreadEventQueueAny.EndAsyncSpanEvent evt
        ltac:(lia) eq_refl
  | ThreadEventQueueAny.BeginAsyncNamedSpanEvent evt =>
      Item BeginAsyncNamedSpanEvent 6 (reflect BeginAsyncNamedSpanEvent) ThreadEventQueueAny.BeginAsyncNamedSpanEvent evt
        ltac:(lia) eq_refl
  | ThreadEventQueueAny.EndAsyncNamedSpanEvent evt =>
      Item EndAsyncNamedSpanEvent 7 (reflect EndAsyncNamedSpanEvent) ThreadEventQueueAny.EndAsyncNamedSpanEvent evt
        ltac:(lia) eq_refl
  end.
Definition span_dep_record (r : SpanRecord) : item ThreadDepsQueueAny :=
  Item SpanRecord 0 (reflect SpanRecord) ThreadDepsQueueAny.SpanRecord r ltac:(lia) eq_refl.
Definition location_dep_record (r : SpanLocationRecord) : item ThreadDepsQueueAny :=
  Item SpanLocationRecord 1 (reflect SpanLocationRecord) ThreadDepsQueueAny.SpanLocationRecord r
    ltac:(lia) eq_refl.
Definition thread_dep_string (s : StaticString) : item ThreadDepsQueueAny :=
  Item StaticString 2 (reflect StaticString) ThreadDepsQueueAny.StaticString s ltac:(lia) eq_refl.

Lemma thread_item_reads m udts deps a :
  thread_udts_ok udts -> item_ok m (thread_item a) ->
  obj_reads m udts deps (thread_item a) (thread_event_value (lookup_dependency deps) a).
Proof.
  intros (U0 & U1 & U2 & U3 & U4 & U5 & U6 & U7 & UI) Hok.
  destruct a as [e|e|e|e|e|e|e|e]; unfold item_ok in Hok; cbn [thread_item it_value] in Hok.
  - destruct Hok as (H0 & H1).
    apply (pod_item_obj_reads m udts tracing_reflect_of 0 _ _ _ _ U0) with
      (vs := [lookup_dependency deps (bts_thread_span_desc e); I64 (bts_time e)]);
      [done|by split_and!|]. unfold BeginThreadSpanEvent_Pod. cbn [decl s_fields to_fields]. solve_reads.
  - destruct Hok as (H0 & H1).
    apply (pod_item_obj_reads m udts tracing_reflect_of 1 _ _ _ _ U1) with
      (vs := [lookup_dependency deps (ets_thread_span_desc e); I64 (ets_time e)]);
      [done|by split_and!|]. unfold EndThreadSpanEvent_Pod. cbn [decl s_fields to_fields]. solve_reads.
  - destruct Hok as (H0 & H1 & H2).
    apply (pod_item_obj_reads m udts tracing_reflect_of 2 _ _ _ _ U2) with
      (vs := [lookup_dependency deps (btn_thread_span_location e); lookup_dependency deps (sid_ptr (btn_name e)); I64 (btn_time e)]);
      [done|by split_and!|]. unfold BeginThreadNamedSpanEvent_Pod. cbn [decl s_fields to_fields]. solve_reads.
  - destruct Hok as (H0 & H1 & H2).
    apply (pod_item_obj_reads m udts tracing_reflect_of 3 _ _ _ _ U3) with
      (vs := [lookup_dependency deps (etn_thread_span_location e); lookup_dependency deps (sid_ptr (etn_name e)); I64 (etn_time e)]);
      [done|by split_and!|]. unfold EndThreadNamedSpanEvent_Pod. cbn [decl s_fields to_fields]. solve_reads.
  - destruct Hok as (H0 & H1 & H2).
    apply (pod_item_obj_reads m udts tracing_reflect_of 4 _ _ _ _ U4) with
      (vs := [lookup_dependency deps (bas_span_desc e); U64 (bas_span_id e); I64 (bas_time e)]);
      [done|by split_and!|]. unfold BeginAsyncSpanEvent_Pod. cbn [decl s_fields to_fields]. solve_reads.
  - destruct Hok as (H0 & H1 & H2).
    apply (pod_item_obj_reads m udts tracing_reflect_of 5 _ _ _ _ U5) with
      (vs := [lookup_dependency deps (eas_span_desc e); U64 (eas_span_id e); I64 (eas_time e)]);
      [done|by split_and!|]. unfold EndAsyncSpanEvent_Pod. cbn [decl s_fields to_fields]. solve_reads.
  - destruct Hok as (H0 & H1 & H2 & H3).
    apply (pod_item_obj_reads m udts tracing_reflect_of 6 _ _ _ _ U6) with
      (vs := [lookup_dependency deps (ban_span_location e); lookup_dependency deps (sid_ptr (ban_name e)); U64 (ban_span_id e); I64 (ban_time e)]);
      [done|by split_and!|]. unfold BeginAsyncNamedSpanEvent_Pod. cbn [decl s_fields to_fields]. solve_reads.
  - destruct Hok as (H0 & H1 & H2 & H3).
    apply (pod_item_obj_reads m udts tracing_reflect_of 7 _ _ _ _ U7) with
      (vs := [lookup_dependency deps (ean_span_location e); lookup_dependency deps (sid_ptr (ean_name e)); U64 (ean_span_id e); I64 (ean_time e)]);
      [done|by split_and!|]. unfold EndAsyncNamedSpanEvent_Pod. cbn [decl s_fields to_fields]. solve_reads.
Qed.

Section extraction.
Context (st : statics) (strs : gmap Z string) (deps_udts : list UserDefinedType).
Context (Hudts : thread_deps_udts_ok deps_udts).

Definition thread_dep_value (k : Z) : Value :=
  match st_spans st !! k with
  | Some md => span_record_value (str_dep strs) k md
  | None =>
      match st_locations st !! k with
      | Some location => location_record_value (str_dep strs) k location
      | None => str_dep strs k
      end
  end.

(** The static descriptions of spans and their locations: different objects
    have different addresses. *)
Definition location_refs_ok (location : SpanLocation) : Prop :=
  in_u 32 (sl_line location) /\
  Forall (str_ok strs (st_bytes st))
    [sl_target location; sl_module_path location; sl_file location].
Definition span_metadata_ok : Prop :=
  (forall a md, st_spans st !! a = Some md ->
     in_u 64 a /\ strs !! a = None /\ st_locations st !! a = None /\
     str_ok strs (st_bytes st) (sm_name md) /\ location_refs_ok (sm_location md)) /\
  (forall a location, st_locations st !! a = Some location ->
     in_u 64 a /\ strs !! a = None /\ location_refs_ok location).
Context (Hmd : span_metadata_ok).

Definition thread_event_ok (a : ThreadEventQueueAny) : Prop :=
  item_ok (st_bytes st) (thread_item a) /\
  match thread_event_ref a with
  | inl d => is_Some (st_spans st !! d)
  | inr (l, n) => is_Some (st_locations st !! l) /\ str_ok strs (st_bytes st) (id_ref n)
  end.

Abbreviation TInv := (DInv (st_bytes st) deps_udts thread_dep_value).

Lemma thread_dep_string_dep s str :
  ss_ok (st_bytes st) s -> ss_bytes (st_bytes st) s = bytes_of str -> valid_string str ->
  dep_item (st_bytes st) deps_udts (thread_dep_string s) (ss_ptr s) (fun _ => String_ str).
Proof.
  intros H1 H2 H3. split; [exact H1|]. by apply string_item_dep_reads; [apply Hudts|..].
Qed.

Lemma thread_dep_str r :
  str_ok strs (st_bytes st) r -> thread_dep_value (str_ptr r) = str_value strs r.
Proof.
  intros (s & Hs & _). unfold thread_dep_value, str_dep, str_value.
  destruct (st_spans st !! str_ptr r) eqn:E.
  - apply Hmd in E as (_ & E & _). congruence.
  - destruct (st_locations st !! str_ptr r) eqn:E'; [|done].
    apply Hmd in E' as (_ & E' & _). congruence.
Qed.

Lemma str_ok_ptr r : str_ok strs (st_bytes st) r -> in_u 64 (str_ptr r).
Proof. by intros (? & ? & ? & ? & _). Qed.

Lemma location_ptrs location :
  location_refs_ok location ->
  in_u 64 (str_ptr (sl_target location)) /\ in_u 64 (str_ptr (sl_module_path location)) /\
  in_u 64 (str_ptr (sl_file location)) /\ in_u 32 (Verbosity.as_u32 (sl_lod location)).
Proof.
  intros [_ Hs]. pose proof (Verbosity_as_u32_range (sl_lod location)).
  split_and!; try (apply str_ok_ptr; eapply List.Forall_forall; [exact Hs|]; cbn; tauto).
  unfold in_u. lia.
Qed.

Lemma span_dep_record_dep a md :
  st_spans st !! a = Some md ->
  dep_item (st_bytes st) deps_udts
    (span_dep_record (mkSpanRecord a (str_ptr (sm_name md)) (str_ptr (sl_target (sm_location md)))
      (str_ptr (sl_module_path (sm_location md))) (str_ptr (sl_file (sm_location md)))
      (sl_line (sm_location md)) (Verbosity.as_u32 (sl_lod (sm_location md)))))
    a (fun h => span_record_value (lookup_dependency h) a md).
Proof.
  intros Ha. apply Hmd in Ha as (Hu & _ & _ & Hn & Hl).
  apply str_ok_ptr in Hn. pose proof (location_ptrs _ Hl) as (H1 & H2 & H3 & H4).
  destruct Hl as [Hl _]. split; [by split_and!|].
  apply (pod_item_dep_reads (st_bytes st) deps_udts tracing_reflect_of 0 _ _ _ _ (proj1 Hudts))
    with (vs := fun h => [U64 a; lookup_dependency h (str_ptr (sm_name md));
      lookup_dependency h (str_ptr (sl_target (sm_location md)));
      lookup_dependency h (str_ptr (sl_module_path (sm_location md)));
      lookup_dependency h (str_ptr (sl_file (sm_location md))); U32 (sl_line (sm_location md));
      U32 (Verbosity.as_u32 (sl_lod (sm_location md)))]); try done.
  intros h. cbn. solve_reads.
Qed.

Lemma location_dep_record_dep a l :
  st_locations st !! a = Some l ->
  dep_item (st_bytes st) deps_udts
    (location_dep_record (mkSpanLocationRecord a (str_ptr (sl_target l))
      (str_ptr (sl_module_path l)) (str_ptr (sl_file l)) (sl_line l)
      (Verbosity.as_u32 (sl_lod l))))
    a (fun h => location_record_value (lookup_dependency h) a l).
Proof.
  intros Ha. apply Hmd in Ha as (Hu & _ & Hl).
  pose proof (location_ptrs _ Hl) as (H1 & H2 & H3 & H4).
  destruct Hl as [Hl _]. split; [by split_and!|].
  apply (pod_item_dep_reads (st_bytes st) deps_udts tracing_reflect_of 1 _ _ _ _
    (proj1 (proj2 Hudts)))
    with (vs := fun h => [U64 a; lookup_dependency h (str_ptr (sl_target l));
      lookup_dependency h (str_ptr (sl_module_path l));
      lookup_dependency h (str_ptr (sl_file l)); U32 (sl_line l);
      U32 (Verbosity.as_u32 (sl_lod l))]); try done.
  intros h. cbn. solve_reads.
Qed.

Lemma record_scope_DInv recorded deps d :
  TInv recorded ∅ deps -> is_Some (st_spans st !! d) ->
  exists s', record_scope_event_dependencies st d recorded deps = Ok s' /\
    TInv s'.1 ∅ s'.2 /\ {[d]} ∪ recorded ⊆ s'.1.
Proof.
  intros Hinv [md Ha]. unfold record_scope_event_dependencies, deref, insert_key. rewrite Ha.
  cbn [mbind exec_bind]. case_bool_decide as Hnew; [|eexists; split; [done|]].
  2:{ cbn. replace ({[d]} ∪ recorded) with recorded by set_solver. done. }
  destruct (proj1 Hmd d md Ha) as (Hu & Hna & _ & Hn & Hl & Hs).
  edestruct (record_new_DInv (st_bytes st) deps_udts strs thread_dep_value 2 thread_dep_string
      (fun _ _ => eq_refl) thread_dep_string_dep recorded deps d
      [sm_name md; sl_target (sm_location md); sl_module_path (sm_location md);
       sl_file (sm_location md)])
    as (rec1 & d1 & d2 & Hrec & Hpush & Hinv' & Hsub);
    [done|done|done|by constructor|apply thread_dep_str|by apply span_dep_record_dep| |].
  - intros h Hlook. unfold thread_dep_value. rewrite Ha. unfold span_record_value.
    rewrite_forall Hlook. reflexivity.
  - cbn [foldM] in Hrec. run_strings Hrec.
    change (push_item _ d1 _) with (push (st_bytes st) 0 (mkSpanRecord d
      (str_ptr (sm_name md)) (str_ptr (sl_target (sm_location md)))
      (str_ptr (sl_module_path (sm_location md))) (str_ptr (sl_file (sm_location md)))
      (sl_line (sm_location md)) (Verbosity.as_u32 (sl_lod (sm_location md)))) d1) in Hpush.
    rewrite Hpush. by eexists.
Qed.

Lemma record_named_scope_DInv recorded deps l n :
  TInv recorded ∅ deps -> is_Some (st_locations st !! l) -> str_ok strs (st_bytes st) (id_ref n) ->
  exists s', record_named_scope_event_dependencies st l n recorded deps = Ok s' /\
    TInv s'.1 ∅ s'.2 /\ {[l; sid_ptr n]} ∪ recorded ⊆ s'.1.
Proof.
  intros Hinv [md Ha] Hname. unfold record_named_scope_event_dependencies, deref, insert_key.
  rewrite Ha. cbn [mbind exec_bind].
  match goal with |- exists s', (?X ≫= _) = _ /\ _ =>
    assert (exists s1, X = Ok s1 /\ TInv s1.1 ∅ s1.2 /\ {[l]} ∪ recorded ⊆ s1.1)
      as ([rec1 d1] & -> & Hinv1 & Hsub) end.
  - case_bool_decide as Hnew; [|eexists; split; [done|]].
    2:{ cbn. replace ({[l]} ∪ recorded) with recorded by set_solver. done. }
    destruct (proj2 Hmd l md Ha) as (Hu & Hna & Hl & Hs).
    edestruct (record_new_DInv (st_bytes st) deps_udts strs thread_dep_value 2 thread_dep_string
        (fun _ _ => eq_refl) thread_dep_string_dep recorded deps l
        [sl_target md; sl_module_path md; sl_file md])
      as (rec1 & d1 & d2 & Hrec & Hpush & Hinv' & Hsub);
      [done|done|done|done|apply thread_dep_str|by apply location_dep_record_dep| |].
    + intros h Hlook. unfold thread_dep_value. rewrite Ha.
      destruct (st_spans st !! l) eqn:E; [apply Hmd in E as (_ & _ & E & _); congruence|].
      unfold location_record_value. rewrite_forall Hlook. reflexivity.
    + cbn [foldM] in Hrec. run_strings Hrec.
      change (push_item _ d1 _) with (push (st_bytes st) 1 (mkSpanLocationRecord l
        (str_ptr (sl_target md)) (str_ptr (sl_module_path md)) (str_ptr (sl_file md))
        (sl_line md) (Verbosity.as_u32 (sl_lod md))) d1) in Hpush.
      rewrite Hpush. by eexists.
  - cbn [mbind exec_bind fst snd] in *.
    destruct (record_str_ref (st_bytes st) deps_udts strs thread_dep_value 2 thread_dep_string
      (fun _ _ => eq_refl) thread_dep_string_dep rec1 ∅ d1 _ (id_ref n) Hinv1
      (StaticString_from_id_ref _ _ _ Hname) Hname) as (d2 & -> & Hinv2).
    + set_solver.
    + by apply thread_dep_str.
    + eexists. split; [done|]. split; [done|]. cbn. set_solver.
Qed.

Lemma extract_thread_event_DInv s a :
  TInv s.1 ∅ s.2 -> thread_event_ok a ->
  exists s', extract_thread_event st s a = Ok s' /\ TInv s'.1 ∅ s'.2 /\
    thread_event_keys a ∪ s.1 ⊆ s'.1.
Proof.
  intros Hinv [_ Ha].
  assert (extract_thread_event st s a =
    match thread_event_ref a with
    | inl d => record_scope_event_dependencies st d s.1 s.2
    | inr (l, n) => record_named_scope_event_dependencies st l n s.1 s.2
    end) as -> by by destruct a.
  unfold thread_event_keys. destruct (thread_event_ref a) as [d|[l n]].
  - by apply record_scope_DInv.
  - destruct Ha. by apply record_named_scope_DInv.
Qed.
End extraction.

Lemma thread_event_value_ext f g a :
  (forall k, k ∈ thread_event_keys a -> f k = g k) -> thread_event_value f a = thread_event_value g a.
Proof.
  intros H. destruct a; unfold thread_event_keys in H; cbn [thread_event_ref thread_event_value] in *;
    rewrite !H by set_solver; reflexivity.
Qed.

Lemma thread_block_values st strs udts deps_udts evs size :
  thread_udts_ok udts -> thread_deps_udts_ok deps_udts -> span_metadata_ok st strs ->
  Forall (thread_event_ok st strs) evs ->
  exists q deps, foldM (push_thread_event (st_bytes st)) (queue_new size) evs = Ok q /\
    nb_objects q = Z.of_nat (length evs) /\ extract_thread st q = Ok deps /\
    (blen (as_bytes deps) < 2 ^ 63 -> blen (as_bytes q) < 2 ^ 63 ->
     exists h, read_dependencies deps_udts (as_bytes deps) = Ok h /\
     forall S (f : S -> Value -> exec (S * bool)) s,
       parse_object_buffer h udts (as_bytes q) f s =
       fold_until f s (map (thread_event_value (thread_dep_value st strs)) evs)).
Proof.
  intros Hu Hdu Hmd Hok.
  apply (block_values (st_bytes st) udts deps_udts thread_item (push_thread_event (st_bytes st))
    (extract_thread_event st) (thread_event_ok st strs) thread_event_keys thread_event_value);
    try done.
  - by intros q [].
  - by intros [].
  - by intros a [? _].
  - intros deps a [Ha _]. by apply thread_item_reads.
  - apply thread_event_value_ext.
  - intros. by apply (extract_thread_event_DInv st strs).
Qed.
End thread_block.
