(* ===== verification/Sink.v ===== *)
(** * Sinks of events

    The trait [EventSink] of [tracing/src/event/sink.rs] is a class, and its
    implementations are instances: [NullEventSink], and the [LocalEventSink]
    of [telemetry-sink].  A method of a sink takes the state
    of the sink and returns it; a method that receives a description may change
    the atomic word of its filter, so it returns the description too. *)

From Stdlib Require Import Strings.Ascii.
From S2P Require Import Prelude RustString Transit Queue Levels LogFilter Time Stream.

(** The description of a log entry, with the texts it refers to *)
Record LogDesc := mkLogDesc {
  ld_level : Level;
  ld_level_filter : Z;
  ld_fmt_str : string;
  ld_target : string;
  ld_module_path : string;
  ld_file : string;
  ld_line : Z
}.
Definition set_word (md : LogDesc) (word : Z) : LogDesc :=
  mkLogDesc (ld_level md) word (ld_fmt_str md) (ld_target md) (ld_module_path md) (ld_file md)
    (ld_line md).

(** [fmt::Arguments]: a static text, when there is nothing to format, and what
    formatting gives *)
Record Arguments := mkArguments { as_static_str : option str_ref; args_to_string : string }.

Class EventSink (S : Type) := {
  on_startup : S -> ProcessInfo -> S;
  on_shutdown : S -> S;
  on_log_enabled : S -> LogDesc -> bool * LogDesc;
  on_log : S -> LogDesc -> Z -> Arguments -> S * LogDesc;
  on_init_log_stream : S -> EventStream -> S;
  on_process_log_block : S -> EventBlock -> S;
  on_init_metrics_stream : S -> EventStream -> S;
  on_process_metrics_block : S -> EventBlock -> S;
  on_init_thread_stream : S -> EventStream -> S;
  on_process_thread_block : S -> EventBlock -> S;
  is_busy : S -> bool
}.

(** ** NullEventSink *)
Inductive NullEventSink := Null.
#[export] Instance NullEventSink_EventSink : EventSink NullEventSink := {|
  on_startup s _ := s;
  on_shutdown s := s;
  on_log_enabled s md := (false, md);
  on_log s md _ _ := (s, md);
  on_init_log_stream s _ := s;
  on_process_log_block s _ := s;
  on_init_metrics_stream s _ := s;
  on_process_metrics_block s _ := s;
  on_init_thread_stream s _ := s;
  on_process_thread_block s _ := s;
  is_busy _ := false
|}.

(** ** LocalEventSink: the lines that are printed

    The clock of the lines and the colors of the terminal are libraries. *)
Class Terminal := { line_time : Z -> string; colorize : Level -> string -> string }.

Record LocalEventSink := mkLocalEventSink {
  timestamps : bool;
  colors : bool;
  printed : list string
}.
Definition LocalEventSink_new : LocalEventSink := mkLocalEventSink true true [].

(** [format!("{:<5}", s)]: characters are counted, not bytes. *)
Fixpoint spaces (n : nat) : string :=
  match n with O => EmptyString | S n => String " "%char (spaces n) end.
Definition nb_chars (s : string) : nat := length (List.filter (fun b => negb (cont b)) (bytes_of s)).
Definition pad_right (width : nat) (s : string) : string :=
  String.append s (spaces (width - nb_chars s)).

Definition level_name (l : Level) : string := default EmptyString (LEVEL_NAMES !! Z.to_nat (Level.as_u32 l)).

Definition log_line `{Terminal} (s : LocalEventSink) (md : LogDesc) (args : Arguments) : string :=
  let level_string := if colors s then colorize (ld_level md) (level_name (ld_level md))
                      else level_name (ld_level md) in
  let target := if String.eqb (ld_target md) EmptyString then ld_module_path md else ld_target md in
  let timestamp :=
    if timestamps s then String.append (line_time (Z.of_nat (length (printed s)))) " "
    else EmptyString in
  String.concat EmptyString
    [timestamp; pad_right 5 level_string; " ["; target; "] "; args_to_string args].

#[export] Instance LocalEventSink_EventSink `{Terminal} : EventSink LocalEventSink := {|
  on_startup s _ := s;
  on_shutdown s := s;
  on_log_enabled s md := (true, md);
  on_log s md _ args :=
    (mkLocalEventSink (timestamps s) (colors s) (printed s ++ [log_line s md args]), md);
  on_init_log_stream s _ := s;
  on_process_log_block s _ := s;
  on_init_metrics_stream s _ := s;
  on_process_metrics_block s _ := s;
  on_init_thread_stream s _ := s;
  on_process_thread_block s _ := s;
  is_busy _ := false
|}.
