(* ===== verification/CompositeSink.v ===== *)
(** * The composite sink

    [telemetry-sink/src/composite_event_sink.rs]: a sink that passes every call
    to others, and filters the log entries by the level of each sink and by the
    target of the entry.  The filter of a target is cached in the word of the
    description ([LogFilter.v]). *)

From Stdlib Require Import Sorting.Sorted.
From S2P Require Import Prelude RustString Transit Queue Levels LogFilter Time Stream.
From S2P Require Import Sink.

(** [sort_by_key], which is stable, and its key [name.len().wrapping_neg()] *)
Definition wrapping_neg_len (e : string * LevelFilter) : Z := wrap_u 64 (- Z.of_nat (String.length e.1)).
Fixpoint insert_by_key {A} (key : A -> Z) (x : A) (l : list A) : list A :=
  match l with
  | [] => [x]
  | y :: l => if key x <=? key y then x :: y :: l else y :: insert_by_key key x l
  end.
Definition sort_by_key {A} (key : A -> Z) (l : list A) : list A := foldr (insert_by_key key) [] l.

Record CompositeSink (S : Type) := mkCompositeSink {
  sinks : list (LevelFilter * S);
  target_level_filters : list (string * LevelFilter)
}.
#[global] Arguments mkCompositeSink {S}.
#[global] Arguments sinks {S}.
#[global] Arguments target_level_filters {S}.

(** [Ord::max] of filters: the second one when they are equal *)
Definition max_filter (a b : LevelFilter) : LevelFilter :=
  if LevelFilter.as_u32 a <=? LevelFilter.as_u32 b then b else a.

(** The new sink, and the maximum level of the process *)
Definition CompositeSink_new {S} (sinks : list (LevelFilter * S))
    (target_max_level : list (string * LevelFilter)) (max_level_override : option LevelFilter)
    (st : max_filters) : CompositeSink S * max_filters :=
  let st :=
    match max_level_override with
    | Some max_level => set_max_level max_level st
    | None =>
        let max_level := foldl (fun m e => max_filter m e.2) LevelFilter.Off target_max_level in
        let max_level := foldl (fun m e => max_filter m e.1) max_level sinks in
        set_max_level max_level st
    end in
  (mkCompositeSink sinks (sort_by_key wrapping_neg_len target_max_level), st).

Fixpoint find_max_match (target : string) (level_filters : list (string * LevelFilter))
  : option LevelFilter :=
  match level_filters with
  | [] => None
  | (t, l) :: level_filters =>
      if String.prefix t target then Some l else find_max_match target level_filters
  end.

Definition GENERATION : Z := 1.

Definition target_max_level {S} (s : CompositeSink S) (md : LogDesc) : option LevelFilter * LogDesc :=
  match level_filter (ld_level_filter md) GENERATION with
  | Outdated =>
      let f := find_max_match (ld_target md) (target_level_filters s) in
      (f, set_word md (set_level_filter (ld_level_filter md) GENERATION f))
  | NotSet => (None, md)
  | Set_ f => (Some f, md)
  end.

Section composite.
Context {S : Type} `{EventSink S}.

(** [self.sinks.iter().any(...)], which stops at the first sink that agrees *)
Fixpoint any_enabled (filter : option LevelFilter) (sinks : list (LevelFilter * S)) (md : LogDesc)
  : bool * LogDesc :=
  match sinks with
  | [] => (false, md)
  | (max_level, sink) :: sinks =>
      if le (ld_level md) (default max_level filter) then
        let '(enabled, md) := on_log_enabled sink md in
        if enabled : bool then (true, md) else any_enabled filter sinks md
      else any_enabled filter sinks md
  end.

Fixpoint log_each (filter : option LevelFilter) (sinks : list (LevelFilter * S)) (md : LogDesc)
    (time : Z) (args : Arguments) : list (LevelFilter * S) * LogDesc :=
  match sinks with
  | [] => ([], md)
  | (max_level, sink) :: sinks =>
      let '(enabled, md) :=
        if le (ld_level md) (default max_level filter) then on_log_enabled sink md else (false, md) in
      let '(sink, md) := if enabled : bool then on_log sink md time args else (sink, md) in
      let '(sinks, md) := log_each filter sinks md time args in
      ((max_level, sink) :: sinks, md)
  end.

Definition for_each_sink (f : S -> S) (s : CompositeSink S) : CompositeSink S :=
  mkCompositeSink (map (fun e => (e.1, f e.2)) (sinks s)) (target_level_filters s).

#[export] Instance CompositeSink_EventSink : EventSink (CompositeSink S) := {|
  on_startup s process_info := for_each_sink (fun sink => on_startup sink process_info) s;
  on_shutdown s := for_each_sink on_shutdown s;
  on_log_enabled s md :=
    let '(filter, md) := target_max_level s md in any_enabled filter (sinks s) md;
  on_log s md time args :=
    let '(filter, md) := target_max_level s md in
    let '(l, md) := log_each filter (sinks s) md time args in
    (mkCompositeSink l (target_level_filters s), md);
  on_init_log_stream s x := for_each_sink (fun sink => on_init_log_stream sink x) s;
  on_process_log_block s b := for_each_sink (fun sink => on_process_log_block sink b) s;
  on_init_metrics_stream s x := for_each_sink (fun sink => on_init_metrics_stream sink x) s;
  on_process_metrics_block s b := for_each_sink (fun sink => on_process_metrics_block sink b) s;
  on_init_thread_stream s x := for_each_sink (fun sink => on_init_thread_stream sink x) s;
  on_process_thread_block s b := for_each_sink (fun sink => on_process_thread_block sink b) s;
  is_busy s := existsb (fun e => is_busy e.2) (sinks s)
|}.
End composite.

(** ** The filter of a target *)
Lemma insert_by_key_perm {A} (key : A -> Z) x l : insert_by_key key x l ≡ₚ x :: l.
Proof.
  induction l as [|y l IH]; [done|]. cbn. destruct (key x <=? key y); [done|].
  rewrite IH. apply Permutation_swap.
Qed.

Lemma sort_by_key_perm {A} (key : A -> Z) l : sort_by_key key l ≡ₚ l.
Proof. induction l as [|x l IH]; [done|]. cbn. by rewrite insert_by_key_perm, IH. Qed.

Lemma insert_by_key_sorted {A} (key : A -> Z) x l :
  StronglySorted (fun a b => key a <= key b) l ->
  StronglySorted (fun a b => key a <= key b) (insert_by_key key x l).
Proof.
  induction 1 as [|y l Hs IH Hy]; cbn; [repeat constructor|].
  destruct (Z.leb_spec (key x) (key y)).
  - constructor; [by constructor|]. constructor; [lia|].
    eapply list.Forall_impl; [exact Hy|]. cbn. lia.
  - constructor; [done|]. rewrite insert_by_key_perm. constructor; [lia|done].
Qed.

Lemma sort_by_key_sorted {A} (key : A -> Z) l :
  StronglySorted (fun a b => key a <= key b) (sort_by_key key l).
Proof. induction l; cbn; [constructor|by apply insert_by_key_sorted]. Qed.

(** Sorted by decreasing length *)
Lemma wrapping_neg_len_nonempty (e : string * LevelFilter) :
  e.1 <> EmptyString -> Z.of_nat (String.length e.1) < 2 ^ 64 ->
  wrapping_neg_len e = 2 ^ 64 - Z.of_nat (String.length e.1).
Proof.
  intros Hne Hl. unfold wrapping_neg_len, wrap_u.
  assert (0 < Z.of_nat (String.length e.1)) by (destruct e as [[] ?]; cbn in *; [done|lia]).
  rewrite <- (Z.mod_add _ 1) by lia. rewrite Z.mod_small; lia.
Qed.

Lemma find_max_match_spec target l :
  match find_max_match target l with
  | Some f => exists t, In (t, f) l /\ String.prefix t target = true
  | None => Forall (fun e => String.prefix e.1 target = false) l
  end.
Proof.
  induction l as [|[t f] l IH]; cbn; [constructor|]. destruct (String.prefix t target) eqn:E.
  - exists t. split; [by left|done].
  - destruct (find_max_match target l); [|by constructor].
    destruct IH as (t' & ? & ?). exists t'. split; [by right|done].
Qed.

Lemma find_max_match_sorted (key : string * LevelFilter -> Z) target l f :
  StronglySorted (fun a b => key a <= key b) l -> find_max_match target l = Some f ->
  exists t, In (t, f) l /\ String.prefix t target = true /\
    forall e, In e l -> String.prefix e.1 target = true -> key (t, f) <= key e.
Proof.
  induction 1 as [|[t g] l Hs IH Hg]; [discriminate|]. cbn. destruct (String.prefix t target) eqn:E.
  - intros [= ->]. exists t. split; [by left|]. split; [done|]. intros e [<-|He] _; [lia|].
    rewrite List.Forall_forall in Hg. by apply Hg.
  - intros Hf. destruct (IH Hf) as (t' & H1 & H2 & H3). exists t'. split; [by right|]. split; [done|].
    intros e [<-|He] Hp; [cbn in Hp; congruence|by apply H3].
Qed.

(** The names of the filters are not empty, and shorter than the memory. *)
Definition named (l : list (string * LevelFilter)) : Prop :=
  Forall (fun e => e.1 <> EmptyString /\ Z.of_nat (String.length e.1) < 2 ^ 64) l.

(** ** Levels *)
Lemma max_filter_le a b :
  LevelFilter.as_u32 a <= LevelFilter.as_u32 (max_filter a b) /\
  LevelFilter.as_u32 b <= LevelFilter.as_u32 (max_filter a b).
Proof. unfold max_filter. destruct (Z.leb_spec (LevelFilter.as_u32 a) (LevelFilter.as_u32 b)); lia. Qed.

Lemma foldl_max_filter {A} (g : A -> LevelFilter) l m :
  LevelFilter.as_u32 m <= LevelFilter.as_u32 (foldl (fun m e => max_filter m (g e)) m l) /\
  forall e, In e l -> LevelFilter.as_u32 (g e) <= LevelFilter.as_u32 (foldl (fun m e => max_filter m (g e)) m l).
Proof.
  revert m. induction l as [|x l IH]; intros m; cbn; [split; [lia|by intros ? []]|].
  destruct (IH (max_filter m (g x))) as [H1 H2]. pose proof (max_filter_le m (g x)).
  split; [lia|]. intros e [<-|He]; [lia|by apply H2].
Qed.

Lemma le_level l f : le l f = true <-> Level.as_u32 l <= LevelFilter.as_u32 f.
Proof. cbn. apply Z.leb_le. Qed.

Lemma any_enabled_level {S} `{EventSink S} filter (l : list (LevelFilter * S)) md md' :
  any_enabled filter l md = (true, md') ->
  (forall sink md, ld_level (on_log_enabled sink md).2 = ld_level md) ->
  exists e, In e l /\ le (ld_level md) (default e.1 filter) = true.
Proof.
  intros Hl Hsame. revert md Hl. induction l as [|[m sink] l IH]; intros md; [discriminate|]. cbn [any_enabled].
  destruct (le (ld_level md) (default m filter)) eqn:E.
  - intros _. exists (m, sink). split; [by left|done].
  - intros Hl. destruct (IH md Hl) as (e & He & Hle). exists e. split; [by right|done].
Qed.

(** The filter of a description is computed once. *)
Lemma target_max_level_twice {S} (s : CompositeSink S) md f md' :
  target_max_level s md = (f, md') ->
  generation_of (ld_level_filter md) = 0 ->
  target_max_level s md' = (f, md') /\ ld_level md' = ld_level md.
Proof.
  unfold target_max_level. intros Ht Hg.
  assert (level_filter (ld_level_filter md) GENERATION = Outdated) as E
    by (unfold level_filter; by rewrite Hg).
  rewrite E in Ht. injection Ht as <- <-. split; [|done]. cbn [set_word ld_level_filter].
  unfold set_level_filter. rewrite Hg. change (GENERATION <=? 0) with false. cbn iota.
  rewrite level_filter_new_word by (unfold in_u, GENERATION; lia). change (GENERATION <? GENERATION) with false.
  by destruct (find_max_match (ld_target md) (target_level_filters s)).
Qed.

(** ** Delivery *)
Section delivery.
Context {S : Type} `{EventSink S} (accepts : S -> LogDesc -> bool).
(** Sinks that only look at a description *)
Context (Henabled : forall sink md, on_log_enabled sink md = (accepts sink md, md)).
Context (Hlog : forall sink md time args, (on_log sink md time args).2 = md).

Definition takes (filter : option LevelFilter) (md : LogDesc) (e : LevelFilter * S) : bool :=
  le (ld_level md) (default e.1 filter) && accepts e.2 md.

Lemma any_enabled_spec filter l md :
  any_enabled filter l md = (existsb (takes filter md) l, md).
Proof.
  induction l as [|[m sink] l IH]; [done|]. cbn [any_enabled existsb]. unfold takes at 1. cbn [fst snd].
  rewrite Henabled. destruct (le (ld_level md) (default m filter)); cbn [andb orb]; [|done].
  by destruct (accepts sink md).
Qed.

Lemma log_each_spec filter l md time args :
  log_each filter l md time args =
  (map (fun e => if takes filter md e then (e.1, (on_log e.2 md time args).1) else e) l, md).
Proof.
  induction l as [|[m sink] l IH]; [done|]. cbn [log_each map]. unfold takes at 1. cbn [fst snd].
  rewrite Henabled. destruct (le (ld_level md) (default m filter)); cbn [andb].
  - destruct (accepts sink md); [|by rewrite IH]. specialize (Hlog sink md time args).
    destruct (on_log sink md time args) as [sink' md'']. cbn in Hlog |- *. subst md''. by rewrite IH.
  - by rewrite IH.
Qed.
End delivery.

(** ** Properties *)

(** C32. The filter of a target is that of the longest name that the target
    starts with: when no name is empty ([named]), [find_max_match] in the sorted
    filters finds it, and finds nothing when there is none; an empty name hides
    the others ([find_max_match_empty_name]). *)
Theorem find_max_match_longest target l :
  named l ->
  match find_max_match target (sort_by_key wrapping_neg_len l) with
  | Some f => exists t, In (t, f) l /\ String.prefix t target = true /\
      forall e, In e l -> String.prefix e.1 target = true -> (String.length e.1 <= String.length t)%nat
  | None => Forall (fun e => String.prefix e.1 target = false) l
  end.
Proof.
  intros Hn. pose proof (sort_by_key_perm wrapping_neg_len l) as Hp.
  destruct (find_max_match target _) as [f|] eqn:E.
  - apply (find_max_match_sorted wrapping_neg_len) in E as (t & H1 & H2 & H3);
      [|apply sort_by_key_sorted].
    exists t. split; [by rewrite <- Hp|]. split; [done|]. intros e He Hpre. rewrite <- Hp in He.
    specialize (H3 e He Hpre). rewrite Hp in H1, He.
    pose proof (proj1 (List.Forall_forall _ _) Hn _ H1) as [? ?].
    pose proof (proj1 (List.Forall_forall _ _) Hn _ He) as [? ?].
    rewrite !wrapping_neg_len_nonempty in H3 by done. cbn in H3. lia.
  - pose proof (find_max_match_spec target (sort_by_key wrapping_neg_len l)) as Hs.
    rewrite E in Hs. by rewrite Hp in Hs.
Qed.

(** An empty name hides all the others: the key of its length is zero, not
    the largest one, so that it is sorted first, and every target starts with
    it. *)
Theorem find_max_match_empty_name l f :
  In (EmptyString, f) l -> Forall (fun e => Z.of_nat (String.length e.1) < 2 ^ 64) l ->
  exists f', In (EmptyString, f') l /\
    forall target, find_max_match target (sort_by_key wrapping_neg_len l) = Some f'.
Proof.
  intros Hin Hl. pose proof (sort_by_key_perm wrapping_neg_len l) as Hp.
  pose proof (sort_by_key_sorted wrapping_neg_len l) as Hs.
  rewrite <- Hp in Hin. destruct (sort_by_key wrapping_neg_len l) as [|[t g] l'] eqn:E; [done|].
  assert (t = EmptyString) as ->.
  { destruct (decide (t = EmptyString)) as [|Hne]; [done|exfalso].
    assert (In (t, g) l) as Hg by (rewrite <- Hp; by left).
    pose proof (proj1 (List.Forall_forall _ _) Hl _ Hg) as Hlen.
    destruct Hin as [E1|Hin]; [by injection E1 as -> ->|]. apply StronglySorted_inv in Hs as [_ Hs].
    apply (proj1 (List.Forall_forall _ _) Hs) in Hin.
    rewrite wrapping_neg_len_nonempty in Hin by done. unfold wrapping_neg_len in Hin. cbn in *.
    change (wrap_u 64 (- Z.of_nat 0)) with 0 in Hin. lia. }
  exists g. split; [rewrite <- Hp; by left|]. intros target. cbn. by destruct target.
Qed.

(** The maximum level that a composite sink gives to the process loses
    nothing: when the sink would log an entry, its level is at most the
    maximum, unless the maximum was overridden. *)
Theorem composite_max_level {S} `{EventSink S} l filters st md md' :
  (forall sink md, ld_level (on_log_enabled sink md).2 = ld_level md) ->
  generation_of (ld_level_filter md) = 0 ->
  let '(s, st) := CompositeSink_new l filters None st in
  on_log_enabled s md = (true, md') ->
  exists m, max_level st = Ok m /\ le (ld_level md) m = true.
Proof.
  intros Hsame Hg. unfold CompositeSink_new. cbn [on_log_enabled CompositeSink_EventSink].
  set (m0 := foldl (fun m e => max_filter m e.2) LevelFilter.Off filters).
  set (m := foldl (fun m e => max_filter m e.1) m0 l).
  unfold target_max_level, level_filter. rewrite Hg. change (0 <? GENERATION) with true. cbn iota.
  cbn [target_level_filters sinks]. intros He.
  apply any_enabled_level in He as (e & He & Hle); [|done]. cbn [set_word ld_level] in Hle.
  exists m. split.
  { unfold max_level, set_max_level. cbn [MAX_LEVEL_FILTER]. unfold transmute.
    by rewrite LevelFilter_from_as_u32. }
  apply le_level. apply le_level in Hle.
  destruct (foldl_max_filter fst l m0) as [H1 H2]. destruct (foldl_max_filter snd filters LevelFilter.Off) as [_ H3].
  fold m0 in H3. fold m in H1, H2. pose proof (find_max_match_spec (ld_target md)
    (sort_by_key wrapping_neg_len filters)) as Hm.
  destruct (find_max_match _ _) as [f|]; cbn [default id from_option] in Hle.
  - destruct Hm as (t & Ht & _). rewrite sort_by_key_perm in Ht. apply H3 in Ht. cbn in Ht. lia.
  - apply H2 in He. lia.
Qed.

(** C31. A log entry reaches exactly the sinks that take it: those whose level
    (or that of the target, when there is one) lets it through, and that are
    enabled; it is enabled when there is one. *)
Theorem composite_delivers {S} `{EventSink S} (accepts : S -> LogDesc -> bool) s md time args :
  (forall sink md, on_log_enabled sink md = (accepts sink md, md)) ->
  (forall sink md time args, (on_log sink md time args).2 = md) ->
  generation_of (ld_level_filter md) = 0 ->
  let filter := find_max_match (ld_target md) (target_level_filters s) in
  let md' := set_word md (set_level_filter (ld_level_filter md) GENERATION filter) in
  on_log_enabled s md = (existsb (takes accepts filter md') (sinks s), md') /\
  on_log s md' time args =
    (mkCompositeSink
       (map (fun e => if takes accepts filter md' e then (e.1, (on_log e.2 md' time args).1) else e) (sinks s))
       (target_level_filters s), md').
Proof.
  intros Hen Hlog Hg filter md'.
  assert (target_max_level s md = (filter, md')) as E.
  { unfold target_max_level, level_filter. rewrite Hg. done. }
  split.
  - cbn [on_log_enabled CompositeSink_EventSink]. rewrite E. by apply any_enabled_spec.
  - cbn [on_log CompositeSink_EventSink]. apply target_max_level_twice in E as [E _]; [|done].
    rewrite E. by rewrite (log_each_spec accepts).
Qed.

(** *** A composite of two local sinks *)
Module CompositeExample.
Definition terminal : Terminal := {| line_time _ := "12:00"; colorize _ s := s |}.
Definition quiet : LocalEventSink := mkLocalEventSink false false [].
Definition filters : list (string * LevelFilter) :=
  [("app", LevelFilter.Warn); ("app::db", LevelFilter.Debug)].
Definition composite : CompositeSink LocalEventSink :=
  fst (CompositeSink_new [(LevelFilter.Info, quiet); (LevelFilter.Error, quiet)] filters None
         initial_max_filters).
Definition md (target : string) (l : Level) : LogDesc :=
  mkLogDesc l FILTER_LEVEL_UNSET_VALUE "x = {}" target "app::main" "src/main.rs" 7.
Definition args : Arguments := mkArguments None "x = 1".
End CompositeExample.

Lemma find_max_match_longest_witness :
  find_max_match "app::db::pool" (sort_by_key wrapping_neg_len CompositeExample.filters)
    = Some LevelFilter.Debug /\
  exists t, In (t, LevelFilter.Debug) CompositeExample.filters /\ String.prefix t "app::db::pool" = true.
Proof.
  split; [reflexivity|].
  assert (named CompositeExample.filters) as Hn
    by (repeat constructor; cbn; try discriminate; lia).
  pose proof (find_max_match_longest "app::db::pool" CompositeExample.filters Hn) as H.
  cbn in H. destruct H as (t & H1 & H2 & _). exists t. split; [exact H1|exact H2].
Defined.

Lemma find_max_match_empty_name_witness :
  exists f, forall target,
    find_max_match target
      (sort_by_key wrapping_neg_len ((EmptyString, LevelFilter.Off) :: CompositeExample.filters)) = Some f.
Proof.
  destruct (find_max_match_empty_name ((EmptyString, LevelFilter.Off) :: CompositeExample.filters)
    LevelFilter.Off) as (f & _ & H).
  - left. reflexivity.
  - repeat constructor.
  - exists f. exact H.
Defined.

Lemma composite_max_level_witness :
  exists m, max_level (snd (CompositeSink_new [(LevelFilter.Info, CompositeExample.quiet)]
      CompositeExample.filters None initial_max_filters)) = Ok m /\
    le Level.Debug m = true.
Proof.
  pose (terminal := CompositeExample.terminal).
  refine (@composite_max_level LocalEventSink (@LocalEventSink_EventSink terminal)
    [(LevelFilter.Info, CompositeExample.quiet)] CompositeExample.filters initial_max_filters
    (CompositeExample.md "app::db" Level.Debug) _ _ _ _).
  - intros sink md. reflexivity.
  - reflexivity.
  - reflexivity.
Defined.

Lemma composite_delivers_witness :
  exists s md, @on_log _ (@CompositeSink_EventSink _ (@LocalEventSink_EventSink CompositeExample.terminal))
      CompositeExample.composite
      (set_word (CompositeExample.md "web" Level.Info)
         (set_level_filter FILTER_LEVEL_UNSET_VALUE GENERATION None)) 5 CompositeExample.args = (s, md) /\
    map (fun e => printed e.2) (sinks s) = [["INFO  [web] x = 1"]; []].
Proof.
  destruct (@composite_delivers LocalEventSink (@LocalEventSink_EventSink CompositeExample.terminal)
    (fun _ _ => true) CompositeExample.composite (CompositeExample.md "web" Level.Info) 5
    CompositeExample.args) as [_ H].
  - reflexivity.
  - reflexivity.
  - reflexivity.
  - do 2 eexists. split; [exact H|]. vm_compute. reflexivity.
Defined.
