(* ===== verification/Dispatch.v ===== *)
(** * The dispatcher

    [tracing/src/dispatch.rs] and [tracing/src/intern_string.rs]: the global
    [Dispatch], the stream of each thread, and the operations of the library on
    them.  A [World] is all that the operations read and change: the dispatcher,
    the thread-local streams, the counter of asynchronous spans, the memory, the
    interned strings, the environment, the maximum levels and the state of the
    sink.  An operation
    runs as a whole: it holds the lock of the stream it changes, and what it
    does after releasing it is an operation of its own ([flush_log_buffer]).

    What an operation reads of the machine is an argument: [Clock] for the
    clocks, [Startup] for the start of the process. *)

From S2P Require Import Prelude RustString Float Transit Queue Pod Parser PodParser Blocks.
From S2P Require Import Levels.
From S2P Require Import LogFilter Deps LogEvents LogBlock Time Stream MetricsBlock SpanEvents.
From S2P Require Import ThreadBlock Sink.

(** A thread, and the address of its stream *)
Abbreviation Thread := Z.

(** The readings of an operation: [now()] for its event, and two
    [DualTime::now()] for a flush, when a block begins and when one ends. *)
Record Clock := mkClock { c_now : Z; c_begin : DualTime; c_end : DualTime }.

(** [Arc<dyn EventSink>]: the sink that was given, or a [NullEventSink] *)
Inductive sink_ref := UserSink | NullSink.

Record Dispatch := mkDispatch {
  d_process_id : Uuid;
  d_logs_buffer_size : Z;
  d_metrics_buffer_size : Z;
  d_threads_buffer_size : Z;
  d_log_stream : EventStream;
  d_metrics_stream : EventStream;
  d_thread_streams : list Thread;
  d_sink : sink_ref
}.

Record World (S : Type) := mkWorld {
  w_dispatch : option Dispatch;
  w_thread_streams : gmap Thread EventStream;
  w_async_span_counter : Z;
  w_memory : statics;
  w_interned : gmap string str_ref;
  w_parent_process : option string;
  w_max_levels : max_filters;
  w_sink : S
}.
#[global] Arguments mkWorld {S}.
#[global] Arguments w_dispatch {S}.
#[global] Arguments w_thread_streams {S}.
#[global] Arguments w_async_span_counter {S}.
#[global] Arguments w_memory {S}.
#[global] Arguments w_interned {S}.
#[global] Arguments w_parent_process {S}.
#[global] Arguments w_max_levels {S}.
#[global] Arguments w_sink {S}.

(** ** Changes of one field *)
Definition set_log_stream (s : EventStream) (d : Dispatch) : Dispatch :=
  mkDispatch (d_process_id d) (d_logs_buffer_size d) (d_metrics_buffer_size d)
    (d_threads_buffer_size d) s (d_metrics_stream d) (d_thread_streams d) (d_sink d).
Definition set_metrics_stream (s : EventStream) (d : Dispatch) : Dispatch :=
  mkDispatch (d_process_id d) (d_logs_buffer_size d) (d_metrics_buffer_size d)
    (d_threads_buffer_size d) (d_log_stream d) s (d_thread_streams d) (d_sink d).
Definition set_thread_streams (l : list Thread) (d : Dispatch) : Dispatch :=
  mkDispatch (d_process_id d) (d_logs_buffer_size d) (d_metrics_buffer_size d)
    (d_threads_buffer_size d) (d_log_stream d) (d_metrics_stream d) l (d_sink d).
Definition set_sink_ref (s : sink_ref) (d : Dispatch) : Dispatch :=
  mkDispatch (d_process_id d) (d_logs_buffer_size d) (d_metrics_buffer_size d)
    (d_threads_buffer_size d) (d_log_stream d) (d_metrics_stream d) (d_thread_streams d) s.

Section world.
Context {S : Type}.
Definition set_dispatch (d : Dispatch) (w : World S) : World S :=
  mkWorld (Some d) (w_thread_streams w) (w_async_span_counter w) (w_memory w)
    (w_interned w) (w_parent_process w) (w_max_levels w) (w_sink w).
Definition set_threads (l : gmap Thread EventStream) (w : World S) : World S :=
  mkWorld (w_dispatch w) l (w_async_span_counter w) (w_memory w)
    (w_interned w) (w_parent_process w) (w_max_levels w) (w_sink w).
Definition set_thread (t : Thread) (s : EventStream) (w : World S) : World S :=
  set_threads (<[t := s]> (w_thread_streams w)) w.
Definition set_counter (n : Z) (w : World S) : World S :=
  mkWorld (w_dispatch w) (w_thread_streams w) n (w_memory w)
    (w_interned w) (w_parent_process w) (w_max_levels w) (w_sink w).
Definition set_memory (m : statics) (w : World S) : World S :=
  mkWorld (w_dispatch w) (w_thread_streams w) (w_async_span_counter w) m
    (w_interned w) (w_parent_process w) (w_max_levels w) (w_sink w).
Definition set_interned (i : gmap string str_ref) (w : World S) : World S :=
  mkWorld (w_dispatch w) (w_thread_streams w) (w_async_span_counter w) (w_memory w)
    i (w_parent_process w) (w_max_levels w) (w_sink w).
Definition set_parent (p : option string) (w : World S) : World S :=
  mkWorld (w_dispatch w) (w_thread_streams w) (w_async_span_counter w) (w_memory w)
    (w_interned w) p (w_max_levels w) (w_sink w).
Definition set_max_levels (m : max_filters) (w : World S) : World S :=
  mkWorld (w_dispatch w) (w_thread_streams w) (w_async_span_counter w) (w_memory w)
    (w_interned w) (w_parent_process w) m (w_sink w).
Definition set_sink (s : S) (w : World S) : World S :=
  mkWorld (w_dispatch w) (w_thread_streams w) (w_async_span_counter w) (w_memory w)
    (w_interned w) (w_parent_process w) (w_max_levels w) s.
End world.

(** ** Memory *)
Definition text_at (m : statics) (r : str_ref) : exec string :=
  b ← read_mem (st_bytes m) (str_ptr r) (str_len r); Ok (string_of b).

(** The description at an address, with its texts *)
Definition log_desc_at (m : statics) (desc : Z) : exec LogDesc :=
  md ← deref (st_logs m) desc;
  fmt_str ← text_at m (lm_fmt_str md);
  target ← text_at m (lm_target md);
  module_path ← text_at m (lm_module_path md);
  file ← text_at m (lm_file md);
  Ok (mkLogDesc (lm_level md) (lm_level_filter md) fmt_str target module_path file (lm_line md)).

(** The atomic word of a description is changed in place. *)
Definition store_word (desc word : Z) (m : statics) : statics :=
  mkStatics (st_bytes m)
    (alter (fun md => mkLogMetadata (lm_level md) word (lm_fmt_str md) (lm_target md)
                        (lm_module_path md) (lm_file md) (lm_line md)) desc (st_logs m))
    (st_metrics m) (st_spans m) (st_locations m).

Fixpoint store_bytes (ptr : Z) (b : buffer) (m : rodata) : rodata :=
  match b with [] => m | x :: b => <[ptr := x]> (store_bytes (ptr + 1) b m) end.

(** The address of a new copy of a string: the allocator *)
Class Alloc := alloc : rodata -> buffer -> Z.

Section dispatch.
Context `{Abi} `{Alloc} {S : Type} `{EventSink S}.

(** ** intern_string.rs *)
Definition intern_string (input : string) (w : World S) : str_ref * World S :=
  match w_interned w !! input with
  | Some val => (val, w)
  | None =>
      let m := w_memory w in
      let ptr := alloc (st_bytes m) (bytes_of input) in
      let interned := mkStr ptr (blen (bytes_of input)) in
      let m := mkStatics (store_bytes ptr (bytes_of input) (st_bytes m)) (st_logs m) (st_metrics m)
                 (st_spans m) (st_locations m) in
      (interned, set_interned (<[input := interned]> (w_interned w)) (set_memory m w))
  end.

(** ** Calls of the sink *)
Definition call_sink (d : Dispatch) (f : S -> S) (w : World S) : World S :=
  match d_sink d with UserSink => set_sink (f (w_sink w)) w | NullSink => w end.
Definition sink_log_enabled (d : Dispatch) (w : World S) (md : LogDesc) : bool * LogDesc :=
  match d_sink d with
  | UserSink => on_log_enabled (w_sink w) md
  | NullSink => on_log_enabled Null md
  end.
Definition sink_on_log (d : Dispatch) (w : World S) (md : LogDesc) (time : Z) (args : Arguments)
  : World S * LogDesc :=
  match d_sink d with
  | UserSink => let '(s, md) := on_log (w_sink w) md time args in (set_sink s w, md)
  | NullSink => (w, md)
  end.

(** ** Flushes

    The current block of a stream is replaced by a new one, and closed. *)
Definition swap_block (c : Clock) (buffer_size process_id : Z) (stream : EventStream)
  : exec (EventBlock * EventStream) :=
  next_offset ← usize_add (object_offset (get_block_ref stream)) (block_nb_objects (get_block_ref stream));
  '(old_block, stream) ←
    replace_block
      (EventBlock_new (c_begin c) buffer_size process_id (stream_id stream) next_offset) stream;
  _ ← assert_true (negb (is_full stream));
  Ok (close (c_end c) old_block, stream).

Definition Dispatch_flush_log_buffer (c : Clock) (d : Dispatch) (w : World S) : exec (World S) :=
  let log_stream := d_log_stream d in
  if is_empty log_stream then Ok w else
  '(old_event_block, log_stream) ←
    swap_block c (d_logs_buffer_size d) (d_process_id d) log_stream;
  let d := set_log_stream log_stream d in
  Ok (call_sink d (fun s => on_process_log_block s old_event_block) (set_dispatch d w)).

Definition Dispatch_flush_metrics_buffer (c : Clock) (d : Dispatch) (w : World S) : exec (World S) :=
  let metrics_stream := d_metrics_stream d in
  if is_empty metrics_stream then Ok w else
  '(old_event_block, metrics_stream) ←
    swap_block c (d_metrics_buffer_size d) (d_process_id d) metrics_stream;
  let d := set_metrics_stream metrics_stream d in
  Ok (call_sink d (fun s => on_process_metrics_block s old_event_block) (set_dispatch d w)).

Definition Dispatch_flush_thread_buffer (c : Clock) (t : Thread) (stream : EventStream) (d : Dispatch)
    (w : World S) : exec (World S) :=
  if is_empty stream then Ok w else
  '(old_block, stream) ← swap_block c (d_threads_buffer_size d) (d_process_id d) stream;
  Ok (call_sink d (fun s => on_process_thread_block s old_block) (set_thread t stream w)).

Definition flush_log_buffer (c : Clock) (w : World S) : exec (World S) :=
  match w_dispatch w with Some d => Dispatch_flush_log_buffer c d w | None => Ok w end.
Definition flush_metrics_buffer (c : Clock) (w : World S) : exec (World S) :=
  match w_dispatch w with Some d => Dispatch_flush_metrics_buffer c d w | None => Ok w end.
(** Of the current thread [t] *)
Definition flush_thread_buffer (c : Clock) (t : Thread) (w : World S) : exec (World S) :=
  match w_thread_streams w !! t with
  | Some stream =>
      match w_dispatch w with
      | Some d => Dispatch_flush_thread_buffer c t stream d w
      | None => Panic
      end
  | None => Ok w
  end.

(** ** Log entries *)

(** [log_stream.get_events_mut().push(event)], and a flush when it is full *)
Definition record_log_event (c : Clock) (evt : LogMsgQueueAny) (d : Dispatch) (w : World S)
  : exec (World S) :=
  log_stream ←
    with_events_mut (fun q => push_log_event (st_bytes (w_memory w)) q evt) (d_log_stream d);
  let d := set_log_stream log_stream d in
  let w := set_dispatch d w in
  if is_full log_stream then Dispatch_flush_log_buffer c d w else Ok w.

(** The event of an entry: the message of a static one is not looked at. *)
Definition log_event (time desc : Z) (args : Arguments) : LogMsgQueueAny :=
  match as_static_str args with
  | Some _ => LogMsgQueueAny.LogStaticStrEvent (mkLogStaticStrEvent desc time)
  | None =>
      LogMsgQueueAny.LogStringEvent (mkLogStringEvent desc time (mkDynString (args_to_string args)))
  end.
Definition log_interop_event (time level : Z) (target : str_ref) (args : Arguments) : LogMsgQueueAny :=
  match as_static_str args with
  | Some msg =>
      LogMsgQueueAny.LogStaticStrInteropEvent
        (mkLogStaticStrInteropEvent time level (StringId_from target) (StringId_from msg))
  | None =>
      LogMsgQueueAny.LogStringInteropEvent
        (mkLogStringInteropEvent time level (StringId_from target)
           (mkDynString (args_to_string args)))
  end.

Definition Dispatch_log (c : Clock) (desc : Z) (args : Arguments) (d : Dispatch) (w : World S)
  : exec (World S) :=
  metadata ← log_desc_at (w_memory w) desc;
  let '(enabled, metadata) := sink_log_enabled d w metadata in
  let w := set_memory (store_word desc (ld_level_filter metadata) (w_memory w)) w in
  if negb enabled then Ok w else
  let time := c_now c in
  let '(w, metadata) := sink_on_log d w metadata time args in
  let w := set_memory (store_word desc (ld_level_filter metadata) (w_memory w)) w in
  record_log_event c (log_event time desc args) d w.

(** The description is a value of the caller, not a static one. *)
Definition Dispatch_log_interop (c : Clock) (desc : LogDesc) (args : Arguments) (d : Dispatch)
    (w : World S) : exec (World S) :=
  let time := c_now c in
  let '(w, desc) := sink_on_log d w desc time args in
  let '(target, w) := intern_string (ld_target desc) w in
  let level := Level.as_u32 (ld_level desc) in
  record_log_event c (log_interop_event time level target args) d w.

Definition log (c : Clock) (desc : Z) (args : Arguments) (w : World S) : exec (World S) :=
  match w_dispatch w with Some d => Dispatch_log c desc args d w | None => Ok w end.
Definition log_interop (c : Clock) (desc : LogDesc) (args : Arguments) (w : World S)
  : exec (World S) :=
  match w_dispatch w with Some d => Dispatch_log_interop c desc args d w | None => Ok w end.
Definition log_enabled (metadata : LogDesc) (w : World S) : bool * LogDesc :=
  match w_dispatch w with
  | Some d => sink_log_enabled d w metadata
  | None => (false, metadata)
  end.

(** ** Metrics *)
Definition record_metric_event (c : Clock) (evt : MetricsMsgQueueAny) (d : Dispatch) (w : World S)
  : exec (World S) :=
  metrics_stream ←
    with_events_mut (fun q => push_metric_event (st_bytes (w_memory w)) q evt) (d_metrics_stream d);
  let d := set_metrics_stream metrics_stream d in
  let w := set_dispatch d w in
  if is_full metrics_stream then Dispatch_flush_metrics_buffer c d w else Ok w.

Definition Dispatch_int_metric (c : Clock) (desc value : Z) : Dispatch -> World S -> exec (World S) :=
  record_metric_event c
    (MetricsMsgQueueAny.IntegerMetricEvent (mkIntegerMetricEvent desc value (c_now c))).
Definition Dispatch_float_metric (c : Clock) (desc : Z) (value : f64)
  : Dispatch -> World S -> exec (World S) :=
  record_metric_event c
    (MetricsMsgQueueAny.FloatMetricEvent (mkFloatMetricEvent desc value (c_now c))).

Definition int_metric (c : Clock) (metric_desc value : Z) (w : World S) : exec (World S) :=
  match w_dispatch w with Some d => Dispatch_int_metric c metric_desc value d w | None => Ok w end.
Definition float_metric (c : Clock) (metric_desc : Z) (value : f64) (w : World S) : exec (World S) :=
  match w_dispatch w with Some d => Dispatch_float_metric c metric_desc value d w | None => Ok w end.

(** ** Spans of the thread [t] *)
Definition on_thread_event (c : Clock) (t : Thread) (event : ThreadEventQueueAny) (w : World S)
  : exec (World S) :=
  match w_thread_streams w !! t with
  | Some stream =>
      stream ← with_events_mut (fun q => push_thread_event (st_bytes (w_memory w)) q event) stream;
      let w := set_thread t stream w in
      if is_full stream then flush_thread_buffer c t w else Ok w
  | None => Ok w
  end.

Definition on_begin_scope (c : Clock) (t : Thread) (scope : Z) : World S -> exec (World S) :=
  on_thread_event c t (ThreadEventQueueAny.BeginThreadSpanEvent (mkBeginThreadSpanEvent scope (c_now c))).
Definition on_end_scope (c : Clock) (t : Thread) (scope : Z) : World S -> exec (World S) :=
  on_thread_event c t (ThreadEventQueueAny.EndThreadSpanEvent (mkEndThreadSpanEvent scope (c_now c))).
Definition on_begin_named_scope (c : Clock) (t : Thread) (location : Z) (name : str_ref)
  : World S -> exec (World S) :=
  on_thread_event c t
    (ThreadEventQueueAny.BeginThreadNamedSpanEvent
       (mkBeginThreadNamedSpanEvent location (StringId_from name) (c_now c))).
Definition on_end_named_scope (c : Clock) (t : Thread) (location : Z) (name : str_ref)
  : World S -> exec (World S) :=
  on_thread_event c t
    (ThreadEventQueueAny.EndThreadNamedSpanEvent
       (mkEndThreadNamedSpanEvent location (StringId_from name) (c_now c))).

(** [fetch_add]: the counter wraps around. *)
Definition next_span_id (w : World S) : Z * World S :=
  let id := w_async_span_counter w in (id, set_counter (wrap_u 64 (id + 1)) w).
Definition on_begin_async_scope (c : Clock) (t : Thread) (scope : Z) (w : World S)
  : exec (Z * World S) :=
  let '(id, w) := next_span_id w in
  w ← on_thread_event c t
        (ThreadEventQueueAny.BeginAsyncSpanEvent (mkBeginAsyncSpanEvent scope id (c_now c))) w;
  Ok (id, w).
Definition on_end_async_scope (c : Clock) (t : Thread) (span_id scope : Z)
  : World S -> exec (World S) :=
  on_thread_event c t
    (ThreadEventQueueAny.EndAsyncSpanEvent (mkEndAsyncSpanEvent scope span_id (c_now c))).
Definition on_begin_async_named_scope (c : Clock) (t : Thread) (location : Z) (name : str_ref)
    (w : World S) : exec (Z * World S) :=
  let '(id, w) := next_span_id w in
  w ← on_thread_event c t
        (ThreadEventQueueAny.BeginAsyncNamedSpanEvent
           (mkBeginAsyncNamedSpanEvent location (StringId_from name) id (c_now c))) w;
  Ok (id, w).
Definition on_end_async_named_scope (c : Clock) (t : Thread) (span_id location : Z) (name : str_ref)
  : World S -> exec (World S) :=
  on_thread_event c t
    (ThreadEventQueueAny.EndAsyncNamedSpanEvent
       (mkEndAsyncNamedSpanEvent location (StringId_from name) span_id (c_now c))).
(** ** Threads *)

(** [thread-id] is the text of an identifier; not every thread has a name. *)
Definition thread_properties (thread_id : string) (thread_name : option string) : gmap string string :=
  let properties := {[ "thread-id" := thread_id ]} in
  match thread_name with
  | Some name => <["thread-name" := name]> properties
  | None => properties
  end.

Definition Dispatch_init_thread_stream (new_v4 : Uuid) (now : DualTime) (t : Thread)
    (thread_id : string) (thread_name : option string) (d : Dispatch) (w : World S)
  : exec (World S) :=
  thread_stream ← EventStream_new new_v4 now (d_threads_buffer_size d) (d_process_id d) ["cpu"]
                    (thread_properties thread_id thread_name);
  let w := call_sink d (fun s => on_init_thread_stream s thread_stream) w in
  let w := set_thread t thread_stream w in
  Ok (set_dispatch (set_thread_streams (d_thread_streams d ++ [t]) d) w).

(** Without a dispatcher, the warning is not logged either. *)
Definition init_thread_stream (new_v4 : Uuid) (now : DualTime) (t : Thread) (thread_id : string)
    (thread_name : option string) (w : World S) : exec (World S) :=
  match w_thread_streams w !! t with
  | Some _ => Ok w
  | None =>
      match w_dispatch w with
      | Some d => Dispatch_init_thread_stream new_v4 now t thread_id thread_name d w
      | None => Ok w
      end
  end.

(** The stream of a thread ends with it; the dispatcher keeps its address. *)
Definition thread_exit (t : Thread) (w : World S) : World S :=
  set_threads (delete t (w_thread_streams w)) w.

(** [fun] is called with the address of every stream that was registered. *)
Definition Dispatch_for_each_thread_stream (fun_ : EventStream -> EventStream) (d : Dispatch)
    (w : World S) : exec (World S) :=
  foldM (fun w t =>
    match w_thread_streams w !! t with
    | Some stream => Ok (set_thread t (fun_ stream) w)
    | None => Ub
    end) w (d_thread_streams d).
Definition for_each_thread_stream (fun_ : EventStream -> EventStream) (w : World S)
  : exec (World S) :=
  match w_dispatch w with Some d => Dispatch_for_each_thread_stream fun_ d w | None => Ok w end.

(** ** Macros *)
Context (STATIC_MAX_LEVEL : LevelFilter).

(** [log!], for a static description at [desc] whose level is [lvl] *)
Definition log_macro (c : Clock) (desc : Z) (lvl : Level) (args : Arguments) (w : World S)
  : exec (World S) :=
  if le lvl STATIC_MAX_LEVEL then
    max ← max_level (w_max_levels w);
    if le lvl max then log c desc args w else Ok w
  else Ok w.

(** [log_enabled!] *)
Definition log_enabled_macro (desc : Z) (lvl : Level) (w : World S) : exec (bool * World S) :=
  if le lvl STATIC_MAX_LEVEL then
    max ← max_level (w_max_levels w);
    if le lvl max then
      md ← log_desc_at (w_memory w) desc;
      let '(enabled, md) := log_enabled md w in
      Ok (enabled, set_memory (store_word desc (ld_level_filter md) (w_memory w)) w)
    else Ok (false, w)
  else Ok (false, w).

(** ** The start of the process *)
Context `{UuidText} `{UuidParse}.

Record Machine := mkMachine {
  m_exe : string;
  m_username : string;
  m_realname : string;
  m_computer : string;
  m_distro : string;
  m_cpu_brand : string;
  m_frequency : Z
}.
Record Startup := mkStartup {
  su_process_id : Uuid;
  su_log_stream_id : Uuid;
  su_metrics_stream_id : Uuid;
  su_log_begin : DualTime;
  su_metrics_begin : DualTime;
  su_start : DualTime;
  su_machine : Machine
}.

Definition make_process_info (m : Machine) (start : DualTime) (process_id : Uuid)
    (parent_process_id : option Uuid) : ProcessInfo :=
  mkProcessInfo process_id (m_exe m) (m_username m) (m_realname m) (m_computer m) (m_distro m)
    (m_cpu_brand m) (wrap_i 64 (m_frequency m)) (dt_time start) (dt_ticks start) parent_process_id ∅.

Definition Dispatch_startup (su : Startup) (d : Dispatch) (w : World S) : World S :=
  let parent_process := match w_parent_process w with Some s => try_parse s | None => None end in
  let w := set_parent (Some (uuid_to_string (d_process_id d))) w in
  let process_info := make_process_info (su_machine su) (su_start su) (d_process_id d) parent_process in
  call_sink d (fun s => on_startup s process_info) w.

Definition Dispatch_init_log_stream (d : Dispatch) (w : World S) : World S :=
  call_sink d (fun s => on_init_log_stream s (d_log_stream d)) w.
Definition Dispatch_init_metrics_stream (d : Dispatch) (w : World S) : World S :=
  call_sink d (fun s => on_init_metrics_stream s (d_metrics_stream d)) w.

Definition Dispatch_new (su : Startup) (logs_buffer_size metrics_buffer_size threads_buffer_size : Z)
    (w : World S) : exec (World S) :=
  let process_id := su_process_id su in
  log_stream ← EventStream_new (su_log_stream_id su) (su_log_begin su) logs_buffer_size process_id
                 ["log"] ∅;
  metrics_stream ← EventStream_new (su_metrics_stream_id su) (su_metrics_begin su)
                     metrics_buffer_size process_id ["metrics"] ∅;
  let d := mkDispatch process_id logs_buffer_size metrics_buffer_size threads_buffer_size log_stream
             metrics_stream [] UserSink in
  let w := Dispatch_startup su d w in
  let w := Dispatch_init_log_stream d w in
  let w := Dispatch_init_metrics_stream d w in
  Ok (set_dispatch d w).

(** The result of [init_event_dispatch] *)
Inductive init_result := Initialized | AlreadyInitialized.

(** [desc] is the description of the entry that the second call logs. *)
Definition init_event_dispatch (su : Startup) (c : Clock) (desc : Z)
    (logs_buffer_size metrics_buffer_size threads_buffer_size : Z) (sink : S) (w : World S)
  : exec (init_result * World S) :=
  match w_dispatch w with
  | None =>
      w ← Dispatch_new su logs_buffer_size metrics_buffer_size threads_buffer_size (set_sink sink w);
      Ok (Initialized, w)
  | Some _ =>
      md ← deref (st_logs (w_memory w)) desc;
      w ← log_macro c desc Level.Info
            (mkArguments (Some (lm_fmt_str md)) "event dispatch already initialized") w;
      Ok (AlreadyInitialized, w)
  end.

Definition process_id_ (w : World S) : option Uuid := option_map d_process_id (w_dispatch w).
Definition get_sink (w : World S) : option sink_ref := option_map d_sink (w_dispatch w).

Definition Dispatch_shutdown (d : Dispatch) (w : World S) : World S :=
  set_dispatch (set_sink_ref NullSink d) (call_sink d on_shutdown w).
Definition shutdown_dispatch (w : World S) : World S :=
  match w_dispatch w with Some d => Dispatch_shutdown d w | None => w end.
End dispatch.
