(* ===== verification/SinkSpec.v ===== *)
(** * What a sink promises

    The interface between the dispatcher and a sink that keeps what it is
    given: [LawfulSink].  Each call of the dispatcher is a [notice]; the sink
    shows the list of what it was given, in the terms of its own type of
    messages.  [Recorder] is the simplest instance; the sink that sends to a
    server is another one ([HttpSink.v]). *)

From S2P Require Import Prelude RustString Transit Queue Levels LogFilter Time Stream Sink.

Inductive notice :=
| Started (p : ProcessInfo)
| LogStream (s : EventStream)
| MetricsStream (s : EventStream)
| ThreadStream (s : EventStream)
| LogBlock_ (b : EventBlock)
| MetricsBlock_ (b : EventBlock)
| ThreadBlock_ (b : EventBlock).

Definition notify {S} `{EventSink S} (n : notice) (s : S) : S :=
  match n with
  | Started p => on_startup s p
  | LogStream x => on_init_log_stream s x
  | MetricsStream x => on_init_metrics_stream s x
  | ThreadStream x => on_init_thread_stream s x
  | LogBlock_ b => on_process_log_block s b
  | MetricsBlock_ b => on_process_metrics_block s b
  | ThreadBlock_ b => on_process_thread_block s b
  end.

Class LawfulSink (S M : Type) `{EventSink S} := {
  sent : S -> list M;
  encode : notice -> M;
  is_open : S -> Prop;
  notify_sent n s : is_open s -> is_open (notify n s) /\ sent (notify n s) = sent s ++ [encode n];
  (** A log entry is not a message. *)
  on_log_sent s md t args :
    is_open s -> is_open (on_log s md t args).1 /\ sent (on_log s md t args).1 = sent s
}.

(** ** The blocks of a kind *)
Definition log_blocks (ns : list notice) : list EventBlock :=
  omap (fun n => match n with LogBlock_ b => Some b | _ => None end) ns.
Definition metrics_blocks (ns : list notice) : list EventBlock :=
  omap (fun n => match n with MetricsBlock_ b => Some b | _ => None end) ns.
(** Those of one stream *)
Definition thread_blocks (sid : Uuid) (ns : list notice) : list EventBlock :=
  omap (fun n => match n with
                 | ThreadBlock_ b => if eb_stream_id b =? sid then Some b else None
                 | _ => None
                 end) ns.

(** ** A sink that records what it is given *)
Record Recorder := mkRecorder { heard : list notice }.
Definition hear (s : Recorder) (n : notice) : Recorder := mkRecorder (heard s ++ [n]).
#[export] Instance Recorder_EventSink : EventSink Recorder := {|
  on_startup s p := hear s (Started p);
  on_shutdown s := s;
  on_log_enabled s md := (true, md);
  on_log s md _ _ := (s, md);
  on_init_log_stream s x := hear s (LogStream x);
  on_process_log_block s b := hear s (LogBlock_ b);
  on_init_metrics_stream s x := hear s (MetricsStream x);
  on_process_metrics_block s b := hear s (MetricsBlock_ b);
  on_init_thread_stream s x := hear s (ThreadStream x);
  on_process_thread_block s b := hear s (ThreadBlock_ b);
  is_busy _ := false
|}.
#[export] Program Instance Recorder_LawfulSink : LawfulSink Recorder notice :=
  {| sent := heard; encode n := n; is_open _ := True |}.
Next Obligation. by intros []. Qed.
Next Obligation. done. Qed.
