(* ===== verification/StreamSpec.v ===== *)
(** * What a stream promises

    The contract between a stream of events and the sink that receives its
    blocks, for the three kinds of events: the blocks that were sent and the
    current one hold the events that were recorded, each one once and in order.
    The class [EventKind] is what the contract needs to know of a kind; the
    dispatcher ([DispatchSpec.v]) keeps [stream_inv] for each of its streams. *)

From S2P Require Import Prelude RustString Transit Queue Pod PodParser Blocks Levels Deps.
From S2P Require Import LogEvents LogBlock Time Stream MetricsBlock SpanEvents ThreadBlock.
From S2P Require Import Sink.
From S2P Require Import Dispatch.

(** ** Kinds of events *)
Class EventKind (Any : Type) `{HeterogeneousQueue Any} := {
  push_event : rodata -> Queue -> Any -> exec Queue;
  event_item : Any -> item Any;
  push_event_item m q a : push_event m q a = push_item m q (event_item a);
  (** An event is copied without reading the memory it points to. *)
  event_item_ok m m' a : item_ok m (event_item a) -> item_ok m' (event_item a);
  event_item_frame m m' a : item_frame m (event_item a) = item_frame m' (event_item a)
}.

#[export] Program Instance log_events `{LawfulAbi} : EventKind LogMsgQueueAny :=
  {| push_event := push_log_event; event_item := log_item |}.
Next Obligation. intros. apply push_log_item. Qed.
Next Obligation. by intros ? ? m m' []. Qed.
Next Obligation. by intros ? ? m m' []. Qed.

#[export] Program Instance metric_events `{LawfulAbi} : EventKind MetricsMsgQueueAny :=
  {| push_event := push_metric_event; event_item := metric_item |}.
Next Obligation. by intros ? ? m q []. Qed.
Next Obligation. by intros ? ? m m' []. Qed.
Next Obligation. by intros ? ? m m' []. Qed.

#[export] Program Instance thread_events `{LawfulAbi} : EventKind ThreadEventQueueAny :=
  {| push_event := push_thread_event; event_item := thread_item |}.
Next Obligation. by intros ? ? m q []. Qed.
Next Obligation. by intros ? ? m m' []. Qed.
Next Obligation. by intros ? ? m m' []. Qed.

Section stream.
Context {Any : Type} `{EventKind Any}.

Definition event_ok (a : Any) : Prop := item_ok ∅ (event_item a).

(** The events that a queue holds *)
Definition holds_events (size : Z) (evs : list Any) (q : Queue) : Prop :=
  Forall event_ok evs /\ foldM (push_event ∅) (queue_new size) evs = Ok q.

(** The bytes that events take in a queue *)
Definition size_of_events (evs : list Any) : Z := blen (frames ∅ (map event_item evs)).

(** Room is left in a block before its last event. *)
Definition room (size : Z) (evs : list Any) : Prop :=
  forall init a, evs = init ++ [a] -> size_of_events init <= size - 128.

(** ** The invariant *)
Context (size : Z) (pid : Uuid).

(** A block that was sent with some events, when [offset] events were sent
    before *)
Definition sent_block (sid : Uuid) (offset : Z) (chunk : list Any) (b : EventBlock) : Prop :=
  holds_events size chunk (eb_events b) /\ chunk <> [] /\ room size chunk /\
  eb_event_offset b = offset /\ eb_process_id b = pid /\ eb_stream_id b = sid /\
  is_Some (eb_end b).

Fixpoint sent_blocks (sid : Uuid) (offset : Z) (chunks : list (list Any)) (blocks : list EventBlock)
  : Prop :=
  match chunks, blocks with
  | [], [] => True
  | chunk :: chunks, b :: blocks =>
      sent_block sid offset chunk b /\
      sent_blocks sid (offset + Z.of_nat (length chunk)) chunks blocks
  | _, _ => False
  end.

(** The block in progress *)
Definition current_block (sid : Uuid) (offset : Z) (cur : list Any) (b : EventBlock) : Prop :=
  holds_events size cur (eb_events b) /\ eb_event_offset b = offset /\ eb_process_id b = pid /\
  eb_stream_id b = sid /\ eb_end b = None.

Definition stream_holds (P : list Any -> Prop) (blocks : list EventBlock) (s : EventStream)
    (evs : list Any) : Prop :=
  exists chunks cur,
    evs = concat chunks ++ cur /\ sent_blocks (stream_id s) 0 chunks blocks /\
    current_block (stream_id s) (Z.of_nat (length (concat chunks))) cur (es_current_block s) /\
    es_full_threshold s <= size - 128 /\ P cur.

(** Between two operations there is room for an event; when one was pushed and
    the block is not flushed yet, it is the last one. *)
Definition stream_inv : list EventBlock -> EventStream -> list Any -> Prop :=
  stream_holds (fun cur => size_of_events cur <= size - 128).
Definition stream_pushed : list EventBlock -> EventStream -> list Any -> Prop :=
  stream_holds (fun cur => cur <> [] /\ room size cur).

(** *** Queues *)
Lemma push_events m q evs :
  Forall event_ok evs ->
  foldM (push_event m) q evs =
  Ok (mkQueue (q_buffer q ++ frames ∅ (map event_item evs))
        (q_obj_counter q + Z.of_nat (length evs)) (q_capacity q)).
Proof.
  revert q. induction evs as [|a evs IH]; intros q Hok; cbn [foldM].
  - unfold frames. cbn. rewrite app_nil_r, Z.add_0_r. by destruct q.
  - inversion_clear Hok as [|? ? Ha Hevs].
    rewrite push_event_item, push_item_frame by (by apply (event_item_ok ∅)).
    cbn [mbind exec_bind]. rewrite IH by done. cbn [q_buffer q_obj_counter q_capacity].
    rewrite (event_item_frame m ∅). unfold frames. cbn [map concat length].
    rewrite <- app_assoc. do 2 f_equal. lia.
Qed.

Lemma holds_events_queue evs q :
  holds_events size evs q <->
  Forall event_ok evs /\ q = mkQueue (frames ∅ (map event_item evs)) (Z.of_nat (length evs)) size.
Proof.
  unfold holds_events. split; intros [Hok Hq]; (split; [done|]); rewrite push_events in * by done.
  - by injection Hq as <-.
  - by rewrite Hq.
Qed.

(** The memory that events were copied from does not matter. *)
Lemma holds_events_mem m evs q :
  holds_events size evs q -> foldM (push_event m) (queue_new size) evs = Ok q.
Proof. intros [Hok Hq]. rewrite push_events in * by done. done. Qed.

Lemma holds_no_events : holds_events size [] (queue_new size).
Proof. by split. Qed.

Lemma holds_one_more m evs q a :
  holds_events size evs q -> event_ok a ->
  exists q', push_event m q a = Ok q' /\ holds_events size (evs ++ [a]) q'.
Proof.
  intros [Hok Hq] Ha. assert (Forall event_ok [a]) as Ha1 by by repeat constructor.
  pose proof (push_events m q [a] Ha1) as Hp.
  cbn [foldM] in Hp. destruct (push_event m q a) as [q'| | | |] eqn:E; try discriminate.
  exists q'. split; [done|].
  assert (Forall event_ok (evs ++ [a])) as Hall by (apply list.Forall_app; by split).
  split; [done|]. rewrite push_events in * by done.
  injection Hp as ->. injection Hq as <-. cbn [q_buffer q_obj_counter q_capacity queue_new app].
  unfold frames. rewrite !map_app, concat_app, length_app. do 2 f_equal. cbn. lia.
Qed.

Lemma size_of_no_events : size_of_events [] = 0.
Proof. done. Qed.

Lemma size_of_events_app x y : size_of_events (x ++ y) = size_of_events x + size_of_events y.
Proof. unfold size_of_events, frames. by rewrite map_app, map_app, concat_app, blen_app. Qed.

Lemma size_of_events_pos evs : evs <> [] -> 0 < size_of_events evs.
Proof.
  destruct evs as [|a evs]; [done|]. intros _. unfold size_of_events, frames. cbn [map concat].
  rewrite blen_app. pose proof (item_frame_pos ∅ (event_item a)).
  pose proof (blen_nonneg (concat (map (item_frame ∅) (map event_item evs)))). lia.
Qed.

Lemma size_of_events_nonneg evs : 0 <= size_of_events evs.
Proof. apply blen_nonneg. Qed.

Lemma holds_len evs q : holds_events size evs q -> len_bytes q = size_of_events evs.
Proof. rewrite holds_events_queue. by intros [_ ->]. Qed.

Lemma holds_count evs q : holds_events size evs q -> nb_objects q = Z.of_nat (length evs).
Proof. rewrite holds_events_queue. by intros [_ ->]. Qed.

(** *** Blocks *)
Lemma sent_blocks_app sid offset chunks blocks chunk b :
  sent_blocks sid offset chunks blocks ->
  sent_block sid (offset + Z.of_nat (length (concat chunks))) chunk b ->
  sent_blocks sid offset (chunks ++ [chunk]) (blocks ++ [b]).
Proof.
  revert offset blocks. induction chunks as [|c chunks IH]; intros offset [|b' blocks] Hs Hb;
    try done; cbn in *.
  - by rewrite Z.add_0_r in Hb.
  - destruct Hs as [Hc Hs]. split; [done|]. apply IH; [done|].
    rewrite length_app in Hb. by rewrite <- Z.add_assoc, <- Nat2Z.inj_add.
Qed.

(** *** Operations *)
Context (Hsize : 128 <= size).

Lemma stream_new id now tags properties :
  exists s, EventStream_new id now size pid tags properties = Ok s /\
    stream_inv [] s [] /\ stream_id s = id /\ stream_process_id s = pid.
Proof.
  unfold EventStream_new, hint_max_obj_size. cbv zeta. rewrite usize_sub_Ok by lia.
  eexists. split; [done|]. split; [|by split]. exists [], []. cbn -[Z.sub]. repeat split; try done.
  rewrite size_of_no_events. lia.
Qed.

Lemma stream_push m blocks s evs a :
  stream_inv blocks s evs -> event_ok a ->
  exists s', with_events_mut (fun q => push_event m q a) s = Ok s' /\
    stream_pushed blocks s' (evs ++ [a]) /\ stream_id s' = stream_id s /\
    (is_full s' = false -> stream_inv blocks s' (evs ++ [a])).
Proof.
  intros (chunks & cur & -> & Hb & (Hq & Ho & Hp & Hi & He) & Ht & Hs) Ha.
  destruct (holds_one_more m cur _ a Hq Ha) as (q' & Hq' & Hh).
  unfold with_events_mut. rewrite Hq'. cbn [mbind exec_bind]. eexists. split; [done|].
  split; [|split; [done|]].
  - exists chunks, (cur ++ [a]). rewrite app_assoc. repeat split; try done; try apply Hh.
    + by destruct cur.
    + intros init x E. apply app_inj_tail in E as [<- <-]. done.
  - unfold is_full. cbn. unfold block_len_bytes. cbn [eb_events].
    rewrite (holds_len _ _ Hh). rewrite Z.ltb_ge. intros Hlt.
    exists chunks, (cur ++ [a]). rewrite app_assoc. repeat split; try done; try apply Hh. lia.
Qed.

Lemma stream_is_empty P blocks s evs :
  stream_holds P blocks s evs -> is_empty s = true \/ exists cur, cur <> [] /\ P cur /\
    stream_holds (fun c => c = cur) blocks s evs.
Proof.
  intros (chunks & cur & -> & Hb & Hc & Ht & Hs). destruct cur as [|a cur].
  - left. destruct Hc as (Hq & _). unfold is_empty, block_len_bytes. by rewrite (holds_len _ _ Hq).
  - right. exists (a :: cur). split; [done|]. split; [done|]. by exists chunks, (a :: cur).
Qed.

Lemma not_empty P blocks s evs :
  stream_holds P blocks s evs -> (forall cur, P cur -> cur <> []) -> is_empty s = false.
Proof.
  intros (chunks & cur & -> & Hb & (Hq & _) & Ht & Hs) Hne. unfold is_empty, block_len_bytes.
  rewrite (holds_len _ _ Hq). pose proof (size_of_events_pos cur (Hne _ Hs)). by apply Z.eqb_neq; lia.
Qed.

(** Nothing waits in an empty stream. *)
Lemma empty_all_sent blocks s evs :
  stream_inv blocks s evs -> is_empty s = true ->
  exists chunks, concat chunks = evs /\ sent_blocks (stream_id s) 0 chunks blocks.
Proof.
  intros (chunks & cur & -> & Hb & (Hq & _) & Ht & Hs) He. exists chunks. split; [|done].
  destruct cur as [|a cur]; [by rewrite app_nil_r|]. unfold is_empty, block_len_bytes in He.
  rewrite (holds_len _ _ Hq) in He. apply Z.eqb_eq in He.
  pose proof (size_of_events_pos (a :: cur)) as Hp. rewrite He in Hp. specialize (Hp ltac:(done)). lia.
Qed.

Lemma room_of cur : size_of_events cur <= size - 128 -> room size cur.
Proof.
  intros Hs init a ->. rewrite size_of_events_app in Hs.
  pose proof (size_of_events_nonneg [a]). lia.
Qed.

Lemma stream_swap c blocks s evs :
  stream_pushed blocks s evs -> Z.of_nat (length evs) < 2 ^ 64 ->
  exists b s', swap_block c size pid s = Ok (b, s') /\ stream_inv (blocks ++ [b]) s' evs /\
    eb_stream_id b = stream_id s /\ stream_id s' = stream_id s /\ is_empty s' = true.
Proof.
  intros (chunks & cur & -> & Hb & (Hq & Ho & Hp & Hi & He) & Ht & Hne & Hr) Hl.
  unfold swap_block, get_block_ref, object_offset, block_nb_objects. rewrite Ho, (holds_count _ _ Hq).
  rewrite length_app in Hl. rewrite usize_add_Ok by lia. cbn [mbind exec_bind].
  unfold replace_block, hint_max_obj_size. cbv zeta.
  change (block_capacity_bytes (EventBlock_new _ _ _ _ _)) with size.
  rewrite usize_sub_Ok by lia. cbn [mbind exec_bind].
  unfold is_full. cbn [es_full_threshold es_current_block].
  change (block_len_bytes (EventBlock_new _ _ _ _ _)) with 0.
  rewrite (proj2 (Z.ltb_ge _ _)) by lia. cbn [negb assert_true mbind exec_bind].
  eexists _, _. split; [done|]. split; [|done].
  exists (chunks ++ [cur]), []. rewrite concat_app. cbn [concat]. rewrite !app_nil_r.
  split; [done|]. split.
  - apply sent_blocks_app; [done|]. repeat split; try done; apply Hq.
  - split; [|split; [cbn -[Z.sub]; lia|rewrite size_of_no_events; lia]].
    repeat split; try done. cbn. by rewrite length_app, Nat2Z.inj_add.
Qed.

(** What the iteration over the threads does *)
Lemma stream_set_full blocks s evs : stream_inv blocks s evs -> stream_inv blocks (set_full s) evs.
Proof.
  intros (chunks & cur & -> & Hb & Hc & Ht & Hs). exists chunks, cur. repeat split; try done.
  all: try apply Hc. cbn. lia.
Qed.

Lemma stream_inv_pushed blocks s evs :
  stream_inv blocks s evs -> is_empty s = true \/ stream_pushed blocks s evs.
Proof.
  intros Hs. destruct (stream_is_empty _ _ _ _ Hs) as [|(cur & Hne & Hr & Hh)]; [by left|right].
  destruct Hh as (chunks & cur' & -> & Hb & Hc & Ht & ->). exists chunks, cur.
  repeat split; try done; try apply Hc. by apply room_of.
Qed.
End stream.
