(* ===== verification/DispatchSpec.v ===== *)
(** * What the dispatcher promises

    The operations of the dispatcher are [command]s; [recorded] says which
    events each one records.  The invariant [world_inv] relates the dispatcher
    to its sink: for each stream, the blocks that the sink was given and the
    current one hold the events that were recorded, each one once, in order
    ([StreamSpec.v]).  Every command preserves it, and none of them fails. *)

From S2P Require Import Prelude RustString Float Transit Queue Pod Parser PodParser Blocks.
From S2P Require Import Levels.
From S2P Require Import LogFilter Deps LogEvents LogBlock Time Stream MetricsBlock SpanEvents.
From S2P Require Import ThreadBlock Sink SinkSpec Dispatch StreamSpec.

(** ** Commands *)
Inductive command :=
| Log (c : Clock) (desc : Z) (args : Arguments)
| LogInterop (c : Clock) (desc : LogDesc) (args : Arguments)
| IntMetric (c : Clock) (desc value : Z)
| FloatMetric (c : Clock) (desc : Z) (value : f64)
| BeginScope (c : Clock) (t : Thread) (scope : Z)
| EndScope (c : Clock) (t : Thread) (scope : Z)
| BeginNamedScope (c : Clock) (t : Thread) (location : Z) (name : str_ref)
| EndNamedScope (c : Clock) (t : Thread) (location : Z) (name : str_ref)
| BeginAsyncScope (c : Clock) (t : Thread) (scope : Z)
| EndAsyncScope (c : Clock) (t : Thread) (span_id scope : Z)
| BeginAsyncNamedScope (c : Clock) (t : Thread) (location : Z) (name : str_ref)
| EndAsyncNamedScope (c : Clock) (t : Thread) (span_id location : Z) (name : str_ref)
| FlushLogs (c : Clock)
| FlushMetrics (c : Clock)
| FlushThread (c : Clock) (t : Thread)
| InitThread (new_v4 : Uuid) (now : DualTime) (t : Thread) (thread_id : string) (name : option string)
| ThreadExit (t : Thread)
| SetThreadsFull.

(** What is recorded; a thread starts with nothing. *)
Inductive event :=
| LogRecorded (a : LogMsgQueueAny)
| MetricRecorded (a : MetricsMsgQueueAny)
| ThreadRecorded (t : Thread) (a : ThreadEventQueueAny)
| ThreadStarted (t : Thread).

Definition logs_of (evs : list event) : list LogMsgQueueAny :=
  omap (fun e => match e with LogRecorded a => Some a | _ => None end) evs.
Definition metrics_of (evs : list event) : list MetricsMsgQueueAny :=
  omap (fun e => match e with MetricRecorded a => Some a | _ => None end) evs.
Definition thread_of_step (t : Thread) (acc : list ThreadEventQueueAny) (e : event)
  : list ThreadEventQueueAny :=
  match e with
  | ThreadRecorded t' a => if t' =? t then acc ++ [a] else acc
  | ThreadStarted t' => if t' =? t then [] else acc
  | _ => acc
  end.
Definition thread_of (t : Thread) (evs : list event) : list ThreadEventQueueAny :=
  foldl (thread_of_step t) [] evs.

Section spec.
Context `{HA : LawfulAbi} `{Alloc} {S M : Type} `{HS : LawfulSink S M}.

Definition exec_command (cmd : command) (w : World S) : exec (World S) :=
  match cmd with
  | Log c desc args => log c desc args w
  | LogInterop c desc args => log_interop c desc args w
  | IntMetric c desc value => int_metric c desc value w
  | FloatMetric c desc value => float_metric c desc value w
  | BeginScope c t scope => on_begin_scope c t scope w
  | EndScope c t scope => on_end_scope c t scope w
  | BeginNamedScope c t location name => on_begin_named_scope c t location name w
  | EndNamedScope c t location name => on_end_named_scope c t location name w
  | BeginAsyncScope c t scope => '(_, w) ← on_begin_async_scope c t scope w; Ok w
  | EndAsyncScope c t span_id scope => on_end_async_scope c t span_id scope w
  | BeginAsyncNamedScope c t location name =>
      '(_, w) ← on_begin_async_named_scope c t location name w; Ok w
  | EndAsyncNamedScope c t span_id location name =>
      on_end_async_named_scope c t span_id location name w
  | FlushLogs c => flush_log_buffer c w
  | FlushMetrics c => flush_metrics_buffer c w
  | FlushThread c t => flush_thread_buffer c t w
  | InitThread new_v4 now t thread_id name => init_thread_stream new_v4 now t thread_id name w
  | ThreadExit t => Ok (thread_exit t w)
  | SetThreadsFull => for_each_thread_stream set_full w
  end.

(** The event that a command has for its thread *)
Definition thread_event (w : World S) (cmd : command) : option (Thread * ThreadEventQueueAny) :=
  let id := w_async_span_counter w in
  match cmd with
  | BeginScope c t scope =>
      Some (t, ThreadEventQueueAny.BeginThreadSpanEvent (mkBeginThreadSpanEvent scope (c_now c)))
  | EndScope c t scope =>
      Some (t, ThreadEventQueueAny.EndThreadSpanEvent (mkEndThreadSpanEvent scope (c_now c)))
  | BeginNamedScope c t location name =>
      Some (t, ThreadEventQueueAny.BeginThreadNamedSpanEvent
                 (mkBeginThreadNamedSpanEvent location (StringId_from name) (c_now c)))
  | EndNamedScope c t location name =>
      Some (t, ThreadEventQueueAny.EndThreadNamedSpanEvent
                 (mkEndThreadNamedSpanEvent location (StringId_from name) (c_now c)))
  | BeginAsyncScope c t scope =>
      Some (t, ThreadEventQueueAny.BeginAsyncSpanEvent (mkBeginAsyncSpanEvent scope id (c_now c)))
  | EndAsyncScope c t span_id scope =>
      Some (t, ThreadEventQueueAny.EndAsyncSpanEvent (mkEndAsyncSpanEvent scope span_id (c_now c)))
  | BeginAsyncNamedScope c t location name =>
      Some (t, ThreadEventQueueAny.BeginAsyncNamedSpanEvent
                 (mkBeginAsyncNamedSpanEvent location (StringId_from name) id (c_now c)))
  | EndAsyncNamedScope c t span_id location name =>
      Some (t, ThreadEventQueueAny.EndAsyncNamedSpanEvent
                 (mkEndAsyncNamedSpanEvent location (StringId_from name) span_id (c_now c)))
  | _ => None
  end.

(** The event of an entry that comes from another library: its target is
    interned. *)
Definition interop_event (w : World S) (d : Dispatch) (c : Clock) (desc : LogDesc) (args : Arguments)
  : LogMsgQueueAny :=
  let '(w, desc) := sink_on_log d w desc (c_now c) args in
  log_interop_event (c_now c) (Level.as_u32 (ld_level desc)) (intern_string (ld_target desc) w).1 args.

Definition recorded (w : World S) (cmd : command) : list event :=
  match w_dispatch w with
  | None => []
  | Some d =>
      match cmd with
      | Log c desc args =>
          match log_desc_at (w_memory w) desc with
          | Ok md => if (sink_log_enabled d w md).1 then [LogRecorded (log_event (c_now c) desc args)] else []
          | _ => []
          end
      | LogInterop c desc args => [LogRecorded (interop_event w d c desc args)]
      | IntMetric c desc value =>
          [MetricRecorded (MetricsMsgQueueAny.IntegerMetricEvent (mkIntegerMetricEvent desc value (c_now c)))]
      | FloatMetric c desc value =>
          [MetricRecorded (MetricsMsgQueueAny.FloatMetricEvent (mkFloatMetricEvent desc value (c_now c)))]
      | InitThread _ _ t _ _ =>
          match w_thread_streams w !! t with Some _ => [] | None => [ThreadStarted t] end
      | _ =>
          match thread_event w cmd with
          | Some (t, a) =>
              match w_thread_streams w !! t with Some _ => [ThreadRecorded t a] | None => [] end
          | None => []
          end
      end
  end.

(** What a command needs: descriptions that are in memory, and values of the
    widths that the events have *)
Definition event_fits (e : event) : Prop :=
  match e with
  | LogRecorded a => event_ok a
  | MetricRecorded a => event_ok a
  | ThreadRecorded _ a => event_ok a
  | ThreadStarted _ => True
  end.
Definition command_ok (w : World S) (cmd : command) : Prop :=
  Forall event_fits (recorded w cmd) /\
  match cmd with Log _ desc _ => exists md, log_desc_at (w_memory w) desc = Ok md | _ => True end.

(** The commands one after the other, and what they record *)
Fixpoint run (w : World S) (cmds : list command) : exec (World S * list event) :=
  match cmds with
  | [] => Ok (w, [])
  | cmd :: cmds =>
      let evs := recorded w cmd in
      w ← exec_command cmd w;
      '(w, evs') ← run w cmds;
      Ok (w, evs ++ evs')
  end.
Fixpoint run_ok (w : World S) (cmds : list command) : Prop :=
  match cmds with
  | [] => True
  | cmd :: cmds => command_ok w cmd /\ forall w', exec_command cmd w = Ok w' -> run_ok w' cmds
  end.

(** The identifiers that the commands draw *)
Definition drawn (cmds : list command) : list Uuid :=
  omap (fun cmd => match cmd with InitThread id _ _ _ _ => Some id | _ => None end) cmds.
Definition is_exit (cmd : command) : bool := match cmd with ThreadExit _ => true | _ => false end.
Definition is_set_full (cmd : command) : bool :=
  match cmd with SetThreadsFull => true | _ => false end.

(** ** The invariant *)
Record config := mkConfig {
  cf_pid : Uuid;
  cf_logs : Z;
  cf_metrics : Z;
  cf_threads : Z;
  cf_log_stream : Uuid;
  cf_metrics_stream : Uuid
}.
Definition config_of (d : Dispatch) : config :=
  mkConfig (d_process_id d) (d_logs_buffer_size d) (d_metrics_buffer_size d) (d_threads_buffer_size d)
    (stream_id (d_log_stream d)) (stream_id (d_metrics_stream d)).
Definition startup_config (su : Startup) (lsz msz tsz : Z) : config :=
  mkConfig (su_process_id su) lsz msz tsz (su_log_stream_id su) (su_metrics_stream_id su).
(** A block has room for an object of the size that is hinted. *)
Definition big_enough (cf : config) : Prop :=
  128 <= cf_logs cf /\ 128 <= cf_metrics cf /\ 128 <= cf_threads cf.

Context (cf : config) (s0 : list M) (no_exit : bool).

Definition base_inv (w : World S) (d : Dispatch) (ns : list notice) : Prop :=
  w_dispatch w = Some d /\ d_sink d = UserSink /\ config_of d = cf /\ is_open (w_sink w) /\
  sent (w_sink w) = s0 ++ map encode ns /\
  (no_exit = true -> Forall (fun t => is_Some (w_thread_streams w !! t)) (d_thread_streams d)).

Definition log_inv (d : Dispatch) (ns : list notice) (evs : list event) : Prop :=
  stream_inv (cf_logs cf) (cf_pid cf) (log_blocks ns) (d_log_stream d) (logs_of evs).
Definition metrics_inv (d : Dispatch) (ns : list notice) (evs : list event) : Prop :=
  stream_inv (cf_metrics cf) (cf_pid cf) (metrics_blocks ns) (d_metrics_stream d) (metrics_of evs).

(** The streams of threads that the sink was told of; the process and its own
    two streams come first, and once. *)
Definition thread_ids (ns : list notice) : list Uuid :=
  omap (fun n => match n with ThreadStream s => Some (stream_id s) | _ => None end) ns.
Definition is_greeting (n : notice) : bool :=
  match n with Started _ | LogStream _ | MetricsStream _ => true | _ => false end.
Definition of_process (n : notice) : Prop :=
  match n with ThreadStream s => stream_process_id s = cf_pid cf | _ => True end.
Definition announced (ids : list Uuid) (ns : list notice) : Prop :=
  NoDup (thread_ids ns) /\ (forall i, i ∈ thread_ids ns -> i ∈ ids) /\
  length (List.filter is_greeting ns) = 3%nat /\ Forall of_process ns.

(** Streams of threads are announced, with identifiers of their own. *)
Definition threads_inv (streams : gmap Thread EventStream) (ids : list Uuid) (ns : list notice)
    (evs : list event) : Prop :=
  (forall t s, streams !! t = Some s ->
     stream_id s ∈ thread_ids ns /\
     stream_inv (cf_threads cf) (cf_pid cf) (thread_blocks (stream_id s) ns) s (thread_of t evs)) /\
  (forall t t' s s', streams !! t = Some s -> streams !! t' = Some s' ->
     stream_id s = stream_id s' -> t = t') /\
  (forall b, ThreadBlock_ b ∈ ns -> eb_stream_id b ∈ ids) /\
  announced ids ns.

Definition world_inv (w : World S) (ids : list Uuid) (ns : list notice) (evs : list event) : Prop :=
  exists d, base_inv w d ns /\ log_inv d ns evs /\ metrics_inv d ns evs /\
    threads_inv (w_thread_streams w) ids ns evs.

Context (Hbig : big_enough cf).

(** *** Lists of notices and events *)
Lemma log_blocks_app x y : log_blocks (x ++ y) = log_blocks x ++ log_blocks y.
Proof. apply omap_app. Qed.
Lemma metrics_blocks_app x y : metrics_blocks (x ++ y) = metrics_blocks x ++ metrics_blocks y.
Proof. apply omap_app. Qed.
Lemma thread_blocks_app sid x y :
  thread_blocks sid (x ++ y) = thread_blocks sid x ++ thread_blocks sid y.
Proof. apply omap_app. Qed.
Lemma logs_of_app x y : logs_of (x ++ y) = logs_of x ++ logs_of y.
Proof. apply omap_app. Qed.
Lemma metrics_of_app x y : metrics_of (x ++ y) = metrics_of x ++ metrics_of y.
Proof. apply omap_app. Qed.
Lemma thread_of_app t x e : thread_of t (x ++ [e]) = thread_of_step t (thread_of t x) e.
Proof. unfold thread_of. by rewrite foldl_app. Qed.

(** Blocks of other streams are not looked at. *)
Lemma thread_blocks_other sid ns b :
  eb_stream_id b <> sid -> thread_blocks sid (ns ++ [ThreadBlock_ b]) = thread_blocks sid ns.
Proof.
  intros Hne. rewrite thread_blocks_app. cbn. rewrite (proj2 (Z.eqb_neq _ _)) by done.
  by rewrite app_nil_r.
Qed.
Lemma thread_blocks_same sid ns b :
  eb_stream_id b = sid -> thread_blocks sid (ns ++ [ThreadBlock_ b]) = thread_blocks sid ns ++ [b].
Proof. intros <-. rewrite thread_blocks_app. cbn. by rewrite Z.eqb_refl. Qed.

Definition is_block (n : notice) : bool :=
  match n with LogBlock_ _ | MetricsBlock_ _ | ThreadBlock_ _ => true | _ => false end.
Lemma announced_block ids ns n :
  is_block n = true -> announced ids ns -> announced ids (ns ++ [n]).
Proof.
  intros Hn (A1 & A2 & A3 & A4). unfold announced, thread_ids in *. rewrite omap_app, List.filter_app.
  destruct n; try discriminate Hn; cbn; rewrite !app_nil_r; split_and!; try done;
    (apply list.Forall_app; split; [done|by repeat constructor]).
Qed.
Lemma thread_ids_app ns ns' : thread_ids (ns ++ ns') = thread_ids ns ++ thread_ids ns'.
Proof. apply omap_app. Qed.

Lemma announced_more ids ns i : announced ids ns -> announced (i :: ids) ns.
Proof. intros (A1 & A2 & A3). split; [done|]. split; [|done]. intros j Hj. right. by apply A2. Qed.
Lemma announced_thread ids ns s :
  announced ids ns -> stream_id s ∉ ids -> stream_process_id s = cf_pid cf ->
  announced (stream_id s :: ids) (ns ++ [ThreadStream s]).
Proof.
  intros (A1 & A2 & A3 & A4) Hs Hp. unfold announced, thread_ids in *. rewrite omap_app, List.filter_app. cbn.
  split; [|split; [|split; [by rewrite app_nil_r|apply list.Forall_app; split; [done|by repeat constructor]]]].
  - apply list.NoDup_app. split; [done|]. split; [|repeat constructor; set_solver].
    intros i Hi Hi2. apply list_elem_of_singleton in Hi2 as ->. by apply Hs, A2.
  - intros i Hi. apply elem_of_app in Hi as [Hi|Hi]; [right; by apply A2|].
    apply list_elem_of_singleton in Hi as ->. by left.
Qed.

(** A notice that is not a block of a thread *)
Lemma threads_inv_notice streams ids ns evs n :
  is_block n = true -> (forall b, n <> ThreadBlock_ b) -> threads_inv streams ids ns evs ->
  threads_inv streams ids (ns ++ [n]) evs.
Proof.
  intros Hnb Hn (T1 & T2 & T3 & T4). split; [|split; [done|split; [|by apply announced_block]]].
  - intros t s Hs. destruct (T1 t s Hs) as [Hid Hi].
    split; [rewrite thread_ids_app; apply elem_of_app; by left|]. rewrite thread_blocks_app. destruct n; try by rewrite app_nil_r. by destruct (Hn b).
  - intros b Hb. apply list_elem_of_In, in_app_or in Hb as [Hb|[->|[]]].
    + by apply T3, list_elem_of_In.
    + by destruct (Hn b).
Qed.

Lemma threads_inv_events streams ids ns evs e :
  (forall t acc, thread_of_step t acc e = acc) -> threads_inv streams ids ns evs ->
  threads_inv streams ids ns (evs ++ [e]).
Proof.
  intros He (T1 & T2 & T3 & T4). split; [|by split]. intros t s Hs. rewrite thread_of_app, He. by apply T1.
Qed.

(** A change of the world that the sink does not see *)
Lemma base_update w w' d d' ns :
  base_inv w d ns -> w_dispatch w' = Some d' -> w_sink w' = w_sink w -> d_sink d' = d_sink d ->
  config_of d' = config_of d -> d_thread_streams d' = d_thread_streams d ->
  (forall t, is_Some (w_thread_streams w !! t) -> is_Some (w_thread_streams w' !! t)) ->
  base_inv w' d' ns.
Proof.
  intros (B1 & B2 & B3 & B4 & B5 & B6) E1 E2 E3 E4 E5 Hl. unfold base_inv.
  rewrite E2, E3, E4. split_and!; try done.
  intros E. rewrite E5. eapply list.Forall_impl; [by apply B6|]. apply Hl.
Qed.

(** The sink is given a block. *)
Lemma base_notify w d ns n :
  base_inv w d ns -> base_inv (call_sink d (notify n) w) d (ns ++ [n]).
Proof.
  intros (B1 & B2 & B3 & B4 & B5 & B6). unfold call_sink. rewrite B2.
  destruct (notify_sent n (w_sink w) B4) as [Ho Hsent].
  split_and!; try done. cbn. rewrite Hsent, B5, map_app. by rewrite <- app_assoc.
Qed.

Lemma config_sizes d :
  config_of d = cf ->
  d_process_id d = cf_pid cf /\ d_logs_buffer_size d = cf_logs cf /\
  d_metrics_buffer_size d = cf_metrics cf /\ d_threads_buffer_size d = cf_threads cf.
Proof. by intros <-. Qed.

Lemma config_set_log s d :
  stream_id s = stream_id (d_log_stream d) -> config_of (set_log_stream s d) = config_of d.
Proof. unfold config_of. by intros <-. Qed.
Lemma config_set_metrics s d :
  stream_id s = stream_id (d_metrics_stream d) -> config_of (set_metrics_stream s d) = config_of d.
Proof. unfold config_of. by intros <-. Qed.

(** *** Flushes *)
Lemma flush_log c w d ns evs :
  base_inv w d ns ->
  stream_pushed (cf_logs cf) (cf_pid cf) (log_blocks ns) (d_log_stream d) (logs_of evs) ->
  Z.of_nat (length (logs_of evs)) < 2 ^ 64 ->
  exists w' d' b, Dispatch_flush_log_buffer c d w = Ok w' /\ base_inv w' d' (ns ++ [LogBlock_ b]) /\
    log_inv d' (ns ++ [LogBlock_ b]) evs /\ d_metrics_stream d' = d_metrics_stream d /\
    is_empty (d_log_stream d') = true /\
    w_thread_streams w' = w_thread_streams w.
Proof.
  intros Hb Hp Hl. pose proof Hb as (_ & _ & Hc & _). destruct (config_sizes d Hc) as (Ep & El & _).
  destruct Hbig as (Hsz & _). destruct (stream_swap _ _ Hsz c _ _ _ Hp Hl) as (b & s' & Hsw & Hinv & _ & Hid & Hemp).
  unfold Dispatch_flush_log_buffer. rewrite (not_empty _ _ _ _ _ _ Hp) by (by intros ? []).
  rewrite El, Ep, Hsw. cbn [mbind exec_bind].
  exists (call_sink (set_log_stream s' d) (notify (LogBlock_ b)) (set_dispatch (set_log_stream s' d) w)),
    (set_log_stream s' d), b.
  split; [done|]. split; [|split; [|split; [done|split; [done|]]]].
  - apply base_notify. eapply base_update; try done. by apply config_set_log.
  - unfold log_inv. by rewrite log_blocks_app.
  - unfold call_sink. by destruct (d_sink _).
Qed.

Lemma flush_metrics c w d ns evs :
  base_inv w d ns ->
  stream_pushed (cf_metrics cf) (cf_pid cf) (metrics_blocks ns) (d_metrics_stream d) (metrics_of evs) ->
  Z.of_nat (length (metrics_of evs)) < 2 ^ 64 ->
  exists w' d' b, Dispatch_flush_metrics_buffer c d w = Ok w' /\
    base_inv w' d' (ns ++ [MetricsBlock_ b]) /\
    metrics_inv d' (ns ++ [MetricsBlock_ b]) evs /\ d_log_stream d' = d_log_stream d /\
    is_empty (d_metrics_stream d') = true /\
    w_thread_streams w' = w_thread_streams w.
Proof.
  intros Hb Hp Hl. pose proof Hb as (_ & _ & Hc & _). destruct (config_sizes d Hc) as (Ep & _ & El & _).
  destruct Hbig as (_ & Hsz & _). destruct (stream_swap _ _ Hsz c _ _ _ Hp Hl) as (b & s' & Hsw & Hinv & _ & Hid & Hemp).
  unfold Dispatch_flush_metrics_buffer. rewrite (not_empty _ _ _ _ _ _ Hp) by (by intros ? []).
  rewrite El, Ep, Hsw. cbn [mbind exec_bind].
  exists (call_sink (set_metrics_stream s' d) (notify (MetricsBlock_ b))
           (set_dispatch (set_metrics_stream s' d) w)), (set_metrics_stream s' d), b.
  split; [done|]. split; [|split; [|split; [done|split; [done|]]]].
  - apply base_notify. eapply base_update; try done. by apply config_set_metrics.
  - unfold metrics_inv. by rewrite metrics_blocks_app.
  - unfold call_sink. by destruct (d_sink _).
Qed.

Lemma flush_thread c w d ns t s evs :
  base_inv w d ns -> is_Some (w_thread_streams w !! t) ->
  stream_pushed (cf_threads cf) (cf_pid cf) (thread_blocks (stream_id s) ns) s evs ->
  Z.of_nat (length evs) < 2 ^ 64 ->
  exists w' s' b, Dispatch_flush_thread_buffer c t s d w = Ok w' /\
    base_inv w' d (ns ++ [ThreadBlock_ b]) /\
    w_thread_streams w' = <[t := s']> (w_thread_streams w) /\
    eb_stream_id b = stream_id s /\ stream_id s' = stream_id s /\
    stream_inv (cf_threads cf) (cf_pid cf) (thread_blocks (stream_id s) (ns ++ [ThreadBlock_ b])) s' evs /\
    is_empty s' = true.
Proof.
  intros Hb Ht Hp Hl. pose proof Hb as (Hd & _ & Hc & _).
  destruct (config_sizes d Hc) as (Ep & _ & _ & El).
  destruct Hbig as (_ & _ & Hsz). destruct (stream_swap _ _ Hsz c _ _ _ Hp Hl) as (b & s' & Hsw & Hinv & Hid & Hid' & Hemp).
  unfold Dispatch_flush_thread_buffer. rewrite (not_empty _ _ _ _ _ _ Hp) by (by intros ? []).
  rewrite El, Ep, Hsw. cbn [mbind exec_bind].
  exists (call_sink d (notify (ThreadBlock_ b)) (set_thread t s' w)), s', b.
  split; [done|]. split; [|split; [|split; [done|split; [done|split; [|done]]]]].
  - apply base_notify. eapply base_update; try done. intros t' Ht'. cbn.
    destruct (decide (t = t')) as [->|Hne]; [by rewrite lookup_insert_eq|by rewrite lookup_insert_ne].
  - unfold call_sink. by destruct (d_sink _).
  - by rewrite thread_blocks_same.
Qed.

(** *** Records *)
Lemma record_log c a w d ids ns evs :
  base_inv w d ns -> log_inv d ns evs -> metrics_inv d ns evs ->
  threads_inv (w_thread_streams w) ids ns evs ->
  event_ok a -> Z.of_nat (length (logs_of (evs ++ [LogRecorded a]))) < 2 ^ 64 ->
  exists w' ns', record_log_event c a d w = Ok w' /\
    world_inv w' ids (ns ++ ns') (evs ++ [LogRecorded a]).
Proof.
  intros Hb Hlog Hm Ht Ha Hl.
  destruct (stream_push _ _ (st_bytes (w_memory w)) _ _ _ a Hlog Ha) as (s' & Hpush & Hp & Hid & Hfull).
  unfold record_log_event. change push_log_event with (@push_event LogMsgQueueAny _ _). rewrite Hpush.
  cbn [mbind exec_bind]. rewrite logs_of_app in Hl.
  assert (base_inv (set_dispatch (set_log_stream s' d) w) (set_log_stream s' d) ns) as Hb'
    by (eapply base_update; try done; by apply config_set_log).
  assert (threads_inv (w_thread_streams w) ids ns (evs ++ [LogRecorded a])) as Ht'
    by by apply threads_inv_events.
  assert (metrics_inv d ns (evs ++ [LogRecorded a])) as Hm'
    by (unfold metrics_inv; rewrite metrics_of_app; cbn; by rewrite app_nil_r).
  destruct (is_full s').
  - destruct (flush_log c _ (set_log_stream s' d) ns (evs ++ [LogRecorded a]) Hb') as (w' & d' & b & Hf & Hb2 & Hl2 & Hm2 & He2 & Ht2);
      [by rewrite logs_of_app|by rewrite logs_of_app|].
    exists w', [LogBlock_ b]. split; [done|]. exists d'. split; [done|]. split; [done|].
    rewrite Ht2. split; [|by apply threads_inv_notice]. unfold metrics_inv.
    rewrite Hm2, metrics_blocks_app. cbn. by rewrite app_nil_r.
  - exists (set_dispatch (set_log_stream s' d) w), []. split; [done|]. rewrite app_nil_r.
    exists (set_log_stream s' d). split; [done|]. split; [|by split].
    unfold log_inv. rewrite logs_of_app. by apply Hfull.
Qed.

Lemma record_metric c a w d ids ns evs :
  base_inv w d ns -> log_inv d ns evs -> metrics_inv d ns evs ->
  threads_inv (w_thread_streams w) ids ns evs ->
  event_ok a -> Z.of_nat (length (metrics_of (evs ++ [MetricRecorded a]))) < 2 ^ 64 ->
  exists w' ns', record_metric_event c a d w = Ok w' /\
    world_inv w' ids (ns ++ ns') (evs ++ [MetricRecorded a]).
Proof.
  intros Hb Hlog Hm Ht Ha Hl.
  destruct (stream_push _ _ (st_bytes (w_memory w)) _ _ _ a Hm Ha) as (s' & Hpush & Hp & Hid & Hfull).
  unfold record_metric_event. change push_metric_event with (@push_event MetricsMsgQueueAny _ _). rewrite Hpush.
  cbn [mbind exec_bind]. rewrite metrics_of_app in Hl.
  assert (base_inv (set_dispatch (set_metrics_stream s' d) w) (set_metrics_stream s' d) ns) as Hb'
    by (eapply base_update; try done; by apply config_set_metrics).
  assert (threads_inv (w_thread_streams w) ids ns (evs ++ [MetricRecorded a])) as Ht'
    by by apply threads_inv_events.
  assert (log_inv d ns (evs ++ [MetricRecorded a])) as Hlog'
    by (unfold log_inv; rewrite logs_of_app; cbn; by rewrite app_nil_r).
  destruct (is_full s').
  - destruct (flush_metrics c _ (set_metrics_stream s' d) ns (evs ++ [MetricRecorded a]) Hb')
      as (w' & d' & b & Hf & Hb2 & Hm2 & Hl2 & He2 & Ht2); [by rewrite metrics_of_app|by rewrite metrics_of_app|].
    exists w', [MetricsBlock_ b]. split; [done|]. exists d'. split; [done|].
    rewrite Ht2. split; [|split; [done|by apply threads_inv_notice]]. unfold log_inv.
    rewrite Hl2, log_blocks_app. cbn. by rewrite app_nil_r.
  - exists (set_dispatch (set_metrics_stream s' d) w), []. split; [done|]. rewrite app_nil_r.
    exists (set_metrics_stream s' d). split; [done|]. split; [done|]. split; [|done].
    unfold metrics_inv. rewrite metrics_of_app. by apply Hfull.
Qed.

(** The streams of threads, when that of [t] changes and gives a block *)
Lemma threads_inv_insert streams ids ns evs ns' evs' t s s' :
  threads_inv streams ids ns evs -> streams !! t = Some s -> stream_id s' = stream_id s ->
  stream_inv (cf_threads cf) (cf_pid cf) (thread_blocks (stream_id s) ns') s' (thread_of t evs') ->
  (forall sid, sid <> stream_id s -> thread_blocks sid ns' = thread_blocks sid ns) ->
  (forall t', t' <> t -> thread_of t' evs' = thread_of t' evs) ->
  (forall b, ThreadBlock_ b ∈ ns' -> ThreadBlock_ b ∈ ns \/ eb_stream_id b = stream_id s) ->
  (forall i, i ∈ thread_ids ns -> i ∈ thread_ids ns') ->
  announced ids ns' ->
  threads_inv (<[t := s']> streams) ids ns' evs'.
Proof.
  intros (T1 & T2 & T3 & T4) Hs Hid Hinv Hns Hevs Hb Hi Ha. destruct (T1 t s Hs) as [Hin _].
  split; [|split; [|split; [|done]]].
  - intros t' x Hx. destruct (decide (t = t')) as [<-|Hne].
    + rewrite lookup_insert_eq in Hx. injection Hx as <-. rewrite Hid. split; [by apply Hi|done].
    + rewrite lookup_insert_ne in Hx by done. destruct (T1 t' x Hx) as [Hxi Hx'].
      split; [by apply Hi|]. rewrite Hns, Hevs; [done|congruence|]. intros E. by apply Hne, (T2 t t' s x).
  - intros t1 t2 s1 s2 E1 E2 E. destruct (decide (t = t1)) as [<-|N1], (decide (t = t2)) as [<-|N2];
      [done| | |].
    + rewrite lookup_insert_eq in E1. rewrite lookup_insert_ne in E2 by done. injection E1 as <-.
      apply (T2 t t2 s s2); [done|done|congruence].
    + rewrite lookup_insert_eq in E2. rewrite lookup_insert_ne in E1 by done. injection E2 as <-.
      apply (T2 t1 t s1 s); [done|done|congruence].
    + rewrite lookup_insert_ne in E1, E2 by done. by apply (T2 t1 t2 s1 s2).
  - intros b Hbn. destruct (Hb b Hbn) as [Ho|E]; [by apply T3|]. rewrite E. by apply T4.
Qed.

Lemma in_notice_snoc b ns n : ThreadBlock_ b ∈ ns ++ [n] -> ThreadBlock_ b ∈ ns \/ n = ThreadBlock_ b.
Proof.
  intros Hb. apply list_elem_of_In, in_app_or in Hb as [Hb|[->|[]]]; [left|by right].
  by apply list_elem_of_In.
Qed.

(** The block of a thread is sent: the other streams do not change. *)
Lemma threads_inv_flush streams ids ns evs evs' t s s' b :
  threads_inv streams ids ns evs -> streams !! t = Some s -> stream_id s' = stream_id s ->
  eb_stream_id b = stream_id s ->
  stream_inv (cf_threads cf) (cf_pid cf) (thread_blocks (stream_id s) (ns ++ [ThreadBlock_ b])) s'
    (thread_of t evs') ->
  (forall t', t' <> t -> thread_of t' evs' = thread_of t' evs) ->
  threads_inv (<[t := s']> streams) ids (ns ++ [ThreadBlock_ b]) evs'.
Proof.
  intros Ht Hs Hid Hb Hinv Hevs. eapply threads_inv_insert; try done.
  - intros sid Hne. apply thread_blocks_other. congruence.
  - intros b' Hb'. destruct (in_notice_snoc _ _ _ Hb') as [|[= ->]]; [by left|by right].
  - intros i Hi. rewrite thread_ids_app. apply elem_of_app. by left.
  - by apply announced_block, Ht.
Qed.

Lemma other_thread t a t' evs : t' <> t -> thread_of t' (evs ++ [ThreadRecorded t a]) = thread_of t' evs.
Proof. intros Hne. rewrite thread_of_app. cbn. by rewrite (proj2 (Z.eqb_neq _ _)) by done. Qed.

Lemma own_thread t a evs : thread_of t (evs ++ [ThreadRecorded t a]) = thread_of t evs ++ [a].
Proof. rewrite thread_of_app. cbn. by rewrite Z.eqb_refl. Qed.

Lemma world_inv_parts w ids ns evs evs' d :
  base_inv w d ns -> log_inv d ns evs -> metrics_inv d ns evs ->
  logs_of evs' = logs_of evs -> metrics_of evs' = metrics_of evs ->
  threads_inv (w_thread_streams w) ids ns evs' -> world_inv w ids ns evs'.
Proof.
  intros Hb Hl Hm El Em Ht. exists d. unfold log_inv, metrics_inv in *. rewrite El, Em. by split_and!.
Qed.

Lemma log_inv_thread_block d ns evs b : log_inv d ns evs -> log_inv d (ns ++ [ThreadBlock_ b]) evs.
Proof. unfold log_inv. rewrite log_blocks_app. cbn. by rewrite app_nil_r. Qed.
Lemma metrics_inv_thread_block d ns evs b :
  metrics_inv d ns evs -> metrics_inv d (ns ++ [ThreadBlock_ b]) evs.
Proof. unfold metrics_inv. rewrite metrics_blocks_app. cbn. by rewrite app_nil_r. Qed.

Lemma record_thread c t a w ids ns evs s :
  world_inv w ids ns evs -> w_thread_streams w !! t = Some s -> event_ok a ->
  Z.of_nat (length (thread_of t (evs ++ [ThreadRecorded t a]))) < 2 ^ 64 ->
  exists w' ns', on_thread_event c t a w = Ok w' /\
    world_inv w' ids (ns ++ ns') (evs ++ [ThreadRecorded t a]).
Proof.
  intros (d & Hb & Hlog & Hm & Ht) Hs Ha Hl. pose proof Ht as (T1 & _).
  destruct (T1 t s Hs) as [Hid Hinv].
  destruct (stream_push _ _ (st_bytes (w_memory w)) _ _ _ a Hinv Ha) as (s' & Hpush & Hp & Hid' & Hfull).
  unfold on_thread_event. rewrite Hs. change push_thread_event with (@push_event ThreadEventQueueAny _ _). rewrite Hpush.
  cbn [mbind exec_bind]. rewrite own_thread in Hl.
  assert (base_inv (set_thread t s' w) d ns) as Hb'.
  { eapply base_update; try done; [apply Hb|]. intros t' Ht'. cbn.
    destruct (decide (t = t')) as [->|Hne]; [by rewrite lookup_insert_eq|by rewrite lookup_insert_ne]. }
  assert (logs_of (evs ++ [ThreadRecorded t a]) = logs_of evs) as El
    by (rewrite logs_of_app; cbn; by rewrite app_nil_r).
  assert (metrics_of (evs ++ [ThreadRecorded t a]) = metrics_of evs) as Em
    by (rewrite metrics_of_app; cbn; by rewrite app_nil_r).
  destruct (is_full s').
  - unfold flush_thread_buffer. cbn [set_thread set_threads w_thread_streams w_dispatch].
    rewrite lookup_insert_eq. pose proof Hb' as (Hd & _). cbn in Hd. rewrite Hd.
    rewrite <- Hid' in Hp.
    destruct (flush_thread c _ d ns t s' _ Hb' ltac:(cbn; by rewrite lookup_insert_eq) Hp Hl)
      as (w' & s2 & b & Hf & Hb2 & Hts & Hbid & Hid2 & Hinv2 & _).
    exists w', [ThreadBlock_ b]. split; [done|].
    apply (world_inv_parts _ _ _ evs _ d); try done; [by apply log_inv_thread_block|by apply metrics_inv_thread_block|].
    rewrite Hts. cbn [w_thread_streams set_thread set_threads]. rewrite insert_insert_eq.
    apply (threads_inv_flush _ _ _ evs _ t s); [done|done|congruence|congruence| |].
    + rewrite own_thread. by rewrite <- Hid'.
    + intros t' Hne. by apply other_thread.
  - exists (set_thread t s' w), []. split; [done|]. rewrite app_nil_r.
    apply (world_inv_parts _ _ _ evs _ d); try done. cbn [w_thread_streams set_thread set_threads].
    apply (threads_inv_insert _ _ ns evs _ _ t s); try done.
    + rewrite own_thread. by apply Hfull.
    + intros t' Hne. by apply other_thread.
    + intros b Hbn. by left.
    + apply Ht.
Qed.

(** *** Lengths *)
Lemma length_logs_of evs : (length (logs_of evs) <= length evs)%nat.
Proof. unfold logs_of. induction evs as [|[] evs IH]; cbn in *; lia. Qed.
Lemma length_metrics_of evs : (length (metrics_of evs) <= length evs)%nat.
Proof. unfold metrics_of. induction evs as [|[] evs IH]; cbn in *; lia. Qed.
Lemma length_thread_of t evs : (length (thread_of t evs) <= length evs)%nat.
Proof.
  induction evs as [|e evs IH] using rev_ind; [done|]. rewrite thread_of_app, length_app.
  destruct e as [|?|t' ?|t']; cbn; try lia; destruct (t' =? t); cbn; try lia. rewrite length_app. cbn. lia.
Qed.

(** *** Commands that record nothing *)
Lemma flush_logs_ok c w ids ns evs :
  world_inv w ids ns evs -> Z.of_nat (length evs) < 2 ^ 64 ->
  exists w' d' ns', flush_log_buffer c w = Ok w' /\ world_inv w' ids (ns ++ ns') evs /\
    w_dispatch w' = Some d' /\ is_empty (d_log_stream d') = true.
Proof.
  intros (d & Hb & Hlog & Hm & Ht) Hl. unfold flush_log_buffer. pose proof Hb as (Hd & _). rewrite Hd.
  pose proof (length_logs_of evs). destruct (stream_inv_pushed _ _ _ _ _ Hlog) as [He|Hp].
  - exists w, d, []. unfold Dispatch_flush_log_buffer. rewrite He, app_nil_r.
    split; [done|]. split; [by exists d|done].
  - destruct (flush_log c w d ns evs Hb Hp) as (w' & d' & b & Hf & Hb2 & Hl2 & Hm2 & He2 & Ht2); [lia|].
    exists w', d', [LogBlock_ b]. split; [done|]. split; [|split; [apply Hb2|done]].
    exists d'. split; [done|]. split; [done|].
    rewrite Ht2. split; [|by apply threads_inv_notice]. unfold metrics_inv.
    rewrite Hm2, metrics_blocks_app. cbn. by rewrite app_nil_r.
Qed.

Lemma flush_metrics_ok c w ids ns evs :
  world_inv w ids ns evs -> Z.of_nat (length evs) < 2 ^ 64 ->
  exists w' d' ns', flush_metrics_buffer c w = Ok w' /\ world_inv w' ids (ns ++ ns') evs /\
    w_dispatch w' = Some d' /\ is_empty (d_metrics_stream d') = true /\
    forall d, w_dispatch w = Some d -> d_log_stream d' = d_log_stream d.
Proof.
  intros (d & Hb & Hlog & Hm & Ht) Hl. unfold flush_metrics_buffer. pose proof Hb as (Hd & _). rewrite Hd.
  pose proof (length_metrics_of evs). destruct (stream_inv_pushed _ _ _ _ _ Hm) as [He|Hp].
  - exists w, d, []. unfold Dispatch_flush_metrics_buffer. rewrite He, app_nil_r.
    split; [done|]. split; [by exists d|]. split; [done|]. split; [done|]. by intros ? [= ->].
  - destruct (flush_metrics c w d ns evs Hb Hp) as (w' & d' & b & Hf & Hb2 & Hm2 & Hl2 & He2 & Ht2); [lia|].
    exists w', d', [MetricsBlock_ b]. split; [done|].
    split; [|split; [apply Hb2|split; [done|by intros ? [= <-]]]].
    exists d'. split; [done|].
    rewrite Ht2. split; [|split; [done|by apply threads_inv_notice]]. unfold log_inv.
    rewrite Hl2, log_blocks_app. cbn. by rewrite app_nil_r.
Qed.

Lemma flush_thread_ok c t w ids ns evs :
  world_inv w ids ns evs -> Z.of_nat (length evs) < 2 ^ 64 ->
  exists w' ns', flush_thread_buffer c t w = Ok w' /\ world_inv w' ids (ns ++ ns') evs /\
    forall s, w_thread_streams w' !! t = Some s -> is_empty s = true.
Proof.
  intros (d & Hb & Hlog & Hm & Ht) Hl. unfold flush_thread_buffer. pose proof Hb as (Hd & _).
  destruct (w_thread_streams w !! t) as [s|] eqn:Es.
  2:{ exists w, []. rewrite app_nil_r. split; [done|]. split; [by exists d|]. by rewrite Es. }
  rewrite Hd. pose proof (length_thread_of t evs). pose proof Ht as (T1 & _).
  destruct (T1 t s Es) as [Hid Hinv]. destruct (stream_inv_pushed _ _ _ _ _ Hinv) as [He|Hp].
  - exists w, []. unfold Dispatch_flush_thread_buffer. rewrite He, app_nil_r. split; [done|].
    split; [by exists d|]. rewrite Es. by intros s' [= <-].
  - destruct (flush_thread c w d ns t s _ Hb ltac:(by rewrite Es) Hp) as (w' & s2 & b & Hf & Hb2 & Hts & Hbid & Hid2 & Hinv2 & Hemp); [lia|].
    exists w', [ThreadBlock_ b]. split; [done|].
    split; [|rewrite Hts, lookup_insert_eq; by intros s' [= <-]].
    apply (world_inv_parts _ _ _ evs _ d); try done; [by apply log_inv_thread_block|by apply metrics_inv_thread_block|].
    rewrite Hts. by apply (threads_inv_flush _ _ _ evs _ t s).
Qed.

Lemma logs_of_started t evs : logs_of (evs ++ [ThreadStarted t]) = logs_of evs.
Proof. rewrite logs_of_app. cbn. by rewrite app_nil_r. Qed.
Lemma metrics_of_started t evs : metrics_of (evs ++ [ThreadStarted t]) = metrics_of evs.
Proof. rewrite metrics_of_app. cbn. by rewrite app_nil_r. Qed.

(** A thread that starts has an identifier that no block has. *)
Lemma thread_blocks_fresh sid ns :
  (forall b, ThreadBlock_ b ∈ ns -> eb_stream_id b <> sid) -> thread_blocks sid ns = [].
Proof.
  induction ns as [|n ns IH]; [done|]. intros Hb. unfold thread_blocks in *. cbn [omap list_omap].
  rewrite IH by (intros b Hin; apply Hb; by right).
  destruct n; try done. by rewrite (proj2 (Z.eqb_neq _ _)) by (apply Hb; by left).
Qed.

Lemma init_thread_ok id now t thread_id name w ids ns evs :
  world_inv w ids ns evs -> id ∉ ids ->
  exists w' ns', init_thread_stream id now t thread_id name w = Ok w' /\
    world_inv w' (id :: ids) (ns ++ ns') (evs ++ recorded w (InitThread id now t thread_id name)).
Proof.
  intros (d & Hb & Hlog & Hm & Ht) Hnew. unfold init_thread_stream, recorded.
  pose proof Hb as (Hd & _ & Hc & _). rewrite Hd.
  destruct Ht as (T1 & T2 & T3 & T4).
  destruct (w_thread_streams w !! t) as [s|] eqn:Es.
  { exists w, []. rewrite !app_nil_r. split; [done|]. exists d. split; [done|]. split; [done|].
    split; [done|]. split; [|split; [done|split]].
    - done.
    - intros b Hbn. right. by apply T3.
    - by apply announced_more. }
  unfold Dispatch_init_thread_stream. destruct (config_sizes d Hc) as (Ep & _ & _ & El).
  destruct Hbig as (_ & _ & Hsz). rewrite El, Ep.
  destruct (stream_new (Any := ThreadEventQueueAny) _ (cf_pid cf) Hsz id now ["cpu"]
    (thread_properties thread_id name)) as (s & -> & Hinv & Hsid & Hspid). cbn [mbind exec_bind].
  pose proof (base_notify w d ns (ThreadStream s) Hb) as Hb2.
  exists (set_dispatch (set_thread_streams (d_thread_streams d ++ [t]) d)
            (set_thread t s (call_sink d (notify (ThreadStream s)) w))), [ThreadStream s].
  split; [done|].
  assert (w_thread_streams (call_sink d (notify (ThreadStream s)) w) = w_thread_streams w) as Ets
    by (unfold call_sink; by destruct (d_sink d)).
  exists (set_thread_streams (d_thread_streams d ++ [t]) d).
  split; [|split; [|split; [|split; [|split; [|split]]]]].
  - destruct Hb2 as (B1 & B2 & B3 & B4 & B5 & B6). split_and!; try done. intros E.
    cbn. rewrite Ets in *. apply list.Forall_app. split.
    + eapply list.Forall_impl; [by apply B6|]. intros t' Ht'.
      destruct (decide (t = t')) as [->|Hne]; [by rewrite lookup_insert_eq|by rewrite lookup_insert_ne].
    + repeat constructor. by rewrite lookup_insert_eq.
  - unfold log_inv. rewrite logs_of_started, log_blocks_app. cbn. by rewrite app_nil_r.
  - unfold metrics_inv. rewrite metrics_of_started, metrics_blocks_app. cbn. by rewrite app_nil_r.
  - intros t' s' Hs'. cbn in Hs'. rewrite Ets in Hs'. rewrite thread_of_app. cbn [thread_of_step].
    rewrite thread_blocks_app. cbn [thread_blocks omap list_omap]. rewrite app_nil_r.
    destruct (decide (t = t')) as [<-|Hne].
    + rewrite lookup_insert_eq in Hs'. injection Hs' as <-. rewrite Hsid. split.
      { rewrite thread_ids_app. apply elem_of_app. right. cbn. rewrite Hsid. by left. }
      rewrite Z.eqb_refl, thread_blocks_fresh; [done|]. intros b Hbn E. apply Hnew. rewrite <- E. by apply T3.
    + rewrite lookup_insert_ne in Hs' by done. rewrite (proj2 (Z.eqb_neq _ _)) by done.
      destruct (T1 t' s' Hs') as [Hi Hv]. split; [|done]. rewrite thread_ids_app. apply elem_of_app. by left.
  - intros t1 t2 s1 s2. cbn. rewrite Ets. intros E1 E2 E.
    destruct (decide (t = t1)) as [<-|N1], (decide (t = t2)) as [<-|N2]; [done| | |].
    + rewrite lookup_insert_eq in E1. rewrite lookup_insert_ne in E2 by done. injection E1 as <-.
      exfalso. apply Hnew. rewrite <- Hsid, E. by apply T4, (T1 t2).
    + rewrite lookup_insert_eq in E2. rewrite lookup_insert_ne in E1 by done. injection E2 as <-.
      exfalso. apply Hnew. rewrite <- Hsid, <- E. by apply T4, (T1 t1).
    + rewrite lookup_insert_ne in E1, E2 by done. by apply (T2 t1 t2 s1 s2).
  - intros b Hbn. right. apply T3. by destruct (in_notice_snoc _ _ _ Hbn).
  - rewrite <- Hsid. apply announced_thread; [done|by rewrite Hsid|done].
Qed.

Lemma thread_exit_ok t w ids ns evs :
  world_inv w ids ns evs -> no_exit = false -> world_inv (thread_exit t w) ids ns evs.
Proof.
  intros (d & (B1 & B2 & B3 & B4 & B5 & B6) & Hlog & Hm & T1 & T2 & T3) He. exists d.
  split; [|split; [done|split; [done|split; [|split; [|done]]]]].
  - split_and!; try done. by rewrite He.
  - intros t' s Hs. cbn in Hs. apply lookup_delete_Some in Hs as [_ Hs]. by apply T1.
  - intros t1 t2 s1 s2 E1 E2. cbn in E1, E2. apply lookup_delete_Some in E1 as [_ E1].
    apply lookup_delete_Some in E2 as [_ E2]. by apply T2.
Qed.

(** The iteration over the streams, when every thread is there *)
Lemma set_threads_full_ok w ids ns evs :
  world_inv w ids ns evs -> no_exit = true ->
  exists w', for_each_thread_stream set_full w = Ok w' /\ world_inv w' ids ns evs.
Proof.
  intros (d & Hb & Hlog & Hm & Ht) He. unfold for_each_thread_stream, Dispatch_for_each_thread_stream.
  pose proof Hb as (Hd & _). rewrite Hd. pose proof Hb as (_ & _ & _ & _ & _ & B6).
  specialize (B6 He). revert B6. generalize (d_thread_streams d). intros l Hall.
  clear Hd. revert w Hb Ht Hall. induction l as [|t l IH]; intros w Hb Ht Hall; cbn [foldM].
  { exists w. split; [done|]. by exists d. }
  inversion_clear Hall as [|? ? [s Hs] Hl]. rewrite Hs. cbn [mbind exec_bind].
  assert (forall t', is_Some (w_thread_streams w !! t') ->
    is_Some (w_thread_streams (set_thread t (set_full s) w) !! t')) as Hdom.
  { intros t' Ht'. cbn. destruct (decide (t = t')) as [->|Hne];
      [by rewrite lookup_insert_eq|by rewrite lookup_insert_ne]. }
  apply IH.
  - eapply base_update; try done. apply Hb.
  - cbn. pose proof Ht as (T1 & _). destruct (T1 t s Hs) as [Hid Hv].
    apply (threads_inv_insert _ _ ns evs _ _ t s); try done.
    + apply stream_set_full; [apply Hbig|done].
    + intros b Hbn. by left.
    + apply Ht.
  - eapply list.Forall_impl; [exact Hl|]. apply Hdom.
Qed.

(** *** Every command *)
Lemma on_thread_event_none c t a w :
  w_thread_streams w !! t = None -> on_thread_event c t a w = Ok w.
Proof. unfold on_thread_event. by intros ->. Qed.

Lemma thread_command_ok c t a w ids ns evs :
  world_inv w ids ns evs ->
  let r := match w_thread_streams w !! t with Some _ => [ThreadRecorded t a] | None => [] end in
  Forall event_fits r -> Z.of_nat (length (evs ++ r)) < 2 ^ 64 ->
  exists w' ns', on_thread_event c t a w = Ok w' /\ world_inv w' ids (ns ++ ns') (evs ++ r).
Proof.
  intros Hw r Hf Hl. unfold r in *. destruct (w_thread_streams w !! t) as [s|] eqn:Es.
  - inversion_clear Hf as [|? ? Ha _]. pose proof (length_thread_of t (evs ++ [ThreadRecorded t a])).
    eapply record_thread; [done|done|done|lia].
  - exists w, []. rewrite !app_nil_r. by rewrite on_thread_event_none.
Qed.

Lemma world_inv_counter n w ids ns evs :
  world_inv w ids ns evs -> world_inv (set_counter n w) ids ns evs.
Proof. done. Qed.

Lemma base_memory m w d ns : base_inv w d ns -> base_inv (set_memory m w) d ns.
Proof. done. Qed.

Lemma async_command_ok c t a n (id : Z) w ids ns evs :
  world_inv w ids ns evs ->
  let r := match w_thread_streams w !! t with Some _ => [ThreadRecorded t a] | None => [] end in
  Forall event_fits r -> Z.of_nat (length (evs ++ r)) < 2 ^ 64 ->
  exists w' ns', ('(_, w) ← (w ← on_thread_event c t a (set_counter n w); Ok (id, w)); Ok w) = Ok w' /\
    world_inv w' ids (ns ++ ns') (evs ++ r).
Proof.
  intros Hw r Hf Hl.
  destruct (thread_command_ok c t a (set_counter n w) ids ns evs Hw Hf Hl) as (w' & ns' & E & Hw').
  exists w', ns'. by rewrite E.
Qed.

Lemma sink_on_log_ok w d ns md time args :
  base_inv w d ns ->
  base_inv (sink_on_log d w md time args).1 d ns /\
  w_thread_streams (sink_on_log d w md time args).1 = w_thread_streams w.
Proof.
  intros (B1 & B2 & B3 & B4 & B5 & B6). unfold sink_on_log. rewrite B2.
  destruct (on_log_sent (w_sink w) md time args B4) as [Ho Hs].
  destruct (on_log (w_sink w) md time args) as [s md']. cbn in *. split; [|done].
  unfold base_inv. cbn. rewrite Hs. by split_and!.
Qed.

Lemma log_ok c desc args w ids ns evs :
  world_inv w ids ns evs -> command_ok w (Log c desc args) ->
  Z.of_nat (length (evs ++ recorded w (Log c desc args))) < 2 ^ 64 ->
  exists w' ns', log c desc args w = Ok w' /\
    world_inv w' ids (ns ++ ns') (evs ++ recorded w (Log c desc args)).
Proof.
  intros (d & Hb & Hlog & Hm & Ht) (Hf & md & Hmd) Hl. unfold log, recorded in *.
  pose proof Hb as (Hd & _). rewrite Hd in *. unfold Dispatch_log. rewrite Hmd in *.
  cbn [mbind exec_bind]. destruct (sink_log_enabled d w md) as [enabled md'] eqn:Een. cbn [fst] in *.
  destruct enabled; cbn [negb].
  2:{ eexists _, []. split; [done|]. rewrite !app_nil_r. exists d. by split_and!. }
  inversion_clear Hf as [|? ? Ha _].
  pose proof (length_logs_of (evs ++ [LogRecorded (log_event (c_now c) desc args)])).
  pose proof (sink_on_log_ok (set_memory (store_word desc (ld_level_filter md') (w_memory w)) w) d ns md'
    (c_now c) args (base_memory _ _ _ _ Hb)) as [Hb2 Hts].
  destruct (sink_on_log d _ md' (c_now c) args) as [w2 md2]. cbn [fst] in *.
  apply record_log; [by apply base_memory|done|done| |done|lia].
  change (w_thread_streams (set_memory _ w2)) with (w_thread_streams w2). by rewrite Hts.
Qed.

Lemma log_interop_ok c desc args w ids ns evs :
  world_inv w ids ns evs -> command_ok w (LogInterop c desc args) ->
  Z.of_nat (length (evs ++ recorded w (LogInterop c desc args))) < 2 ^ 64 ->
  exists w' ns', log_interop c desc args w = Ok w' /\
    world_inv w' ids (ns ++ ns') (evs ++ recorded w (LogInterop c desc args)).
Proof.
  intros (d & Hb & Hlog & Hm & Ht) (Hf & _) Hl. unfold log_interop, recorded in *.
  pose proof Hb as (Hd & _). rewrite Hd in *. unfold Dispatch_log_interop.
  inversion_clear Hf as [|? ? Ha _].
  pose proof (length_logs_of (evs ++ [LogRecorded (interop_event w d c desc args)])).
  unfold interop_event in *. pose proof (sink_on_log_ok w d ns desc (c_now c) args Hb) as [Hb2 Hts].
  destruct (sink_on_log d w desc (c_now c) args) as [w2 md2]. cbn [fst] in *.
  assert (base_inv (intern_string (ld_target md2) w2).2 d ns /\
    w_thread_streams (intern_string (ld_target md2) w2).2 = w_thread_streams w2) as [Hb3 Hts3].
  { unfold intern_string. by destruct (w_interned w2 !! ld_target md2). }
  destruct (intern_string (ld_target md2) w2) as [target w3]. cbn [fst snd] in *.
  apply record_log; [done|done|done|by rewrite Hts3, Hts|done|lia].
Qed.

Lemma command_step cmd w ids ns evs :
  world_inv w ids ns evs -> command_ok w cmd ->
  Z.of_nat (length (evs ++ recorded w cmd)) < 2 ^ 64 ->
  Forall (fun id => id ∉ ids) (drawn [cmd]) ->
  (is_exit cmd = true -> no_exit = false) -> (is_set_full cmd = true -> no_exit = true) ->
  exists w' ns', exec_command cmd w = Ok w' /\
    world_inv w' (drawn [cmd] ++ ids) (ns ++ ns') (evs ++ recorded w cmd).
Proof.
  intros Hw Hok Hl Hid Hexit Hfull. pose proof Hw as (d & Hb & Hlog & Hm & Ht).
  pose proof Hb as (Hd & _). pose proof Hok as (Hf & _). 
  pose proof (length_metrics_of (evs ++ recorded w cmd)) as Hlm.
  destruct cmd; cbn [exec_command drawn omap list_omap app] in *.
  - by apply log_ok.
  - by apply log_interop_ok.
  - unfold int_metric, recorded in *. rewrite Hd in *. inversion_clear Hf. eapply record_metric; try done. lia.
  - unfold float_metric, recorded in *. rewrite Hd in *. inversion_clear Hf. eapply record_metric; try done. lia.
  - unfold recorded in *. rewrite Hd in *. by apply thread_command_ok.
  - unfold recorded in *. rewrite Hd in *. by apply thread_command_ok.
  - unfold recorded in *. rewrite Hd in *. by apply thread_command_ok.
  - unfold recorded in *. rewrite Hd in *. by apply thread_command_ok.
  - unfold recorded in *. rewrite Hd in *. by apply async_command_ok.
  - unfold recorded in *. rewrite Hd in *. by apply thread_command_ok.
  - unfold recorded in *. rewrite Hd in *. by apply async_command_ok.
  - unfold recorded in *. rewrite Hd in *. by apply thread_command_ok.
  - unfold recorded in *. rewrite Hd in *. cbn [thread_event] in *. rewrite app_nil_r in *.
    destruct (flush_logs_ok c w ids ns evs Hw Hl) as (w' & _ & ns' & E & Hw' & _). by exists w', ns'.
  - unfold recorded in *. rewrite Hd in *. cbn [thread_event] in *. rewrite app_nil_r in *.
    destruct (flush_metrics_ok c w ids ns evs Hw Hl) as (w' & _ & ns' & E & Hw' & _). by exists w', ns'.
  - unfold recorded in *. rewrite Hd in *. cbn [thread_event] in *. rewrite app_nil_r in *.
    destruct (flush_thread_ok c t w ids ns evs Hw Hl) as (w' & ns' & E & Hw' & _). by exists w', ns'.
  - inversion_clear Hid. by apply init_thread_ok.
  - unfold recorded in *. rewrite Hd in *. cbn [thread_event] in *. rewrite app_nil_r in *.
    eexists _, []. rewrite app_nil_r. split; [done|]. apply thread_exit_ok; [done|by apply Hexit].
  - unfold recorded in *. rewrite Hd in *. cbn [thread_event] in *. rewrite app_nil_r in *.
    destruct (set_threads_full_ok w ids ns evs Hw (Hfull eq_refl)) as (w' & E & Hw').
    exists w', []. by rewrite app_nil_r.
Qed.

Lemma length_recorded w cmd : (length (recorded w cmd) <= 1)%nat.
Proof.
  unfold recorded. destruct (w_dispatch w) as [d|]; [|cbn; lia].
  assert (forall o : option (Thread * ThreadEventQueueAny), (length (match o with
    | Some (t, a) => match w_thread_streams w !! t with Some _ => [ThreadRecorded t a] | None => [] end
    | None => [] end) <= 1)%nat) as Ho.
  { intros [[t a]|]; [destruct (w_thread_streams w !! t)|]; cbn; lia. }
  destruct cmd; try apply Ho; try (cbn; lia).
  - destruct (log_desc_at _ _) as [md| | | |]; cbn; try lia. destruct (sink_log_enabled d w md).1; cbn; lia.
  - destruct (w_thread_streams w !! t); cbn; lia.
Qed.

Lemma drawn_app x y : drawn (x ++ y) = drawn x ++ drawn y.
Proof. apply omap_app. Qed.

(** A sequence of commands *)
Lemma run_inv cmds w ids ns evs :
  world_inv w ids ns evs -> run_ok w cmds -> Z.of_nat (length evs + length cmds) < 2 ^ 64 ->
  NoDup (drawn cmds) -> (forall id, id ∈ drawn cmds -> id ∉ ids) ->
  (existsb is_exit cmds = true -> no_exit = false) ->
  (existsb is_set_full cmds = true -> no_exit = true) ->
  exists w' evs' ids' ns', run w cmds = Ok (w', evs') /\ world_inv w' ids' (ns ++ ns') (evs ++ evs') /\
    forall id, id ∈ ids' -> id ∈ drawn cmds \/ id ∈ ids.
Proof.
  revert w ids ns evs. induction cmds as [|cmd cmds IH]; intros w ids ns evs Hw Hok Hl Hnd Hid He Hf.
  { exists w, [], ids, []. rewrite !app_nil_r. split; [done|]. split; [done|]. by right. }
  destruct Hok as [Hc Hok]. pose proof (length_recorded w cmd) as Hr.
  change (cmd :: cmds) with ([cmd] ++ cmds) in Hnd, Hid. rewrite drawn_app in Hnd, Hid.
  apply list.NoDup_app in Hnd as (_ & Hdis & Hnd). cbn [length] in Hl. cbn [existsb] in He, Hf.
  destruct (command_step cmd w ids ns evs Hw Hc) as (w1 & ns1 & E & Hw1).
  { rewrite length_app. lia. }
  { apply list.Forall_forall. intros id Hin. apply Hid. apply elem_of_app. by left. }
  { intros Hx. apply He. by rewrite Hx. }
  { intros Hx. apply Hf. by rewrite Hx. }
  destruct (IH w1 _ _ _ Hw1 (Hok w1 E)) as (w2 & evs2 & ids2 & ns2 & E2 & Hw2 & Hids).
  { rewrite length_app. lia. }
  { done. }
  { intros id Hin Hin2. apply elem_of_app in Hin2 as [Hin2|Hin2]; [by apply (Hdis id)|].
    by apply (Hid id); [apply elem_of_app; right|]. }
  { intros Hx. apply He. rewrite Hx. apply orb_true_r. }
  { intros Hx. apply Hf. rewrite Hx. apply orb_true_r. }
  exists w2, (recorded w cmd ++ evs2), ids2, (ns1 ++ ns2). split.
  - cbn [run]. rewrite E. cbn [mbind exec_bind]. rewrite E2. done.
  - rewrite !app_assoc. split; [done|]. intros id Hi. change (cmd :: cmds) with ([cmd] ++ cmds).
    rewrite drawn_app, elem_of_app. destruct (Hids id Hi) as [|Hi2]; [by left; right|].
    apply elem_of_app in Hi2 as [|]; [by left; left|by right].
Qed.
End spec.

(** ** The start of the dispatcher *)
Section start.
Context `{HA : LawfulAbi} `{Alloc} {S M : Type} `{HS : LawfulSink S M}.
Context `{UuidText} `{UuidParse}.

(** What the sink hears first: the process, then the two streams *)
Definition greeting (su : Startup) (w : World S) (d : Dispatch) : list notice :=
  let parent_process := match w_parent_process w with Some s => try_parse s | None => None end in
  [Started (make_process_info (su_machine su) (su_start su) (su_process_id su) parent_process);
   LogStream (d_log_stream d); MetricsStream (d_metrics_stream d)].

Lemma dispatch_new_ok su lsz msz tsz w :
  let cf := startup_config su lsz msz tsz in
  big_enough cf -> is_open (w_sink w) -> w_thread_streams w = ∅ ->
  exists w' d, Dispatch_new su lsz msz tsz w = Ok w' /\
    w_dispatch w' = Some d /\
    stream_id (d_log_stream d) = su_log_stream_id su /\
    stream_id (d_metrics_stream d) = su_metrics_stream_id su /\
    forall no_exit, world_inv cf (sent (w_sink w)) no_exit w' [] (greeting su w d) [].
Proof.
  intros cf (Hl & Hm & Ht) Ho Hts. cbn [cf_logs cf_metrics cf cf_threads] in *. unfold Dispatch_new.
  destruct (stream_new (Any := LogMsgQueueAny) lsz (su_process_id su) Hl (su_log_stream_id su)
    (su_log_begin su) ["log"] ∅) as (ls & -> & Hls & Eid & _). cbn [mbind exec_bind].
  destruct (stream_new (Any := MetricsMsgQueueAny) msz (su_process_id su) Hm (su_metrics_stream_id su)
    (su_metrics_begin su) ["metrics"] ∅) as (ms & -> & Hms & Eid2 & _). cbn [mbind exec_bind].
  set (d := mkDispatch (su_process_id su) lsz msz tsz ls ms [] UserSink).
  set (n1 := Started (make_process_info (su_machine su) (su_start su) (su_process_id su)
    match w_parent_process w with Some s => try_parse s | None => None end)).
  destruct (notify_sent n1 (w_sink w) Ho) as [O1 S1].
  destruct (notify_sent (LogStream ls) _ O1) as [O2 S2].
  destruct (notify_sent (MetricsStream ms) _ O2) as [O3 S3].
  eexists _, d. split; [done|]. split; [done|]. split; [done|]. split; [done|].
  intros no_exit. exists d. split; [|split; [done|split; [done|]]].
  - split_and!; try done.
    + unfold config_of. cbn. by rewrite Eid, Eid2.
    + cbn in S1, S2, S3 |- *. unfold n1 in S1. rewrite S3, S2, S1. by rewrite <- !app_assoc.
  - cbn. rewrite Hts. split; [|split; [|split]].
    + intros t s. by rewrite lookup_empty.
    + intros t t' s s'. by rewrite lookup_empty.
    + intros b Hb. apply list_elem_of_In in Hb. cbn in Hb. by repeat destruct Hb as [Hb|Hb].
    + split; [constructor|]. split; [intros i Hi; by apply elem_of_nil in Hi|]. split; [done|by repeat constructor].
Qed.
End start.

(** ** Properties *)

(** C26. Nothing is lost between the process and the sink: whatever commands are
    run after the dispatcher was initialized, with buffers of at least 128
    bytes, none of them panics or reads outside of the memory, and the sink
    hears the process and its streams, then blocks.  Each event that was
    recorded is in exactly one block of its stream, in the order of the records,
    or in the block in progress; the offsets of the blocks count the events
    before them, and a block never grows after it has less than 128 bytes
    left; this holds of the log, of the metrics and of each thread that has not
    ended.  The commands are valid ([run_ok]), and the streams of threads that
    ended are not visited, which is undefined behaviour
    ([exited_stream_visited]): no commands both end a thread and mark the
    streams of all threads full. *)
Theorem dispatch_delivers `{HA : LawfulAbi} `{Alloc} {S M : Type} `{HS : LawfulSink S M}
    `{UuidText} `{UuidParse} STATIC_MAX_LEVEL su c desc lsz msz tsz (sink : S) (w : World S) :
  big_enough (startup_config su lsz msz tsz) -> is_open sink ->
  w_dispatch w = None -> w_thread_streams w = ∅ ->
  exists w1 d,
    init_event_dispatch STATIC_MAX_LEVEL su c desc lsz msz tsz sink w = Ok (Initialized, w1) /\
    w_dispatch w1 = Some d /\
    forall cmds, run_ok w1 cmds -> Z.of_nat (length cmds) < 2 ^ 64 -> NoDup (drawn cmds) ->
      (existsb is_exit cmds = true -> existsb is_set_full cmds = false) ->
    exists w2 d2 evs ns, run w1 cmds = Ok (w2, evs) /\ w_dispatch w2 = Some d2 /\
      sent (w_sink w2) = sent sink ++ map encode (greeting su w d ++ ns) /\
      stream_id (d_log_stream d2) = su_log_stream_id su /\
      stream_id (d_metrics_stream d2) = su_metrics_stream_id su /\
      stream_inv lsz (su_process_id su) (log_blocks ns) (d_log_stream d2) (logs_of evs) /\
      stream_inv msz (su_process_id su) (metrics_blocks ns) (d_metrics_stream d2) (metrics_of evs) /\
      forall t s, w_thread_streams w2 !! t = Some s ->
        stream_inv tsz (su_process_id su) (thread_blocks (stream_id s) ns) s (thread_of t evs).
Proof.
  intros Hbig Ho Hd Hts. unfold init_event_dispatch. rewrite Hd.
  destruct (dispatch_new_ok su lsz msz tsz (set_sink sink w) Hbig Ho Hts)
    as (w1 & d & -> & Hd1 & _ & _ & Hinv).
  exists w1, d. split; [done|]. split; [done|]. intros cmds Hok Hl Hnd Hx.
  destruct (run_inv _ _ (negb (existsb is_exit cmds)) Hbig cmds w1 [] _ [] (Hinv _) Hok)
    as (w2 & evs & ids & ns & Hrun & (d2 & (B1 & _ & B3 & _ & B5 & _) & Hlog & Hm & Ht & _) & _);
    [cbn; lia|done|set_solver|by intros ->| |].
  { destruct (existsb is_exit cmds); [|done]. by rewrite Hx. }
  exists w2, d2, evs, ns. split; [done|]. split; [done|]. split; [done|].
  split; [exact (f_equal cf_log_stream B3)|]. split; [exact (f_equal cf_metrics_stream B3)|].
  unfold log_inv, metrics_inv in *. rewrite log_blocks_app in Hlog. rewrite metrics_blocks_app in Hm.
  split; [done|]. split; [done|]. intros t s Hs. destruct (Ht t s Hs) as [_ Hv].
  by rewrite thread_blocks_app in Hv.
Qed.

(** *** A concrete process *)
Module DispatchExample.
#[export] Existing Instances natural_abi natural_lawful.
#[export] Instance alloc_after : Alloc := fun _ _ => 1000.
#[export] Instance uuid_text : UuidText := fun _ => "6ba7b810".
#[export] Instance uuid_parse : UuidParse := fun _ => None.
Definition text : str_ref := mkStr 100 2.
Definition md : LogMetadata := mkLogMetadata Level.Info 15 text text text text 42.
Definition st : statics :=
  mkStatics {[ 100 := byte.of_Z 97; 101 := byte.of_Z 98 ]} {[ 500 := md ]} ∅ ∅ ∅.
Definition w0 : World Recorder := mkWorld None ∅ 0 st ∅ None initial_max_filters (mkRecorder []).
Definition machine : Machine := mkMachine "app" "u" "u" "c" "d" "cpu" 1000000000.
Definition su : Startup :=
  mkStartup 7 8 9 (mkDualTime 10 100) (mkDualTime 11 100) (mkDualTime 9 99) machine.
Definition c (n : Z) : Clock := mkClock n (mkDualTime n 200) (mkDualTime n 200).
(** Blocks of 160 bytes, where two events fit *)
Definition cmds : list command :=
  [Log (c 20) 500 (mkArguments None "hello"); Log (c 21) 500 (mkArguments (Some text) "ab");
   IntMetric (c 22) 600 5; InitThread 10 (mkDualTime 23 100) 1 "1" (Some "main");
   BeginScope (c 24) 1 700; SetThreadsFull; EndScope (c 25) 1 700; Log (c 26) 500 (mkArguments (Some text) "ab");
   FlushLogs (c 27)].
Definition w1 : World Recorder :=
  match Dispatch_new su 160 160 160 w0 with Ok w => w | _ => w0 end.
End DispatchExample.
Import DispatchExample.

(** A command that succeeds *)
Lemma run_ok_cons `{HA : LawfulAbi} `{Alloc} {S M : Type} `{HS : LawfulSink S M} (w w1 : World S)
    cmd cmds :
  exec_command cmd w = Ok w1 -> command_ok w cmd -> run_ok w1 cmds -> run_ok w (cmd :: cmds).
Proof. intros E Hc Hr. split; [done|]. intros w2 E2. rewrite E in E2. by injection E2 as <-. Qed.

Ltac run_command :=
  eapply run_ok_cons;
    [vm_compute; reflexivity
    |split; [cbn; repeat constructor; try done; unfold in_u, in_i; cbn; lia|cbn; try done; by eexists]|].

Lemma example_run_ok : run_ok w1 cmds.
Proof.
  unfold cmds. do 9 run_command. exact I.
Qed.

Lemma dispatch_delivers_witness :
  exists d w2 d2 evs ns, run w1 cmds = Ok (w2, evs) /\
    heard (w_sink w2) = greeting su w0 d ++ ns /\
    stream_inv 160 7 (log_blocks ns) (d_log_stream d2) (logs_of evs) /\
    stream_inv 160 7 (metrics_blocks ns) (d_metrics_stream d2) (metrics_of evs).
Proof.
  destruct (dispatch_delivers (M := notice) LevelFilter.Trace su (c 0) 500 160 160 160 (mkRecorder []) w0)
    as (w & d & Hinit & _ & Hrun); [by split|done|done|done|].
  assert (w = w1) as ->.
  { apply (f_equal (fun r => match r with Ok (_, x) => x | _ => w1 end)) in Hinit.
    etransitivity; [symmetry; exact Hinit|reflexivity]. }
  destruct (Hrun cmds example_run_ok) as (w2 & d2 & evs & ns & E & _ & Hs & _ & _ & Hlog & Hm & _);
    [done|cbn; repeat constructor; set_solver|cbn; discriminate|].
  exists d, w2, d2, evs, ns. split; [exact E|]. split; [|by split].
  cbn [sent encode Recorder_LawfulSink heard app] in Hs. by rewrite map_id in Hs.
Defined.
