(* ===== verification/Guards.v ===== *)
(** * Guards, the panic hook and the flush monitor

    [tracing/src/guards.rs], [panic_hook.rs] and [flush_monitor.rs].  A guard is
    a value whose construction and whose drop are operations of the dispatcher;
    a [program] is code that holds guards in nested scopes, where a panic
    unwinds through the scopes and drops their guards.  [tick] of the flush
    monitor runs as a whole: the streams of the threads are marked full while
    the threads run. *)

From S2P Require Import Prelude RustString Float Transit Queue Pod Parser PodParser Blocks.
From S2P Require Import Levels.
From S2P Require Import LogFilter Deps LogEvents LogBlock Time Stream MetricsBlock SpanEvents.
From S2P Require Import ThreadBlock Sink Dispatch.

Section guards.
Context `{Abi} `{Alloc} {S : Type} `{EventSink S}.

(** ** Panic hooks

    [current_hook] is the hook of the standard library, which [take_hook]
    replaces by the default one; [previous_hook] is the static variable of
    [init_panic_hook]. *)
Inductive hook := DefaultHook | UserHook (id : Z) | TelemetryHook.
Record PanicHooks := mkPanicHooks { current_hook : hook; previous_hook : option hook }.

Definition init_panic_hook (h : PanicHooks) : exec PanicHooks :=
  _ ← assert_true (match previous_hook h with None => true | Some _ => false end);
  Ok (mkPanicHooks TelemetryHook (Some (current_hook h))).

(** ** The system *)
Definition shutdown_telemetry (c : Clock) (w : World S) : exec (World S) :=
  w ← flush_log_buffer c w;
  w ← flush_metrics_buffer c w;
  Ok (shutdown_dispatch w).

Section system.
Context (STATIC_MAX_LEVEL : LevelFilter).

(** The closure that [init_panic_hook] sets: the entry of the panic has the
    description at [desc]; the hook that is called then is returned. *)
Definition panic_hook (c : Clock) (desc : Z) (panic_info : string) (h : PanicHooks) (w : World S)
  : exec (World S * option hook) :=
  w ← log_macro STATIC_MAX_LEVEL c desc Level.Error (mkArguments None panic_info) w;
  w ← shutdown_telemetry c w;
  Ok (w, previous_hook h).

Context `{UuidText} `{UuidParse}.

Definition init_telemetry (su : Startup) (c : Clock) (desc : Z)
    (logs_buffer_size metrics_buffer_size threads_buffer_size : Z) (sink : S) (w : World S)
    (h : PanicHooks) : exec (init_result * World S * PanicHooks) :=
  '(r, w) ← init_event_dispatch STATIC_MAX_LEVEL su c desc logs_buffer_size metrics_buffer_size
              threads_buffer_size sink w;
  match r with
  | Initialized => h ← init_panic_hook h; Ok (r, w, h)
  | AlreadyInitialized => Ok (r, w, h)
  end.
Definition TracingSystemGuard_new := init_telemetry.
Definition TracingSystemGuard_drop := shutdown_telemetry.
End system.

(** ** Threads *)
Definition TracingThreadGuard_new (new_v4 : Uuid) (now : DualTime) (t : Thread) (thread_id : string)
    (thread_name : option string) (w : World S) : exec (World S) :=
  init_thread_stream new_v4 now t thread_id thread_name w.
Definition TracingThreadGuard_drop (c : Clock) (t : Thread) (w : World S) : exec (World S) :=
  flush_thread_buffer c t w.

(** ** Spans *)
Record ThreadSpanGuard := mkThreadSpanGuard { tsg_desc : Z }.
Definition ThreadSpanGuard_new (c : Clock) (t : Thread) (thread_span_desc : Z) (w : World S)
  : exec (ThreadSpanGuard * World S) :=
  w ← on_begin_scope c t thread_span_desc w;
  Ok (mkThreadSpanGuard thread_span_desc, w).
Definition ThreadSpanGuard_drop (c : Clock) (t : Thread) (g : ThreadSpanGuard) (w : World S)
  : exec (World S) := on_end_scope c t (tsg_desc g) w.

Record ThreadNamedSpanGuard := mkThreadNamedSpanGuard { tng_location : Z; tng_name : str_ref }.
Definition ThreadNamedSpanGuard_new (c : Clock) (t : Thread) (thread_span_location : Z) (name : str_ref)
    (w : World S) : exec (ThreadNamedSpanGuard * World S) :=
  w ← on_begin_named_scope c t thread_span_location name w;
  Ok (mkThreadNamedSpanGuard thread_span_location name, w).
Definition ThreadNamedSpanGuard_drop (c : Clock) (t : Thread) (g : ThreadNamedSpanGuard) (w : World S)
  : exec (World S) := on_end_named_scope c t (tng_location g) (tng_name g) w.

Record AsyncSpanGuard := mkAsyncSpanGuard { asg_desc : Z; asg_id : Z }.
Definition AsyncSpanGuard_new (c : Clock) (t : Thread) (span_desc : Z) (w : World S)
  : exec (AsyncSpanGuard * World S) :=
  '(span_id, w) ← on_begin_async_scope c t span_desc w;
  Ok (mkAsyncSpanGuard span_desc span_id, w).
(** The thread that drops the guard may be another one. *)
Definition AsyncSpanGuard_drop (c : Clock) (t : Thread) (g : AsyncSpanGuard) (w : World S)
  : exec (World S) := on_end_async_scope c t (asg_id g) (asg_desc g) w.

Record AsyncNamedSpanGuard := mkAsyncNamedSpanGuard {
  ang_location : Z; ang_name : str_ref; ang_id : Z }.
Definition AsyncNamedSpanGuard_new (c : Clock) (t : Thread) (span_location : Z) (name : str_ref)
    (w : World S) : exec (AsyncNamedSpanGuard * World S) :=
  '(span_id, w) ← on_begin_async_named_scope c t span_location name w;
  Ok (mkAsyncNamedSpanGuard span_location name span_id, w).
Definition AsyncNamedSpanGuard_drop (c : Clock) (t : Thread) (g : AsyncNamedSpanGuard) (w : World S)
  : exec (World S) := on_end_async_named_scope c t (ang_id g) (ang_location g) (ang_name g) w.

(** ** Instrumented code

    The macros [span_scope!], [span_scope_named!], [async_span_scope!] and
    [async_span_scope_named!] declare a guard that is dropped at the end of the
    scope.  The readings of the clock are part of the program. *)
Inductive span_macro :=
| SpanScope (desc : Z)
| SpanScopeNamed (location : Z) (name : str_ref)
| AsyncSpanScope (desc : Z)
| AsyncSpanScopeNamed (location : Z) (name : str_ref).
Inductive program :=
| Return
| Unwind
| Scope (m : span_macro) (c_begin c_end : Clock) (body rest : program).

Inductive guard :=
| ThreadSpan (g : ThreadSpanGuard)
| ThreadNamedSpan (g : ThreadNamedSpanGuard)
| AsyncSpan (g : AsyncSpanGuard)
| AsyncNamedSpan (g : AsyncNamedSpanGuard).
Definition guard_new (c : Clock) (t : Thread) (m : span_macro) (w : World S) : exec (guard * World S) :=
  match m with
  | SpanScope desc => '(g, w) ← ThreadSpanGuard_new c t desc w; Ok (ThreadSpan g, w)
  | SpanScopeNamed location name =>
      '(g, w) ← ThreadNamedSpanGuard_new c t location name w; Ok (ThreadNamedSpan g, w)
  | AsyncSpanScope desc => '(g, w) ← AsyncSpanGuard_new c t desc w; Ok (AsyncSpan g, w)
  | AsyncSpanScopeNamed location name =>
      '(g, w) ← AsyncNamedSpanGuard_new c t location name w; Ok (AsyncNamedSpan g, w)
  end.
Definition guard_drop (c : Clock) (t : Thread) (g : guard) (w : World S) : exec (World S) :=
  match g with
  | ThreadSpan g => ThreadSpanGuard_drop c t g w
  | ThreadNamedSpan g => ThreadNamedSpanGuard_drop c t g w
  | AsyncSpan g => AsyncSpanGuard_drop c t g w
  | AsyncNamedSpan g => AsyncNamedSpanGuard_drop c t g w
  end.

(** Whether the program unwinds, and the world it leaves *)
Fixpoint run_program (t : Thread) (p : program) (w : World S) : exec (bool * World S) :=
  match p with
  | Return => Ok (false, w)
  | Unwind => Ok (true, w)
  | Scope m c_begin c_end body rest =>
      '(g, w) ← guard_new c_begin t m w;
      '(unwinds, w) ← run_program t body w;
      w ← guard_drop c_end t g w;
      if unwinds : bool then Ok (true, w) else run_program t rest w
  end.

(** ** FlushMonitor

    [now] is [Local::now().timestamp()]. *)
Record FlushMonitor := mkFlushMonitor { last_flush : Z; flush_period_seconds : Z }.
Definition FlushMonitor_new (now : Z) (flush_period_seconds : Z) : FlushMonitor :=
  mkFlushMonitor now flush_period_seconds.
Definition FlushMonitor_default (now : Z) : FlushMonitor := FlushMonitor_new now 60.

Definition time_to_flush_seconds (now : Z) (m : FlushMonitor) : exec Z :=
  seconds_since_flush ← i64_checked (now - last_flush m);
  i64_checked (flush_period_seconds m - seconds_since_flush).

Definition sink_is_busy (r : sink_ref) (w : World S) : bool :=
  match r with UserSink => is_busy (w_sink w) | NullSink => is_busy Null end.

(** [now'] is the time that is stored, and [c] the clock of the flushes. *)
Definition tick (now now' : Z) (c : Clock) (m : FlushMonitor) (w : World S)
  : exec (FlushMonitor * World S) :=
  time_to_flush ← time_to_flush_seconds now m;
  if time_to_flush <=? 0 then
    match get_sink w with
    | Some sink =>
        if sink_is_busy sink w then Ok (m, w) else
        let m := mkFlushMonitor now' (flush_period_seconds m) in
        w ← flush_log_buffer c w;
        w ← flush_metrics_buffer c w;
        w ← for_each_thread_stream set_full w;
        Ok (m, w)
    | None => Ok (m, w)
    end
  else Ok (m, w).
End guards.
