(* ===== verification/ParserTotal.v ===== *)
(** * Termination of the parser

    The loops of the parser end for every buffer, and the recursion over
    nested types ends when no type contains itself.  With a type whose instances
    begin with one of themselves it never ends, whatever the buffer. *)

From stdpp Require Import relations.
From S2P Require Import Prelude RustString Float Transit Parser.

(** ** Computations that return or fail *)
Definition terminates {A} (m : exec A) : Prop := m <> Diverges.

Create HintDb mm_term discriminated.

Lemma terminates_Ok {A} (a : A) : terminates (Ok a).
Proof. discriminate. Qed.
Lemma terminates_Err {A} l : terminates (Err l : exec A).
Proof. discriminate. Qed.
Lemma terminates_bail {A} msg : terminates (bail msg : exec A).
Proof. discriminate. Qed.
Lemma terminates_Panic {A} : terminates (Panic : exec A).
Proof. discriminate. Qed.
Lemma terminates_Ub {A} : terminates (Ub : exec A).
Proof. discriminate. Qed.
Lemma terminates_bind {A B} (m : exec A) (f : A -> exec B) :
  terminates m -> (forall a, m = Ok a -> terminates (f a)) -> terminates (m ≫= f).
Proof. unfold terminates. destruct m; cbn; eauto. Qed.
Lemma terminates_context {A} msg (m : exec A) : terminates m -> terminates (with_context msg m).
Proof. unfold terminates. destruct m; cbn; congruence. Qed.
Lemma terminates_unwrap {A} (o : option A) : terminates (unwrap o).
Proof. by destruct o. Qed.
Lemma terminates_assert b : terminates (assert_true b).
Proof. by destruct b. Qed.
Lemma terminates_add a b : terminates (usize_add a b).
Proof. unfold usize_add. by case_match. Qed.
Lemma terminates_sub a b : terminates (usize_sub a b).
Proof. unfold usize_sub. by case_match. Qed.
Lemma terminates_index b o : terminates (index_byte b o).
Proof. unfold index_byte. by case_match. Qed.
Lemma terminates_slice b x y : terminates (slice_range b x y).
Proof. unfold slice_range. by case_match. Qed.
Lemma terminates_read b x y : terminates (read_bytes b x y).
Proof. unfold read_bytes. by case_match. Qed.
#[export] Hint Resolve terminates_Ok terminates_Err terminates_bail terminates_Panic terminates_Ub
  terminates_context terminates_unwrap terminates_assert terminates_add terminates_sub
  terminates_index terminates_slice terminates_read : mm_term.

(** Walk through a [do]-block; what is left are the calls with no lemma. *)
Ltac term_step :=
  match goal with
  | |- terminates (_ ≫= _) => apply terminates_bind; [|intros ? ?]
  | |- terminates (with_context _ _) => apply terminates_context
  | |- terminates (match ?x with _ => _ end) => destruct x eqn:?
  | |- terminates (let '_ := ?x in _) => destruct x eqn:?
  | |- terminates _ => solve [auto with mm_term]
  end.
Ltac term := cbv zeta; repeat term_step.

Lemma terminates_read_u n b p : terminates (read_any_u n b p).
Proof. unfold read_any_u. term. Qed.
#[export] Hint Resolve terminates_read_u : mm_term.
Lemma terminates_read_i n b p : terminates (read_any_i n b p).
Proof. unfold read_any_i. term. Qed.
Lemma terminates_read_f b p : terminates (read_any_f64 b p).
Proof. unfold read_any_f64. term. Qed.
#[export] Hint Resolve terminates_read_i terminates_read_f : mm_term.

Lemma terminates_dyn_string b p sz : terminates (read_value (T := DynString) b p sz).
Proof. cbn. term. Qed.
Lemma terminates_parse_string b c : terminates (parse_string b c).
Proof. unfold parse_string. term. Qed.
#[export] Hint Resolve terminates_dyn_string terminates_parse_string : mm_term.

Lemma terminates_get {T} (g : Value -> exec T) o name :
  (forall v, terminates (g v)) -> terminates (get g o name).
Proof. intros Hg. unfold get. term. Qed.
Lemma terminates_get_u64 v : terminates (get_u64 v).
Proof. unfold get_u64. term. Qed.
#[export] Hint Resolve terminates_get terminates_get_u64 : mm_term.

(** ** Nested types *)

(** No type contains itself: the types can be ranked so that a type is above
    those of its members; there are no more ranks than types. *)
Definition ranked (udts : list UserDefinedType) (rank : string -> nat) : Prop :=
  forall udt, In udt udts ->
    (rank (udt_name udt) < length udts)%nat /\ 0 <= udt_size udt /\
    forall m u', In m (udt_members udt) -> m_is_reference m = false ->
      find_udt (m_type_name m) udts = Some u' -> (rank (udt_name u') < rank (udt_name udt))%nat.
Definition acyclic (udts : list UserDefinedType) : Prop := exists rank, ranked udts rank.

Lemma find_udt_In name udts u : find_udt name udts = Some u -> In u udts.
Proof.
  induction udts as [|t udts IH]; cbn; [discriminate|].
  case_match; [intros [= ->]; by left|]. right. by apply IH.
Qed.

Lemma lookup_udt_In (udts : list UserDefinedType) i u : udts !! i = Some u -> In u udts.
Proof. intros H. apply list_elem_of_In. by eapply list_elem_of_lookup_2. Qed.

Section parser.
Context (udts : list UserDefinedType) (rank : string -> nat) (Hrank : ranked udts rank).
Context (deps : dependencies_map).

Lemma terminates_mapM {A B} (f : A -> exec B) l :
  (forall x, In x l -> terminates (f x)) -> terminates (mapM_exec f l).
Proof.
  induction l as [|x l IH]; intros H; cbn [mapM_exec]; [apply terminates_Ok|].
  apply terminates_bind; [apply H; by left|]. intros y _.
  apply terminates_bind; [apply IH; intros; apply H; by right|]. intros ys _. apply terminates_Ok.
Qed.

Lemma terminates_member parse_pod off b m :
  (forall u' p, m_is_reference m = false -> find_udt (m_type_name m) udts = Some u' ->
     terminates (parse_pod u' p)) ->
  terminates (parse_member parse_pod udts deps off b m).
Proof.
  intros Hp. unfold parse_member, read_member. destruct (m_is_reference m) eqn:Er; term.
Qed.

Lemma terminates_pod fuel udt off b :
  In udt udts -> (rank (udt_name udt) < fuel)%nat ->
  terminates (parse_pod_instance_fuel fuel udt udts deps off b).
Proof.
  revert udt off. induction fuel as [|fuel IH]; intros udt off Hin Hf; [lia|].
  cbn [parse_pod_instance_fuel]. apply terminates_bind; [|intros; term].
  apply terminates_mapM. intros m Hm. apply terminates_member. intros u' p Hr Hu.
  destruct (Hrank udt Hin) as (_ & _ & Hlt). specialize (Hlt m u' Hm Hr Hu).
  apply IH; [by eapply find_udt_In|lia].
Qed.

Lemma terminates_instance udt off b :
  In udt udts -> terminates (parse_pod_instance udt udts deps off b).
Proof.
  intros Hin. apply terminates_pod; [done|]. destruct (Hrank udt Hin) as [? _]. lia.
Qed.

Lemma object_size_progress udt b off n o :
  In udt udts -> read_object_size udt b off = Ok (n, o) -> 0 <= n /\ off <= o.
Proof.
  intros Hin. unfold read_object_size. case_match.
  - intros H1. exec_inv H1. injection H1 as <- <-. apply read_any_u_range in Hr as [? _]. lia.
  - intros [= <- <-]. destruct (Hrank udt Hin) as (_ & ? & _). lia.
Qed.

Lemma terminates_dependency b off hash :
  (forall udt o, In udt udts -> terminates (parse_pod_instance udt udts hash o b)) ->
  terminates (read_dependency udts b off hash).
Proof.
  intros Hpod. unfold read_dependency, read_object_size, insert_new. term.
  apply Hpod. by eapply lookup_udt_In.
Qed.

Lemma dependency_progress b off hash hash' off' :
  read_dependency udts b off hash = Ok (hash', off') -> off < off'.
Proof.
  unfold read_dependency. intros H. exec_inv H.
  destruct (udts !! Z.to_nat r) as [udt|] eqn:E; [|discriminate H].
  apply bind_Ok_iff in H as ([n o] & H1 & H). exec_inv H. exec_inv H. injection H as _ <-.
  apply object_size_progress in H1; [|by eapply lookup_udt_In].
  unfold usize_add in Hr1. case_match; [|discriminate]. injection Hr1 as <-. lia.
Qed.

Lemma terminates_v3 b : terminates (parse_log_string_interop_event_v3 udts deps b).
Proof.
  unfold parse_log_string_interop_event_v3.
  term; apply terminates_instance; by eapply find_udt_In.
Qed.

Lemma terminates_object b off : terminates (parse_object deps udts b off).
Proof.
  unfold parse_object, read_object_size, parse_custom_instance, parse_log_string_event,
    parse_log_string_interop_event.
  pose proof terminates_v3 as H3. unfold terminates in H3.
  term; try (by edestruct H3); try (apply terminates_instance; first [by eapply lookup_udt_In|by eapply find_udt_In]).
Qed.
End parser.

Lemma terminates_dependencies_from udts rank fuel b off hash :
  ranked udts rank -> (0 < fuel)%nat -> blen b - off < Z.of_nat fuel ->
  terminates (read_dependencies_from fuel udts b off hash).
Proof.
  intros Hr. revert off hash.
  induction fuel as [|fuel IH]; intros off hash H0 Hf; [lia|].
  cbn [read_dependencies_from]. destruct (off <? blen b) eqn:E; [|auto with mm_term].
  apply Z.ltb_lt in E. apply terminates_bind.
  - apply terminates_dependency. intros. by eapply terminates_instance.
  - intros [h' off'] Hd. eapply dependency_progress in Hd; [|done]. apply IH; lia.
Qed.

Lemma object_progress udts rank deps b off v off' n :
  ranked udts rank -> parse_object deps udts b off = Ok (v, (off', n)) -> off < off' /\ 0 <= n.
Proof.
  intros Hr. unfold parse_object. intros H. exec_inv H.
  destruct (udts !! Z.to_nat r) as [udt|] eqn:E; [|discriminate H].
  apply bind_Ok_iff in H as ([m o] & H1 & H). exec_inv H. injection H as _ <- <-.
  eapply object_size_progress in H1; [|done|by eapply lookup_udt_In]. lia.
Qed.

Lemma terminates_objects_from {S} udts rank deps fuel b (f : S -> Value -> exec (S * bool)) off s :
  ranked udts rank -> (forall s v, terminates (f s v)) ->
  (0 < fuel)%nat -> blen b - off < Z.of_nat fuel ->
  terminates (parse_object_buffer_from fuel deps udts b f off s).
Proof.
  intros Hr Hfun. revert off s.
  induction fuel as [|fuel IH]; intros off s H0 Hf; [lia|].
  cbn [parse_object_buffer_from]. destruct (off <? blen b) eqn:E; [|auto with mm_term].
  apply Z.ltb_lt in E. apply terminates_bind; [by eapply terminates_object|].
  intros [v [off' n]] Ho. eapply object_progress in Ho as [H1 H2]; [|done].
  apply terminates_bind; [done|]. intros [s' []] _; [|auto with mm_term].
  apply terminates_bind; [auto with mm_term|]. intros o Ha.
  unfold usize_add in Ha. case_match; [|discriminate]. injection Ha as <-. apply IH; lia.
Qed.

(** ** Types that contain themselves *)

(** What [parse_member] reads itself *)
Definition primitive_names : list string :=
  ["u8"; "uint8"; "u32"; "uint32"; "u64"; "uint64"; "i64"; "int64"; "f64"].
(** An instance of [t] begins with an instance of [u]. *)
Definition begins_with (udts : list UserDefinedType) (t u : UserDefinedType) : Prop :=
  exists m ms, udt_members t = m :: ms /\ m_is_reference m = false /\ m_offset m = 0 /\
    (m_type_name m ∉ primitive_names) /\ find_udt (m_type_name m) udts = Some u.

Lemma begins_with_member parse_pod udts deps off b t u :
  begins_with udts t u -> in_u 63 off -> parse_pod u off = Diverges ->
  mapM_exec (parse_member parse_pod udts deps off b) (udt_members t) = Diverges.
Proof.
  intros (m & ms & -> & Href & Hoff & Hn & Hf) Ho Hd. cbn [mapM_exec]. unfold parse_member. cbv zeta.
  assert (forall s, s ∈ primitive_names -> String.eqb (m_type_name m) s = false) as Hne.
  { intros s Hs. apply String.eqb_neq. intros E. apply Hn. by rewrite E. }
  unfold primitive_names in Hne. rewrite Href, !Hne by set_solver. cbn [orb].
  unfold in_u in Ho. rewrite Hf, Hoff, usize_add_Ok, Z.add_0_r by lia. cbn [mbind exec_bind]. by rewrite Hd.
Qed.

(** The nesting never ends from a type that leads to itself, nor from those
    on the way. *)
Lemma cyclic_pod fuel udts t u deps off b :
  tc (begins_with udts) u t -> tc (begins_with udts) t t -> in_u 63 off ->
  parse_pod_instance_fuel fuel u udts deps off b = Diverges.
Proof.
  intros Hu Ht Hoff. revert u Hu. induction fuel as [|fuel IH]; intros u Hu; [done|].
  assert (exists v, begins_with udts u v /\ tc (begins_with udts) v t) as (v & Huv & Hv).
  { inversion Hu as [x y Hxy|x y z Hxy Hyz]; subst; [by exists t|by exists y]. }
  cbn [parse_pod_instance_fuel].
  by rewrite (begins_with_member _ _ _ _ _ u v Huv Hoff (IH v Hv)).
Qed.

(** The reads of the members are unsafe, and nothing compares them with the end
    of the buffer: an object that is cut short is read beyond it. *)
Lemma parser_reads_past {S} deps (f : S -> Value -> exec (S * bool)) s :
  parse_object_buffer deps [mkUDT "A" 4 [mkMember "x" "u32" 0 4 false] false []] [byte.of_Z 0] f s = Ub.
Proof. reflexivity. Qed.

(** ** Properties *)

(** C11. The parser ends for every buffer, well formed or not: when no type of
    the metadata contains itself, neither [read_dependencies] nor, for a
    function that ends, [parse_object_buffer] recurses or loops for ever.  What
    they end with is not said: a value, an error, a panic or, on a buffer that
    is cut short, an unsafe read beyond its end ([parser_reads_past]). *)
Theorem parser_terminates {S} udts obj_udts b obj_b deps (f : S -> Value -> exec (S * bool)) s :
  acyclic udts -> acyclic obj_udts -> (forall s v, f s v <> Diverges) ->
  read_dependencies udts b <> Diverges /\ parse_object_buffer deps obj_udts obj_b f s <> Diverges.
Proof.
  intros [r1 H1] [r2 H2] Hf. split.
  - apply (terminates_dependencies_from udts r1); [done|lia|unfold blen; lia].
  - apply (terminates_objects_from obj_udts r2); [done|done|lia|unfold blen; lia].
Qed.

(** C12. Nothing checks that: for a metadata, which a client may send, with a type
    whose instances begin with one of themselves, through any number of other
    types, the recursion on an instance of this type never ends, whatever the
    buffer, the offset and however deep it goes; so that a buffer that begins
    with an object of this type, whatever follows, is never parsed. *)
Theorem parser_cyclic_type {S} udts t deps (f : S -> Value -> exec (S * bool)) s :
  tc (begins_with udts) t t ->
  (forall fuel off b, in_u 63 off -> parse_pod_instance_fuel fuel t udts deps off b = Diverges) /\
  forall index b, udts !! Z.to_nat index = Some t -> in_u 8 index -> udt_size t <> 0 ->
    parse_object_buffer deps udts (byte.of_Z index :: b) f s = Diverges.
Proof.
  intros Ht. split; [intros; by eapply cyclic_pod|]. intros index b Hi Hin Hsize.
  unfold parse_object_buffer. cbn [length parse_object_buffer_from].
  replace (0 <? _) with true by (symmetry; apply Z.ltb_lt; rewrite blen_cons; blia).
  unfold parse_object. rewrite (index_byte_here [] (byte.of_Z index) b : index_byte (_ :: b) 0 = _).
  cbn [mbind exec_bind]. rewrite byte.unsigned_of_Z. unfold byte.wrap. rewrite Z.mod_small by exact Hin.
  rewrite Hi. unfold read_object_size. apply Z.eqb_neq in Hsize. rewrite Hsize. cbn [mbind exec_bind].
  unfold parse_pod_instance. by rewrite (cyclic_pod _ _ t) by (done || unfold in_u; lia).
Qed.

Lemma parser_terminates_witness :
  read_dependencies [mkUDT "StaticString" 0 [] false []] [byte.of_Z 7] <> Diverges /\
  parse_object_buffer ∅ [mkUDT "A" 4 [mkMember "x" "u32" 0 4 false] false []]
    [byte.of_Z 0; byte.of_Z 1] (fun n (_ : Value) => Ok (n + 1, true)) 0 <> Diverges.
Proof.
  apply (parser_terminates [mkUDT "StaticString" 0 [] false []]
    [mkUDT "A" 4 [mkMember "x" "u32" 0 4 false] false []]).
  - exists (fun _ => 0%nat). intros u [<-|[]]. split; [cbn; lia|]. split; [cbn; lia|]. intros ? ? [].
  - exists (fun _ => 0%nat). intros u [<-|[]]. split; [cbn; lia|]. split; [cbn; lia|].
    intros m u' [<-|[]] _ H. discriminate H.
  - discriminate.
Defined.

(** Two types, each of which begins with the other *)
Module CyclicExample.
Definition a : UserDefinedType := mkUDT "A" 8 [mkMember "b" "B" 0 8 false] false [].
Definition b : UserDefinedType := mkUDT "B" 8 [mkMember "a" "A" 0 8 false] false [].
Lemma cycle : tc (begins_with [a; b]) a a.
Proof.
  apply tc_l with b; [|apply tc_once]; eexists _, []; split_and!; try reflexivity;
    unfold primitive_names; cbn; set_solver.
Qed.
End CyclicExample.

Lemma parser_cyclic_type_witness :
  parse_object_buffer ∅ [CyclicExample.a; CyclicExample.b] [byte.of_Z 0; byte.of_Z 7]
    (fun n (_ : Value) => Ok (n + 1, true)) 0 = Diverges.
Proof.
  apply (parser_cyclic_type [CyclicExample.a; CyclicExample.b] CyclicExample.a ∅
    (fun n (_ : Value) => Ok (n + 1, true)) 0 CyclicExample.cycle); [reflexivity|split; lia|discriminate].
Defined.
