(* ===== verification/ParserTyped.v ===== *)
(** * The types of the values that the parser makes

    The metadata of a stream is the type system of its values, and the buffers
    of a block are untrusted.  Whatever they hold, a dependency is a valid
    string or an object of one of the types of the metadata, and so is every
    value that is given to the callback: its members are those of its type,
    in order, an integer is in its range, and a reference was found in the
    dependencies. *)

From S2P Require Import Prelude RustString Float Transit Parser.

(** ** Partial correctness of a computation *)
Definition returns {A} (P : A -> Prop) (m : exec A) : Prop := forall a, m = Ok a -> P a.

Lemma returns_Ok {A} (P : A -> Prop) a : P a -> returns P (Ok a).
Proof.
  intros HP x Hx. apply (f_equal (fun r => match r with Ok y => y | _ => a end)) in Hx. by subst.
Qed.
Lemma returns_bind {A B} (Q : A -> Prop) (P : B -> Prop) (m : exec A) f :
  returns Q m -> (forall a, Q a -> returns P (f a)) -> returns P (m ≫= f).
Proof. intros Hm Hf b. destruct m; cbn; try discriminate. apply Hf. by apply Hm. Qed.
Lemma returns_weaken {A} (Q P : A -> Prop) m : returns Q m -> (forall a, Q a -> P a) -> returns P m.
Proof. intros Hm HP a Ha. by apply HP, Hm. Qed.
Lemma returns_eq {A} (m : exec A) : returns (fun a => m = Ok a) m.
Proof. by intros a. Qed.
Lemma returns_context {A} (P : A -> Prop) msg m : returns P m -> returns P (with_context msg m).
Proof. intros Hm a. destruct m; cbn; try discriminate. apply Hm. Qed.
Lemma returns_bail {A} (P : A -> Prop) msg : returns P (bail msg).
Proof. done. Qed.

(** The step of a [do]-block whose value matters, and of one whose does not *)
Tactic Notation "returns_step" uconstr(l) := eapply returns_bind; [apply l|]; cbv beta; intros ? ?.
Ltac returns_skip := apply (returns_bind (fun _ => True)); [done|]; intros ? _.

Lemma returns_read_u n b p : returns (in_u (8 * Z.of_nat n)) (read_any_u n b p).
Proof. intros z. apply read_any_u_range. Qed.
Lemma returns_read_i n b p : (0 < n)%nat -> returns (in_i (8 * Z.of_nat n)) (read_any_i n b p).
Proof.
  intros Hn. unfold read_any_i. returns_skip. apply returns_Ok, wrap_i_range. lia.
Qed.
Lemma returns_utf8 bs : returns valid_string (unwrap (from_utf8 bs)).
Proof.
  destruct (from_utf8 bs) as [s|] eqn:E; [|done]. apply returns_Ok. by eapply from_utf8_valid.
Qed.
Lemma returns_dyn_string b p sz :
  returns (fun s => valid_string (dyn_str s)) (read_value (T := DynString) b p sz).
Proof.
  cbn [read_value DynString_InProcSerialize]. do 2 returns_skip. returns_step returns_utf8.
  by apply returns_Ok.
Qed.
Lemma returns_parse_string b c : returns (fun r => valid_string r.1) (parse_string b c).
Proof.
  intros [s c'] H. unfold parse_string in H.
  do 6 (exec_inv H). repeat case_match; simplify_eq;
    cbn [fst]; auto using u16_slice_range, from_utf8_lossy_valid with mm.
Qed.
Lemma returns_mapM {A B} (f : A -> exec B) (R : A -> B -> Prop) l :
  (forall x, returns (R x) (f x)) -> returns (Forall2 R l) (mapM_exec f l).
Proof.
  intros Hf. induction l as [|x l IH]; cbn [mapM_exec]; [apply returns_Ok; constructor|].
  returns_step Hf. returns_step IH. apply returns_Ok. by constructor.
Qed.

(** ** Typed values *)
Section types.
Context (udts : list UserDefinedType) (deps : dependencies_map).

(** What a reference resolves to *)
Definition referenced (v : Value) : Prop :=
  v = None_ \/ exists key, in_u 64 key /\ deps !! key = Some v.

Definition scalars : list (string * (Value -> Prop)) :=
  let range k w (v : Value) := exists z, v = k z /\ w z in
  [("u8", range U8 (in_u 8)); ("uint8", range U8 (in_u 8));
   ("u32", range U32 (in_u 32)); ("uint32", range U32 (in_u 32));
   ("u64", range U64 (in_u 64)); ("uint64", range U64 (in_u 64));
   ("i64", range I64 (in_i 64)); ("int64", range I64 (in_i 64));
   ("f64", fun v => exists x, v = F64 x)].

(** A value of a type with members, and of the members, in the order of the
    type.  A type that is a reference is its identifier, when it has one. *)
Inductive pod_ok : UserDefinedType -> Value -> Prop :=
| pod_object udt ms :
    members_ok (udt_members udt) ms ->
    (udt_is_reference udt = true -> find_member "id" ms = None) ->
    pod_ok udt (Object_ (mkObject (udt_name udt) ms))
| pod_reference udt ms v :
    members_ok (udt_members udt) ms -> udt_is_reference udt = true ->
    find_member "id" ms = Some v -> pod_ok udt v
with members_ok : list Member -> list (string * Value) -> Prop :=
| members_nil : members_ok [] []
| members_cons m ms v vs :
    member_ok m v -> members_ok ms vs -> members_ok (m :: ms) ((m_name m, v) :: vs)
with member_ok : Member -> Value -> Prop :=
| member_reference m v : m_is_reference m = true -> referenced v -> member_ok m v
| member_scalar m ty P v :
    m_is_reference m = false -> In (ty, P) scalars -> m_type_name m = ty -> P v -> member_ok m v
| member_nested m udt v :
    m_is_reference m = false -> find_udt (m_type_name m) udts = Some udt -> pod_ok udt v ->
    member_ok m v
| member_unknown m :
    m_is_reference m = false -> find_udt (m_type_name m) udts = None -> member_ok m None_.

Definition string_ok (v : Value) : Prop := exists s, v = String_ s /\ valid_string s.

(** The members of an object of dynamic size *)
Definition log_string_ok (ms : list (string * Value)) : Prop :=
  exists time msg desc, ms = [("time", I64 time); ("msg", String_ msg); ("desc", desc)] /\
    in_i 64 time /\ valid_string msg /\ referenced desc.
Definition interop_ok (target_type : string) (level_ok : Value -> Prop) (ms : list (string * Value)) : Prop :=
  ms = [] \/ exists udt time level target msg,
    ms = [("time", I64 time); ("level", level); ("target", target); ("msg", String_ msg)] /\
    find_udt target_type udts = Some udt /\ in_i 64 time /\ level_ok level /\ pod_ok udt target /\
    valid_string msg.
Definition custom_ok (udt : UserDefinedType) (v : Value) : Prop :=
  exists ms, v = Object_ (mkObject (udt_name udt) ms) /\
    if String.eqb (udt_name udt) "LogStringEvent" then log_string_ok ms
    else if String.eqb (udt_name udt) "LogStringInteropEventV2" then
      interop_ok "StringId" (fun v => exists l, v = U32 l /\ in_u 32 l) ms
    else if String.eqb (udt_name udt) "LogStringInteropEventV3" then
      interop_ok "StaticStringRef" (fun v => exists l, v = U8 l /\ in_u 8 l) ms
    else ms = [].

(** A value that is given to the callback *)
Definition object_ok (v : Value) : Prop :=
  exists udt, In udt udts /\ if udt_size udt =? 0 then custom_ok udt v else pod_ok udt v.
(** A dependency *)
Definition dependency_ok (key : Z) (v : Value) : Prop :=
  string_ok v \/
  exists udt o, In udt udts /\ v = Object_ o /\ pod_ok udt v /\ get get_u64 o "id" = Ok key.
End types.

Scheme pod_ok_ind' := Minimality for pod_ok Sort Prop
with members_ok_ind' := Minimality for members_ok Sort Prop
with member_ok_ind' := Minimality for member_ok Sort Prop.

(** More dependencies resolve more references. *)
Lemma pod_ok_weaken udts deps deps' udt v :
  deps ⊆ deps' -> pod_ok udts deps udt v -> pod_ok udts deps' udt v.
Proof.
  intros Hd H.
  induction H using pod_ok_ind' with
    (P0 := fun ms vs => members_ok udts deps' ms vs) (P1 := fun m v => member_ok udts deps' m v).
  - by constructor.
  - by econstructor.
  - constructor.
  - by constructor.
  - constructor; [done|]. destruct H0 as [->|(k & Hk & E)]; [by left|]. right. exists k.
    split; [done|]. by eapply lookup_weaken.
  - by eapply member_scalar.
  - by eapply member_nested.
  - by constructor.
Qed.

(** ** The parser *)
Section parser.
Context (udts : list UserDefinedType) (deps : dependencies_map).

Lemma lookup_referenced key : in_u 64 key -> referenced deps (lookup_dependency deps key).
Proof.
  intros Hk. unfold lookup_dependency. destruct (deps !! key) as [v|] eqn:E; [|by left].
  right. by exists key.
Qed.

Lemma returns_read_member {A} (W : A -> Prop) read size m off b (mk : A -> Value) :
  (forall p, returns W (read b p)) ->
  returns (fun v => exists z, v = mk z /\ W z) (read_member read size m off b mk).
Proof.
  intros Hr. unfold read_member. do 2 returns_skip. returns_step Hr. apply returns_Ok. by eexists.
Qed.

Lemma returns_scalar {A} (W : A -> Prop) ty read size m off b (mk : A -> Value) :
  m_is_reference m = false -> m_type_name m = ty ->
  In (ty, fun v => exists z, v = mk z /\ W z) scalars -> (forall p, returns W (read b p)) ->
  returns (member_ok udts deps m) (read_member read size m off b mk).
Proof.
  intros Er Et Hin Hr. eapply returns_weaken; [by apply (returns_read_member W)|].
  intros v Hv. by eapply member_scalar.
Qed.

Lemma returns_member parse_pod off b m :
  (forall u' p, find_udt (m_type_name m) udts = Some u' -> returns (pod_ok udts deps u') (parse_pod u' p)) ->
  returns (fun nv => nv.1 = m_name m /\ member_ok udts deps m nv.2) (parse_member parse_pod udts deps off b m).
Proof.
  intros Hp. unfold parse_member. destruct (m_is_reference m) eqn:Er.
  - destruct (m_size m <? 8); [apply returns_Ok; split; [done|]; constructor; [done|by left]|].
    returns_skip. returns_step returns_read_u. apply returns_Ok. split; [done|].
    constructor; [done|]. by apply lookup_referenced.
  - eapply (returns_bind (member_ok udts deps m)); [|by intros v Hv; apply returns_Ok].
    repeat match goal with
    | |- returns _ (if String.eqb ?a ?b || String.eqb ?a ?c then _ else _) =>
        destruct (String.eqb_spec a b) as [Et|_]; [|destruct (String.eqb_spec a c) as [Et|_]]; cbn [orb]
    | |- returns _ (if String.eqb ?a ?b then _ else _) => destruct (String.eqb_spec a b) as [Et|_]
    end.
    1-8: eapply returns_scalar; [exact Er|exact Et|cbn; tauto|].
    all: try (intros p; exact (returns_read_u _ b p)).
    all: try (intros p; apply returns_read_i; lia).
    + unfold read_member. do 3 returns_skip. apply returns_Ok.
      apply (member_scalar _ _ m "f64" (fun v => exists x, v = F64 x)); [done|cbn; tauto|done|by eexists].
    + destruct (find_udt (m_type_name m) udts) as [u'|] eqn:E.
      * returns_skip. eapply returns_weaken; [by apply Hp|]. intros v Hv. by eapply member_nested.
      * apply returns_Ok. by constructor.
Qed.

Lemma members_of_Forall2 ms vs :
  Forall2 (fun m nv => nv.1 = m_name m /\ member_ok udts deps m nv.2) ms vs -> members_ok udts deps ms vs.
Proof.
  induction 1 as [|m [n v] ms vs [En Hv] _ IH]; [constructor|]. cbn in *. subst n. by constructor.
Qed.

Lemma returns_pod fuel udt off b :
  returns (pod_ok udts deps udt) (parse_pod_instance_fuel fuel udt udts deps off b).
Proof.
  revert udt off. induction fuel as [|fuel IH]; intros udt off; [done|]. cbn [parse_pod_instance_fuel].
  eapply returns_bind.
  { apply (returns_mapM _ (fun m nv => nv.1 = m_name m /\ member_ok udts deps m nv.2)).
    intros m. apply returns_member. intros u' p _. apply IH. }
  intros ms Hms%members_of_Forall2. destruct (udt_is_reference udt) eqn:Er.
  - destruct (find_member "id" ms) as [v|] eqn:E; apply returns_Ok;
      [by apply (pod_reference _ _ _ ms)|by constructor].
  - apply returns_Ok. constructor; [done|]. congruence.
Qed.
Lemma returns_instance udt off b :
  returns (pod_ok udts deps udt) (parse_pod_instance udt udts deps off b).
Proof. apply returns_pod. Qed.

(** *** Objects of dynamic size *)
Lemma returns_log_string off n b : returns (log_string_ok deps) (parse_log_string_event deps off n b).
Proof.
  unfold parse_log_string_event. returns_step returns_read_u. eapply returns_bind; [apply returns_read_i; lia|].
  intros time Ht. cbv zeta. returns_skip. returns_step returns_dyn_string. apply returns_Ok.
  do 3 eexists. split; [done|]. split; [done|]. split; [done|]. by apply lookup_referenced.
Qed.
Lemma returns_interop off n b :
  returns (interop_ok udts deps "StringId" (fun v => exists l, v = U32 l /\ in_u 32 l))
    (parse_log_string_interop_event udts deps off n b).
Proof.
  unfold parse_log_string_interop_event. destruct (find_udt "StringId" udts) as [udt|] eqn:E.
  2:{ apply returns_Ok. by left. }
  eapply returns_bind; [apply returns_read_i; lia|]. intros time Ht. cbv zeta.
  returns_step returns_read_u. returns_step returns_instance. do 2 returns_skip.
  returns_step returns_dyn_string. apply returns_Ok. right. do 5 eexists. split; [done|].
  split; [done|]. split; [done|]. split; [by eexists|]. by split.
Qed.
Lemma returns_v3 b :
  returns (interop_ok udts deps "StaticStringRef" (fun v => exists l, v = U8 l /\ in_u 8 l))
    (parse_log_string_interop_event_v3 udts deps b).
Proof.
  unfold parse_log_string_interop_event_v3. destruct (find_udt "StaticStringRef" udts) as [udt|] eqn:E; [|done].
  eapply returns_bind; [apply returns_read_i; lia|]. intros time Ht. cbv zeta.
  returns_step returns_read_u. returns_step returns_instance. returns_skip.
  returns_step returns_parse_string. destruct a2 as [msg c]. apply returns_Ok. right. do 5 eexists. split; [done|].
  split; [done|]. split; [done|]. split; [by eexists|]. by split.
Qed.

Lemma returns_custom udt off n b :
  returns (custom_ok udts deps udt) (parse_custom_instance udt udts deps off n b).
Proof.
  unfold parse_custom_instance, custom_ok.
  eapply (returns_bind (fun ms => if String.eqb (udt_name udt) "LogStringEvent" then _ else _));
    [|intros ms Hms; apply returns_Ok; exists ms; split; [done|exact Hms]].
  destruct (String.eqb _ "LogStringEvent"); [apply returns_log_string|].
  destruct (String.eqb _ "LogStringInteropEventV2"); [apply returns_interop|].
  destruct (String.eqb _ "LogStringInteropEventV3"); [|by apply returns_Ok].
  do 2 returns_skip. pose proof returns_v3 as H3.
  match goal with |- context [parse_log_string_interop_event_v3 _ _ ?x] => specialize (H3 x) end.
  destruct (parse_log_string_interop_event_v3 _ _ _); try done. apply returns_Ok. by left.
Qed.

Lemma returns_object b off : returns (fun r => object_ok udts deps r.1) (parse_object deps udts b off).
Proof.
  unfold parse_object. returns_skip. destruct (udts !! Z.to_nat a) as [udt|] eqn:E; [|done].
  returns_skip. destruct a0 as [n o].
  eapply (returns_bind (fun v => if udt_size udt =? 0 then custom_ok udts deps udt v else pod_ok udts deps udt v)).
  - destruct (udt_size udt =? 0); [apply returns_custom|apply returns_instance].
  - intros v Hv. apply returns_Ok. exists udt. split; [|exact Hv].
    apply list_elem_of_In. by eapply list_elem_of_lookup_2.
Qed.

(** Every value that is given to the callback is typed. *)
Lemma returns_objects {S} (I : S -> Prop) fuel b (f : S -> Value -> exec (S * bool)) off s :
  (forall s v, I s -> object_ok udts deps v -> returns (fun r => I r.1) (f s v)) -> I s ->
  returns (fun r => I r.1) (parse_object_buffer_from fuel deps udts b f off s).
Proof.
  intros Hf. revert off s. induction fuel as [|fuel IH]; intros off s Hs; [done|].
  cbn [parse_object_buffer_from]. destruct (off <? blen b); [|by apply returns_Ok].
  returns_step returns_object. destruct a as [v [o n]]. eapply returns_bind; [by apply Hf|].
  intros [s' c] Hs'. destruct c; [|by apply returns_Ok]. returns_skip. by apply IH.
Qed.
End parser.

(** ** The dependencies *)
Definition dependencies_ok (udts : list UserDefinedType) (deps : dependencies_map) : Prop :=
  forall key v, deps !! key = Some v -> dependency_ok udts deps key v.

Section dependencies.
Context (udts : list UserDefinedType).

Lemma dependency_ok_weaken deps deps' key v :
  deps ⊆ deps' -> dependency_ok udts deps key v -> dependency_ok udts deps' key v.
Proof.
  intros Hd [Hs|(udt & o & Hin & Ev & Ho & Hk)]; [by left|]. right. exists udt, o.
  split; [done|]. split; [done|]. split; [by eapply pod_ok_weaken|done].
Qed.

Lemma returns_insert hash id v :
  dependencies_ok udts hash -> dependency_ok udts hash id v ->
  returns (dependencies_ok udts) (insert_new hash id v).
Proof.
  intros Hh Hv. unfold insert_new. returns_step returns_eq. apply returns_Ok.
  assert (hash !! id = None) as Hn.
  { unfold assert_true in H. destruct (bool_decide_reflect (hash !! id = None)); [done|discriminate]. }
  assert (hash ⊆ <[id:=v]> hash) as Hsub by by apply insert_subseteq.
  intros key v' E. apply (dependency_ok_weaken hash); [done|].
  apply lookup_insert_Some in E as [[<- <-]|[_ E]]; [done|by apply Hh].
Qed.

Lemma returns_dependency b off hash :
  dependencies_ok udts hash -> returns (fun r => dependencies_ok udts r.1) (read_dependency udts b off hash).
Proof.
  intros Hh. unfold read_dependency. returns_skip. destruct (udts !! Z.to_nat a) as [udt|] eqn:E; [|done].
  assert (In udt udts) as Hin by (apply list_elem_of_In; by eapply list_elem_of_lookup_2).
  returns_skip. destruct a0 as [n o].
  eapply (returns_bind (dependencies_ok udts)); [|intros h Hh'; returns_skip; by apply returns_Ok].
  repeat case_match; try apply returns_bail.
  - do 3 returns_skip. returns_step returns_utf8. apply returns_insert; [done|]. left.
    by exists a3.
  - returns_skip. returns_step (returns_context _ _ _ (returns_parse_string b (o + 8))).
    destruct a1 as [str c]. apply returns_insert; [done|]. left. by exists str.
  - returns_step returns_instance. destruct a0 eqn:Ev; try by apply returns_Ok.
    returns_step returns_eq. apply returns_insert; [done|]. right. by exists udt, o0.
Qed.

Lemma returns_dependencies fuel b off hash :
  dependencies_ok udts hash ->
  returns (dependencies_ok udts) (read_dependencies_from fuel udts b off hash).
Proof.
  revert off hash. induction fuel as [|fuel IH]; intros off hash Hh; [done|].
  cbn [read_dependencies_from]. destruct (off <? blen b); [|by apply returns_Ok].
  eapply returns_bind; [by apply returns_dependency|]. intros [h o] Hh'. by apply IH.
Qed.
End dependencies.

(** ** Properties *)

(** C10. The values of a block have the types of the metadata of its stream,
    whatever the metadata and the buffers: each dependency is a valid string or
    an object of a type of the metadata, under its own identifier; and the
    callback is only given objects of the types of the metadata, whose members
    are those of the type, in order, integers within their width, valid
    strings, nested objects of the type that the member names, and, for a
    reference, a dependency or nothing.  (A property of the state that the
    callback keeps for typed values holds at the end.) *)
Theorem parser_typed udts b deps :
  read_dependencies udts b = Ok deps ->
  dependencies_ok udts deps /\
  forall S (I : S -> Prop) obj_udts obj_b (f : S -> Value -> exec (S * bool)) s s' c,
    (forall s v s' c, I s -> object_ok obj_udts deps v -> f s v = Ok (s', c) -> I s') -> I s ->
    parse_object_buffer deps obj_udts obj_b f s = Ok (s', c) -> I s'.
Proof.
  intros Hd. split.
  - apply (returns_dependencies udts _ b 0 ∅) in Hd; [done|]. intros key v E. by rewrite lookup_empty in E.
  - intros S I obj_udts obj_b f s s' c Hf Hs Hp.
    apply (returns_objects obj_udts deps I) in Hp; [done| |done].
    intros s1 v H1 Hv [s2 c2] E. by eapply Hf.
Qed.

Module TypedExample.
Definition udts : list UserDefinedType := [mkUDT "StaticString" 0 [] false []].
Definition event : UserDefinedType :=
  mkUDT "Event" 16 [mkMember "time" "i64" 0 8 false; mkMember "name" "StaticString" 8 8 true] false [].
Definition dependencies : buffer := map byte.of_Z [0; 10; 0; 0; 0;  7; 0; 0; 0; 0; 0; 0; 0; 104; 105].
Definition objects : buffer :=
  map byte.of_Z [0; 255; 255; 255; 255; 255; 255; 255; 255; 7; 0; 0; 0; 0; 0; 0; 0].
Definition collect (vs : list Value) (v : Value) : exec (list Value * bool) := Ok (vs ++ [v], true).
End TypedExample.
Import TypedExample.

Lemma parser_typed_witness :
  exists deps, read_dependencies udts dependencies = Ok deps /\
    let v := Object_ (mkObject "Event" [("time", I64 (-1)); ("name", String_ "hi")]) in
    parse_object_buffer deps [event] objects collect [] = Ok ([v], true) /\ object_ok [event] deps v.
Proof.
  assert (exists deps, read_dependencies udts dependencies = Ok deps) as [deps E]
    by (eexists; vm_compute; reflexivity).
  exists deps. split; [exact E|]. cbv zeta.
  assert (parse_object_buffer deps [event] objects collect [] =
    Ok ([Object_ (mkObject "Event" [("time", I64 (-1)); ("name", String_ "hi")])], true)) as Ep.
  { assert (deps = {[7 := String_ "hi"]}) as ->.
    { assert (read_dependencies udts dependencies = Ok {[7 := String_ "hi"]}) as E' by (vm_compute; reflexivity).
      rewrite E in E'. by injection E'. }
    vm_compute. reflexivity. }
  split; [exact Ep|]. destruct (parser_typed udts dependencies deps E) as [_ H].
  apply (H _ (Forall (object_ok [event] deps)) [event] objects collect [] _ _) in Ep.
  - by inversion Ep.
  - intros s v s' c Hs Hv Ec. injection Ec as <- _. apply Forall_app. by split; [|constructor].
  - constructor.
Defined.
