(* ===== verification/ThreadBlockProcessor.v ===== *)
(** * Reading the block of a thread

    [analytics/src/scope.rs] and [analytics/src/thread_block_processor.rs], and
    the theorem of the pipeline of spans: a processor is called once for each
    begin and end of a scope, in the order of the program. *)

From S2P Require Import Prelude RustString Float Transit Queue Pod Parser PodParser Blocks.
From S2P Require Import Levels Deps LogEvents LogBlock Time Stream Wire LogEntry SpanEvents.
From S2P Require Import ThreadBlock.

(** ** Scopes *)
Record ScopeDesc := mkScopeDesc {
  sd_name : string;
  sd_filename : string;
  sd_target : string;
  sd_line : Z;
  sd_hash : Z
}.

(** The hash function of the crate [xxhash_rust], with its seed *)
Class Xxh32 := xxh32 : buffer -> Z -> Z.

Definition compute_scope_hash `{Xxh32} (name filename target : string) (line : Z) : Z :=
  let hash_name := xxh32 (bytes_of name) 0 in
  let hash_with_filename := xxh32 (bytes_of filename) hash_name in
  let hash_with_target := xxh32 (bytes_of target) hash_with_filename in
  let hash_with_line := xxh32 (le_split 4 line) hash_with_target in
  hash_with_line.

Definition ScopeDesc_new `{Xxh32} (name filename target : string) (line : Z) : ScopeDesc :=
  let hash := compute_scope_hash name filename target line in
  mkScopeDesc name filename target line hash.

(** ** Processors *)
Class ThreadBlockProcessor (Proc : Type) := {
  on_begin_thread_scope : Proc -> string -> Z -> ScopeDesc -> Z -> exec (Proc * bool);
  on_end_thread_scope : Proc -> string -> Z -> ScopeDesc -> Z -> exec (Proc * bool)
}.

Definition on_thread_event {A} (obj : Object) (fun_ : Object -> Z -> exec A) : exec A :=
  tick ← get get_i64 obj "time";
  scope ← get get_object obj "thread_span_desc";
  fun_ scope tick.

Definition on_thread_named_event {A} (obj : Object) (fun_ : Object -> string -> Z -> exec A) : exec A :=
  tick ← get get_i64 obj "time";
  scope ← get get_object obj "thread_span_location";
  name ← get get_string obj "name";
  fun_ scope name tick.

(** The closures of [parse_thread_block_payload] build the description of the
    scope and call the processor. *)
Definition scope_of_desc `{Xxh32} (scope : Object) : exec ScopeDesc :=
  name ← get get_string scope "name";
  filename ← get get_string scope "file";
  target ← get get_string scope "target";
  line ← get get_u32 scope "line";
  Ok (ScopeDesc_new name filename target line).
Definition scope_of_location `{Xxh32} (scope : Object) (name : string) : exec ScopeDesc :=
  filename ← get get_string scope "file";
  target ← get get_string scope "target";
  line ← get get_u32 scope "line";
  Ok (ScopeDesc_new name filename target line).

Definition process_thread_value `{Xxh32} {Proc} `{ThreadBlockProcessor Proc}
    (block_id : string) (event_id : Z) (processor : Proc) (val : Value) : exec (Proc * bool) :=
  match val with
  | Object_ obj =>
      let name := type_name obj in
      if String.eqb name "BeginThreadSpanEvent" then
        with_context "reading BeginThreadSpanEvent" (on_thread_event obj (fun scope ts =>
          scope_desc ← scope_of_desc scope;
          on_begin_thread_scope processor block_id event_id scope_desc ts))
      else if String.eqb name "EndThreadSpanEvent" then
        with_context "reading EndThreadSpanEvent" (on_thread_event obj (fun scope ts =>
          scope_desc ← scope_of_desc scope;
          on_end_thread_scope processor block_id event_id scope_desc ts))
      else if String.eqb name "BeginThreadNamedSpanEvent" then
        with_context "reading BeginThreadNamedSpanEvent" (on_thread_named_event obj (fun scope name ts =>
          scope_desc ← scope_of_location scope name;
          on_begin_thread_scope processor block_id event_id scope_desc ts))
      else if String.eqb name "EndThreadNamedSpanEvent" then
        with_context "reading EndThreadNamedSpanEvent" (on_thread_named_event obj (fun scope name ts =>
          scope_desc ← scope_of_location scope name;
          on_end_thread_scope processor block_id event_id scope_desc ts))
      else Ok (processor, true)
  | _ => Ok (processor, true)
  end.

(** [event_id += 1], which follows the call whatever its result *)
Definition count_event {A} (res : exec A) (event_id : Z) : exec Z :=
  match res with
  | Ok _ | Err _ => i64_checked (event_id + 1)
  | Panic => Panic
  | Ub => Ub
  | Diverges => Diverges
  end.

(** The closure of [parse_thread_block_payload]: its state is the processor
    and the identifier of the next event. *)
Definition on_thread_value `{Xxh32} {Proc} `{ThreadBlockProcessor Proc} (block_id : string)
    (s : Proc * Z) (val : Value) : exec (Proc * Z * bool) :=
  let '(processor, event_id) := s in
  let res := process_thread_value block_id event_id processor val in
  event_id ← count_event res event_id;
  '(processor, continue) ← res;
  Ok (processor, event_id, continue).

Definition parse_thread_block_payload `{Compression} `{Xxh32} {Proc} `{ThreadBlockProcessor Proc}
    (block_id : string) (object_offset : Z) (payload : BlockPayload) (stream : StreamInfo)
    (processor : Proc) : exec (Proc * bool) :=
  let event_id := object_offset in
  '((processor, _), continue) ←
    parse_block stream payload (on_thread_value block_id) (processor, event_id);
  Ok (processor, continue).

(** ** The calls that events should become *)
Inductive scope_call := BeginScope (scope : ScopeDesc) (ts : Z) | EndScope (scope : ScopeDesc) (ts : Z).

(** What was recorded in an event of a thread: asynchronous spans are on the
    queue too, and are not scopes of the thread. *)
Definition desc_scope `{Xxh32} (st : statics) (strs : gmap Z string) (desc : Z) : option ScopeDesc :=
  md ← st_spans st !! desc;
  name ← strs !! str_ptr (sm_name md);
  filename ← strs !! str_ptr (sl_file (sm_location md));
  target ← strs !! str_ptr (sl_target (sm_location md));
  Some (ScopeDesc_new name filename target (sl_line (sm_location md))).
Definition location_scope `{Xxh32} (st : statics) (strs : gmap Z string) (location : Z) (name : StringId)
  : option ScopeDesc :=
  location ← st_locations st !! location;
  name ← strs !! sid_ptr name;
  filename ← strs !! str_ptr (sl_file location);
  target ← strs !! str_ptr (sl_target location);
  Some (ScopeDesc_new name filename target (sl_line location)).
Definition event_scope `{Xxh32} (st : statics) (strs : gmap Z string) (a : ThreadEventQueueAny)
  : option scope_call :=
  match a with
  | ThreadEventQueueAny.BeginThreadSpanEvent e =>
      s ← desc_scope st strs (bts_thread_span_desc e); Some (BeginScope s (bts_time e))
  | ThreadEventQueueAny.EndThreadSpanEvent e =>
      s ← desc_scope st strs (ets_thread_span_desc e); Some (EndScope s (ets_time e))
  | ThreadEventQueueAny.BeginThreadNamedSpanEvent e =>
      s ← location_scope st strs (btn_thread_span_location e) (btn_name e);
      Some (BeginScope s (btn_time e))
  | ThreadEventQueueAny.EndThreadNamedSpanEvent e =>
      s ← location_scope st strs (etn_thread_span_location e) (etn_name e);
      Some (EndScope s (etn_time e))
  | _ => None
  end.

(** One call, with the message that an error of the processor is wrapped in *)
Definition reading (a : ThreadEventQueueAny) : string :=
  match a with
  | ThreadEventQueueAny.BeginThreadSpanEvent _ => "reading BeginThreadSpanEvent"
  | ThreadEventQueueAny.EndThreadSpanEvent _ => "reading EndThreadSpanEvent"
  | ThreadEventQueueAny.BeginThreadNamedSpanEvent _ => "reading BeginThreadNamedSpanEvent"
  | ThreadEventQueueAny.EndThreadNamedSpanEvent _ => "reading EndThreadNamedSpanEvent"
  | _ => "async"
  end.
Definition call_scope {Proc} `{ThreadBlockProcessor Proc} (block_id : string) (event_id : Z)
    (processor : Proc) (c : option scope_call) : exec (Proc * bool) :=
  match c with
  | Some (BeginScope s ts) => on_begin_thread_scope processor block_id event_id s ts
  | Some (EndScope s ts) => on_end_thread_scope processor block_id event_id s ts
  | None => Ok (processor, true)
  end.

(** The calls of a sequence of events, which are numbered from [event_id] *)
Fixpoint visit_scopes `{Xxh32} {Proc} `{ThreadBlockProcessor Proc} (st : statics) (strs : gmap Z string)
    (block_id : string) (event_id : Z) (processor : Proc) (evs : list ThreadEventQueueAny)
  : exec (Proc * bool) :=
  match evs with
  | [] => Ok (processor, true)
  | a :: evs' =>
      '(processor, continue) ←
        with_context (reading a) (call_scope block_id event_id processor (event_scope st strs a));
      if continue : bool then visit_scopes st strs block_id (event_id + 1) processor evs'
      else Ok (processor, false)
  end.

Section pipeline.
Context {HAbi : Abi} {HA : LawfulAbi} {HX : Xxh32}.
Context {Proc : Type} {HP : ThreadBlockProcessor Proc}.
Context (st : statics) (strs : gmap Z string) (Hmd : span_metadata_ok st strs).

Abbreviation value := (thread_event_value (thread_dep_value st strs)).

Lemma get_hd {A} (g : Value -> exec A) ty ms name v :
  get g (mkObject ty ((name, v) :: ms)) name = get g (mkObject ty [(name, v)]) name.
Proof. unfold get. cbn. by rewrite String.eqb_refl. Qed.

(** The record of a description is read as its scope. *)
Lemma desc_value_scope d :
  is_Some (st_spans st !! d) ->
  exists s obj, desc_scope st strs d = Some s /\ thread_dep_value st strs d = Object_ obj /\
    scope_of_desc obj = Ok s.
Proof.
  intros [md Ha]. destruct (proj1 Hmd _ _ Ha) as (_ & _ & _ & Hn & _ & Hs).
  apply str_ok_lookup in Hn as [n Hn].
  inversion Hs as [|? ? Ht Hs1]; subst. inversion Hs1 as [|? ? _ Hs2]; subst.
  inversion Hs2 as [|? ? Hf _]; subst.
  apply str_ok_lookup in Ht as [t Ht], Hf as [f Hf].
  unfold desc_scope, thread_dep_value. rewrite Ha. cbn [mbind option_bind].
  rewrite Hn. cbn [mbind option_bind]. rewrite Hf. cbn [mbind option_bind]. rewrite Ht.
  cbn [mbind option_bind]. do 2 eexists. split; [done|]. split; [done|].
  unfold str_dep. rewrite Hn, Ht, Hf. reflexivity.
Qed.

Lemma location_value_scope l n :
  is_Some (st_locations st !! l) -> str_ok strs (st_bytes st) (id_ref n) ->
  exists s obj str, location_scope st strs l n = Some s /\
    thread_dep_value st strs l = Object_ obj /\
    thread_dep_value st strs (sid_ptr n) = String_ str /\ scope_of_location obj str = Ok s.
Proof.
  intros [md Ha] Hn. destruct (proj2 Hmd _ _ Ha) as (_ & _ & _ & Hs).
  pose proof (thread_dep_str st strs Hmd _ Hn) as Hv. apply str_ok_lookup in Hn as [name Hn].
  unfold id_ref in Hv, Hn. cbn [str_ptr] in Hv, Hn. unfold str_value in Hv. cbn [str_ptr] in Hv.
  rewrite Hn in Hv. inversion Hs as [|? ? Ht Hs1]; subst. inversion Hs1 as [|? ? _ Hs2]; subst.
  inversion Hs2 as [|? ? Hf _]; subst.
  apply str_ok_lookup in Ht as [t Ht], Hf as [f Hf].
  unfold location_scope. rewrite Ha. cbn [mbind option_bind].
  rewrite Hn. cbn [mbind option_bind]. rewrite Hf. cbn [mbind option_bind]. rewrite Ht.
  cbn [mbind option_bind]. do 3 eexists. split; [done|]. split.
  - unfold thread_dep_value. destruct (st_spans st !! l) eqn:E.
    + apply Hmd in E as (_ & _ & E & _). congruence.
    + by rewrite Ha.
  - split; [exact Hv|]. unfold str_dep. rewrite Ht, Hf. reflexivity.
Qed.

Lemma process_event_value block_id id proc a :
  thread_event_ok st strs a ->
  process_thread_value block_id id proc (value a) =
  with_context (reading a) (call_scope block_id id proc (event_scope st strs a)).
Proof.
  intros [_ Ha]. destruct a as [e|e|e|e|e|e|e|e]; cbn [thread_event_ref] in Ha.
  1,2: destruct (desc_value_scope _ Ha) as (s & obj & Hs & Hv & Hr);
    cbn [event_scope thread_event_value]; rewrite Hs, Hv;
    cbn - [scope_of_desc with_context on_begin_thread_scope on_end_thread_scope];
    rewrite Hr; reflexivity.
  1,2: destruct Ha as [Hl Hn]; destruct (location_value_scope _ _ Hl Hn) as (s & obj & str & Hs & Hv & Hv' & Hr);
    cbn [event_scope thread_event_value]; rewrite Hs, Hv, Hv';
    cbn - [scope_of_location with_context on_begin_thread_scope on_end_thread_scope];
    rewrite Hr; reflexivity.
  all: reflexivity.
Qed.

Lemma visit_thread_values block_id evs id proc :
  Forall (thread_event_ok st strs) evs -> - 2 ^ 63 <= id -> id + Z.of_nat (length evs) < 2 ^ 63 ->
  ('((proc, _), c) ← fold_until (on_thread_value block_id) (proc, id) (map value evs); Ok (proc, c)) =
  visit_scopes st strs block_id id proc evs.
Proof.
  intros Hok. revert id proc. induction Hok as [|a evs Ha _ IH]; intros id proc H1 H2; [done|].
  cbn [map fold_until visit_scopes]. cbn [length] in H2.
  pose proof (eq_refl : on_thread_value block_id (proc, id) (value a) =
    (let res := process_thread_value block_id id proc (value a) in
     id ← count_event res id; '(p, continue) ← res; Ok (p, id, continue))) as Hstep.
  rewrite process_event_value in Hstep by done. rewrite Hstep. cbv zeta. clear Hstep.
  destruct (with_context _ _) as [[p [|]]| | | |]; cbn [count_event mbind exec_bind]; try done.
  all: rewrite (proj2 (i64_checked_Ok _ _)) by (split; [done|]; unfold in_i; lia);
    cbn [mbind exec_bind]; try done.
  apply IH; lia.
Qed.

Lemma thread_stream_udts into_iter stream :
  iterates into_iter ->
  let info := received_stream
    (make_stream_info into_iter ThreadEventQueueAny ThreadDepsQueueAny stream) in
  thread_udts_ok (si_objects_metadata info) /\ thread_deps_udts_ok (si_dependencies_metadata info).
Proof.
  intros Hit. cbv zeta. unfold received_stream, make_stream_info.
  cbn [si_objects_metadata si_dependencies_metadata]. unfold flatten_metadata.
  replace (foldl extract_secondary_udts ∅ (reflect_contained ThreadEventQueueAny))
    with ({["StringId" := reflect StringId]} : gmap string UserDefinedType) by reflexivity.
  replace (foldl extract_secondary_udts ∅ (reflect_contained ThreadDepsQueueAny))
    with (∅ : gmap string UserDefinedType) by reflexivity.
  rewrite iterates_singleton, iterates_empty by done. split; [|by split].
  by split_and!.
Qed.
End pipeline.

(** ** Properties *)

(** C7. The pipeline of spans is a round trip: for the block that the sink
    encodes of events pushed on the queue of a thread, the processor is called
    once for each begin and each end of a scope of the thread, in the order of
    the pushes, with the name, file, target and line of the scope and the ticks
    of the event, and with the number of the event in the stream.  It is called
    until it stops or fails, and nothing else happens. *)
Theorem thread_block_round_trip `{HA : LawfulAbi} `{HC : LawfulCompression} `{Rfc3339} `{Xxh32}
    into_iter st strs evs size stream :
  iterates into_iter -> span_metadata_ok st strs -> Forall (thread_event_ok st strs) evs ->
  exists q deps,
    foldM (push_thread_event (st_bytes st)) (queue_new size) evs = Ok q /\
    extract_thread st q = Ok deps /\
    (blen (as_bytes deps) < 2 ^ 63 -> blen (as_bytes q) < 2 ^ 63 ->
     forall new_v4 b e p,
       eb_events b = q -> eb_end b = Some e ->
       in_i 64 (dt_ticks (eb_begin b) - start_ticks p) -> in_i 64 (dt_ticks e - start_ticks p) ->
       exists block, encode_block (extract_thread st) new_v4 b p = Ok block /\
       forall Proc (HP : ThreadBlockProcessor Proc) block_id object_offset proc,
         - 2 ^ 63 <= object_offset -> object_offset + Z.of_nat (length evs) < 2 ^ 63 ->
         parse_thread_block_payload block_id object_offset (bk_payload block)
           (received_stream
              (make_stream_info into_iter ThreadEventQueueAny ThreadDepsQueueAny stream)) proc =
         with_context "parsing object buffer"
           (visit_scopes st strs block_id object_offset proc evs)).
Proof.
  intros Hit Hmd Hok.
  destruct (thread_stream_udts into_iter stream Hit) as [Hu Hdu].
  destruct (thread_block_values st strs _ _ evs size Hu Hdu Hmd Hok) as (q & deps & Hq & _ & Hx & Hv).
  exists q, deps. split; [done|]. split; [done|].
  intros Hbd Hbq new_v4 b e p <- He Hb1 Hb2. destruct (Hv Hbd Hbq) as (h & Hh & Hparse).
  destruct (encode_block_Ok _ new_v4 b e deps p He Hx Hb1 Hb2) as (block & -> & Hcd & Hco).
  exists block. split; [done|]. intros Proc HP block_id id proc Hl Hr.
  unfold parse_thread_block_payload.
  rewrite (parse_block_Ok _ _ _ _ h _ _ Hcd Hco Hh), Hparse.
  rewrite <- (visit_thread_values st strs Hmd block_id evs id proc Hok Hl Hr).
  by destruct (fold_until _ _ _) as [[[? ?] ?]| | | |].
Qed.

(** *** A concrete thread *)
Module ThreadExample.
Definition strings : list (Z * string) :=
  [(1000, "update"); (2000, "app"); (3000, "app::main"); (4000, "src/main.rs"); (5000, "asset 7")].
Definition strs : gmap Z string := list_to_map strings.
Definition ref_of (e : Z * string) : str_ref := mkStr e.1 (blen (bytes_of e.2)).
Definition location : SpanLocation :=
  mkSpanLocation Verbosity.Med (mkStr 2000 3) (mkStr 3000 9) (mkStr 4000 11) 7.
Definition st : statics :=
  mkStatics (list_to_map (concat (map LogExample.bytes_at strings))) ∅ ∅
    {[ 6000 := mkSpanMetadata (mkStr 1000 6) location ]} {[ 7000 := location ]}.
Definition evs : list ThreadEventQueueAny :=
  [ThreadEventQueueAny.BeginThreadSpanEvent (mkBeginThreadSpanEvent 6000 1100);
   ThreadEventQueueAny.BeginThreadNamedSpanEvent (mkBeginThreadNamedSpanEvent 7000 (mkStringId 5000 7) 1200);
   ThreadEventQueueAny.BeginAsyncSpanEvent (mkBeginAsyncSpanEvent 6000 1 1250);
   ThreadEventQueueAny.EndThreadNamedSpanEvent (mkEndThreadNamedSpanEvent 7000 (mkStringId 5000 7) 1300);
   ThreadEventQueueAny.EndThreadSpanEvent (mkEndThreadSpanEvent 6000 1400)].
(** Any function of the bytes and the seed will do here. *)
Definition xxh : Xxh32 := fun b seed => (le_combine b + 31 * seed) mod 2 ^ 32.
(** A processor that writes down its calls *)
Definition trace : ThreadBlockProcessor (list (bool * Z * string * Z)) :=
  {| on_begin_thread_scope p _ id s ts := Ok (p ++ [(true, id, sd_name s, ts)], true);
     on_end_thread_scope p _ id s ts := Ok (p ++ [(false, id, sd_name s, ts)], true) |}.

Lemma thread_str_ok_of e : In e strings -> str_ok strs (st_bytes st) (ref_of e).
Proof.
  intros H. exists e.2. unfold ref_of. cbn [str_ptr str_len].
  repeat destruct H as [<-|H]; try destruct H; split_and!; try lia; vm_compute; done.
Qed.

Lemma thread_location_ok : location_refs_ok st strs location.
Proof.
  split; [by vm_compute|].
  repeat apply Forall_cons; try apply Forall_nil.
  - apply (thread_str_ok_of (2000, "app")). cbn. tauto.
  - apply (thread_str_ok_of (3000, "app::main")). cbn. tauto.
  - apply (thread_str_ok_of (4000, "src/main.rs")). cbn. tauto.
Qed.

Lemma thread_md_ok : span_metadata_ok st strs.
Proof.
  split; intros a m Ha; cbn [st_spans st_locations st] in Ha;
    apply lookup_singleton_Some in Ha as [<- <-].
  - split; [by vm_compute|]. split; [by vm_compute|]. split; [by vm_compute|]. split.
    + apply (thread_str_ok_of (1000, "update")). cbn. tauto.
    + apply thread_location_ok.
  - split; [by vm_compute|]. split; [by vm_compute|]. apply thread_location_ok.
Qed.

Lemma thread_evs_ok : Forall (@thread_event_ok natural_abi natural_lawful st strs) evs.
Proof.
  assert (str_ok strs (st_bytes st) (id_ref (mkStringId 5000 7))) as Hn
    by (apply (thread_str_ok_of (5000, "asset 7")); cbn; tauto).
  repeat apply Forall_cons; try apply Forall_nil; unfold thread_event_ok, item_ok; cbn;
    split_and!; try (vm_compute; done); try exact Hn; by eexists.
Qed.
End ThreadExample.

Lemma thread_block_round_trip_witness :
  exists q deps block,
    foldM (@push_thread_event natural_abi (st_bytes ThreadExample.st)) (queue_new 1024)
      ThreadExample.evs = Ok q /\
    @extract_thread natural_abi ThreadExample.st q = Ok deps /\
    @encode_block identity_compression LogExample.rfc (@extract_thread natural_abi ThreadExample.st)
      11 (mkEventBlock 7 9 (mkDualTime 1000 0) q (Some (mkDualTime 2000 1000)) 0) LogExample.process
      = Ok block /\
    @parse_thread_block_payload identity_compression ThreadExample.xxh _ ThreadExample.trace
      "b" 40 (bk_payload block)
      (received_stream (@make_stream_info map_to_list ThreadEventQueueAny ThreadDepsQueueAny
         (@ThreadEventQueue natural_abi) (@ThreadDepsQueue natural_abi) LogExample.stream)) [] =
    Ok ([(true, 40, "update", 1100); (true, 41, "asset 7", 1200); (false, 43, "asset 7", 1300);
         (false, 44, "update", 1400)], true).
Proof.
  destruct (@thread_block_round_trip natural_abi natural_lawful identity_compression
    identity_compression_lawful LogExample.rfc ThreadExample.xxh map_to_list ThreadExample.st
    ThreadExample.strs ThreadExample.evs 1024 LogExample.stream (fun m => Permutation_refl _)
    ThreadExample.thread_md_ok ThreadExample.thread_evs_ok) as (q & deps & Hq & Hx & Hrest).
  assert (blen (as_bytes q) < 2 ^ 63) as Hbq
    by (vm_compute in Hq; injection Hq as <-; vm_compute; reflexivity).
  assert (blen (as_bytes deps) < 2 ^ 63) as Hbd.
  { vm_compute in Hq. injection Hq as <-. vm_compute in Hx. injection Hx as <-.
    vm_compute. reflexivity. }
  destruct (Hrest Hbd Hbq 11 (mkEventBlock 7 9 (mkDualTime 1000 0) q (Some (mkDualTime 2000 1000)) 0)
    (mkDualTime 2000 1000) LogExample.process eq_refl eq_refl) as (block & Hblock & Hread);
    [vm_compute; split; [discriminate|reflexivity]..|].
  exists q, deps, block. split; [exact Hq|]. split; [exact Hx|]. split; [exact Hblock|].
  rewrite (Hread _ ThreadExample.trace "b" 40 []); [vm_compute; reflexivity|vm_compute; discriminate|
    vm_compute; reflexivity].
Defined.
