(* ===== verification/HttpSink.v ===== *)
(** * The sink that sends to a server

    [telemetry-sink/src/http_event_sink.rs].  The calls of the dispatcher put
    messages in a channel, and a thread takes them one by one, encodes them and
    posts them to the ingestion server.  The two sides share the channel and a
    counter, [queue_size]: [HttpEventSink] is what they share.  The client of
    HTTP, the network and the server are parameters: a request that is executed
    has an [outcome], and the server is a function of its state.

    The loop of the thread is a state machine ([Phase]) whose steps touch what is
    shared once each: it receives, it handles what it received (it reads the
    counter, and posts), or ticks its flush monitor, then it decrements the
    counter.  The operations of the process ([Dispatch.v]) run between any two
    steps, each as a whole.  The entries that the thread logs itself are left
    out. *)

From S2P Require Import Prelude RustString Float Transit Queue Pod Parser PodParser Blocks.
From S2P Require Import Levels.
From S2P Require Import LogFilter Deps LogEvents LogBlock Time Stream Wire MetricsBlock.
From S2P Require Import SpanEvents.
From S2P Require Import ThreadBlock Sink SinkSpec Dispatch Guards.

(** ** Messages *)
Inductive SinkEvent :=
| Startup_ (process_info : ProcessInfo)
| InitStream (stream_info : StreamInfo)
| ProcessLogBlock (buffer : EventBlock)
| ProcessMetricsBlock (buffer : EventBlock)
| ProcessThreadBlock (buffer : EventBlock).

(** ** The shared state

    The channel is what was sent and how much of it was received; a side is
    gone when its flag is false. *)
Record HttpEventSink := mkHttpEventSink {
  he_sender : bool;
  he_receiver : bool;
  he_sent : list SinkEvent;
  he_received : nat;
  he_queue_size : Z
}.
Definition HttpEventSink_new : HttpEventSink := mkHttpEventSink true true [] 0 0.

(** [fetch_add] and [fetch_sub] of an [AtomicIsize] wrap around. *)
Definition add_queue_size (n : Z) (s : HttpEventSink) : HttpEventSink :=
  mkHttpEventSink (he_sender s) (he_receiver s) (he_sent s) (he_received s)
    (wrap_i 64 (he_queue_size s + n)).

Definition send (event : SinkEvent) (s : HttpEventSink) : HttpEventSink :=
  if he_sender s then
    let s := add_queue_size 1 s in
    if he_receiver s then
      mkHttpEventSink (he_sender s) (he_receiver s) (he_sent s ++ [event]) (he_received s)
        (he_queue_size s)
    else add_queue_size (-1) s
  else s.

(** [recv_timeout], when the time is out *)
Inductive received_ := Message (event : SinkEvent) | Timeout_ | Disconnected.
Definition recv_timeout (s : HttpEventSink) : received_ * HttpEventSink :=
  match he_sent s !! he_received s with
  | Some event =>
      (Message event,
       mkHttpEventSink (he_sender s) (he_receiver s) (he_sent s) (he_received s + 1) (he_queue_size s))
  | None => (if he_sender s then Timeout_ else Disconnected, s)
  end.
Definition drop_receiver (s : HttpEventSink) : HttpEventSink :=
  mkHttpEventSink (he_sender s) false (he_sent s) (he_received s) (he_queue_size s).
Definition drop_sender (s : HttpEventSink) : HttpEventSink :=
  mkHttpEventSink false (he_receiver s) (he_sent s) (he_received s) (he_queue_size s).

(** The order of the metadata of a stream is that of a map ([Wire.v]). *)
Section sink.
Context `{Abi} (into_iter : gmap string UserDefinedType -> list (string * UserDefinedType)).

Definition HttpEventSink_EventSink : EventSink HttpEventSink := {|
  on_startup s process_info := send (Startup_ process_info) s;
  on_shutdown s := s;
  on_log_enabled s md := (true, md);
  on_log s md _ _ := (s, md);
  on_init_log_stream s log_stream :=
    send (InitStream (make_stream_info into_iter LogMsgQueueAny LogDepsQueueAny log_stream)) s;
  on_process_log_block s log_block := send (ProcessLogBlock log_block) s;
  on_init_metrics_stream s metrics_stream :=
    send (InitStream (make_stream_info into_iter MetricsMsgQueueAny MetricsDepsQueueAny metrics_stream)) s;
  on_process_metrics_block s metrics_block := send (ProcessMetricsBlock metrics_block) s;
  on_init_thread_stream s thread_stream :=
    send (InitStream (make_stream_info into_iter ThreadEventQueueAny ThreadDepsQueueAny thread_stream)) s;
  on_process_thread_block s thread_block := send (ProcessThreadBlock thread_block) s;
  is_busy s := 0 <? he_queue_size s
|}.
End sink.

(** ** Requests *)
Record Request := mkRequest { rq_url : string; rq_body : buffer; rq_headers : list (string * string) }.

(** [request_decorator.rs] *)
Class RequestDecorator := decorate : Request -> exec Request.
Definition TrivialRequestDecorator : RequestDecorator := Ok.

(** What becomes of a request: the server may have answered, with any status;
    it may not have seen the request; its answer may be lost. *)
Inductive outcome := Answered | NotSent | AnswerLost.

Section client.
Context `{Compression} `{Rfc3339} `{Cbor Block} `{Cbor ProcessInfo} `{Cbor StreamInfo}.
Context `{RequestDecorator} (valid_url : string -> bool).
Context {L : Type} (server : Request -> L -> L).

Definition build (url : string) (body : buffer) : exec Request :=
  if valid_url url then Ok (mkRequest url body []) else bail "builder error".
Definition execute (o : outcome) (request : Request) (lake : L) : L * exec unit :=
  match o with
  | Answered => (server request lake, Ok tt)
  | NotSent => (lake, bail "executing request")
  | AnswerLost => (server request lake, bail "executing request")
  end.

(** The body of the closures and of [push_block], which add messages of their
    own to the errors of the first two steps *)
Definition post (building decorating : exec Request -> exec Request) (o : outcome) (url : string)
    (body : exec buffer) (lake : L) : L * exec unit :=
  match (body ← body; request ← building (build url body); decorating (decorate request)) with
  | Ok request => execute o request lake
  | Err msgs => (lake, Err msgs)
  | Panic => (lake, Panic)
  | Ub => (lake, Ub)
  | Diverges => (lake, Diverges)
  end.

(** [Retry::spawn], for a strategy of [retries] delays; [outcomes n] is that of
    the attempt [n]. *)
Fixpoint retry_spawn (retries attempt : nat) (action : nat -> L -> L * exec unit) (lake : L)
  : L * exec unit :=
  match action attempt lake with
  | (lake, Err msgs) =>
      match retries with
      | O => (lake, Err msgs)
      | S retries => retry_spawn retries (S attempt) action lake
      end
  | r => r
  end.

Definition push_process (outcomes : nat -> outcome) (root_path : string) (process_info : ProcessInfo)
    (retries : nat) (lake : L) : L * exec unit :=
  let url := String.append root_path "/ingestion/insert_process" in
  retry_spawn retries 0 (fun n lake => post id (with_context "decorating request") (outcomes n) url (encode_cbor process_info) lake) lake.

Definition push_stream (outcomes : nat -> outcome) (root_path : string) (stream_info : StreamInfo)
    (retries : nat) (lake : L) : L * exec unit :=
  let url := String.append root_path "/ingestion/insert_stream" in
  retry_spawn retries 0 (fun n lake => post id id (outcomes n) url (encode_cbor stream_info) lake) lake.

(** [encode] is [buffer.encode_bin(process_info)]. *)
Definition push_block (outcomes : nat -> outcome) (root_path : string) (encode : exec buffer)
    (current_queue_size max_queue_size : Z) (lake : L) : L * exec unit :=
  if max_queue_size <=? current_queue_size then (lake, Ok tt)
  else post (with_context "building request") (with_context "decorating request") (outcomes O)
         (String.append root_path "/ingestion/insert_block") encode lake.

(** ** The thread *)
Context `{Abi} (into_iter : gmap string UserDefinedType -> list (string * UserDefinedType)).
#[local] Instance http_sink : EventSink HttpEventSink := HttpEventSink_EventSink into_iter.
Context (addr : string) (max_queue_size : Z) (retries : nat).

Record Worker := mkWorker { wk_process_info : option ProcessInfo; wk_flusher : FlushMonitor }.

(** What an iteration takes from the machine: the time when it starts to wait,
    what becomes of its requests, an identifier for a block, and for a tick of
    the flush monitor its times and its clock *)
Record Iteration := mkIteration {
  it_now : Z;
  it_outcomes : nat -> outcome;
  it_new_v4 : Uuid;
  it_tick : Z;
  it_flush : Z;
  it_clock : Clock
}.

Definition process_block (i : Iteration) (extract : Queue -> exec Queue) (buffer : EventBlock)
    (queue_size : Z) (wk : Worker) (lake : L) : L * exec unit :=
  match wk_process_info wk with
  | Some process_info =>
      push_block (it_outcomes i) addr (encode_bin extract (it_new_v4 i) buffer process_info)
        queue_size max_queue_size lake
  | None => (lake, Ok tt)
  end.

(** A message, with the memory of the process; an error is logged. *)
Definition handle_message (i : Iteration) (st : statics) (message : SinkEvent) (queue_size : Z)
    (wk : Worker) (lake : L) : Worker * (L * exec unit) :=
  match message with
  | Startup_ process_info =>
      (mkWorker (Some process_info) (wk_flusher wk),
       push_process (it_outcomes i) addr process_info retries lake)
  | InitStream stream_info => (wk, push_stream (it_outcomes i) addr stream_info retries lake)
  | ProcessLogBlock buffer => (wk, process_block i (extract_logs st) buffer queue_size wk lake)
  | ProcessMetricsBlock buffer => (wk, process_block i (extract_metrics st) buffer queue_size wk lake)
  | ProcessThreadBlock buffer => (wk, process_block i (extract_thread st) buffer queue_size wk lake)
  end.

(** The result of an error is ignored, not that of a panic. *)
Definition ignore_error (r : exec unit) : exec unit :=
  match r with Err _ => Ok tt | r => r end.

(** Where the loop of [thread_proc_impl] is: it is about to receive, it has a
    message in hand, it has timed out, it is about to decrement the counter
    (after a message, or after a time-out), or it has returned. *)
Inductive Phase :=
| Receiving
| Handling (message : SinkEvent)
| TimedOut
| Settling (received : bool)
| Ended.

Definition thread_receive (i : Iteration) (w : World HttpEventSink) (wk : Worker)
  : exec (World HttpEventSink * Phase) :=
  time_to_flush ← time_to_flush_seconds (it_now i) (wk_flusher wk);
  let '(received, sink) := recv_timeout (w_sink w) in
  let w := set_sink sink w in
  match received with
  | Message message => Ok (w, Handling message)
  | Timeout_ => Ok (w, TimedOut)
  | Disconnected => Ok (set_sink (drop_receiver (w_sink w)) w, Ended)
  end.

(** A step of the loop: the phase, the process, the thread and the server after
    it.  A message is handled with the counter of that moment, in which the
    message is still counted. *)
Definition thread_step (i : Iteration) (ph : Phase) (w : World HttpEventSink) (wk : Worker) (lake : L)
  : exec (Phase * World HttpEventSink * Worker * L) :=
  match ph with
  | Receiving =>
      '(w, ph) ← thread_receive i w wk;
      Ok (ph, w, wk, lake)
  | Handling message =>
      let '(wk, (lake, result)) :=
        handle_message i (w_memory w) message (he_queue_size (w_sink w)) wk lake in
      _ ← ignore_error result;
      Ok (Settling true, w, wk, lake)
  | TimedOut =>
      '(flusher, w) ← tick (it_tick i) (it_flush i) (it_clock i) (wk_flusher wk) w;
      Ok (Settling false, w, mkWorker (wk_process_info wk) flusher, lake)
  | Settling _ => Ok (Receiving, set_sink (add_queue_size (-1) (w_sink w)) w, wk, lake)
  | Ended => Ok (Ended, w, wk, lake)
  end.

(** An iteration of the loop, when the process does nothing meanwhile, and
    whether the loop goes on *)
Definition thread_iteration (i : Iteration) (w : World HttpEventSink) (wk : Worker) (lake : L)
  : exec (World HttpEventSink * Worker * L * bool) :=
  '(ph, w, wk, lake) ← thread_step i Receiving w wk lake;
  match ph with
  | Ended => Ok (w, wk, lake, false)
  | _ =>
      '(ph, w, wk, lake) ← thread_step i ph w wk lake;
      '(_, w, wk, lake) ← thread_step i ph w wk lake;
      Ok (w, wk, lake, true)
  end.

(** The loop, from the iteration [n] *)
Fixpoint thread_loop (fuel n : nat) (its : nat -> Iteration) (w : World HttpEventSink) (wk : Worker)
    (lake : L) : exec (World HttpEventSink * Worker * L) :=
  match fuel with
  | O => Diverges
  | S fuel =>
      '(w, wk, lake, continue) ← thread_iteration (its n) w wk lake;
      if continue : bool then thread_loop fuel (S n) its w wk lake else Ok (w, wk, lake)
  end.
Definition Worker_new (now : Z) : Worker := mkWorker None (FlushMonitor_default now).

(** [Drop]: the sender is dropped and the thread is joined, when it has received
    what was sent; the process sends nothing meanwhile.  The thread is between
    two iterations. *)
Definition HttpEventSink_drop (n : nat) (its : nat -> Iteration) (w : World HttpEventSink) (wk : Worker)
    (lake : L) : exec (World HttpEventSink * Worker * L) :=
  let w := set_sink (drop_sender (w_sink w)) w in
  thread_loop (S (length (he_sent (w_sink w)) - he_received (w_sink w))) n its w wk lake.
End client.
