(* ===== verification/DispatchFrame.v ===== *)
(** * What a command may do to a sink

    A command of the dispatcher changes its sink by notices and log entries
    only: it keeps any relation that these keep. *)

From S2P Require Import Prelude RustString Float Transit Queue Pod Parser PodParser Blocks.
From S2P Require Import Levels LogFilter Deps LogEvents LogBlock Time Stream MetricsBlock.
From S2P Require Import SpanEvents ThreadBlock Sink SinkSpec Dispatch StreamSpec DispatchSpec.
From S2P Require Import Guards.

Section frame.
Context `{HA : LawfulAbi} `{Alloc} {S : Type} `{EventSink S} (R : S -> S -> Prop) `{!PreOrder R}.
Context (Rnotify : forall n s, R s (notify n s)).
Context (Rlog : forall s md time args, R s (on_log s md time args).1).
Implicit Type w : World S.

Definition moves w w' : Prop := R (w_sink w) (w_sink w').

Lemma moves_refl w w' : w_sink w' = w_sink w -> moves w w'.
Proof. unfold moves. intros ->. reflexivity. Qed.
Lemma moves_trans w w1 w' : moves w w1 -> moves w1 w' -> moves w w'.
Proof. unfold moves. intros Ha Hb. by etransitivity. Qed.

Lemma call_sink_moves d n w : moves w (call_sink d (notify n) w).
Proof. unfold call_sink. destruct (d_sink d); [apply Rnotify|by apply moves_refl]. Qed.

(** An operation that succeeds moves the sink. *)
Definition moving w (m : exec (World S)) : Prop := forall w', m = Ok w' -> moves w w'.

Lemma moving_ok w w' : w_sink w' = w_sink w -> moving w (Ok w').
Proof.
  intros E w2 E2. apply (f_equal (fun r => match r with Ok x => x | _ => w end)) in E2. subst w2.
  by apply moves_refl.
Qed.
Lemma moving_bind {A} w (m : exec A) (f : A -> exec (World S)) :
  (forall a, m = Ok a -> moving w (f a)) -> moving w (m ≫= f).
Proof. intros Hf w' E. destruct m; try discriminate. by eapply Hf. Qed.
Lemma moving_trans w w1 (m : exec (World S)) : moves w w1 -> moving w1 m -> moving w m.
Proof. intros Ha Hm w' E. eapply moves_trans; [exact Ha|by apply Hm]. Qed.
Lemma moving_call w w1 d n : w_sink w1 = w_sink w -> moving w (Ok (call_sink d (notify n) w1)).
Proof.
  intros E w2 E2. apply (f_equal (fun r => match r with Ok x => x | _ => w end)) in E2. subst w2.
  eapply moves_trans; [apply (moves_refl w w1 E)|apply call_sink_moves].
Qed.

Lemma flush_log_moving c d w : moving w (Dispatch_flush_log_buffer c d w).
Proof.
  unfold Dispatch_flush_log_buffer. destruct (is_empty _); [by apply moving_ok|].
  apply moving_bind. intros [b st] _. by apply (moving_call w _ _ (LogBlock_ b)).
Qed.
Lemma flush_metrics_moving c d w : moving w (Dispatch_flush_metrics_buffer c d w).
Proof.
  unfold Dispatch_flush_metrics_buffer. destruct (is_empty _); [by apply moving_ok|].
  apply moving_bind. intros [b st] _. by apply (moving_call w _ _ (MetricsBlock_ b)).
Qed.
Lemma flush_thread_moving c t w : moving w (flush_thread_buffer c t w).
Proof.
  unfold flush_thread_buffer. destruct (w_thread_streams w !! t) as [st|]; [|by apply moving_ok].
  destruct (w_dispatch w) as [d|]; [|done]. unfold Dispatch_flush_thread_buffer.
  destruct (is_empty st); [by apply moving_ok|].
  apply moving_bind. intros [b st'] _. by apply (moving_call w _ _ (ThreadBlock_ b)).
Qed.

Lemma record_log_moving c a d w : moving w (record_log_event c a d w).
Proof.
  unfold record_log_event. apply moving_bind. intros st _. destruct (is_full st); [|by apply moving_ok].
  eapply moving_trans; [|apply flush_log_moving]. by apply moves_refl.
Qed.
Lemma record_metric_moving c a d w : moving w (record_metric_event c a d w).
Proof.
  unfold record_metric_event. apply moving_bind. intros st _. destruct (is_full st); [|by apply moving_ok].
  eapply moving_trans; [|apply flush_metrics_moving]. by apply moves_refl.
Qed.
Lemma thread_event_moving c t a w : moving w (on_thread_event c t a w).
Proof.
  unfold on_thread_event. destruct (w_thread_streams w !! t) as [st|]; [|by apply moving_ok].
  apply moving_bind. intros st' _. destruct (is_full st'); [|by apply moving_ok].
  eapply moving_trans; [|apply flush_thread_moving]. by apply moves_refl.
Qed.
Lemma async_moving c t a n (id : Z) w :
  moving w ('(_, w) ← (w ← on_thread_event c t a (set_counter n w); Ok (id, w)); Ok w).
Proof.
  apply moving_bind. intros [i w1] E.
  destruct (on_thread_event c t a (set_counter n w)) as [w2| | | |] eqn:E2; try discriminate.
  apply (f_equal (fun r => match r with Ok (_, x) => x | _ => w end)) in E. cbn in E. subst w2.
  intros w' E. apply (f_equal (fun r => match r with Ok x => x | _ => w end)) in E. subst w'.
  by apply thread_event_moving in E2.
Qed.

Lemma sink_on_log_moves d md time args w : moves w (sink_on_log d w md time args).1.
Proof.
  unfold sink_on_log. destruct (d_sink d); [|by apply moves_refl].
  pose proof (Rlog (w_sink w) md time args) as Hr. by destruct (on_log (w_sink w) md time args).
Qed.

Lemma log_moving c desc args d w : moving w (Dispatch_log c desc args d w).
Proof.
  unfold Dispatch_log. apply moving_bind. intros md _.
  destruct (sink_log_enabled d w md) as [[] md']; cbn [negb]; [|by apply moving_ok].
  set (w1 := set_memory _ w). pose proof (sink_on_log_moves d md' (c_now c) args w1) as Hm.
  destruct (sink_on_log d w1 md' (c_now c) args) as [w2 md2].
  eapply moving_trans; [|apply record_log_moving]. exact Hm.
Qed.
Lemma log_interop_moving c desc args d w : moving w (Dispatch_log_interop c desc args d w).
Proof.
  unfold Dispatch_log_interop. pose proof (sink_on_log_moves d desc (c_now c) args w) as Hm.
  destruct (sink_on_log d w desc (c_now c) args) as [w2 md2]. cbn [fst] in Hm.
  assert (moves w (intern_string (ld_target md2) w2).2) as Hm2
    by (unfold intern_string; by destruct (w_interned w2 !! ld_target md2)).
  destruct (intern_string (ld_target md2) w2) as [target w3].
  eapply moving_trans; [exact Hm2|apply record_log_moving].
Qed.

Lemma for_each_moving f w : moving w (for_each_thread_stream f w).
Proof.
  unfold for_each_thread_stream. destruct (w_dispatch w) as [d|]; [|by apply moving_ok].
  unfold Dispatch_for_each_thread_stream. generalize (d_thread_streams d). intros l.
  revert w. induction l as [|t l IH]; intros w; cbn [foldM]; [by apply moving_ok|].
  apply moving_bind. intros w1 E. destruct (w_thread_streams w !! t) as [st|]; [|done].
  apply (f_equal (fun r => match r with Ok x => x | _ => w end)) in E. subst w1.
  eapply moving_trans; [|apply IH]. by apply moves_refl.
Qed.

Lemma flush_log_buffer_moving c w : moving w (flush_log_buffer c w).
Proof. unfold flush_log_buffer. destruct (w_dispatch w); [apply flush_log_moving|by apply moving_ok]. Qed.
Lemma flush_metrics_buffer_moving c w : moving w (flush_metrics_buffer c w).
Proof.
  unfold flush_metrics_buffer. destruct (w_dispatch w); [apply flush_metrics_moving|by apply moving_ok].
Qed.

Lemma command_moving cmd w : moving w (exec_command cmd w).
Proof.
  destruct cmd; cbn [exec_command]; try apply thread_event_moving.
  - unfold log. destruct (w_dispatch w); [apply log_moving|by apply moving_ok].
  - unfold log_interop. destruct (w_dispatch w); [apply log_interop_moving|by apply moving_ok].
  - unfold int_metric. destruct (w_dispatch w); [apply record_metric_moving|by apply moving_ok].
  - unfold float_metric. destruct (w_dispatch w); [apply record_metric_moving|by apply moving_ok].
  - apply async_moving.
  - apply async_moving.
  - apply flush_log_buffer_moving.
  - apply flush_metrics_buffer_moving.
  - apply flush_thread_moving.
  - unfold init_thread_stream. destruct (w_thread_streams w !! t); [by apply moving_ok|].
    destruct (w_dispatch w) as [d|]; [|by apply moving_ok]. unfold Dispatch_init_thread_stream.
    apply moving_bind. intros st _ w' E.
    apply (f_equal (fun r => match r with Ok x => x | _ => w end)) in E. subst w'.
    apply (call_sink_moves d (ThreadStream st) w).
  - by apply moving_ok.
  - apply for_each_moving.
Qed.

Lemma tick_moves now now' c m w m' w' : tick now now' c m w = Ok (m', w') -> moves w w'.
Proof.
  unfold tick. destruct (time_to_flush_seconds now m) as [r| | | |]; cbn [mbind exec_bind]; try done.
  assert (Ok (m, w) = Ok (m', w') -> moves w w') as Hsame.
  { intros E. apply (f_equal (fun r => match r with Ok (_, x) => x | _ => w end)) in E. subst w'.
    by apply moves_refl. }
  destruct (r <=? 0); [|exact Hsame]. destruct (get_sink w) as [k|]; [|exact Hsame].
  destruct (sink_is_busy k w); [exact Hsame|].
  destruct (flush_log_buffer c w) as [w1| | | |] eqn:E1; cbn [mbind exec_bind]; try done.
  destruct (flush_metrics_buffer c w1) as [w2| | | |] eqn:E2; cbn [mbind exec_bind]; try done.
  destruct (for_each_thread_stream set_full w2) as [w3| | | |] eqn:E3; cbn [mbind exec_bind]; try done.
  intros E. apply (f_equal (fun r => match r with Ok (_, x) => x | _ => w end)) in E. subst w'.
  apply flush_log_buffer_moving in E1. apply flush_metrics_buffer_moving in E2. apply for_each_moving in E3.
  eapply moves_trans; [exact E1|]. by eapply moves_trans.
Qed.
End frame.
