(* ===== verification/HttpSpec.v ===== *)
(** * What the HTTP sink promises

    The sink is a [LawfulSink]: its channel shows what it was given, so that
    the theorems about the dispatcher hold for it.  The counter of the sink is
    the number of messages that wait, less one for each time-out; when the sink
    is dropped its thread posts what waits and ends. *)

From S2P Require Import Prelude RustString Float Transit Queue Pod Parser PodParser Blocks.
From S2P Require Import Levels LogFilter Deps LogEvents LogBlock Time Stream Wire MetricsBlock.
From S2P Require Import SpanEvents ThreadBlock Sink SinkSpec Dispatch StreamSpec DispatchSpec.
From S2P Require Import Guards.
From S2P Require Import HttpSink.
From S2P Require Import DispatchFrame.

Section http.
Context `{HA : LawfulAbi} `{Alloc}.
Context (into_iter : gmap string UserDefinedType -> list (string * UserDefinedType)).
#[local] Instance http_event_sink : EventSink HttpEventSink := HttpEventSink_EventSink into_iter.

(** ** A lawful sink *)
Definition message_of (n : notice) : SinkEvent :=
  match n with
  | Started p => Startup_ p
  | LogStream s => InitStream (make_stream_info into_iter LogMsgQueueAny LogDepsQueueAny s)
  | MetricsStream s => InitStream (make_stream_info into_iter MetricsMsgQueueAny MetricsDepsQueueAny s)
  | ThreadStream s => InitStream (make_stream_info into_iter ThreadEventQueueAny ThreadDepsQueueAny s)
  | LogBlock_ b => ProcessLogBlock b
  | MetricsBlock_ b => ProcessMetricsBlock b
  | ThreadBlock_ b => ProcessThreadBlock b
  end.

Lemma notify_send n s : notify n s = send (message_of n) s.
Proof. by destruct n. Qed.

Program Definition http_lawful : LawfulSink HttpEventSink SinkEvent := {|
  sent := he_sent;
  encode := message_of;
  is_open s := he_sender s = true /\ he_receiver s = true
|}.
Next Obligation.
  intros n s [E1 E2]. rewrite notify_send. unfold send. rewrite E1. cbn. by rewrite E2.
Qed.
Next Obligation. done. Qed.

(** ** The counter *)

(** The messages that wait *)
Definition pending (s : HttpEventSink) : Z :=
  Z.of_nat (length (he_sent s)) - Z.of_nat (he_received s).

(** The counter differs from the messages that wait by [n], modulo its width. *)
Definition off_by (n : Z) (s : HttpEventSink) : Prop :=
  (he_received s <= length (he_sent s))%nat /\ in_i 64 (he_queue_size s) /\
  exists k, he_queue_size s = pending s - n + k * 2 ^ 64.

Lemma wrap_i_congruent z : in_i 64 (wrap_i 64 z) /\ exists k, wrap_i 64 z = z + k * 2 ^ 64.
Proof.
  unfold wrap_i, in_i. split.
  - pose proof (Z.mod_pos_bound (z + 2 ^ (64 - 1)) (2 ^ 64)). lia.
  - exists (- ((z + 2 ^ (64 - 1)) / 2 ^ 64)). rewrite Z.mod_eq by lia. lia.
Qed.

Lemma add_off_by m n s : off_by n s -> off_by (n - m) (add_queue_size m s).
Proof.
  intros (Hr & Hq & k & E). destruct (wrap_i_congruent (he_queue_size s + m)) as [Hw (k' & E')].
  split; [done|]. split; [done|]. exists (k + k'). cbn [add_queue_size he_queue_size pending].
  rewrite E', E. unfold pending. cbn. lia.
Qed.

Lemma send_off_by e n s : off_by n s -> off_by n (send e s).
Proof.
  intros Ho. unfold send. destruct (he_sender s); [|done]. apply (add_off_by 1) in Ho.
  destruct (he_receiver s) eqn:Er.
  - cbn [add_queue_size he_receiver]. rewrite Er. destruct Ho as (Hr & Hq & k & E).
    split; [cbn in *; rewrite length_app; lia|]. split; [done|]. exists k.
    unfold pending in *. cbn in *. rewrite length_app. cbn. lia.
  - cbn [add_queue_size he_receiver]. rewrite Er. apply (add_off_by (-1)) in Ho.
    by replace (n - 1 - -1) with n in Ho by lia.
Qed.

(** What a command keeps of the sink *)
Definition counted (s s' : HttpEventSink) : Prop :=
  he_sender s' = he_sender s /\ he_receiver s' = he_receiver s /\ he_received s' = he_received s /\
  he_sent s `prefix_of` he_sent s' /\ forall n, off_by n s -> off_by n s'.
#[local] Instance counted_preorder : PreOrder counted.
Proof.
  split.
  - intros s. by split_and!.
  - intros a b c (E1 & E2 & E3 & E4 & E5) (F1 & F2 & F3 & F4 & F5).
    split; [congruence|]. split; [congruence|]. split; [congruence|].
    split; [by etransitivity|]. intros n Hn. by apply F5, E5.
Qed.

Lemma counted_notify n s : counted s (notify n s).
Proof.
  rewrite notify_send. split_and!; [| | | |intros m; apply send_off_by];
    unfold send; destruct (he_sender s) eqn:E1; cbn; try done;
    destruct (he_receiver s) eqn:E2; cbn; try done. by eexists.
Qed.

Lemma counted_log s md time args : counted s (on_log s md time args).1.
Proof. reflexivity. Qed.

(** ** The process and the thread of the sink *)
Context `{Compression} `{Rfc3339} `{Cbor Block} `{Cbor ProcessInfo} `{Cbor StreamInfo}.
Context `{RequestDecorator} (valid_url : string -> bool).
Context {L : Type} (server : Request -> L -> L) (addr : string) (max_queue_size : Z) (retries : nat).

(** A step of the process, or one of the thread *)
Inductive step := Command (cmd : command) | Work (i : Iteration).
Record System := mkSystem {
  sy_world : World HttpEventSink;
  sy_phase : Phase;
  sy_worker : Worker;
  sy_lake : L;
  sy_timeouts : Z
}.
Abbreviation worker_step := (thread_step valid_url server into_iter addr max_queue_size retries).

(** The time-outs after which the counter was decremented *)
Definition settled_timeout (ph : Phase) : Z := match ph with Settling false => 1 | _ => 0 end.
(** The message that the thread has received, and which is still counted *)
Definition in_hand (ph : Phase) : Z := match ph with Handling _ | Settling true => 1 | _ => 0 end.

Definition system_step (s : System) (x : step) : exec System :=
  match x with
  | Command cmd =>
      w ← exec_command cmd (sy_world s);
      Ok (mkSystem w (sy_phase s) (sy_worker s) (sy_lake s) (sy_timeouts s))
  | Work i =>
      '(ph, w, wk, lake) ← worker_step i (sy_phase s) (sy_world s) (sy_worker s) (sy_lake s);
      Ok (mkSystem w ph wk lake (sy_timeouts s + settled_timeout (sy_phase s)))
  end.

Lemma recv_message s e s' n :
  recv_timeout s = (Message e, s') -> off_by n s -> off_by (n - 1) s' /\ he_sent s' = he_sent s.
Proof.
  unfold recv_timeout. destruct (he_sent s !! he_received s) as [x|] eqn:E.
  - intros [= -> <-] (Hr & Hq & k & Ek). apply lookup_lt_Some in E. split; [|done].
    split; [cbn; lia|]. split; [done|]. exists k. unfold pending in *. cbn. lia.
  - by destruct (he_sender s).
Qed.

Lemma recv_none s r s' : recv_timeout s = (r, s') -> (forall e, r <> Message e) -> s' = s.
Proof.
  unfold recv_timeout. destruct (he_sent s !! he_received s) as [x|].
  - intros [= <- <-] Hr. by destruct (Hr x).
  - by intros [= <- <-].
Qed.

Lemma set_sink_sink (s : HttpEventSink) (w : World HttpEventSink) : w_sink (set_sink s w) = s.
Proof. done. Qed.

Lemma step_off_by i ph w wk lake ph' w' wk' lake' n :
  worker_step i ph w wk lake = Ok (ph', w', wk', lake') -> off_by (n - in_hand ph) (w_sink w) ->
  off_by (n + settled_timeout ph - in_hand ph') (w_sink w').
Proof.
  intros E Ho. destruct ph as [|m| |received|]; cbn [thread_step in_hand settled_timeout] in *.
  - unfold thread_receive in E. destruct (time_to_flush_seconds _ _) as [r| | | |];
      cbn [mbind exec_bind] in E; try discriminate.
    destruct (recv_timeout (w_sink w)) as [received sink] eqn:Er. rewrite Z.sub_0_r in Ho.
    destruct received as [e| |]; injection E as <- <- <- <-; cbn [w_sink set_sink in_hand].
    + destruct (recv_message _ _ _ _ Er Ho) as [Ho' _]. by rewrite Z.add_0_r.
    + apply recv_none in Er; [subst sink|done]. by rewrite Z.add_0_r, Z.sub_0_r.
    + apply recv_none in Er; [subst sink|done]. rewrite Z.add_0_r, Z.sub_0_r. exact Ho.
  - destruct (handle_message _ _ _ _ _ _ _ _ _ _ _) as [wk2 [lake2 result]].
    destruct (ignore_error result); cbn [mbind exec_bind] in E; try discriminate.
    injection E as <- <- <- <-. by rewrite Z.add_0_r.
  - destruct (tick _ _ _ _ _) as [[m w2]| | | |] eqn:Et; cbn [mbind exec_bind] in E; try discriminate.
    injection E as <- <- <- <-. apply (tick_moves counted counted_notify) in Et.
    destruct Et as (_ & _ & _ & _ & Hk). cbn [in_hand]. rewrite Z.add_0_r. by apply Hk.
  - injection E as <- <- <- <-. cbn [w_sink set_sink]. apply (add_off_by (-1)) in Ho.
    destruct received; cbn [in_hand settled_timeout] in *;
      [by replace (n - 1 - -1) with (n + 0 - 0) in Ho by lia|by replace (n - 0 - -1) with (n + 1 - 0) in Ho by lia].
  - injection E as <- <- <- <-. by rewrite Z.add_0_r.
Qed.

(** The counter of the system is off by the time-outs, less the message in hand. *)
Definition counting (s : System) : Prop := off_by (sy_timeouts s - in_hand (sy_phase s)) (w_sink (sy_world s)).

Lemma system_step_counting s x s' : system_step s x = Ok s' -> counting s -> counting s'.
Proof.
  unfold counting. destruct x as [cmd|i]; cbn [system_step]; intros E Ho.
  - destruct (exec_command cmd (sy_world s)) as [w| | | |] eqn:Ec; cbn [mbind exec_bind] in E; try discriminate.
    apply (f_equal (fun r => match r with Ok x => x | _ => s end)) in E. subst s'.
    apply (command_moving counted counted_notify counted_log) in Ec.
    destruct Ec as (_ & _ & _ & _ & Hk). by apply Hk.
  - destruct (worker_step i _ _ _ _) as [[[[ph w] wk] lake]| | | |] eqn:Ei; cbn [mbind exec_bind] in E; try discriminate.
    apply (f_equal (fun r => match r with Ok x => x | _ => s end)) in E. subst s'.
    by apply (step_off_by _ _ _ _ _ _ _ _ _ _ Ei).
Qed.

Lemma system_counting steps s s' : foldM system_step s steps = Ok s' -> counting s -> counting s'.
Proof.
  revert s. induction steps as [|x steps IH]; intros s; cbn [foldM].
  - intros E. apply (f_equal (fun r => match r with Ok x => x | _ => s end)) in E. by subst s'.
  - destruct (system_step s x) as [s1| | | |] eqn:E1; cbn [mbind exec_bind]; try done.
    intros E Ho. by apply (IH s1 E), (system_step_counting s x).
Qed.
End http.

(** ** The requests of the messages

    For a network and a server that answer, and the trivial decorator *)
Section delivery.
Context `{HA : LawfulAbi} `{Alloc}.
Context (into_iter : gmap string UserDefinedType -> list (string * UserDefinedType)).
Context `{Compression} `{Rfc3339} `{Cbor Block} `{Cbor ProcessInfo} `{Cbor StreamInfo}.
#[local] Existing Instance TrivialRequestDecorator.
Context (valid_url : string -> bool) {L : Type} (server : Request -> L -> L).
Context (addr : string) (max_queue_size : Z) (retries : nat).
Context (Hurl : forall url, valid_url url = true).

(** The process that the thread knows after a message *)
Definition known (p : option ProcessInfo) (m : SinkEvent) : option ProcessInfo :=
  match m with Startup_ p => Some p | _ => p end.

Definition message_request (st : statics) (p : option ProcessInfo) (new_v4 : Uuid) (m : SinkEvent)
  : option (string * exec buffer) :=
  let block extract b := p ← p; Some ("/ingestion/insert_block", encode_bin extract new_v4 b p) in
  match m with
  | Startup_ p => Some ("/ingestion/insert_process", encode_cbor p)
  | InitStream s => Some ("/ingestion/insert_stream", encode_cbor s)
  | ProcessLogBlock b => block (extract_logs st) b
  | ProcessMetricsBlock b => block (extract_metrics st) b
  | ProcessThreadBlock b => block (extract_thread st) b
  end.

(** The messages from the iteration [n], one after the other *)
Fixpoint deliver (st : statics) (its : nat -> Iteration) (n : nat) (p : option ProcessInfo)
    (ms : list SinkEvent) (lake : L) : L :=
  match ms with
  | [] => lake
  | m :: ms =>
      deliver st its (S n) (known p m) ms
        (match message_request st (known p m) (it_new_v4 (its n)) m with
         | Some (path, Ok body) => server (mkRequest (String.append addr path) body []) lake
         | _ => lake
         end)
  end.

(** Every message is encoded. *)
Fixpoint encodable (st : statics) (its : nat -> Iteration) (n : nat) (p : option ProcessInfo)
    (ms : list SinkEvent) : Prop :=
  match ms with
  | [] => True
  | m :: ms =>
      (exists path body, message_request st (known p m) (it_new_v4 (its n)) m = Some (path, Ok body)) /\
      encodable st its (S n) (known p m) ms
  end.

Lemma post_answered (f g : exec Request -> exec Request) url body lake :
  (forall r, f (Ok r) = Ok r) -> (forall r, g (Ok r) = Ok r) ->
  post valid_url server f g Answered url (Ok body) lake = (server (mkRequest url body []) lake, Ok tt).
Proof. intros Hf Hg. unfold post, build. cbn [mbind exec_bind]. rewrite Hurl, Hf. cbn [mbind exec_bind].
  change (decorate ?r) with (Ok r : exec Request). by rewrite Hg.
Qed.

Abbreviation handle := (handle_message valid_url server addr max_queue_size retries).

Lemma handle_answered i st m q wk lake path body :
  it_outcomes i 0%nat = Answered -> q < max_queue_size ->
  message_request st (known (wk_process_info wk) m) (it_new_v4 i) m = Some (path, Ok body) ->
  handle i st m q wk lake =
  (mkWorker (known (wk_process_info wk) m) (wk_flusher wk),
   (server (mkRequest (String.append addr path) body []) lake, Ok tt)).
Proof.
  intros Ho Hq Hm. assert ((max_queue_size <=? q) = false) as Hlt by by apply Z.leb_gt.
  destruct wk as [p f]. destruct m; cbn [handle_message message_request known wk_process_info wk_flusher] in *;
    unfold process_block, push_process, push_stream, push_block; cbn [wk_process_info].
  1,2: injection Hm as <- E; destruct retries; cbn [retry_spawn];
    rewrite Ho, E; by rewrite post_answered.
  all: destruct p as [p|]; [|discriminate]; injection Hm as <- E; rewrite Hlt, Ho, E; by rewrite post_answered.
Qed.

Abbreviation loop := (thread_loop valid_url server into_iter addr max_queue_size retries).

Lemma wrap_i_id_minus q : - 2 ^ 63 + 1 <= q < 2 ^ 63 -> wrap_i 64 (q + -1) = q - 1.
Proof. intros Hq. rewrite wrap_i_id; [lia|lia|]. unfold in_i. change (64 - 1) with 63. lia. Qed.

(** The thread of a sink that was dropped, on the messages that wait *)
Lemma loop_delivers ms n its w wk lake :
  let s := w_sink w in
  he_sender s = false -> drop (he_received s) (he_sent s) = ms ->
  (forall k, it_outcomes (its k) 0%nat = Answered) ->
  (forall k, exists r, time_to_flush_seconds (it_now (its k)) (wk_flusher wk) = Ok r) ->
  he_queue_size s < max_queue_size -> in_i 64 (he_queue_size s) ->
  - 2 ^ 63 + Z.of_nat (length ms) <= he_queue_size s ->
  encodable (w_memory w) its n (wk_process_info wk) ms ->
  exists s', loop (S (length ms)) n its w wk lake =
      Ok (set_sink s' w, mkWorker (foldl known (wk_process_info wk) ms) (wk_flusher wk),
          deliver (w_memory w) its n (wk_process_info wk) ms lake) /\
    he_sent s' = he_sent s /\ drop (he_received s') (he_sent s') = [] /\ he_receiver s' = false.
Proof.
  revert n w wk lake. induction ms as [|m ms IH]; intros n w wk lake s Hs Hms Ho Ht Hq Hi Hl He.
  - cbn [length thread_loop]. unfold thread_iteration. cbn [thread_step]. unfold thread_receive. destruct (Ht n) as [r ->]. cbn [mbind exec_bind].
    assert (recv_timeout (w_sink w) = (Disconnected, w_sink w)) as ->.
    { unfold recv_timeout. fold s. rewrite Hs. destruct (he_sent s !! he_received s) eqn:E; [|done].
      apply lookup_lt_Some in E. apply (f_equal length) in Hms. rewrite length_drop in Hms. cbn in Hms. lia. }
    cbn [mbind exec_bind]. exists (drop_receiver s). split; [|done]. by destruct wk.
  - cbn [length]. remember (S (length ms)) as fuel eqn:Ef. cbn [thread_loop]. unfold thread_iteration.
    cbn [thread_step]. unfold thread_receive. destruct (Ht n) as [r ->]. cbn [mbind exec_bind].
    destruct He as [(path & body & Em) He].
    set (s1 := mkHttpEventSink (he_sender s) (he_receiver s) (he_sent s) (he_received s + 1) (he_queue_size s)).
    assert (recv_timeout (w_sink w) = (Message m, s1)) as ->.
    { unfold recv_timeout. fold s. assert (he_sent s !! he_received s = Some m) as ->; [|done].
      rewrite <- (Nat.add_0_r (he_received s)), <- lookup_drop, Hms. done. }
    cbn [mbind exec_bind HttpSink.thread_step w_memory w_sink set_sink he_queue_size s1].
    rewrite (handle_answered (its n) (w_memory w) m (he_queue_size s) wk lake path body) by done.
    cbn [ignore_error mbind exec_bind w_sink set_sink].
    set (w2 := set_sink (add_queue_size (-1) s1) w).
    destruct (IH (S n) w2 (mkWorker (known (wk_process_info wk) m) (wk_flusher wk))
      (server (mkRequest (String.append addr path) body []) lake)) as (s' & El & E1 & E2 & E3); try done.
    + change (drop (he_received s + 1) (he_sent s) = ms). by rewrite <- drop_drop, Hms.
    + cbn [w2 w_sink set_sink add_queue_size he_queue_size s1].
      unfold in_i in Hi. change (64 - 1) with 63 in Hi. cbn [length] in Hl.
      rewrite wrap_i_id_minus by lia. lia.
    + apply wrap_i_congruent.
    + cbn [w2 w_sink set_sink add_queue_size he_queue_size s1].
      unfold in_i in Hi. change (64 - 1) with 63 in Hi. cbn [length] in Hl.
      rewrite wrap_i_id_minus by lia. lia.
    + subst fuel. exists s'. split; [|done]. etransitivity; [exact El|].
      cbn [deliver foldl]. by rewrite Em.
Qed.
End delivery.

(** ** Properties *)

(** C33. The counter drifts: whatever the process and the thread of the sink do,
    a command of the process coming between any two steps of the thread, the
    counter of the sink is the number of messages that wait, and of the message
    that the thread has in hand, less the number of time-outs that were settled,
    because a time-out decrements the counter too.  The sink says that it is
    busy only when more messages wait or are in hand than it has timed out. *)
Theorem queue_size_drifts `{HA : LawfulAbi} `{Alloc} `{Compression} `{Rfc3339} `{Cbor Block}
    `{Cbor ProcessInfo} `{Cbor StreamInfo} `{RequestDecorator} into_iter valid_url {L : Type}
    (server : Request -> L -> L) addr max_queue_size retries steps (s s' : System) :
  let outstanding := pending (w_sink (sy_world s')) + in_hand (sy_phase s') in
  counting s ->
  foldM (system_step into_iter valid_url server addr max_queue_size retries) s steps = Ok s' ->
  - 2 ^ 63 <= outstanding - sy_timeouts s' < 2 ^ 63 ->
  he_queue_size (w_sink (sy_world s')) = outstanding - sy_timeouts s' /\
  @is_busy _ (HttpEventSink_EventSink into_iter) (w_sink (sy_world s')) = (sy_timeouts s' <? outstanding).
Proof.
  intros outstanding Ho E Hr. destruct (system_counting _ _ _ _ _ _ _ _ _ E Ho) as (Hle & Hq & k & Ek).
  unfold in_i in Hq. change (64 - 1) with 63 in Hq.
  assert (k = 0) as -> by lia. assert (he_queue_size (w_sink (sy_world s')) = outstanding - sy_timeouts s') as -> by lia.
  split; [done|]. cbn [is_busy HttpEventSink_EventSink].
  destruct (Z.ltb_spec 0 (he_queue_size (w_sink (sy_world s')))), (Z.ltb_spec (sy_timeouts s') outstanding); lia || done.
Qed.

#[local] Existing Instance TrivialRequestDecorator.

(** C34. A sink that is dropped delivers: the thread, between two iterations,
    ends after it has posted every message that waits, once and in the order of
    the calls: the process, the streams, then the blocks encoded with the start
    of the process.  The server must answer the first attempt of each post,
    each message must be encodable, and the counter must be below
    [max_queue_size]: above it [push_block] drops the blocks. *)
Theorem drop_delivers `{HA : LawfulAbi} `{Alloc} `{Compression} `{Rfc3339} `{Cbor Block}
    `{Cbor ProcessInfo} `{Cbor StreamInfo} into_iter valid_url {L : Type} (server : Request -> L -> L)
    addr max_queue_size retries n its (w : World HttpEventSink) wk lake :
  let s := w_sink w in
  let waiting := drop (he_received s) (he_sent s) in
  (forall url, valid_url url = true) ->
  (forall k, it_outcomes (its k) 0%nat = Answered) ->
  (forall k, exists r, time_to_flush_seconds (it_now (its k)) (wk_flusher wk) = Ok r) ->
  he_queue_size s < max_queue_size -> in_i 64 (he_queue_size s) ->
  - 2 ^ 63 + Z.of_nat (length waiting) <= he_queue_size s ->
  encodable (w_memory w) its n (wk_process_info wk) waiting ->
  exists s' wk',
    HttpEventSink_drop valid_url server into_iter addr max_queue_size retries n its w wk lake =
    Ok (set_sink s' w, wk', deliver server addr (w_memory w) its n (wk_process_info wk) waiting lake) /\
    he_sent s' = he_sent s /\ drop (he_received s') (he_sent s') = [] /\ he_receiver s' = false.
Proof.
  intros s waiting Hurl Ho Ht Hq Hi Hl He. unfold HttpEventSink_drop.
  destruct (loop_delivers into_iter valid_url server addr max_queue_size retries Hurl waiting n its
    (set_sink (drop_sender s) w) wk lake) as (s' & E & E1 & E2 & E3); try done.
  eexists s', _. split; [|done]. rewrite <- (length_drop (he_sent s)) . exact E.
Qed.

(** *** A concrete process and its server *)
Module HttpExample.
Export DispatchExample.
#[export] Instance cbor_block : Cbor Block :=
  {| encode_cbor b := Ok (bp_objects (bk_payload b)); from_reader _ := Panic |}.
#[export] Instance cbor_process : Cbor ProcessInfo :=
  {| encode_cbor _ := Ok [byte.of_Z 80]; from_reader _ := Panic |}.
#[export] Instance cbor_stream : Cbor StreamInfo :=
  {| encode_cbor _ := Ok [byte.of_Z 83]; from_reader _ := Panic |}.
#[export] Instance rfc : Rfc3339 := {| to_rfc3339 _ := "1970"; parse_from_rfc3339 _ := Ok 0 |}.
#[export] Existing Instance identity_compression.
#[export] Instance example_sink : EventSink HttpEventSink := HttpEventSink_EventSink map_to_list.
Definition wh : World HttpEventSink :=
  mkWorld None ∅ 0 st ∅ None initial_max_filters HttpEventSink_new.
Definition started : World HttpEventSink :=
  match Dispatch_new su 160 160 160 wh with Ok w => w | _ => wh end.
Definition server (r : Request) (l : list Request) : list Request := l ++ [r].
Definition input (n : nat) : Iteration :=
  mkIteration 1000 (fun _ => Answered) (100 + Z.of_nat n) 1000 1000 (c 90).
Definition worker : Worker := Worker_new 1000.
Definition system : System := mkSystem started Receiving worker ([] : list Request) 0.
(** The three messages of the start, then a time-out, each in three steps, with
    an entry that is logged and flushed while the first message is in hand *)
Definition work (n : nat) : list step := replicate 3 (Work (input n)).
Definition steps : list step :=
  [Work (input 0); Command (Log (c 20) 500 (mkArguments (Some text) "ab")); Command (FlushLogs (c 21));
   Work (input 0); Work (input 0)] ++ concat (map work [1; 2; 3; 4]%nat).
Definition step_system := system_step map_to_list (fun _ => true) server "http://localhost" 16 3.
(** An entry that is logged and flushed *)
Definition logged : World HttpEventSink :=
  match exec_command (Log (c 20) 500 (mkArguments (Some text) "ab")) started with
  | Ok w => match exec_command (FlushLogs (c 21)) w with Ok w => w | _ => w end
  | _ => started
  end.
End HttpExample.
Import HttpExample.

Lemma queue_size_drifts_witness :
  exists s', foldM HttpExample.step_system HttpExample.system HttpExample.steps = Ok s' /\
    sy_timeouts s' = 1 /\ he_queue_size (w_sink (sy_world s')) = -1.
Proof.
  assert (exists s', foldM HttpExample.step_system HttpExample.system HttpExample.steps = Ok s' /\
    sy_timeouts s' = 1 /\ pending (w_sink (sy_world s')) + in_hand (sy_phase s') = 0) as (s' & E & Et & Ep).
  { eexists. split; [vm_compute; reflexivity|]. split; vm_compute; reflexivity. }
  exists s'. split; [exact E|]. split; [exact Et|].
  destruct (queue_size_drifts map_to_list (fun _ => true) HttpExample.server "http://localhost" 16 3
    HttpExample.steps HttpExample.system s') as [Hq _].
  - split; [vm_compute; lia|]. split; [split; vm_compute; congruence|]. exists 0. vm_compute. reflexivity.
  - exact E.
  - rewrite Et, Ep. lia.
  - rewrite Hq, Et, Ep. reflexivity.
Defined.

Lemma drop_delivers_witness :
  exists s' wk', HttpEventSink_drop (fun _ => true) HttpExample.server map_to_list "http://localhost" 16 3 0
      HttpExample.input HttpExample.logged HttpExample.worker [] =
    Ok (set_sink s' HttpExample.logged, wk',
        deliver HttpExample.server "http://localhost" (w_memory HttpExample.logged) HttpExample.input 0 None
          (he_sent (w_sink HttpExample.logged)) []) /\
    length (he_sent s') = 4%nat.
Proof.
  destruct (drop_delivers map_to_list (fun _ => true) HttpExample.server "http://localhost" 16 3 0
    HttpExample.input HttpExample.logged HttpExample.worker []) as (s' & wk' & E & E1 & _);
    [done|done|intros k; eexists; reflexivity|vm_compute; reflexivity|split; vm_compute; congruence
    |vm_compute; congruence| |].
  - vm_compute. repeat split; eexists _, _; reflexivity.
  - exists s', wk'. split; [exact E|]. rewrite E1. vm_compute. reflexivity.
Defined.
