(* ===== verification/CallTree.v ===== *)
(** * Call trees

    [analytics/src/call_tree.rs]: the builder that turns the begins and ends of
    the scopes of a thread into a tree, and the tree it must find. *)

From S2P Require Import Prelude RustString Float Transit Queue Pod Parser PodParser Blocks.
From S2P Require Import Levels Deps LogEvents LogBlock Time Stream Wire LogEntry SpanEvents.
From S2P Require Import ThreadBlock ThreadBlockProcessor.

Inductive CallTreeNode := mkCallTreeNode {
  ctn_id : option Z;
  ctn_hash : Z;
  ctn_begin : Z;
  ctn_end : Z;
  ctn_children : list CallTreeNode
}.

Abbreviation ScopeHashMap := (gmap Z ScopeDesc).

Record CallTree := mkCallTree {
  ct_scopes : ScopeHashMap;
  call_tree_root : option CallTreeNode
}.

(** The stack of the builder is written with its top first. *)
Record CallTreeBuilder := mkCallTreeBuilder {
  ctb_begin_range_ns : Z;
  ctb_end_range_ns : Z;
  ctb_limit : Z;
  ctb_nb_spans : Z;
  ctb_stack : list CallTreeNode;
  ctb_scopes : ScopeHashMap;
  ctb_convert_ticks : ConvertTicks;
  ctb_root_hash : Z
}.

Definition set_stack (b : CallTreeBuilder) (s : list CallTreeNode) : CallTreeBuilder :=
  mkCallTreeBuilder (ctb_begin_range_ns b) (ctb_end_range_ns b) (ctb_limit b) (ctb_nb_spans b) s (ctb_scopes b)
    (ctb_convert_ticks b) (ctb_root_hash b).
Definition set_scopes (b : CallTreeBuilder) (s : ScopeHashMap) : CallTreeBuilder :=
  mkCallTreeBuilder (ctb_begin_range_ns b) (ctb_end_range_ns b) (ctb_limit b) (ctb_nb_spans b) (ctb_stack b) s
    (ctb_convert_ticks b) (ctb_root_hash b).
Definition set_nb_spans (b : CallTreeBuilder) (n : Z) : CallTreeBuilder :=
  mkCallTreeBuilder (ctb_begin_range_ns b) (ctb_end_range_ns b) (ctb_limit b) n (ctb_stack b) (ctb_scopes b)
    (ctb_convert_ticks b) (ctb_root_hash b).

Definition CallTreeBuilder_new `{Xxh32} (begin_range_ns end_range_ns limit : Z)
    (convert_ticks : ConvertTicks) (thread_name : string) : CallTreeBuilder :=
  let thread_scope_desc := ScopeDesc_new thread_name EmptyString EmptyString 0 in
  let root_hash := sd_hash thread_scope_desc in
  mkCallTreeBuilder begin_range_ns end_range_ns limit 0 [] {[ root_hash := thread_scope_desc ]}
    convert_ticks root_hash.

(** [parent.children.push(node)] *)
Definition push_child (parent node : CallTreeNode) : CallTreeNode :=
  mkCallTreeNode (ctn_id parent) (ctn_hash parent) (ctn_begin parent) (ctn_end parent)
    (ctn_children parent ++ [node]).

(** The loop of [finish], which pops the stack until one node is left *)
Fixpoint finish_loop (top : CallTreeNode) (stack : list CallTreeNode) : CallTreeNode :=
  match stack with
  | [] => top
  | parent :: stack => finish_loop (push_child parent top) stack
  end.

Definition finish (b : CallTreeBuilder) : CallTree :=
  match ctb_stack b with
  | [] => mkCallTree (ctb_scopes b) None
  | top :: rest => mkCallTree (ctb_scopes b) (Some (finish_loop top rest))
  end.

Definition add_child_to_top (b : CallTreeBuilder) (node : CallTreeNode) : exec CallTreeBuilder :=
  match ctb_stack b with
  | top :: rest => Ok (set_stack b (push_child top node :: rest))
  | [] =>
      let new_root := mkCallTreeNode None (ctb_root_hash b) (ctb_begin_range_ns b) (ctb_end_range_ns b) [node] in
      n ← i64_checked (ctb_nb_spans b + 1);
      Ok (set_nb_spans (set_stack b [new_root]) n)
  end.

Definition record_scope_desc (b : CallTreeBuilder) (scope_desc : ScopeDesc) : CallTreeBuilder :=
  match ctb_scopes b !! sd_hash scope_desc with
  | Some _ => b
  | None => set_scopes b (<[sd_hash scope_desc := scope_desc]> (ctb_scopes b))
  end.

Definition builder_on_begin (b : CallTreeBuilder) (event_id : Z) (scope : ScopeDesc) (ts : Z)
  : exec (CallTreeBuilder * bool) :=
  if ctb_limit b <=? ctb_nb_spans b then Ok (b, false) else
  time ← ticks_to_nanoseconds (ctb_convert_ticks b) ts;
  if time <? ctb_begin_range_ns b then Ok (b, true) else
  if ctb_end_range_ns b <? time then Ok (b, false) else
  let hash := sd_hash scope in
  let b := record_scope_desc b scope in
  let node := mkCallTreeNode (Some event_id) hash time (ctb_end_range_ns b) [] in
  n ← i64_checked (ctb_nb_spans b + 1);
  Ok (set_nb_spans (set_stack b (node :: ctb_stack b)) n, true).

Definition builder_on_end (b : CallTreeBuilder) (event_id : Z) (scope : ScopeDesc) (ts : Z)
  : exec (CallTreeBuilder * bool) :=
  time ← ticks_to_nanoseconds (ctb_convert_ticks b) ts;
  if time <? ctb_begin_range_ns b then Ok (b, true) else
  if ctb_end_range_ns b <? time then Ok (b, false) else
  let hash := sd_hash scope in
  let b := record_scope_desc b scope in
  match ctb_stack b with
  | old_top :: rest =>
      let b := set_stack b rest in
      if ctn_hash old_top =? hash then
        b ← add_child_to_top b (mkCallTreeNode (ctn_id old_top) (ctn_hash old_top)
              (ctn_begin old_top) time (ctn_children old_top));
        Ok (b, true)
      else if ctn_hash old_top =? ctb_root_hash b then
        b ← add_child_to_top b (mkCallTreeNode (Some event_id) hash
              (ctn_begin old_top) time (ctn_children old_top));
        Ok (b, true)
      else Err ["top scope mismatch parsing thread block"]
  | [] =>
      if ctb_limit b <=? ctb_nb_spans b then Ok (b, false) else
      b ← add_child_to_top b
            (mkCallTreeNode (Some event_id) hash (ctb_begin_range_ns b) time []);
      Ok (b, true)
  end.

#[export] Instance CallTreeBuilder_ThreadBlockProcessor : ThreadBlockProcessor CallTreeBuilder :=
  {| on_begin_thread_scope b _ event_id scope ts := builder_on_begin b event_id scope ts;
     on_end_thread_scope b _ event_id scope ts := builder_on_end b event_id scope ts |}.

(** ** The tree that a thread should have

    What a thread did while it was observed: scopes that began and ended, one
    inside the other ([forest], in first-child and next-sibling form), scopes
    that had begun before and ended ([prefix]), and scopes that had not ended
    yet ([opens]). *)
Inductive forest :=
| Nil
| Span (id : Z) (scope : ScopeDesc) (begin_ticks end_ticks : Z) (id_end : Z) (children siblings : forest).

Abbreviation boundary := (Z * ScopeDesc * Z)%type.

Fixpoint calls (f : forest) : list (Z * scope_call) :=
  match f with
  | Nil => []
  | Span id s b e id_end c f' =>
      (id, BeginScope s b) :: calls c ++ (id_end, EndScope s e) :: calls f'
  end.
Fixpoint prefix_calls (prefix : list (forest * boundary)) : list (Z * scope_call) :=
  match prefix with
  | [] => []
  | (f, (id, s, t)) :: prefix' => calls f ++ (id, EndScope s t) :: prefix_calls prefix'
  end.
Fixpoint open_calls (opens : list (boundary * forest)) : list (Z * scope_call) :=
  match opens with
  | [] => []
  | (id, s, t, f) :: opens' => (id, BeginScope s t) :: calls f ++ open_calls opens'
  end.

Fixpoint forest_size (f : forest) : Z :=
  match f with
  | Nil => 0
  | Span _ _ _ _ _ c f' => 1 + forest_size c + forest_size f'
  end.
Definition prefix_size (prefix : list (forest * boundary)) : Z :=
  foldr (fun p n => forest_size p.1 + 1 + n) 0 prefix.
Definition open_size (opens : list (boundary * forest)) : Z :=
  foldr (fun p n => forest_size p.2 + 1 + n) 0 opens.

(** [processor] sees the calls until it stops. *)
Fixpoint run_calls {Proc} `{ThreadBlockProcessor Proc} (block_id : string) (processor : Proc)
    (cs : list (Z * scope_call)) : exec (Proc * bool) :=
  match cs with
  | [] => Ok (processor, true)
  | (id, c) :: cs' =>
      '(processor, continue) ← call_scope block_id id processor (Some c);
      if continue : bool then run_calls block_id processor cs' else Ok (processor, false)
  end.

Section expected.
Context (convert_ticks : ConvertTicks) (begin_ns end_ns root_hash : Z).

Definition ns (ticks : Z) : Z :=
  match ticks_to_nanoseconds convert_ticks ticks with Ok t => t | _ => 0 end.

Fixpoint forest_nodes (f : forest) : list CallTreeNode :=
  match f with
  | Nil => []
  | Span id s b e _ c f' =>
      mkCallTreeNode (Some id) (sd_hash s) (ns b) (ns e) (forest_nodes c) :: forest_nodes f'
  end.
(** A scope that had begun before the range begins with it, and holds all that
    came before its end. *)
Fixpoint prefix_nodes (acc : list CallTreeNode) (prefix : list (forest * boundary))
  : list CallTreeNode :=
  match prefix with
  | [] => acc
  | (f, (id, s, t)) :: prefix' =>
      prefix_nodes [mkCallTreeNode (Some id) (sd_hash s) begin_ns (ns t) (acc ++ forest_nodes f)]
        prefix'
  end.
(** A scope that has not ended ends with the range, and holds all that follows. *)
Fixpoint open_nodes (opens : list (boundary * forest)) : list CallTreeNode :=
  match opens with
  | [] => []
  | (id, s, t, f) :: opens' =>
      [mkCallTreeNode (Some id) (sd_hash s) (ns t) end_ns (forest_nodes f ++ open_nodes opens')]
  end.

(** The thread is the root of the tree, unless all that was seen is inside a
    scope that has not ended. *)
Definition expected_root (prefix : list (forest * boundary)) (mid : forest)
    (opens : list (boundary * forest)) : option CallTreeNode :=
  match prefix_nodes [] prefix ++ forest_nodes mid with
  | [] => head (open_nodes opens)
  | closed =>
      Some (mkCallTreeNode None root_hash begin_ns end_ns (closed ++ open_nodes opens))
  end.

(** The ticks of a call are in the range of the query. *)
Definition in_view (c : Z * scope_call) : Prop :=
  let ts := match c.2 with BeginScope _ ts | EndScope _ ts => ts end in
  exists t, ticks_to_nanoseconds convert_ticks ts = Ok t /\ begin_ns <= t <= end_ns.
End expected.

(** ** The builder finds the tree *)
Section builder.
Context (ct : ConvertTicks) (begin_ns end_ns lim rh : Z) (block_id : string).
Context (Hlim : lim < 2 ^ 63).

Abbreviation B n st sc := (mkCallTreeBuilder begin_ns end_ns lim n st sc ct rh).
Abbreviation run := (run_calls block_id).
Abbreviation view := (in_view ct begin_ns end_ns).
Abbreviation nodes := (forest_nodes ct).

(** A closed node is given to what is now the top of the stack. *)
Definition attach (st : list CallTreeNode) (node : CallTreeNode) : list CallTreeNode :=
  match st with
  | [] => [mkCallTreeNode None rh begin_ns end_ns [node]]
  | top :: rest => push_child top node :: rest
  end.
Definition push_children (top : CallTreeNode) (l : list CallTreeNode) : CallTreeNode :=
  mkCallTreeNode (ctn_id top) (ctn_hash top) (ctn_begin top) (ctn_end top) (ctn_children top ++ l).
(** An empty stack will need a span for the thread. *)
Definition weight (st : list CallTreeNode) : Z := match st with [] => 1 | _ => 0 end.

Lemma attach_all top st l : foldl attach (top :: st) l = push_children top l :: st.
Proof.
  revert top. induction l as [|x l IH]; intros top; cbn [foldl attach].
  - unfold push_children. rewrite app_nil_r. by destruct top.
  - rewrite IH. unfold push_children, push_child. cbn. by rewrite <- app_assoc.
Qed.

Lemma attach_all_nil l :
  foldl attach [] l = match l with [] => [] | _ => [mkCallTreeNode None rh begin_ns end_ns l] end.
Proof. destruct l as [|x l]; [done|]. cbn [foldl attach]. by rewrite attach_all. Qed.

Lemma record_scope_B n st sc s :
  exists sc', record_scope_desc (B n st sc) s = B n st sc'.
Proof. unfold record_scope_desc. cbn. destruct (sc !! _); by eexists. Qed.

Lemma view_ns id c t :
  view (id, c) -> (match c with BeginScope _ ts | EndScope _ ts => ts end) = t ->
  ticks_to_nanoseconds ct t = Ok (ns ct t) /\ (ns ct t <? begin_ns) = false /\
  (end_ns <? ns ct t) = false.
Proof.
  intros (x & Hx & Hr) <-. cbn [snd] in Hx. unfold ns. rewrite Hx. split; [done|].
  split; apply Z.ltb_ge; lia.
Qed.

Lemma add_child_B n st sc node :
  0 <= n -> n + weight st <= lim ->
  add_child_to_top (B n st sc) node = Ok (B (n + weight st) (attach st node) sc).
Proof.
  intros H0 H. unfold add_child_to_top. cbn [ctb_stack ctb_nb_spans].
  destruct st as [|top st]; cbn [weight attach] in *.
  - rewrite (proj2 (i64_checked_Ok _ _)) by (split; [done|]; unfold in_i; lia). done.
  - by rewrite Z.add_0_r.
Qed.

Lemma run_begin n st sc id s t rest :
  0 <= n < lim -> view (id, BeginScope s t) ->
  exists sc', run (B n st sc) ((id, BeginScope s t) :: rest) =
    run (B (n + 1) (mkCallTreeNode (Some id) (sd_hash s) (ns ct t) end_ns [] :: st) sc') rest.
Proof.
  intros Hn Hv. destruct (view_ns _ _ t Hv eq_refl) as (Ht & H1 & H2).
  destruct (record_scope_B n st sc s) as [sc' Hsc]. exists sc'.
  cbn [run_calls call_scope on_begin_thread_scope CallTreeBuilder_ThreadBlockProcessor].
  unfold builder_on_begin. rewrite Hsc. cbn - [Z.leb Z.ltb ticks_to_nanoseconds i64_checked].
  rewrite (proj2 (Z.leb_gt _ _)) by lia. rewrite Ht. cbn [mbind exec_bind]. rewrite H1, H2.
  rewrite (proj2 (i64_checked_Ok _ _)) by (split; [done|]; unfold in_i; lia). done.
Qed.

Lemma run_end n top st sc id s t rest :
  0 <= n -> n + weight st <= lim -> view (id, EndScope s t) -> ctn_hash top = sd_hash s ->
  exists sc', run (B n (top :: st) sc) ((id, EndScope s t) :: rest) =
    run (B (n + weight st) (attach st (mkCallTreeNode (ctn_id top) (sd_hash s) (ctn_begin top)
      (ns ct t) (ctn_children top))) sc') rest.
Proof.
  intros H0 Hn Hv Hh. destruct (view_ns _ _ t Hv eq_refl) as (Ht & H1 & H2).
  destruct (record_scope_B n (top :: st) sc s) as [sc' Hsc]. exists sc'.
  cbn [run_calls call_scope on_end_thread_scope CallTreeBuilder_ThreadBlockProcessor].
  unfold builder_on_end. rewrite Hsc. cbn - [Z.ltb Z.eqb ticks_to_nanoseconds add_child_to_top].
  rewrite Ht. cbn [mbind exec_bind]. rewrite H1, H2, Hh, Z.eqb_refl.
  change (set_stack (B n (top :: st) sc') st) with (B n st sc').
  rewrite add_child_B by done. done.
Qed.

(** Scopes that begin and end leave their nodes to the top of the stack. *)
Lemma run_forest f n st sc rest :
  0 <= n -> n + weight st + forest_size f <= lim -> Forall view (calls f) ->
  exists n' sc', run (B n st sc) (calls f ++ rest) = run (B n' (foldl attach st (nodes f)) sc') rest /\
    0 <= n' /\ n' + weight (foldl attach st (nodes f)) <= n + weight st + forest_size f.
Proof.
  assert (forall f, 0 <= forest_size f) as Hsize by (intros g; induction g; cbn; lia).
  revert n st sc rest.
  induction f as [|id s b e id_end c IHc f IHf]; intros n st sc rest H0 Hn Hv; cbn [calls].
  - exists n, sc. cbn in *. split; [done|]. lia.
  - cbn [forest_size] in Hn. pose proof (Hsize c). pose proof (Hsize f).
    cbn [calls] in Hv. apply list.Forall_cons in Hv as [Hvb Hv].
    apply Forall_app in Hv as [Hvc Hv]. apply list.Forall_cons in Hv as [Hve Hvf].
    assert (0 <= weight st <= 1) as Hw by (destruct st; cbn; lia).
    cbn [app]. rewrite <- app_assoc. cbn [app].
    destruct (run_begin n st sc id s b (calls c ++ (id_end, EndScope s e) :: calls f ++ rest))
      as [sc1 ->]; [lia|done|].
    destruct (IHc (n + 1) (mkCallTreeNode (Some id) (sd_hash s) (ns ct b) end_ns [] :: st) sc1
      ((id_end, EndScope s e) :: calls f ++ rest)) as (n2 & sc2 & -> & H2 & H2'); [lia|cbn; lia|done|].
    rewrite attach_all in H2' |- *. cbn [weight] in H2'.
    destruct (run_end n2 (push_children (mkCallTreeNode (Some id) (sd_hash s) (ns ct b) end_ns [])
      (nodes c)) st sc2 id_end s e (calls f ++ rest)) as [sc3 ->]; [lia|lia|done|done|].
    cbn [push_children ctn_id ctn_begin ctn_children app].
    set (node := mkCallTreeNode (Some id) (sd_hash s) (ns ct b) (ns ct e) (nodes c)).
    assert (weight (attach st node) = 0) as Hwa by by destruct st.
    destruct (IHf (n2 + weight st) (attach st node) sc3 rest) as (n4 & sc4 & -> & H4 & H4');
      [lia|lia|done|].
    exists n4, sc4. split; [done|]. cbn [forest_nodes foldl forest_size]. fold node. lia.
Qed.

(** A scope that began before the range takes the place of the thread. *)
Definition orphan (acc : list CallTreeNode) (id : Z) (s : ScopeDesc) (t : Z) : CallTreeNode :=
  mkCallTreeNode (Some id) (sd_hash s) begin_ns (ns ct t) acc.

Lemma run_orphan n acc sc id s t rest :
  let st := foldl attach [] acc in
  0 <= n -> n + weight st + 1 <= lim -> view (id, EndScope s t) -> sd_hash s <> rh ->
  exists sc', run (B n st sc) ((id, EndScope s t) :: rest) =
    run (B (n + 1) [mkCallTreeNode None rh begin_ns end_ns [orphan acc id s t]] sc') rest.
Proof.
  intros st H0 Hn Hv Hs. destruct (view_ns _ _ t Hv eq_refl) as (Ht & H1 & H2). subst st.
  rewrite attach_all_nil in *.
  destruct (record_scope_B n (foldl attach [] acc) sc s) as [sc' Hsc]. exists sc'.
  rewrite attach_all_nil in Hsc.
  cbn [run_calls call_scope on_end_thread_scope CallTreeBuilder_ThreadBlockProcessor].
  unfold builder_on_end. rewrite Hsc.
  destruct acc as [|x acc]; cbn - [Z.ltb Z.leb Z.eqb ticks_to_nanoseconds add_child_to_top] in *;
    rewrite Ht; cbn [mbind exec_bind]; rewrite H1, H2.
  - rewrite (proj2 (Z.leb_gt _ _)) by lia. by rewrite add_child_B by (cbn; lia).
  - rewrite (proj2 (Z.eqb_neq _ _)) by congruence. rewrite Z.eqb_refl.
    match goal with |- context [add_child_to_top ?b _] =>
      change b with (B n [] sc') end.
    by rewrite add_child_B by (cbn; lia).
Qed.

Lemma run_prefix prefix n acc sc rest :
  let st := foldl attach [] acc in
  0 <= n -> n + weight st + prefix_size prefix <= lim -> Forall view (prefix_calls prefix) ->
  Forall (fun p => sd_hash p.2.1.2 <> rh) prefix ->
  exists n' sc', let st' := foldl attach [] (prefix_nodes ct begin_ns acc prefix) in
    run (B n st sc) (prefix_calls prefix ++ rest) = run (B n' st' sc') rest /\
    0 <= n' /\ n' + weight st' <= n + weight st + prefix_size prefix.
Proof.
  revert n acc sc. induction prefix as [|[f [[id s] t]] prefix IH]; intros n acc sc st H0 Hn Hv Hh.
  { exists n, sc. cbn in *. split; [done|]. subst st. lia. }
  cbn [prefix_calls prefix_nodes] in *. apply Forall_app in Hv as [Hvf Hv].
  apply list.Forall_cons in Hv as [Hvs Hv]. apply list.Forall_cons in Hh as [Hs Hh]. cbn in Hs.
  assert (prefix_size ((f, (id, s, t)) :: prefix) = forest_size f + 1 + prefix_size prefix)
    as Hsz by reflexivity.
  assert (0 <= prefix_size prefix) as Hpos.
  { clear. assert (forall f, 0 <= forest_size f) as Hsize by (intros g; induction g; cbn; lia).
    induction prefix as [|[g ?] prefix IH]; [done|].
    change (0 <= forest_size g + 1 + prefix_size prefix). pose proof (Hsize g). lia. }
  rewrite <- app_assoc. cbn [app].
  destruct (run_forest f n st sc ((id, EndScope s t) :: prefix_calls prefix ++ rest))
    as (n1 & sc1 & -> & H1 & H1'); [lia|lia|done|].
  subst st. rewrite <- foldl_app in *.
  destruct (run_orphan n1 (acc ++ nodes f) sc1 id s t (prefix_calls prefix ++ rest)) as [sc2 ->];
    [lia|lia|done|done|].
  destruct (IH (n1 + 1) [orphan (acc ++ nodes f) id s t] sc2) as (n3 & sc3 & Heq & H3 & H3');
    [lia| |done|done|].
  { cbn [foldl attach weight].
    destruct (foldl attach [] (acc ++ nodes f)); cbn [weight] in *; lia. }
  cbn [foldl attach weight] in Heq. cbn [foldl attach] in H3'. cbn [weight] in H3'.
  exists n3, sc3. cbv zeta. rewrite Heq. split; [done|]. split; [done|].
  fold (orphan (acc ++ nodes f) id s t). rewrite Hsz.
  destruct (foldl attach [] (acc ++ nodes f)); cbn [weight] in *; lia.
Qed.

(** [finish] closes the scopes that are left open. *)
Definition close (st : list CallTreeNode) : option CallTreeNode :=
  match st with [] => None | top :: rest => Some (finish_loop top rest) end.

Lemma close_push top rest l :
  close (foldl attach (top :: rest) l) = close (push_children top l :: rest).
Proof. by rewrite attach_all. Qed.

Lemma run_opens opens n st sc :
  0 <= n -> n + weight st + open_size opens <= lim -> Forall view (open_calls opens) ->
  exists n' st' sc', run (B n st sc) (open_calls opens) = Ok (B n' st' sc', true) /\
    close st' =
      match st with
      | [] => head (open_nodes ct end_ns opens)
      | top :: rest => close (push_children top (open_nodes ct end_ns opens) :: rest)
      end.
Proof.
  assert (forall f, 0 <= forest_size f) as Hsize by (intros g; induction g; cbn; lia).
  revert n st sc. induction opens as [|[[[id s] t] f] opens IH]; intros n st sc H0 Hn Hv.
  - exists n, st, sc. split; [done|]. destruct st as [|top rest]; [done|].
    cbn [open_nodes]. unfold push_children. rewrite app_nil_r. by destruct top.
  - cbn [open_calls open_nodes head] in *. apply list.Forall_cons in Hv as [Hvs Hv].
    apply Forall_app in Hv as [Hvf Hv].
    assert (open_size ((id, s, t, f) :: opens) = forest_size f + 1 + open_size opens)
      as Hsz by reflexivity.
    assert (0 <= open_size opens) as Hpos.
    { clear - Hsize. induction opens as [|[? g] opens IH]; [done|].
      change (0 <= forest_size g + 1 + open_size opens). pose proof (Hsize g). lia. }
    pose proof (Hsize f). assert (0 <= weight st) by (destruct st; cbn; lia).
    destruct (run_begin n st sc id s t (calls f ++ open_calls opens)) as [sc1 ->]; [lia|done|].
    set (node := mkCallTreeNode (Some id) (sd_hash s) (ns ct t) end_ns []).
    destruct (run_forest f (n + 1) (node :: st) sc1 (open_calls opens)) as (n2 & sc2 & -> & H2 & H2');
      [lia|cbn; lia|done|].
    rewrite attach_all in *. cbn [weight] in H2'.
    destruct (IH n2 (push_children node (nodes f) :: st) sc2) as (n3 & st3 & sc3 & -> & Hc);
      [lia|cbn; lia|done|].
    exists n3, st3, sc3. split; [done|]. rewrite Hc.
    unfold push_children at 2. cbn [ctn_id ctn_hash ctn_begin ctn_end ctn_children push_children node app].
    by destruct st.
Qed.

Lemma run_all prefix mid opens sc :
  1 + prefix_size prefix + forest_size mid + open_size opens <= lim ->
  Forall view (prefix_calls prefix ++ calls mid ++ open_calls opens) ->
  Forall (fun p => sd_hash p.2.1.2 <> rh) prefix ->
  exists b', run (B 0 [] sc) (prefix_calls prefix ++ calls mid ++ open_calls opens) = Ok (b', true) /\
    call_tree_root (finish b') = expected_root ct begin_ns end_ns rh prefix mid opens.
Proof.
  intros Hn Hv Hh. apply Forall_app in Hv as [Hvp Hv]. apply Forall_app in Hv as [Hvm Hvo].
  assert (0 <= forest_size mid) as Hm by (clear; induction mid; cbn; lia).
  assert (0 <= open_size opens) as Ho.
  { clear. assert (forall f, 0 <= forest_size f) as Hsize by (intros g; induction g; cbn; lia).
    induction opens as [|[? g] opens IH]; [done|].
    change (0 <= forest_size g + 1 + open_size opens). pose proof (Hsize g). lia. }
  destruct (run_prefix prefix 0 [] sc (calls mid ++ open_calls opens))
    as (n1 & sc1 & Heq & H1 & H1'); [lia|cbn; lia|done|done|].
  cbv zeta in Heq, H1'. cbn [foldl] in Heq. cbn [foldl weight] in H1'. rewrite Heq. clear Heq.
  destruct (run_forest mid n1 (foldl attach [] (prefix_nodes ct begin_ns [] prefix)) sc1
    (open_calls opens)) as (n2 & sc2 & -> & H2 & H2'); [lia|lia|done|].
  rewrite <- foldl_app in *.
  destruct (run_opens opens n2 (foldl attach [] (prefix_nodes ct begin_ns [] prefix ++ nodes mid)) sc2)
    as (n3 & st3 & sc3 & -> & Hc); [lia|lia|done|].
  eexists. split; [done|].
  assert (call_tree_root (finish (B n3 st3 sc3)) = close st3) as -> by by destruct st3.
  rewrite Hc, attach_all_nil. unfold expected_root.
  by destruct (prefix_nodes ct begin_ns [] prefix ++ nodes mid).
Qed.
End builder.

(** ** What any sequence of calls leaves in the tree *)

(** The nodes of a tree, in the order of a visit from the root *)
Fixpoint node_list (n : CallTreeNode) : list CallTreeNode :=
  match n with
  | mkCallTreeNode _ _ _ _ children => n :: concat (map node_list children)
  end.
Definition tree_nodes (t : CallTree) : list CallTreeNode :=
  match call_tree_root t with Some n => node_list n | None => [] end.

(** A node has a scope that was recorded, and times in the range. *)
Definition node_ok (sc : ScopeHashMap) (begin_ns end_ns : Z) (n : CallTreeNode) : Prop :=
  is_Some (sc !! ctn_hash n) /\
  begin_ns <= ctn_begin n <= end_ns /\ begin_ns <= ctn_end n <= end_ns.
Definition scopes_ok (sc : ScopeHashMap) : Prop := forall h s, sc !! h = Some s -> sd_hash s = h.
Definition builder_ok (b : CallTreeBuilder) : Prop :=
  Forall (fun n => Forall (node_ok (ctb_scopes b) (ctb_begin_range_ns b) (ctb_end_range_ns b))
    (node_list n)) (ctb_stack b) /\
  scopes_ok (ctb_scopes b) /\ is_Some (ctb_scopes b !! ctb_root_hash b) /\
  ctb_begin_range_ns b <= ctb_end_range_ns b.

Lemma node_list_unfold n : node_list n = n :: concat (map node_list (ctn_children n)).
Proof. by destruct n. Qed.

Section nodes.
Context (P : CallTreeNode -> Prop).
Abbreviation all n := (Forall P (node_list n)).

Lemma all_node id h b e c :
  all (mkCallTreeNode id h b e c) <->
  P (mkCallTreeNode id h b e c) /\ Forall (fun n => all n) c.
Proof.
  cbn [node_list]. rewrite list.Forall_cons. f_equiv.
  induction c as [|x c IH]; cbn [map concat]; [done|].
  by rewrite Forall_app, IH, list.Forall_cons.
Qed.

Lemma all_same id h b e c id' b' e' h' :
  (P (mkCallTreeNode id h b e c) -> P (mkCallTreeNode id' h' b' e' c)) ->
  all (mkCallTreeNode id h b e c) -> all (mkCallTreeNode id' h' b' e' c).
Proof. rewrite !all_node. tauto. Qed.
End nodes.

Lemma node_ok_fields sc b e n n' :
  ctn_hash n = ctn_hash n' -> ctn_begin n = ctn_begin n' -> ctn_end n = ctn_end n' ->
  node_ok sc b e n -> node_ok sc b e n'.
Proof. unfold node_ok. by intros -> -> ->. Qed.

Lemma push_child_ok sc b e top node :
  Forall (node_ok sc b e) (node_list top) -> Forall (node_ok sc b e) (node_list node) ->
  Forall (node_ok sc b e) (node_list (push_child top node)).
Proof.
  destruct top as [id h tb te c]. unfold push_child. cbn [ctn_id ctn_hash ctn_begin ctn_end ctn_children].
  rewrite !all_node. intros [H1 H2] H3. split; [exact H1|].
  apply Forall_app. split; [done|]. by constructor.
Qed.

Lemma finish_loop_ok sc b e stk top :
  Forall (node_ok sc b e) (node_list top) ->
  Forall (fun n => Forall (node_ok sc b e) (node_list n)) stk ->
  Forall (node_ok sc b e) (node_list (finish_loop top stk)).
Proof.
  intros Ht Hs. revert top Ht. induction Hs as [|p stk Hp _ IH]; intros top Ht; [done|].
  cbn [finish_loop]. apply IH. by apply push_child_ok.
Qed.

Lemma finish_ok b :
  builder_ok b ->
  Forall (node_ok (ctb_scopes b) (ctb_begin_range_ns b) (ctb_end_range_ns b)) (tree_nodes (finish b)) /\
  ct_scopes (finish b) = ctb_scopes b.
Proof.
  intros (Hs & _). unfold finish, tree_nodes. destruct (ctb_stack b) as [|top stk]; [done|].
  apply list.Forall_cons in Hs as [Ht Hs]. split; [|done]. by apply finish_loop_ok.
Qed.

Lemma record_scope_ok b s :
  builder_ok b ->
  builder_ok (record_scope_desc b s) /\ is_Some (ctb_scopes (record_scope_desc b s) !! sd_hash s).
Proof.
  intros (H1 & H2 & H3 & H4). unfold record_scope_desc.
  destruct (ctb_scopes b !! sd_hash s) eqn:E; [split; [by split_and!|by rewrite E]|].
  unfold set_scopes. cbn [ctb_scopes]. split; [|rewrite lookup_insert_eq; by eexists].
  assert (forall h, is_Some (ctb_scopes b !! h) -> is_Some (<[sd_hash s := s]> (ctb_scopes b) !! h))
    as Hmono by (intros h; rewrite lookup_insert_is_Some'; tauto).
  split_and!; cbn; try done.
  - eapply list.Forall_impl; [exact H1|]. intros n Hn. eapply list.Forall_impl; [exact Hn|].
    intros m [Hm ?]. split; [by apply Hmono|done].
  - intros h s'. rewrite lookup_insert_Some. intros [[<- <-]|[_ H]]; [done|]. by apply H2.
  - by apply Hmono.
Qed.

Lemma set_stack_ok b st :
  builder_ok b ->
  Forall (fun n => Forall (node_ok (ctb_scopes b) (ctb_begin_range_ns b) (ctb_end_range_ns b))
    (node_list n)) st ->
  builder_ok (set_stack b st).
Proof. intros (_ & H) Hs. by split. Qed.

Lemma set_nb_ok b n : builder_ok b -> builder_ok (set_nb_spans b n).
Proof. by intros H. Qed.

Definition same_range (b b' : CallTreeBuilder) : Prop :=
  ctb_begin_range_ns b' = ctb_begin_range_ns b /\ ctb_end_range_ns b' = ctb_end_range_ns b.

Lemma record_same_range b s : same_range b (record_scope_desc b s).
Proof. unfold record_scope_desc. by destruct (ctb_scopes b !! _). Qed.

Lemma add_child_ok b node b' :
  builder_ok b ->
  Forall (node_ok (ctb_scopes b) (ctb_begin_range_ns b) (ctb_end_range_ns b)) (node_list node) ->
  add_child_to_top b node = Ok b' -> builder_ok b' /\ same_range b b'.
Proof.
  intros Hb Hn. unfold add_child_to_top. destruct (ctb_stack b) as [|top rest] eqn:E; intros H.
  - exec_inv H. injection H as <-. split; [|done]. apply set_nb_ok, set_stack_ok; [done|].
    constructor; [|constructor]. apply all_node. split; [|by constructor].
    destruct Hb as (_ & _ & Hroot & Hle). split; [done|]. cbn. lia.
  - injection H as <-. split; [|done]. apply set_stack_ok; [done|]. destruct Hb as [Hs _].
    rewrite E in Hs.
    apply list.Forall_cons in Hs as [Ht Hs]. constructor; [|done]. by apply push_child_ok.
Qed.

(** Both handlers keep the invariant, whatever they are called with. *)
Lemma builder_on_begin_ok b id s t b' cont :
  builder_ok b -> builder_on_begin b id s t = Ok (b', cont) -> builder_ok b' /\ same_range b b'.
Proof.
  intros Hb. unfold builder_on_begin. destruct (_ <=? _); [by intros [= <- _]|].
  intros H. exec_inv H. destruct (r <? _) eqn:E1; [by injection H as <- _|].
  destruct (_ <? r) eqn:E2; [by injection H as <- _|]. exec_inv H. injection H as <- _.
  apply Z.ltb_ge in E1, E2.
  destruct (record_scope_ok b s Hb) as [Hb1 Hs]. destruct (record_same_range b s) as [Eb Ee].
  split; [|done]. apply set_nb_ok, set_stack_ok; [done|]. constructor; [|apply Hb1].
  apply all_node. split; [|by constructor]. split; [done|]. cbn. lia.
Qed.

Lemma builder_on_end_ok b id s t b' cont :
  builder_ok b -> builder_on_end b id s t = Ok (b', cont) -> builder_ok b' /\ same_range b b'.
Proof.
  intros Hb. unfold builder_on_end. intros H. exec_inv H.
  destruct (r <? _) eqn:E1; [by injection H as <- _|].
  destruct (_ <? r) eqn:E2; [by injection H as <- _|].
  apply Z.ltb_ge in E1, E2.
  destruct (record_scope_ok b s Hb) as [Hb1 Hs]. destruct (record_same_range b s) as [Eb Ee].
  set (b1 := record_scope_desc b s) in *. clearbody b1.
  assert (forall b2 node, builder_ok b2 -> same_range b1 b2 -> ctb_scopes b2 = ctb_scopes b1 ->
    Forall (node_ok (ctb_scopes b1) (ctb_begin_range_ns b1) (ctb_end_range_ns b1)) (node_list node) ->
    (b ← add_child_to_top b2 node; Ok (b, true)) = Ok (b', cont) ->
    builder_ok b' /\ same_range b b') as Hadd.
  { intros b2 node Hb2 [E3 E4] E5 Hnode Heq. exec_inv Heq. injection Heq as <- _.
    apply add_child_ok in Hr0 as [? [? ?]]; [|done|by rewrite E5, E3, E4].
    split; [done|]. split; congruence. }
  pose proof Hb1 as (Hstk & _ & _ & Hle).
  destruct (ctb_stack b1) as [|top rest].
  - destruct (_ <=? _); [by injection H as <- _|]. eapply Hadd; [..|exact H]; try done.
    apply all_node. split; [|by constructor]. split; [done|]. cbn. lia.
  - apply list.Forall_cons in Hstk as [Htop Hrest]. destruct top as [tid th tb te tc].
    cbn [ctn_id ctn_hash ctn_begin ctn_end ctn_children] in H.
    assert (builder_ok (set_stack b1 rest)) as Hb2 by (by apply set_stack_ok).
    destruct (_ =? _); [|destruct (_ =? _); [|discriminate H]];
      (eapply Hadd; [exact Hb2|done|done| |exact H]);
      (eapply all_same; [|exact Htop]); intros (N1 & N2 & N3); (split; [done|]); cbn in *; lia.
Qed.

Lemma call_scope_ok block_id b id c b' cont :
  builder_ok b -> call_scope block_id id b (Some c) = Ok (b', cont) ->
  builder_ok b' /\ same_range b b'.
Proof.
  intros Hb. destruct c as [s t|s t]; cbn [call_scope on_begin_thread_scope on_end_thread_scope
    CallTreeBuilder_ThreadBlockProcessor]; [by apply builder_on_begin_ok|by apply builder_on_end_ok].
Qed.

Lemma run_calls_ok block_id cs b b' cont :
  builder_ok b -> run_calls block_id b cs = Ok (b', cont) -> builder_ok b' /\ same_range b b'.
Proof.
  revert b. induction cs as [|[id c] cs IH]; intros b Hb H; [by injection H as <- _|].
  cbn [run_calls] in H. apply bind_Ok_iff in H as ([b1 c1] & H1 & H).
  apply call_scope_ok in H1 as [Hb1 [E1 E2]]; [|done].
  destruct c1; [|by injection H as <- _].
  apply IH in H as [? [? ?]]; [|done]. split; [done|]. split; congruence.
Qed.

Lemma builder_new_ok `{Xxh32} begin_ns end_ns lim ct name :
  begin_ns <= end_ns -> builder_ok (CallTreeBuilder_new begin_ns end_ns lim ct name).
Proof.
  intros Hle. unfold CallTreeBuilder_new. split_and!; cbn; try done.
  - intros h s Hs. apply lookup_singleton_Some in Hs as [<- <-]. done.
  - assert (forall h (s : ScopeDesc), is_Some (({[h := s]} : ScopeHashMap) !! h)) as Hl
      by (intros; rewrite lookup_singleton_eq; by eexists).
    apply Hl.
Qed.

(** ** From the events of a block to the calls *)
Fixpoint numbered `{Xxh32} (st : statics) (strs : gmap Z string) (event_id : Z)
    (evs : list ThreadEventQueueAny) : list (Z * scope_call) :=
  match evs with
  | [] => []
  | a :: evs' =>
      match event_scope st strs a with
      | Some c => (event_id, c) :: numbered st strs (event_id + 1) evs'
      | None => numbered st strs (event_id + 1) evs'
      end
  end.

Lemma numbered_app `{Xxh32} st strs id x y :
  numbered st strs id (x ++ y) =
  numbered st strs id x ++ numbered st strs (id + Z.of_nat (length x)) y.
Proof.
  revert id. induction x as [|a x IH]; intros id; cbn [numbered length app].
  - by rewrite Z.add_0_r.
  - rewrite IH. replace (id + 1 + Z.of_nat (length x)) with (id + Z.of_nat (S (length x))) by lia.
    by destruct (event_scope st strs a).
Qed.

(** When no call fails, what [parse_thread_block_payload] does is the calls. *)
Lemma visit_scopes_calls `{Xxh32} {Proc} `{ThreadBlockProcessor Proc} st strs block_id id (proc : Proc)
    evs r :
  run_calls block_id proc (numbered st strs id evs) = Ok r ->
  visit_scopes st strs block_id id proc evs = Ok r.
Proof.
  revert id proc. induction evs as [|a evs IH]; intros id proc Hr; [done|].
  cbn [numbered visit_scopes] in *. destruct (event_scope st strs a) as [c|] eqn:E.
  - cbn [run_calls] in Hr. apply bind_Ok_iff in Hr as ([p1 c1] & H1 & Hr). rewrite H1.
    cbn [with_context mbind exec_bind]. destruct c1; [by apply IH|done].
  - cbn [call_scope with_context mbind exec_bind]. by apply IH.
Qed.

(** ** Properties *)

(** C8. The builder finds the tree: from the begins and ends of a thread, where
    scopes are nested, in the range of the query and within its limit, the
    call tree is exactly the tree of the scopes, with the time of their begins
    and ends; a scope that began before the range starts with the range and
    holds what precedes its end, a scope that has not ended ends with the
    range.  The root is the thread, with the range, once a scope has ended
    outside of the scopes that are still open; before that it is the outermost
    of these, or nothing ([expected_root]), which the comment of the field
    [call_tree_root] does not say. *)
Theorem call_tree_reconstruction `{Xxh32} begin_ns end_ns lim ct name block_id prefix mid opens :
  let rh := compute_scope_hash name EmptyString EmptyString 0 in
  let cs := prefix_calls prefix ++ calls mid ++ open_calls opens in
  lim < 2 ^ 63 -> 1 + prefix_size prefix + forest_size mid + open_size opens <= lim ->
  Forall (in_view ct begin_ns end_ns) cs ->
  Forall (fun p => sd_hash p.2.1.2 <> rh) prefix ->
  exists b, run_calls block_id (CallTreeBuilder_new begin_ns end_ns lim ct name) cs = Ok (b, true) /\
    call_tree_root (finish b) = expected_root ct begin_ns end_ns rh prefix mid opens.
Proof. intros rh cs Hlim Hn Hv Hh. by apply run_all. Qed.

(** C9. Whatever the calls, well nested or not, every node of the call tree has
    a scope with its hash among the recorded ones, and times in the range of
    the query. *)
Theorem call_tree_scopes `{Xxh32} begin_ns end_ns lim ct name block_id cs b cont :
  begin_ns <= end_ns ->
  run_calls block_id (CallTreeBuilder_new begin_ns end_ns lim ct name) cs = Ok (b, cont) ->
  Forall (node_ok (ct_scopes (finish b)) begin_ns end_ns) (tree_nodes (finish b)) /\
  scopes_ok (ct_scopes (finish b)).
Proof.
  intros Hle Hr. apply run_calls_ok in Hr as [Hb [E1 E2]]; [|by apply builder_new_ok].
  destruct (finish_ok b Hb) as [Hn Hsc]. rewrite Hsc. cbn in E1, E2. rewrite E1, E2 in Hn.
  split; [done|]. apply Hb.
Qed.

(** *** Concrete threads *)
Module CallTreeExample.
Definition xxh : Xxh32 := ThreadExample.xxh.
Definition scope (name : string) : ScopeDesc := @ScopeDesc_new xxh name "f" "t" 1.
(** A scope that began earlier, two nested scopes, and one that stays open *)
Definition prefix : list (forest * boundary) := [(Nil, (0, scope "early", 1100))].
Definition mid : forest :=
  Span 1 (scope "a") 1200 1500 4 (Span 2 (scope "b") 1300 1400 3 Nil Nil) Nil.
Definition opens : list (boundary * forest) := [(5, scope "open", 1600, Nil)].
Definition ct : ConvertTicks := LogExample.ct.
End CallTreeExample.

Lemma call_tree_reconstruction_witness :
  exists b, @run_calls _ CallTreeBuilder_ThreadBlockProcessor "b"
      (@CallTreeBuilder_new CallTreeExample.xxh 0 1000 10 CallTreeExample.ct "main")
      (prefix_calls CallTreeExample.prefix ++ calls CallTreeExample.mid ++
       open_calls CallTreeExample.opens) = Ok (b, true) /\
    option_map ctn_children (call_tree_root (finish b)) =
      Some [mkCallTreeNode (Some 0) (sd_hash (CallTreeExample.scope "early")) 0 100 [];
            mkCallTreeNode (Some 1) (sd_hash (CallTreeExample.scope "a")) 200 500
              [mkCallTreeNode (Some 2) (sd_hash (CallTreeExample.scope "b")) 300 400 []];
            mkCallTreeNode (Some 5) (sd_hash (CallTreeExample.scope "open")) 600 1000 []].
Proof.
  destruct (@call_tree_reconstruction CallTreeExample.xxh 0 1000 10 CallTreeExample.ct "main" "b"
    CallTreeExample.prefix CallTreeExample.mid CallTreeExample.opens) as (b & Hr & Hroot).
  - reflexivity.
  - vm_compute. discriminate.
  - repeat apply Forall_cons; try apply Forall_nil; eexists;
      (split; [vm_compute; reflexivity|lia]).
  - repeat apply Forall_cons; try apply Forall_nil. vm_compute. discriminate.
  - exists b. split; [exact Hr|]. rewrite Hroot. vm_compute. reflexivity.
Defined.

Lemma call_tree_scopes_witness :
  exists b, @run_calls _ CallTreeBuilder_ThreadBlockProcessor "b"
      (@CallTreeBuilder_new CallTreeExample.xxh 0 1000 10 CallTreeExample.ct "main")
      [(0, EndScope (CallTreeExample.scope "x") 1500)] = Ok (b, true) /\
    length (tree_nodes (finish b)) = 2%nat /\
    Forall (node_ok (ct_scopes (finish b)) 0 1000) (tree_nodes (finish b)).
Proof.
  eexists. split; [vm_compute; reflexivity|]. split; [reflexivity|].
  refine (proj1 (@call_tree_scopes CallTreeExample.xxh 0 1000 10 CallTreeExample.ct "main" "b"
    [(0, EndScope (CallTreeExample.scope "x") 1500)] _ true _ _)).
  - vm_compute. discriminate.
  - vm_compute. reflexivity.
Defined.
