(* ===== verification/GuardsSpec.v ===== *)
(** * What the guards promise

    Code that holds guards records a begin and an end for each scope, properly
    nested, whether it returns or unwinds: its scopes are a forest, which is
    what the reconstruction of the call tree needs ([CallTree.v]).  The shutdown
    gives the sink all that was recorded; the flush monitor bounds the time that
    an event waits, and must not meet the stream of a thread that ended. *)

From S2P Require Import Prelude RustString Float Transit Queue Pod Parser PodParser Blocks.
From S2P Require Import Levels.
From S2P Require Import LogFilter Deps LogEvents LogBlock Time Stream MetricsBlock SpanEvents.
From S2P Require Import ThreadBlock ThreadBlockProcessor CallTree.
From S2P Require Import Sink SinkSpec Dispatch StreamSpec DispatchSpec Guards.

(** ** Programs as commands *)
Definition begin_command (c : Clock) (t : Thread) (m : span_macro) : command :=
  match m with
  | SpanScope desc => BeginScope c t desc
  | SpanScopeNamed location name => BeginNamedScope c t location name
  | AsyncSpanScope desc => BeginAsyncScope c t desc
  | AsyncSpanScopeNamed location name => BeginAsyncNamedScope c t location name
  end.
Definition end_command (c : Clock) (t : Thread) (id : Z) (m : span_macro) : command :=
  match m with
  | SpanScope desc => EndScope c t desc
  | SpanScopeNamed location name => EndNamedScope c t location name
  | AsyncSpanScope desc => EndAsyncScope c t id desc
  | AsyncSpanScopeNamed location name => EndAsyncNamedScope c t id location name
  end.
(** The counter of asynchronous spans after a guard *)
Definition next_id (n : Z) (m : span_macro) : Z :=
  match m with AsyncSpanScope _ | AsyncSpanScopeNamed _ _ => wrap_u 64 (n + 1) | _ => n end.

Definition begin_event (c : Clock) (id : Z) (m : span_macro) : ThreadEventQueueAny :=
  match m with
  | SpanScope desc => ThreadEventQueueAny.BeginThreadSpanEvent (mkBeginThreadSpanEvent desc (c_now c))
  | SpanScopeNamed location name =>
      ThreadEventQueueAny.BeginThreadNamedSpanEvent
        (mkBeginThreadNamedSpanEvent location (StringId_from name) (c_now c))
  | AsyncSpanScope desc => ThreadEventQueueAny.BeginAsyncSpanEvent (mkBeginAsyncSpanEvent desc id (c_now c))
  | AsyncSpanScopeNamed location name =>
      ThreadEventQueueAny.BeginAsyncNamedSpanEvent
        (mkBeginAsyncNamedSpanEvent location (StringId_from name) id (c_now c))
  end.
Definition end_event (c : Clock) (id : Z) (m : span_macro) : ThreadEventQueueAny :=
  match m with
  | SpanScope desc => ThreadEventQueueAny.EndThreadSpanEvent (mkEndThreadSpanEvent desc (c_now c))
  | SpanScopeNamed location name =>
      ThreadEventQueueAny.EndThreadNamedSpanEvent
        (mkEndThreadNamedSpanEvent location (StringId_from name) (c_now c))
  | AsyncSpanScope desc => ThreadEventQueueAny.EndAsyncSpanEvent (mkEndAsyncSpanEvent desc id (c_now c))
  | AsyncSpanScopeNamed location name =>
      ThreadEventQueueAny.EndAsyncNamedSpanEvent
        (mkEndAsyncNamedSpanEvent location (StringId_from name) id (c_now c))
  end.

(** A program unwinds when a panic is reached. *)
Fixpoint unwinds (p : program) : bool :=
  match p with
  | Return => false
  | Unwind => true
  | Scope _ _ _ body rest => unwinds body || unwinds rest
  end.

(** The commands and the events of a program, and the counter after it *)
Fixpoint program_trace (t : Thread) (n : Z) (p : program)
  : list (command * ThreadEventQueueAny) * Z :=
  match p with
  | Return | Unwind => ([], n)
  | Scope m c_begin c_end body rest =>
      let '(inner, n') := program_trace t (next_id n m) body in
      let '(after, n'') := if unwinds body then ([], n') else program_trace t n' rest in
      ((begin_command c_begin t m, begin_event c_begin n m) :: inner ++
       (end_command c_end t n m, end_event c_end n m) :: after, n'')
  end.

(** Forests one after the other *)
Fixpoint forest_app (f g : forest) : forest :=
  match f with
  | Nil => g
  | Span id s b e id_end c f => Span id s b e id_end c (forest_app f g)
  end.
Lemma calls_forest_app f g : calls (forest_app f g) = calls f ++ calls g.
Proof.
  induction f as [|id s b e id_end c _ f IH]; [done|]. cbn [forest_app calls].
  rewrite IH. cbn. by rewrite <- app_assoc.
Qed.

(** The begin and the end of a scope are those of the same one, or of none. *)
Lemma macro_scopes `{Xxh32} st strs m n c_begin c_end :
  (exists s, event_scope st strs (begin_event c_begin n m) =
     Some (ThreadBlockProcessor.BeginScope s (c_now c_begin)) /\
   event_scope st strs (end_event c_end n m) = Some (ThreadBlockProcessor.EndScope s (c_now c_end))) \/
  (event_scope st strs (begin_event c_begin n m) = None /\
   event_scope st strs (end_event c_end n m) = None).
Proof.
  destruct m as [desc|location name|desc|location name]; cbn; try by right.
  - destruct (desc_scope st strs desc); [left; by eexists|by right].
  - destruct (location_scope st strs location (StringId_from name)); [left; by eexists|by right].
Qed.

Lemma program_forest `{Xxh32} st strs t n p id :
  exists f, numbered st strs id (map snd (program_trace t n p).1) = calls f.
Proof.
  revert n id. induction p as [| |m c_begin c_end body IHb rest IHr]; intros n id; [by exists Nil..|].
  cbn [program_trace]. specialize (IHb (next_id n m)).
  destruct (program_trace t (next_id n m) body) as [inner n'].
  assert (exists after n'', (if unwinds body then ([], n') else program_trace t n' rest) = (after, n'') /\
    forall id, exists f, numbered st strs id (map snd after) = calls f) as (after & n'' & -> & Ha).
  { destruct (unwinds body); [exists [], n'; split; [done|by exists Nil]|].
    specialize (IHr n'). destruct (program_trace t n' rest) as [after n'']. by exists after, n''. }
  cbn [fst] in *. rewrite map_cons, map_app, map_cons. cbn [snd].
  change (?x :: ?y ++ ?z :: ?l) with ([x] ++ y ++ [z] ++ l). rewrite !numbered_app.
  destruct (IHb (id + Z.of_nat (length [begin_event c_begin n m]))) as [fb ->].
  destruct (Ha (id + Z.of_nat (length [begin_event c_begin n m]) + Z.of_nat (length (map snd inner)) +
    Z.of_nat (length [end_event c_end n m]))) as [fa ->]. cbn [numbered].
  destruct (macro_scopes st strs m n c_begin c_end) as [(s & -> & ->)|[-> ->]].
  - eexists (Span _ s _ _ _ fb fa). done.
  - exists (forest_app fb fa). by rewrite calls_forest_app.
Qed.

(** ** Programs and commands *)
Section programs.
Context `{HA : LawfulAbi} `{Alloc} {S : Type} `{EventSink S}.
Implicit Type w : World S.

Lemma run_app w x y :
  run w (x ++ y) = ('(w, e1) ← run w x; '(w, e2) ← run w y; Ok (w, e1 ++ e2)).
Proof.
  revert w. induction x as [|cmd x IH]; intros w; cbn [run app].
  - cbn [mbind exec_bind]. by destruct (run w y) as [[w' e]| | | |].
  - destruct (exec_command cmd w) as [w1| | | |]; cbn [mbind exec_bind]; try done.
    rewrite IH. destruct (run w1 x) as [[w2 e]| | | |]; cbn [mbind exec_bind]; try done.
    destruct (run w2 y) as [[w3 e']| | | |]; cbn [mbind exec_bind]; try done. by rewrite app_assoc.
Qed.

(** What an event leaves as it was *)
Definition same_threads w w' : Prop :=
  w_async_span_counter w' = w_async_span_counter w /\
  (is_Some (w_dispatch w) -> is_Some (w_dispatch w')) /\
  forall t, is_Some (w_thread_streams w !! t) -> is_Some (w_thread_streams w' !! t).

Lemma set_thread_keeps t s w t' :
  is_Some (w_thread_streams w !! t') -> is_Some (w_thread_streams (set_thread t s w) !! t').
Proof.
  intros Hs. cbn. destruct (decide (t = t')) as [->|Hne];
    [by rewrite lookup_insert_eq|by rewrite lookup_insert_ne].
Qed.

Lemma flush_thread_same c t w w' : flush_thread_buffer c t w = Ok w' -> same_threads w w'.
Proof.
  unfold flush_thread_buffer. destruct (w_thread_streams w !! t) as [s|]; [|by intros [= <-]].
  destruct (w_dispatch w) as [d|] eqn:Ed; [|done]. unfold Dispatch_flush_thread_buffer.
  destruct (is_empty s); [by intros [= <-]|]. unfold same_threads.
  destruct (swap_block _ _ _ _) as [[b s']| | | |]; cbn [mbind exec_bind]; try done.
  intros E. apply (f_equal (fun r => match r with Ok x => x | _ => w end)) in E. subst w'.
  unfold call_sink. destruct (d_sink d); (split; [done|]; split; [done|]); apply set_thread_keeps.
Qed.

Lemma on_thread_event_same c t a w w' : on_thread_event c t a w = Ok w' -> same_threads w w'.
Proof.
  unfold on_thread_event. destruct (w_thread_streams w !! t) as [s|]; [|by intros [= <-]].
  destruct (with_events_mut _ s) as [s'| | | |]; cbn [mbind exec_bind]; try done.
  destruct (is_full s').
  - intros E. apply flush_thread_same in E as (E1 & E2 & E3). split; [done|]. split; [done|].
    intros t' Ht'. by apply E3, set_thread_keeps.
  - intros E. apply (f_equal (fun r => match r with Ok x => x | _ => w end)) in E. subst w'.
    split; [done|]. split; [done|]. apply set_thread_keeps.
Qed.

Definition guard_of (m : span_macro) (n : Z) : guard :=
  match m with
  | SpanScope desc => ThreadSpan (mkThreadSpanGuard desc)
  | SpanScopeNamed location name => ThreadNamedSpan (mkThreadNamedSpanGuard location name)
  | AsyncSpanScope desc => AsyncSpan (mkAsyncSpanGuard desc n)
  | AsyncSpanScopeNamed location name => AsyncNamedSpan (mkAsyncNamedSpanGuard location name n)
  end.

Lemma guard_new_command c t m w :
  guard_new c t m w =
  (w' ← exec_command (begin_command c t m) w; Ok (guard_of m (w_async_span_counter w), w')).
Proof.
  destruct m; cbn -[on_thread_event];
    unfold ThreadSpanGuard_new, ThreadNamedSpanGuard_new, AsyncSpanGuard_new, AsyncNamedSpanGuard_new,
      on_begin_async_scope, on_begin_async_named_scope, next_span_id, on_begin_scope, on_begin_named_scope;
    by destruct (on_thread_event _ _ _ _).
Qed.

Lemma guard_drop_command c t m n w :
  guard_drop c t (guard_of m n) w = exec_command (end_command c t n m) w.
Proof. by destruct m. Qed.

(** A command of a scope, and what it records *)
Lemma begin_command_same c t m w w' :
  exec_command (begin_command c t m) w = Ok w' ->
  same_threads (set_counter (next_id (w_async_span_counter w) m) w) w'.
Proof.
  destruct m; cbn -[on_thread_event];
    unfold on_begin_async_scope, on_begin_async_named_scope, next_span_id, on_begin_scope, on_begin_named_scope;
    try (intros E; by eapply on_thread_event_same in E).
  all: destruct (on_thread_event _ _ _ _) as [w1| | | |] eqn:E; cbn [mbind exec_bind]; try done.
  all: intros E2; apply (f_equal (fun r => match r with Ok x => x | _ => w end)) in E2; subst w1.
  all: by eapply on_thread_event_same in E.
Qed.

Lemma end_command_same c t n m w w' :
  exec_command (end_command c t n m) w = Ok w' -> same_threads w w'.
Proof. destruct m; apply on_thread_event_same. Qed.

Definition recording (t : Thread) w : Prop := is_Some (w_dispatch w) /\ is_Some (w_thread_streams w !! t).

Lemma same_recording t w w' : same_threads w w' -> recording t w -> recording t w'.
Proof. intros (_ & Hd & Ht) [H1' H2']. split; [by apply Hd|by apply Ht]. Qed.

Lemma begin_command_recorded c t m w :
  recording t w ->
  recorded w (begin_command c t m) = [ThreadRecorded t (begin_event c (w_async_span_counter w) m)].
Proof. intros [[d Hd] [s Hs]]. unfold recorded. rewrite Hd. destruct m; cbn; by rewrite Hs. Qed.
Lemma end_command_recorded c t n m w :
  recording t w -> recorded w (end_command c t n m) = [ThreadRecorded t (end_event c n m)].
Proof. intros [[d Hd] [s Hs]]. unfold recorded. rewrite Hd. destruct m; cbn; by rewrite Hs. Qed.

(** A program is its commands; when they succeed, its events are recorded. *)
Lemma run_program_commands t p w :
  let trace := program_trace t (w_async_span_counter w) p in
  run_program t p w = ('(w', _) ← run w (map fst trace.1); Ok (unwinds p, w')) /\
  forall w' evs, run w (map fst trace.1) = Ok (w', evs) ->
    w_async_span_counter w' = trace.2 /\
    (recording t w -> recording t w' /\ evs = map (fun e => ThreadRecorded t e.2) trace.1).
Proof.
  revert w. induction p as [| |m c_begin c_end body IHb rest IHr]; intros w;
    [split; [done|by intros w' evs [= <- <-]]..|].
  cbn [program_trace run_program unwinds]. rewrite guard_new_command.
  set (n := w_async_span_counter w).
  destruct (program_trace t (next_id n m) body) as [inner n'] eqn:Ein.
  destruct (if unwinds body then ([], n') else program_trace t n' rest) as [after n''] eqn:Eaf.
  cbv zeta. cbn [fst snd map run]. rewrite map_app. cbn [map fst].
  pose proof (begin_command_recorded c_begin t m w) as Hrec.
  destruct (exec_command (begin_command c_begin t m) w) as [w1| | | |] eqn:E1; cbn [mbind exec_bind]; try done.
  apply begin_command_same in E1 as Hs1. destruct Hs1 as (Hn1 & Hs1). cbn [set_counter w_async_span_counter] in Hn1.
  fold n in Hn1. destruct (IHb w1) as [Eb Hb]. rewrite Hn1, Ein in Eb, Hb. rewrite Eb, run_app.
  cbn [fst snd] in *.
  destruct (run w1 (map fst inner)) as [[w2 e2]| | | |] eqn:E2; cbn [mbind exec_bind run]; try done.
  destruct (Hb w2 e2 eq_refl) as [Hn2 Hr2]. rewrite guard_drop_command.
  pose proof (end_command_recorded c_end t n m w2) as Hrec2.
  destruct (exec_command (end_command c_end t n m) w2) as [w3| | | |] eqn:E3; cbn [mbind exec_bind]; try done.
  apply end_command_same in E3 as Hs3. pose proof Hs3 as (Hn3 & _).
  assert (recording t w -> recording t w1) as Hk1
    by (apply (same_recording t (set_counter (next_id n m) w)); by split).
  assert (forall w' evs, run w3 (map fst after) = Ok (w', evs) ->
    w_async_span_counter w' = n'' /\
    (recording t w3 -> recording t w' /\ evs = map (fun e => ThreadRecorded t e.2) after)) as Ha.
  { destruct (unwinds body).
    - injection Eaf as <- <-. intros w' evs [= <- <-]. by rewrite Hn3, Hn2.
    - destruct (IHr w3) as [_ Hr]. rewrite Hn3, Hn2, Eaf in Hr. exact Hr. }
  split.
  - destruct (unwinds body) eqn:Eu; cbn [orb].
    + injection Eaf as <- <-. done.
    + destruct (IHr w3) as [Er _]. rewrite Hn3, Hn2, Eaf in Er. rewrite Er. cbn [fst].
      by destruct (run w3 (map fst after)) as [[w4 e4]| | | |].
  - intros w' evs. destruct (run w3 (map fst after)) as [[w4 e4]| | | |] eqn:E4; cbn [mbind exec_bind]; try done.
    intros E5. destruct (Ha w4 e4 eq_refl) as [Hn4 Hr4].
    assert (w4 = w') as <- by by apply (f_equal (fun r => match r with Ok (x, _) => x | _ => w end)) in E5.
    assert (evs = recorded w (begin_command c_begin t m) ++ e2 ++
      recorded w2 (end_command c_end t n m) ++ e4) as ->
      by by apply (f_equal (fun r => match r with Ok (_, x) => x | _ => [] end)) in E5.
    split; [done|]. intros Hw. destruct (Hr2 (Hk1 Hw)) as [Hw2 ->].
    destruct (Hr4 (same_recording t w2 w3 Hs3 Hw2)) as [Hw4 ->].
    split; [done|]. rewrite Hrec, Hrec2 by done. rewrite map_app. done.
Qed.
End programs.

(** ** After the shutdown *)
Section silent.
Context `{HA : LawfulAbi} `{Alloc} {S : Type} `{EventSink S}.
Implicit Type w : World S.

(** The dispatcher has no sink, and the sink is what it was. *)
Definition silent (s : S) w : Prop :=
  exists d, w_dispatch w = Some d /\ d_sink d = NullSink /\ w_sink w = s.

Lemma silent_call s d f w : silent s w -> d_sink d = NullSink -> silent s (call_sink d f w).
Proof. intros Hs Hd. unfold call_sink. by rewrite Hd. Qed.

Lemma silent_dispatch s d w :
  silent s w -> d_sink d = NullSink -> silent s (set_dispatch d w).
Proof. intros (d' & H1' & H2' & H3') Hd. by exists d. Qed.

Lemma exec_bind_inv {A B} (m : exec A) (f : A -> exec B) (P : B -> Prop) :
  (forall a, m = Ok a -> forall b, f a = Ok b -> P b) -> forall b, (m ≫= f) = Ok b -> P b.
Proof. destruct m; cbn; intros Hf b; try discriminate. by apply Hf. Qed.

Lemma silent_flush_log s c d w w' :
  silent s w -> d_sink d = NullSink -> Dispatch_flush_log_buffer c d w = Ok w' -> silent s w'.
Proof.
  intros Hs Hd. unfold Dispatch_flush_log_buffer. destruct (is_empty _); [by intros [= <-]|].
  revert w'. apply exec_bind_inv. intros [b st] _ w'.
  intros E. apply (f_equal (fun r => match r with Ok x => x | _ => w end)) in E. subst w'.
  apply silent_call; [by apply silent_dispatch|done].
Qed.
Lemma silent_flush_metrics s c d w w' :
  silent s w -> d_sink d = NullSink -> Dispatch_flush_metrics_buffer c d w = Ok w' -> silent s w'.
Proof.
  intros Hs Hd. unfold Dispatch_flush_metrics_buffer. destruct (is_empty _); [by intros [= <-]|].
  revert w'. apply exec_bind_inv. intros [b st] _ w'.
  intros E. apply (f_equal (fun r => match r with Ok x => x | _ => w end)) in E. subst w'.
  apply silent_call; [by apply silent_dispatch|done].
Qed.
Lemma silent_flush_thread s c t w w' :
  silent s w -> flush_thread_buffer c t w = Ok w' -> silent s w'.
Proof.
  intros Hs. pose proof Hs as (d & Hd & Hn & He). unfold flush_thread_buffer. rewrite Hd.
  destruct (w_thread_streams w !! t) as [st|]; [|by intros [= <-]]. unfold Dispatch_flush_thread_buffer.
  destruct (is_empty st); [by intros [= <-]|]. revert w'. apply exec_bind_inv. intros [b st'] _ w'.
  intros E. apply (f_equal (fun r => match r with Ok x => x | _ => w end)) in E. subst w'.
  apply silent_call; [by exists d|done].
Qed.

Lemma silent_record_log s c a d w w' :
  silent s w -> d_sink d = NullSink -> record_log_event c a d w = Ok w' -> silent s w'.
Proof.
  intros Hs Hd. unfold record_log_event. revert w'. apply exec_bind_inv. intros st _ w'.
  pose proof (silent_dispatch s (set_log_stream st d) w Hs Hd) as Hs2.
  destruct (is_full st); [by apply silent_flush_log|].
  intros E. apply (f_equal (fun r => match r with Ok x => x | _ => w end)) in E. by subst w'.
Qed.
Lemma silent_record_metric s c a d w w' :
  silent s w -> d_sink d = NullSink -> record_metric_event c a d w = Ok w' -> silent s w'.
Proof.
  intros Hs Hd. unfold record_metric_event. revert w'. apply exec_bind_inv. intros st _ w'.
  pose proof (silent_dispatch s (set_metrics_stream st d) w Hs Hd) as Hs2.
  destruct (is_full st); [by apply silent_flush_metrics|].
  intros E. apply (f_equal (fun r => match r with Ok x => x | _ => w end)) in E. by subst w'.
Qed.
Lemma silent_thread_event s c t a w w' :
  silent s w -> on_thread_event c t a w = Ok w' -> silent s w'.
Proof.
  intros Hs. unfold on_thread_event. destruct (w_thread_streams w !! t) as [st|]; [|by intros [= <-]].
  revert w'. apply exec_bind_inv. intros st' _ w'.
  destruct (is_full st'); [by apply silent_flush_thread|].
  intros E. apply (f_equal (fun r => match r with Ok x => x | _ => w end)) in E. by subst w'.
Qed.

Lemma silent_async s c t a n (id : Z) w w' :
  silent s w ->
  ('(_, w) ← (w ← on_thread_event c t a (set_counter n w); Ok (id, w)); Ok w) = Ok w' -> silent s w'.
Proof.
  intros Hs. destruct (on_thread_event c t a (set_counter n w)) as [w1| | | |] eqn:E;
    cbn [mbind exec_bind]; try done.
  intros E2. apply (f_equal (fun r => match r with Ok x => x | _ => w end)) in E2. subst w1.
  eapply silent_thread_event; [|exact E]. done.
Qed.

Lemma silent_log s c desc args d w w' :
  silent s w -> d_sink d = NullSink -> Dispatch_log c desc args d w = Ok w' -> silent s w'.
Proof.
  intros Hs Hd. unfold Dispatch_log. revert w'. apply exec_bind_inv. intros md _ w'.
  unfold sink_log_enabled. rewrite Hd. cbn.
  intros E. apply (f_equal (fun r => match r with Ok x => x | _ => w end)) in E. by subst w'.
Qed.

Lemma silent_command s cmd w w' : silent s w -> exec_command cmd w = Ok w' -> silent s w'.
Proof.
  intros Hs. pose proof Hs as (d & Hd & Hn & He).
  destruct cmd; cbn [exec_command]; try apply silent_thread_event; try done.
  - unfold log. rewrite Hd. by apply silent_log.
  - unfold log_interop. rewrite Hd. unfold Dispatch_log_interop, sink_on_log. rewrite Hn.
    unfold intern_string. destruct (w_interned w !! _); by apply silent_record_log.
  - unfold int_metric. rewrite Hd. by apply silent_record_metric.
  - unfold float_metric. rewrite Hd. by apply silent_record_metric.
  - by apply silent_async.
  - by apply silent_async.
  - unfold flush_log_buffer. rewrite Hd. by apply silent_flush_log.
  - unfold flush_metrics_buffer. rewrite Hd. by apply silent_flush_metrics.
  - by apply silent_flush_thread.
  - unfold init_thread_stream. rewrite Hd. destruct (w_thread_streams w !! t); [by intros [= <-]|].
    unfold Dispatch_init_thread_stream. revert w'. apply exec_bind_inv. intros st _ w'.
    intros E. apply (f_equal (fun r => match r with Ok x => x | _ => w end)) in E. subst w'.
    unfold call_sink. rewrite Hn. by apply silent_dispatch.
  - intros [= <-]. by exists d.
  - unfold for_each_thread_stream. rewrite Hd. unfold Dispatch_for_each_thread_stream.
    generalize (d_thread_streams d). intros l. clear Hd He.
    revert w Hs. induction l as [|t l IH]; intros w Hs; cbn [foldM]; [by intros [= <-]|].
    destruct (w_thread_streams w !! t) as [st|]; cbn [mbind exec_bind]; [|done]. by apply IH.
Qed.

Lemma silent_run s cmds w w' evs : silent s w -> run w cmds = Ok (w', evs) -> silent s w'.
Proof.
  revert w evs. induction cmds as [|cmd cmds IH]; intros w evs Hs; cbn [run].
  - intros E. by apply (f_equal (fun r => match r with Ok (x, _) => x | _ => w end)) in E; subst w'.
  - destruct (exec_command cmd w) as [w1| | | |] eqn:E1; cbn [mbind exec_bind]; try done.
    destruct (run w1 cmds) as [[w2 evs2]| | | |] eqn:E2; cbn [mbind exec_bind]; try done.
    intros E. apply (f_equal (fun r => match r with Ok (x, _) => x | _ => w end)) in E. subst w'.
    eapply IH; [|exact E2]. by eapply silent_command.
Qed.
End silent.

Lemma run_length `{HA : LawfulAbi} `{Alloc} {S : Type} `{EventSink S} (w w' : World S) cmds evs :
  run w cmds = Ok (w', evs) -> (length evs <= length cmds)%nat.
Proof.
  revert w w' evs. induction cmds as [|cmd cmds IH]; intros w w' evs; cbn [run].
  - intros E. by apply (f_equal (fun r => match r with Ok (_, x) => x | _ => [] end)) in E; subst evs.
  - destruct (exec_command cmd w) as [w1| | | |]; cbn [mbind exec_bind]; try done.
    destruct (run w1 cmds) as [[w2 evs2]| | | |] eqn:E2; cbn [mbind exec_bind]; try done.
    intros E. apply (f_equal (fun r => match r with Ok (_, x) => x | _ => [] end)) in E. subst evs.
    rewrite length_app. cbn [length]. specialize (IH w1 w2 evs2 E2). pose proof (length_recorded w cmd). lia.
Qed.

(** *** The flush monitor *)
Section monitor.
Context `{HA : LawfulAbi} `{Alloc} {S : Type} `{EventSink S}.
Implicit Type w : World S.

(** A flush leaves the threads as they were. *)
Definition same_streams w w' : Prop :=
  w_thread_streams w' = w_thread_streams w /\
  forall d, w_dispatch w = Some d ->
    exists d', w_dispatch w' = Some d' /\ d_thread_streams d' = d_thread_streams d.

Lemma call_sink_streams d f w : same_streams w (call_sink d f w).
Proof. unfold call_sink. destruct (d_sink d); (split; [done|]); intros d' Hd; by exists d'. Qed.

Lemma flush_log_streams c w w' : flush_log_buffer c w = Ok w' -> same_streams w w'.
Proof.
  unfold flush_log_buffer. destruct (w_dispatch w) as [d|] eqn:Ed.
  2:{ intros [= <-]. split; [done|]. intros d Hd. by exists d. }
  unfold Dispatch_flush_log_buffer. destruct (is_empty _).
  { intros [= <-]. split; [done|]. intros d' Hd. by exists d'. }
  revert w'. apply exec_bind_inv. intros [b st] _ w' E.
  apply (f_equal (fun r => match r with Ok x => x | _ => w end)) in E. subst w'.
  destruct (call_sink_streams (set_log_stream st d) (fun s => on_process_log_block s b)
    (set_dispatch (set_log_stream st d) w)) as [E1 E2].
  split; [done|]. intros d' Hd. rewrite Ed in Hd. injection Hd as <-. destruct (E2 _ eq_refl) as (d2 & Hd2 & Hl). exists d2. split; [done|].
  by rewrite Hl.
Qed.
Lemma flush_metrics_streams c w w' : flush_metrics_buffer c w = Ok w' -> same_streams w w'.
Proof.
  unfold flush_metrics_buffer. destruct (w_dispatch w) as [d|] eqn:Ed.
  2:{ intros [= <-]. split; [done|]. intros d Hd. by exists d. }
  unfold Dispatch_flush_metrics_buffer. destruct (is_empty _).
  { intros [= <-]. split; [done|]. intros d' Hd. by exists d'. }
  revert w'. apply exec_bind_inv. intros [b st] _ w' E.
  apply (f_equal (fun r => match r with Ok x => x | _ => w end)) in E. subst w'.
  destruct (call_sink_streams (set_metrics_stream st d) (fun s => on_process_metrics_block s b)
    (set_dispatch (set_metrics_stream st d) w)) as [E1 E2].
  split; [done|]. intros d' Hd. rewrite Ed in Hd. injection Hd as <-. destruct (E2 _ eq_refl) as (d2 & Hd2 & Hl). exists d2. split; [done|].
  by rewrite Hl.
Qed.

Definition mark_full w t : exec (World S) :=
  match w_thread_streams w !! t with
  | Some stream => Ok (set_thread t (set_full stream) w)
  | None => Ub
  end.




Lemma mark_missing l w t :
  t ∈ l -> w_thread_streams w !! t = None -> foldM mark_full w l = Ub.
Proof.
  revert w. induction l as [|t' l IH]; intros w Ht Hn; [by apply not_elem_of_nil in Ht|]. cbn [foldM].
  unfold mark_full at 2. apply elem_of_cons in Ht as [<-|Ht]; [by rewrite Hn|].
  destruct (w_thread_streams w !! t') as [s|] eqn:E; [|done]. cbn [mbind exec_bind].
  apply IH; [done|]. cbn. destruct (decide (t' = t)) as [->|Hne]; [congruence|].
  by rewrite lookup_insert_ne.
Qed.
End monitor.

(** The shutdown, from the invariant of the dispatcher *)
Lemma shutdown_from_inv `{HA : LawfulAbi} `{Alloc} {S M : Type} `{HS : LawfulSink S M} cf s0 b
    (w : World S) ids ns evs c :
  big_enough cf -> world_inv cf s0 b w ids ns evs -> Z.of_nat (length evs) < 2 ^ 64 ->
  exists w' s ns', shutdown_telemetry c w = Ok w' /\ w_sink w' = on_shutdown s /\
    silent (on_shutdown s) w' /\ sent s = s0 ++ map encode (ns ++ ns') /\
    (exists chunks, concat chunks = logs_of evs /\
       sent_blocks (cf_logs cf) (cf_pid cf) (cf_log_stream cf) 0 chunks (log_blocks (ns ++ ns'))) /\
    (exists chunks, concat chunks = metrics_of evs /\
       sent_blocks (cf_metrics cf) (cf_pid cf) (cf_metrics_stream cf) 0 chunks (metrics_blocks (ns ++ ns'))) /\
    (forall b, ThreadBlock_ b ∈ ns ++ ns' -> eb_stream_id b ∈ ids) /\ announced cf ids (ns ++ ns') /\
    (forall t st, w_thread_streams w !! t = Some st -> is_empty st = true ->
     stream_id st ∈ thread_ids (ns ++ ns') /\
     exists chunks, concat chunks = thread_of t evs /\
       sent_blocks (cf_threads cf) (cf_pid cf) (stream_id st) 0 chunks
         (thread_blocks (stream_id st) (ns ++ ns'))).
Proof.
  intros Hbig Hw Hl. unfold shutdown_telemetry.
  destruct (flush_logs_ok cf s0 b Hbig c w ids ns evs Hw Hl) as (w1 & d1 & ns1 & Ef1 & Hw1 & Hd1 & He1).
  apply flush_log_streams in Ef1 as Hts1. rewrite Ef1.
  cbn [mbind exec_bind].
  destruct (flush_metrics_ok cf s0 b Hbig c w1 ids _ evs Hw1 Hl)
    as (w2 & d2 & ns2 & Ef2 & (d & (B1 & B2 & B3 & _ & B5 & _) & Hlog & Hm & Ht & _ & T3 & T4) & Hd2 & He2 & Hkeep).
  apply flush_metrics_streams in Ef2 as Hts2. rewrite Ef2.
  cbn [mbind exec_bind]. rewrite B1 in Hd2. injection Hd2 as ->.
  specialize (Hkeep d1 Hd1). rewrite <- Hkeep in He1.
  unfold shutdown_dispatch. rewrite B1. unfold Dispatch_shutdown, call_sink. rewrite B2.
  eexists _, (w_sink w2), (ns1 ++ ns2). split; [done|]. split; [done|].
  split; [by exists (set_sink_ref NullSink d2)|]. rewrite app_assoc. split; [done|]. split; [|split; [|split; [done|split; [done|]]]].
  - destruct (empty_all_sent _ _ _ _ _ Hlog He1) as (chunks & Hc & Hb).
    rewrite <- (f_equal cf_log_stream B3 : stream_id (d_log_stream d2) = _). by exists chunks.
  - destruct (empty_all_sent _ _ _ _ _ Hm He2) as (chunks & Hc & Hb).
    rewrite <- (f_equal cf_metrics_stream B3 : stream_id (d_metrics_stream d2) = _). by exists chunks.
  - intros t st Est Hemp. destruct Hts1 as [E1 _], Hts2 as [E2 _]. rewrite <- E1, <- E2 in Est.
    destruct (Ht t st Est) as [Hid Hinv]. split; [exact Hid|]. by apply (empty_all_sent _ _ _ _ _ Hinv).
Qed.

(** From the start of the dispatcher to its shutdown *)
Lemma run_and_shutdown `{HA : LawfulAbi} `{Alloc} {S M : Type} `{HS : LawfulSink S M}
    `{UuidText} `{UuidParse} su lsz msz tsz (w w1 w2 : World S) cmds evs c :
  big_enough (startup_config su lsz msz tsz) -> is_open (w_sink w) -> w_thread_streams w = ∅ ->
  Dispatch_new su lsz msz tsz w = Ok w1 ->
  run_ok w1 cmds -> Z.of_nat (length cmds) < 2 ^ 64 -> NoDup (drawn cmds) ->
  (existsb is_exit cmds = true -> existsb is_set_full cmds = false) ->
  run w1 cmds = Ok (w2, evs) ->
  exists d w3 s ns, w_dispatch w1 = Some d /\ shutdown_telemetry c w2 = Ok w3 /\
    w_sink w3 = on_shutdown s /\ silent (on_shutdown s) w3 /\
    sent s = sent (w_sink w) ++ map encode (greeting su w d ++ ns) /\
    (exists chunks, concat chunks = logs_of evs /\
       sent_blocks lsz (su_process_id su) (su_log_stream_id su) 0 chunks
         (log_blocks (greeting su w d ++ ns))) /\
    (exists chunks, concat chunks = metrics_of evs /\
       sent_blocks msz (su_process_id su) (su_metrics_stream_id su) 0 chunks
         (metrics_blocks (greeting su w d ++ ns))) /\
    (forall b, ThreadBlock_ b ∈ greeting su w d ++ ns -> eb_stream_id b ∈ drawn cmds) /\
    announced (startup_config su lsz msz tsz) (drawn cmds) (greeting su w d ++ ns) /\
    (forall t st, w_thread_streams w2 !! t = Some st -> is_empty st = true ->
     stream_id st ∈ thread_ids (greeting su w d ++ ns) /\
     exists chunks, concat chunks = thread_of t evs /\
       sent_blocks tsz (su_process_id su) (stream_id st) 0 chunks
         (thread_blocks (stream_id st) (greeting su w d ++ ns))).
Proof.
  intros Hbig Ho Hts Hnew Hok Hl Hnd Hx Hrun.
  destruct (dispatch_new_ok su lsz msz tsz w Hbig Ho Hts) as (w1' & d & E & Hd & _ & _ & Hinv).
  rewrite Hnew in E. injection E as <-.
  destruct (run_inv _ _ (negb (existsb is_exit cmds)) Hbig cmds w1 [] _ [] (Hinv _) Hok)
    as (w2' & evs' & ids & ns & Hrun' & Hw2 & Hids); [cbn; lia|done|set_solver|by intros ->| |].
  { destruct (existsb is_exit cmds); [|done]. by rewrite Hx. }
  pose proof (run_length _ _ _ _ Hrun) as Hlen. rewrite Hrun in Hrun'. injection Hrun' as <- <-.
  assert (forall id, id ∈ ids -> id ∈ drawn cmds) as Hdrawn.
  { intros id Hi. destruct (Hids id Hi) as [|Hn]; [done|]. by apply not_elem_of_nil in Hn. }
  destruct (shutdown_from_inv _ _ _ w2 _ _ _ c Hbig Hw2)
    as (w3 & s & ns' & Hsd & Hs & Hsil & Hsent & Hlog & Hm & Hb & (A1 & A2 & A3) & Hth); [cbn; lia|].
  rewrite <- app_assoc in *. exists d, w3, s, (ns ++ ns'). split_and!; try done.
  - intros b Hin. by apply Hdrawn, Hb.
  - split; [done|]. split; [|done]. intros i Hi. by apply Hdrawn, A2.
Qed.

(** ** Properties *)

(** C28. Guards nest: whatever the code, with panics that unwind through it, the
    commands of its guards are those of [program_trace], it unwinds when a panic
    is reached, and the events that the thread records, with the scopes of
    asynchronous spans left out, are the begins and ends of a forest of
    scopes: every begin has its end, in the order of the calls. *)
Theorem guards_nest `{HA : LawfulAbi} `{Alloc} {S : Type} `{EventSink S} `{Xxh32} st strs t p
    (w w' : World S) u :
  recording t w -> run_program t p w = Ok (u, w') ->
  let trace := (program_trace t (w_async_span_counter w) p).1 in
  run w (map fst trace) = Ok (w', map (fun e => ThreadRecorded t e.2) trace) /\ u = unwinds p /\
  forall id, exists f, numbered st strs id (map snd trace) = calls f.
Proof.
  intros Hw Hrun trace. destruct (run_program_commands t p w) as [E Hr]. rewrite E in Hrun.
  fold trace in E, Hr, Hrun. destruct (run w (map fst trace)) as [[w2 evs]| | | |] eqn:Er; try discriminate.
  cbn [mbind exec_bind] in Hrun. destruct (Hr w2 evs eq_refl) as [_ Hevs].
  destruct (Hevs Hw) as [_ ->].
  split; [|split; [|intros id; apply program_forest]].
  - do 2 f_equal. by apply (f_equal (fun r => match r with Ok (_, x) => x | _ => w end)) in Hrun.
  - symmetry. by apply (f_equal (fun r => match r with Ok (x, _) => x | _ => u end)) in Hrun.
Qed.

(** C27. Nothing is lost at the end: after any commands, the shutdown (of the
    guard, or of the panic hook) succeeds, the sink has been given blocks that
    hold exactly the log entries and the metrics that were recorded, in order,
    before it is told to shut down, and whatever the process does afterwards
    the sink is not called any more. *)
Theorem shutdown_delivers `{HA : LawfulAbi} `{Alloc} {S M : Type} `{HS : LawfulSink S M}
    `{UuidText} `{UuidParse} su lsz msz tsz (w w1 w2 : World S) cmds evs c :
  big_enough (startup_config su lsz msz tsz) -> is_open (w_sink w) -> w_thread_streams w = ∅ ->
  Dispatch_new su lsz msz tsz w = Ok w1 ->
  run_ok w1 cmds -> Z.of_nat (length cmds) < 2 ^ 64 -> NoDup (drawn cmds) ->
  (existsb is_exit cmds = true -> existsb is_set_full cmds = false) ->
  run w1 cmds = Ok (w2, evs) ->
  exists w3 s ns, shutdown_telemetry c w2 = Ok w3 /\ w_sink w3 = on_shutdown s /\
    sent s = sent (w_sink w) ++ map encode ns /\
    (exists chunks, concat chunks = logs_of evs /\
       sent_blocks lsz (su_process_id su) (su_log_stream_id su) 0 chunks (log_blocks ns)) /\
    (exists chunks, concat chunks = metrics_of evs /\
       sent_blocks msz (su_process_id su) (su_metrics_stream_id su) 0 chunks (metrics_blocks ns)) /\
    forall later w4 evs', run w3 later = Ok (w4, evs') -> w_sink w4 = w_sink w3.
Proof.
  intros Hbig Ho Hts Hnew Hok Hl Hnd Hx Hrun.
  destruct (run_and_shutdown su lsz msz tsz w w1 w2 cmds evs c Hbig Ho Hts Hnew Hok Hl Hnd Hx Hrun)
    as (d & w3 & s & ns & _ & Hsd & Hs & Hsil & Hsent & Hlog & Hm & _).
  exists w3, s, (greeting su w d ++ ns). split; [done|]. split; [done|]. split; [done|].
  split; [done|]. split; [done|]. intros later w4 evs4 Hlater.
  destruct (silent_run _ _ _ _ _ Hsil Hlater) as (_ & _ & _ & ->). by rewrite Hs.
Qed.


(** C30. The streams of the threads that ended: the dispatcher keeps the address
    of the stream of a thread, which ends with the thread.  The next flush of
    the monitor writes to it. *)
Theorem exited_stream_visited `{HA : LawfulAbi} `{Alloc} {S M : Type} `{HS : LawfulSink S M} cf s0
    (w : World S) ids ns evs now now' c m r t d :
  big_enough cf -> world_inv cf s0 false w ids ns evs -> Z.of_nat (length evs) < 2 ^ 64 ->
  w_dispatch w = Some d -> t ∈ d_thread_streams d ->
  time_to_flush_seconds now m = Ok r -> r <= 0 -> is_busy (w_sink w) = false ->
  tick now now' c m (thread_exit t w) = Ub.
Proof.
  intros Hbig Hw Hl Hd Ht Hr Hle Hbusy. pose proof Hw as (d' & (B1 & B2 & _) & _).
  rewrite Hd in B1. injection B1 as <-. apply (thread_exit_ok cf s0 false t) in Hw; [|done].
  unfold tick. rewrite Hr. cbn [mbind exec_bind]. rewrite (proj2 (Z.leb_le _ _)) by done.
  unfold get_sink. cbn [thread_exit set_threads w_dispatch]. rewrite Hd. cbn [option_map]. rewrite B2.
  cbn [sink_is_busy thread_exit set_threads w_sink]. rewrite Hbusy.
  destruct (flush_logs_ok cf s0 false Hbig c _ ids ns evs Hw Hl) as (w1 & d1 & ns1 & E1 & Hw1 & Hd1 & _).
  fold (thread_exit t w). rewrite E1. cbn [mbind exec_bind].
  destruct (flush_metrics_ok cf s0 false Hbig c w1 ids _ evs Hw1 Hl) as (w2 & d2 & ns2 & E2 & Hw2 & Hd2 & _).
  rewrite E2. cbn [mbind exec_bind].
  destruct (flush_log_streams _ _ _ E1) as [S1 K1], (flush_metrics_streams _ _ _ E2) as [S2 K2].
  destruct (K1 d Hd) as (x & Hx & L1). rewrite Hd1 in Hx. injection Hx as <-.
  destruct (K2 d1 Hd1) as (x & Hx & L2). rewrite Hd2 in Hx. injection Hx as <-.
  unfold for_each_thread_stream. rewrite Hd2.
  change (Dispatch_for_each_thread_stream set_full d2 w2) with (foldM mark_full w2 (d_thread_streams d2)).
  rewrite (mark_missing _ w2 t); [done|by rewrite L2, L1|].
  rewrite S2, S1. cbn. apply lookup_delete_eq.
Qed.

(** *** A concrete process *)
Module GuardsExample.
Export DispatchExample.
Definition cf : config := mkConfig 7 160 160 160 8 9.
Definition result : World Recorder * list event :=
  match run w1 cmds with Ok r => r | _ => (w1, []) end.
Lemma run_result : run w1 cmds = Ok result.
Proof. vm_compute. reflexivity. Qed.
(** A world with one thread, where nothing is recorded yet *)
Definition wt : World Recorder :=
  match exec_command (InitThread 10 (mkDualTime 23 100) 1 "1" None) w1 with Ok w => w | _ => w1 end.
Lemma wt_ok b : exists ids ns, world_inv cf [] b wt ids ns [ThreadStarted 1].
Proof.
  destruct (dispatch_new_ok su 160 160 160 w0 ltac:(by split) I eq_refl) as (w & d & E & _ & _ & _ & Hinv).
  assert (w = w1) as -> by (unfold w1; by rewrite E).
  destruct (init_thread_ok cf [] b ltac:(by split) 10 (mkDualTime 23 100) 1 "1" None w1 [] _ [] (Hinv b)
    ltac:(by apply not_elem_of_nil)) as (w' & ns' & E' & Hw').
  assert (w' = wt) as -> by (unfold wt; cbn [exec_command]; by rewrite E').
  eexists _, _. exact Hw'.
Qed.
(** A scope, with an asynchronous span in it, and one that a panic unwinds *)
Definition code : program :=
  Scope (SpanScope 700) (c 30) (c 35)
    (Scope (AsyncSpanScope 701) (c 31) (c 32) Return Return)
    (Scope (SpanScopeNamed 702 text) (c 36) (c 37) Unwind (Scope (SpanScope 703) (c 38) (c 39) Return Return)).
Definition after_code : bool * World Recorder :=
  match run_program 1 code wt with Ok r => r | _ => (false, wt) end.
Lemma run_code : run_program 1 code wt = Ok after_code.
Proof. vm_compute. reflexivity. Qed.
Definition monitor : FlushMonitor := FlushMonitor_default 1000.
End GuardsExample.
Import GuardsExample.

Lemma guards_nest_witness :
  let trace := (program_trace 1 0 code).1 in
  run wt (map fst trace) = Ok (after_code.2, map (fun e => ThreadRecorded 1 e.2) trace) /\
  after_code.1 = true /\ length trace = 6%nat.
Proof.
  destruct (@guards_nest _ _ _ _ _ CallTreeExample.xxh st ∅ 1 code wt after_code.2 after_code.1)
    as (E & Eu & _); [by split; eexists|by rewrite run_code; destruct after_code|].
  split; [exact E|]. split; [exact Eu|reflexivity].
Defined.

Lemma shutdown_delivers_witness :
  exists w3 s ns, shutdown_telemetry (c 40) result.1 = Ok w3 /\ heard s = ns /\
    exists chunks, concat chunks = logs_of result.2 /\ sent_blocks 160 7 8 0 chunks (log_blocks ns).
Proof.
  destruct (shutdown_delivers (M := notice) su 160 160 160 w0 w1 result.1 cmds result.2 (c 40))
    as (w3 & s & ns & E & _ & Hs & Hlog & _);
    [by split|done|done|reflexivity|exact example_run_ok|done|cbn; repeat constructor; set_solver
    |cbn; discriminate|by rewrite run_result; destruct result|].
  exists w3, s, ns. split; [exact E|]. split; [|exact Hlog].
  cbn [sent encode Recorder_LawfulSink heard app w_sink w0] in Hs. by rewrite map_id in Hs.
Defined.


Lemma exited_stream_visited_witness :
  tick 1060 1061 (c 50) monitor (thread_exit 1 wt) = Ub.
Proof.
  destruct (wt_ok false) as (ids & ns & Hw).
  pose proof Hw as (d & (Ed & _) & _).
  apply (exited_stream_visited (M := notice) cf [] wt ids ns [ThreadStarted 1] 1060 1061 (c 50) monitor 0 1 d);
    [by split|exact Hw|done|exact Ed| |reflexivity|done|reflexivity].
  assert (option_map d_thread_streams (w_dispatch wt) = Some [1]) as Hx by (vm_compute; reflexivity).
  rewrite Ed in Hx. cbn [option_map] in Hx. injection Hx as ->. by left.
Defined.
