(* ===== verification/Macros.v ===== *)
(** * The macros

    [tracing/src/macros.rs] and [tracing/proc-macros/src/lib.rs]: what a macro
    leaves in the program that calls it.  A call site has a place in the source
    and a static of its own, at an address; the macro fills the static with a
    description and calls the dispatcher with it, or declares a guard. *)

From S2P Require Import Prelude RustString Float Transit Queue Pod Parser PodParser Blocks.
From S2P Require Import Levels LogFilter Deps LogEvents LogBlock Time Stream Wire LogEntry.
From S2P Require Import MetricsBlock Measure SpanEvents ThreadBlock ThreadBlockProcessor.
From S2P Require Import CallTree.
From S2P Require Import Sink Dispatch DispatchSpec Guards GuardsSpec.

(** [module_path!()], [file!()], [line!()] and the address of the static *)
Record site := mkSite {
  si_module_path : str_ref;
  si_file : str_ref;
  si_line : Z;
  si_static : Z
}.

(** ** The descriptions *)
Definition log_static (level : Level) (fmt_str target : str_ref) (s : site) : LogMetadata :=
  mkLogMetadata level FILTER_LEVEL_UNSET_VALUE fmt_str target (si_module_path s) (si_file s) (si_line s).
Definition metric_static (empty name unit : str_ref) (s : site) : MetricMetadata :=
  mkMetricMetadata Verbosity.Max name unit empty (si_module_path s) (si_file s) (si_line s).
Definition location_static (s : site) : SpanLocation :=
  mkSpanLocation Verbosity.Max (si_module_path s) (si_module_path s) (si_file s) (si_line s).
Definition span_static (name : str_ref) (s : site) : SpanMetadata := mkSpanMetadata name (location_static s).

(** ** The calls *)
Section calls.
Context {S : Type} `{EventSink S} `{HA : Abi} `{Alloc}.

Definition imetric (c : Clock) (s : site) (value : Z) (w : World S) : exec (World S) :=
  int_metric c (si_static s) value w.
Definition fmetric (c : Clock) (s : site) (value : f64) (w : World S) : exec (World S) :=
  float_metric c (si_static s) value w.

Context (STATIC_MAX_LEVEL : LevelFilter).
Definition log_at (lvl : Level) (c : Clock) (s : site) (args : Arguments) (w : World S) : exec (World S) :=
  log_macro STATIC_MAX_LEVEL c (si_static s) lvl args w.
Definition error_macro := log_at Level.Error.
Definition warn_macro := log_at Level.Warn.
Definition info_macro := log_at Level.Info.
Definition debug_macro := log_at Level.Debug.
Definition trace_macro := log_at Level.Trace.
End calls.

(** The target of a call without [target:] *)
Definition target_or_module (target : option str_ref) (s : site) : str_ref :=
  default (si_module_path s) target.

(** [__first_arg!]: the format string is the first of the arguments; anything
    else does not compile. *)
Inductive token := Comma | Token (text : string).
Definition first_arg (args : list token) : option token :=
  match args with
  | [first] => Some first
  | first :: Comma :: _ => Some first
  | _ => None
  end.

(** ** span_fn and log_fn

    A function and the statements of its body.  A span that is declared by a
    statement is dropped at the end of the body; [SpanScopeFunc name] is
    [span_scope!(_METADATA_FUNC, concat!(module_path!(), "::", name))]. *)
Inductive stmt :=
| SpanScopeFunc (name : string)
| TraceFunc (fmt : string)
| Code (p : program).
Record ItemFn := mkItemFn { fn_async : bool; fn_ident : string; fn_stmts : list stmt }.

(** The arguments of the attribute: nothing, or one literal, as its text in the
    source.  [None] does not compile. *)
Definition TraceArgs_parse (tokens : list string) (is_literal : string -> bool) : option (option string) :=
  match tokens with
  | [] => Some None
  | [l] => if is_literal l then Some (Some l) else None
  | _ => None
  end.
Definition span_fn (alternative_name : option string) (f : ItemFn) : ItemFn :=
  if fn_async f then f
  else mkItemFn (fn_async f) (fn_ident f)
         (SpanScopeFunc (default (fn_ident f) alternative_name) :: fn_stmts f).
Definition log_fn (f : ItemFn) : ItemFn :=
  mkItemFn (fn_async f) (fn_ident f) (TraceFunc (fn_ident f) :: fn_stmts f).

(** The name of the span: [concat!(module_path!(), "::", name)] *)
Definition span_name (module_path name : string) : string :=
  String.append module_path (String.append "::" name).

(** What a function does: one program after the other, unless it unwinds *)
Fixpoint then_ (p q : program) : program :=
  match p with
  | Return => q
  | Unwind => Unwind
  | Scope m c_begin c_end body rest => Scope m c_begin c_end body (then_ rest q)
  end.
(** The static of the span of a name, and the clock at the two ends; an entry
    of the log is not an event of the thread. *)
Fixpoint body_program (static_of : string -> Z) (c_begin c_end : Clock) (stmts : list stmt) : program :=
  match stmts with
  | [] => Return
  | SpanScopeFunc name :: stmts =>
      Scope (SpanScope (static_of name)) c_begin c_end (body_program static_of c_begin c_end stmts) Return
  | TraceFunc _ :: stmts => body_program static_of c_begin c_end stmts
  | Code p :: stmts => then_ p (body_program static_of c_begin c_end stmts)
  end.

(** ** What they record *)

(** The measure of a call of [imetric!] has the name and the unit of the call,
    and an empty target. *)
Lemma imetric_measure st strs ct s empty name unit value time n u :
  st_metrics st !! si_static s = Some (metric_static empty name unit s) ->
  strs !! str_ptr empty = Some EmptyString -> strs !! str_ptr name = Some n -> strs !! str_ptr unit = Some u ->
  event_measure st strs ct
    (MetricsMsgQueueAny.IntegerMetricEvent (mkIntegerMetricEvent (si_static s) value time)) =
  (t ← ticks_to_nanoseconds ct time; Ok (mkMeasure t EmptyString n u (f64_of_Z value))).
Proof.
  intros Es Ee En Eu. unfold event_measure, measured.
  change (metric_event_desc _) with (si_static s). rewrite Es.
  cbn [mbind option_bind metric_static mm_target mm_name mm_unit]. rewrite Ee. cbn [mbind option_bind].
  rewrite En. cbn [mbind option_bind]. by rewrite Eu.
Qed.

(** The entry of a call of [error!] and the others has the level of the macro
    and the target of the call, or its module. *)
Lemma log_entry_of_site st strs ct s lvl fmt target msg time t :
  st_logs st !! si_static s = Some (log_static lvl fmt (target_or_module target s) s) ->
  strs !! str_ptr (target_or_module target s) = Some t ->
  event_entry st strs ct
    (LogMsgQueueAny.LogStringEvent (mkLogStringEvent (si_static s) time (mkDynString msg))) =
  (ns ← ticks_to_nanoseconds ct time; Ok (mkLogEntry ns (wrap_i 32 (Level.as_u32 lvl)) t msg)).
Proof.
  intros Es Et. unfold event_entry, logged. cbn [lse_desc lse_time lse_dyn_str dyn_str]. rewrite Es.
  cbn [mbind option_bind log_static lm_target lm_level]. by rewrite Et.
Qed.

(** *** Instrumented functions *)
Section span_fn.
Context (static_of : string -> Z) (c_begin c_end : Clock).
Definition program_of (f : ItemFn) : program := body_program static_of c_begin c_end (fn_stmts f).

(** [span_fn] surrounds what a function records with a begin and an end,
    whether it returns or unwinds; an async function is left as it is. *)
Lemma span_fn_trace alternative_name f t n :
  let m := SpanScope (static_of (default (fn_ident f) alternative_name)) in
  let inner := program_trace t n (program_of f) in
  program_trace t n (program_of (span_fn alternative_name f)) =
    (if fn_async f then inner
     else ((begin_command c_begin t m, begin_event c_begin n m) :: inner.1 ++
           [(end_command c_end t n m, end_event c_end n m)], inner.2)) /\
  unwinds (program_of (span_fn alternative_name f)) = unwinds (program_of f).
Proof.
  intros m inner. unfold span_fn. destruct (fn_async f); [done|].
  unfold program_of. cbn [fn_stmts body_program program_trace]. fold (program_of f).
  change (next_id n (SpanScope _)) with n. unfold inner, m.
  destruct (program_trace t n (program_of f)) as [l n'].
  cbn [unwinds fst snd]. rewrite orb_false_r. by destruct (unwinds _).
Qed.

Lemma append_length a b : String.length (String.append a b) = (String.length a + String.length b)%nat.
Proof. induction a as [|x a IH]; [done|]. exact (f_equal Datatypes.S IH). Qed.

(** A name that is given to the attribute keeps its quotes. *)
Definition quote : string := String (Ascii.ascii_of_nat 34) EmptyString.
Lemma span_fn_quoted m text f is_literal :
  fn_async f = false -> is_literal (String.append quote (String.append text quote)) = true ->
  exists a, TraceArgs_parse [String.append quote (String.append text quote)] is_literal = Some a /\
    fn_stmts (span_fn a f) =
      SpanScopeFunc (String.append quote (String.append text quote)) :: fn_stmts f /\
    span_name m (String.append quote (String.append text quote)) <> span_name m text.
Proof.
  intros Ha Hl. cbn [TraceArgs_parse]. rewrite Hl. eexists. split; [done|]. unfold span_fn. rewrite Ha.
  split; [done|]. intros E. apply (f_equal String.length) in E. unfold span_name in E.
  rewrite !append_length in E. cbn in E. lia.
Qed.
End span_fn.
