(* ===== verification/Interop.v ===== *)
(** * Interoperability with the crates log and tracing

    [telemetry-sink/src/log_interop.rs] and [tracing_interop.rs]: the records
    of the crate [log] and the events of the crate [tracing] are logged as
    entries.  The two crates are libraries: [Facade] is the global state that
    they keep for the process, with what their documentation says of it.  The
    entry that the new layer logs when it is installed is left out: there is no
    dispatcher yet. *)

From S2P Require Import Prelude RustString Float Transit Queue Pod Parser PodParser Blocks.
From S2P Require Import Levels LogFilter Deps LogEvents LogBlock Time Stream MetricsBlock.
From S2P Require Import SpanEvents ThreadBlock Sink SinkSpec Dispatch StreamSpec DispatchSpec.

(** ** The levels of the crates *)
Module LogCrate.
Inductive Level := Error | Warn | Info | Debug | Trace.
Inductive LevelFilter := Off | ErrorFilter | WarnFilter | InfoFilter | DebugFilter | TraceFilter.
Definition level_value (l : Level) : Z :=
  match l with Error => 1 | Warn => 2 | Info => 3 | Debug => 4 | Trace => 5 end.
Definition filter_value (f : LevelFilter) : Z :=
  match f with
  | Off => 0 | ErrorFilter => 1 | WarnFilter => 2 | InfoFilter => 3 | DebugFilter => 4 | TraceFilter => 5
  end.
(** [level <= filter], as the macros of the crate compare them *)
Definition le (l : Level) (f : LevelFilter) : bool := level_value l <=? filter_value f.

(** A [log::Record] *)
Record Record_ := mkRecord {
  level : Level;
  target : string;
  module_path_static : option string;
  file_static : option string;
  line : option Z;
  args : Arguments
}.
End LogCrate.

Module TracingCrate.
Inductive Level := ERROR | WARN | INFO | DEBUG | TRACE.
Record Metadata := mkMetadata { level : Level; target : string; module_path : option string }.
(** The name of a field and the text that [{:?}] gives to its value *)
Record Event := mkEvent { metadata : Metadata; fields : list (string * string) }.
End TracingCrate.

(** ** log_interop.rs *)
Definition log_level_to_mm_tracing_level (level : LogCrate.Level) : Level :=
  match level with
  | LogCrate.Error => Level.Error
  | LogCrate.Warn => Level.Warn
  | LogCrate.Info => Level.Info
  | LogCrate.Debug => Level.Debug
  | LogCrate.Trace => Level.Trace
  end.
Definition mm_tracing_level_filter_to_log_level_filter (level : LevelFilter) : LogCrate.LevelFilter :=
  match level with
  | LevelFilter.Off => LogCrate.Off
  | LevelFilter.Fatal => LogCrate.Off
  | LevelFilter.Error => LogCrate.ErrorFilter
  | LevelFilter.Warn => LogCrate.WarnFilter
  | LevelFilter.Info => LogCrate.InfoFilter
  | LevelFilter.Debug => LogCrate.DebugFilter
  | LevelFilter.Trace => LogCrate.TraceFilter
  end.

(** ** tracing_interop.rs *)
Definition tracing_level_to_mm_level (level : TracingCrate.Level) : Level :=
  match level with
  | TracingCrate.ERROR => Level.Error
  | TracingCrate.WARN => Level.Warn
  | TracingCrate.INFO => Level.Info
  | TracingCrate.DEBUG => Level.Debug
  | TracingCrate.TRACE => Level.Trace
  end.

(** [FieldFormatVisitor::record_debug], on its buffer *)
Definition record_debug (buffer : string) (field : string * string) : string :=
  let '(name, value) := field in
  String.append buffer
    (if String.eqb name "message" then String.append value " "
     else String.concat EmptyString [name; "="; value; " "]).
(** [event.record(&mut formatter)]: every field, in order *)
Definition record_fields (fields : list (string * string)) : string :=
  foldl record_debug EmptyString fields.

Record TracingCaptureLayer := mkTracingCaptureLayer { tcl_max_level : LevelFilter }.
Definition TracingCaptureLayer_enabled (layer : TracingCaptureLayer) (metadata : TracingCrate.Metadata)
  : bool := le (tracing_level_to_mm_level (TracingCrate.level metadata)) (tcl_max_level layer).

(** ** The global state of the crates

    [set_logger] installs the dispatcher of this library and says whether it
    could; [init] makes a subscriber of a layer the global one, or panics. *)
Class Facade (F : Type) := {
  log_max_level : F -> LogCrate.LevelFilter;
  set_log_max_level : LogCrate.LevelFilter -> F -> F;
  set_logger : F -> bool * F;
  init_subscriber : TracingCaptureLayer -> F -> option F
}.
(** What the crates document: a logger is set once; [init] panics when there is
    a global subscriber, or a logger, because it sets one too (the feature
    tracing-log, which is on). *)
Class LawfulFacade (F : Type) `{Facade F} := {
  has_logger : F -> bool;
  has_subscriber : F -> bool;
  max_level_set l f : log_max_level (set_log_max_level l f) = l /\
    has_logger (set_log_max_level l f) = has_logger f /\
    has_subscriber (set_log_max_level l f) = has_subscriber f;
  logger_set f : (set_logger f).1 = negb (has_logger f) /\ has_logger (set_logger f).2 = true /\
    has_subscriber (set_logger f).2 = has_subscriber f /\
    log_max_level (set_logger f).2 = log_max_level f;
  subscriber_init layer f :
    match init_subscriber layer f with
    | Some f' => has_logger f = false /\ has_subscriber f = false /\
        has_logger f' = true /\ has_subscriber f' = true
    | None => has_logger f = true \/ has_subscriber f = true
    end
}.

Section interop.
Context `{Abi} `{Alloc} {S : Type} `{EventSink S}.

(** [LogDispatch]: the target of the record is not looked at. *)
Definition LogDispatch_enabled (level : LogCrate.Level) (w : World S) : bool :=
  (log_enabled
     (mkLogDesc (log_level_to_mm_tracing_level level) 0 EmptyString "unknown" "unknown" "unknown" 0) w).1.
Definition LogDispatch_desc (fmt_str : string) (record : LogCrate.Record_) : LogDesc :=
  mkLogDesc (log_level_to_mm_tracing_level (LogCrate.level record)) FILTER_LEVEL_UNSET_VALUE fmt_str
    (LogCrate.target record) (default "unknown" (LogCrate.module_path_static record))
    (default "unknown" (LogCrate.file_static record)) (default 0 (LogCrate.line record)).
Definition LogDispatch_log (c : Clock) (record : LogCrate.Record_) (w : World S) : exec (World S) :=
  fmt_str ← match as_static_str (LogCrate.args record) with
            | Some text => text_at (w_memory w) text
            | None => Ok EmptyString
            end;
  log_interop c (LogDispatch_desc fmt_str record) (LogCrate.args record) w.
Definition LogDispatch_flush (c : Clock) (w : World S) : exec (World S) := flush_log_buffer c w.

(** [TracingCaptureLayer::on_event] *)
Definition on_event_desc (metadata : TracingCrate.Metadata) : LogDesc :=
  mkLogDesc (tracing_level_to_mm_level (TracingCrate.level metadata)) FILTER_LEVEL_UNSET_VALUE "{}"
    (TracingCrate.target metadata) (default EmptyString (TracingCrate.module_path metadata))
    EmptyString 0.
Definition on_event (c : Clock) (layer : TracingCaptureLayer) (event : TracingCrate.Event) (w : World S)
  : exec (World S) :=
  let level := tracing_level_to_mm_level (TracingCrate.level (TracingCrate.metadata event)) in
  if gt level (tcl_max_level layer) then Ok w else
  log_interop c (on_event_desc (TracingCrate.metadata event))
    (mkArguments None (record_fields (TracingCrate.fields event))) w.

Context {F : Type} `{Facade F} (STATIC_MAX_LEVEL : LevelFilter).

(** [desc] is the description of the entry of the error. *)
Definition install_log_interop (c : Clock) (desc : Z) (interop_max_level_override : option LevelFilter)
    (f : F) (w : World S) : exec (F * World S) :=
  max ← max_level (w_max_levels w);
  let interop_max_level :=
    mm_tracing_level_filter_to_log_level_filter (default max interop_max_level_override) in
  let f := set_log_max_level interop_max_level f in
  let '(set, f) := set_logger f in
  if set : bool then Ok (f, w) else
  w ← log_macro STATIC_MAX_LEVEL c desc Level.Error
        (mkArguments None "Could not set log crate dispatcher SetLoggerError(())") w;
  Ok (set_log_max_level LogCrate.Off f, w).

Definition install_tracing_interop (interop_max_level_override : option LevelFilter) (f : F) (w : World S)
  : exec F :=
  max ← max_level (w_max_levels w);
  unwrap (init_subscriber (mkTracingCaptureLayer (default max interop_max_level_override)) f).
End interop.

(** ** Properties *)

Lemma log_le_filter level f :
  LogCrate.le level (mm_tracing_level_filter_to_log_level_filter f) =
  le (log_level_to_mm_tracing_level level) f.
Proof. by destruct level, f. Qed.

(** Without a dispatcher an entry is not logged. *)
Lemma log_macro_none `{Abi} `{Alloc} {S : Type} `{EventSink S} static c desc l args (w : World S) m :
  w_dispatch w = None -> max_level (w_max_levels w) = Ok m -> log_macro static c desc l args w = Ok w.
Proof.
  intros Hd Hm. unfold log_macro. destruct (le l static); [|done]. rewrite Hm. cbn [mbind exec_bind].
  destruct (le l m); [|done]. unfold log. by rewrite Hd.
Qed.

(** C36. The crate log lets through what this library would: once its logger is
    installed, a record passes the filter of the crate exactly when its level
    passes the override, or the maximum level of the process when there is
    none; the level fatal, that the crate does not have, lets nothing through.
    When the process already has a logger, every record is turned off, those
    of that logger too. *)
Theorem log_crate_filter `{Abi} `{Alloc} {S : Type} `{EventSink S} {F : Type} `{LawfulFacade F}
    STATIC_MAX_LEVEL c desc override (f : F) (w : World S) max :
  w_dispatch w = None -> max_level (w_max_levels w) = Ok max ->
  exists f', install_log_interop STATIC_MAX_LEVEL c desc override f w = Ok (f', w) /\
    has_logger f' = true /\ has_subscriber f' = has_subscriber f /\
    forall level, LogCrate.le level (log_max_level f') =
      negb (has_logger f) && le (log_level_to_mm_tracing_level level) (default max override).
Proof.
  intros Hd Hm. unfold install_log_interop. rewrite Hm. cbn [mbind exec_bind].
  set (level := mm_tracing_level_filter_to_log_level_filter (default max override)).
  destruct (max_level_set level f) as (M1 & M2 & M3).
  destruct (logger_set (set_log_max_level level f)) as (L1 & L2 & L3 & L4).
  destruct (set_logger (set_log_max_level level f)) as [set f']. cbn [fst snd] in *. rewrite L1, M2.
  destruct (has_logger f); cbn [negb andb].
  - rewrite (log_macro_none _ _ _ _ _ _ max) by done. cbn [mbind exec_bind].
    destruct (max_level_set LogCrate.Off f') as (N1 & N2 & N3). eexists. split; [done|].
    rewrite N1, N2, N3, L3, M3. split; [done|]. split; [done|]. by intros [].
  - exists f'. rewrite L4, L3, M1, M3. split; [done|]. split; [done|]. split; [done|].
    intros l. apply log_le_filter.
Qed.

(** *** A process with the two crates *)
Module InteropExample.
Export DispatchExample.
Record crates := mkCrates {
  c_level : LogCrate.LevelFilter; c_logger : bool; c_subscriber : option TracingCaptureLayer }.
#[export] Instance crates_facade : Facade crates := {|
  log_max_level := c_level;
  set_log_max_level l f := mkCrates l (c_logger f) (c_subscriber f);
  set_logger f := (negb (c_logger f), mkCrates (c_level f) true (c_subscriber f));
  init_subscriber layer f :=
    match c_logger f, c_subscriber f with
    | false, None => Some (mkCrates (c_level f) true (Some layer))
    | _, _ => None
    end
|}.
#[export] Program Instance crates_lawful : LawfulFacade crates := {|
  has_logger := c_logger;
  has_subscriber f := match c_subscriber f with Some _ => true | None => false end
|}.
Next Obligation. done. Qed.
Next Obligation. done. Qed.
Next Obligation. intros layer [l [] [s|]]; cbn; tauto. Qed.
Definition no_crates : crates := mkCrates LogCrate.Off false None.
Definition w_info : World Recorder := set_max_levels (set_max_level LevelFilter.Info initial_max_filters) w0.
End InteropExample.
Import InteropExample.

Lemma log_crate_filter_witness :
  exists f', install_log_interop LevelFilter.Trace (c 0) 500 None
      no_crates w_info = Ok (f', w_info) /\
    LogCrate.le LogCrate.Info (log_max_level f') = true /\
    LogCrate.le LogCrate.Debug (log_max_level f') = false.
Proof.
  destruct (log_crate_filter LevelFilter.Trace (c 0) 500 None
    no_crates w_info LevelFilter.Info) as (f' & E & _ & _ & Hl);
    [reflexivity|reflexivity|].
  exists f'. split; [exact E|]. split; [exact (Hl LogCrate.Info)|exact (Hl LogCrate.Debug)].
Defined.
