(* ===== verification/Builder.v ===== *)
(** * Building the telemetry of a process

    [telemetry-sink/src/lib.rs]: [TelemetryGuardBuilder] puts the sinks
    together, sets the levels, installs the interoperability with the crates
    log and tracing, and starts the dispatcher; [TelemetryGuard] ends it.  The
    guards of a process share one system, which the static weak pointer of
    [build] finds while a guard lives: [g_strong] counts them.  A panic leaves
    the lock of the pointer poisoned, and nothing after it is modelled. *)

From S2P Require Import Prelude RustString Float Transit Queue Pod Parser PodParser Blocks.
From S2P Require Import Levels LogFilter Deps LogEvents LogBlock Time Stream Wire MetricsBlock.
From S2P Require Import SpanEvents ThreadBlock Sink CompositeSink SinkSpec Dispatch StreamSpec.
From S2P Require Import DispatchSpec Guards HttpSink Interop.

(** ** Sinks of any type

    [BoxedEventSink]: those of this library, or others.  The sink that sends to
    a server has what its thread was given. *)
Record HttpParams := mkHttpParams {
  hp_addr : string;
  hp_max_queue_size : Z;
  hp_retry_strategy : nat;
  hp_make_decorator : RequestDecorator
}.
Inductive BoxedEventSink (E : Type) :=
| BoxedHttp (p : HttpParams) (s : HttpEventSink)
| BoxedLocal (s : LocalEventSink)
| BoxedExtra (s : E).
#[global] Arguments BoxedHttp {E}.
#[global] Arguments BoxedLocal {E}.
#[global] Arguments BoxedExtra {E}.

Section boxed.
Context `{Abi} `{Terminal} {E : Type} `{EventSink E}.
Context (into_iter : gmap string UserDefinedType -> list (string * UserDefinedType)).
#[local] Instance http_boxed : EventSink HttpEventSink := HttpEventSink_EventSink into_iter.

(** A call of the sink in the box *)
Definition boxed_map (f : forall S, EventSink S -> S -> S) (s : BoxedEventSink E) : BoxedEventSink E :=
  match s with
  | BoxedHttp p s => BoxedHttp p (f _ _ s)
  | BoxedLocal s => BoxedLocal (f _ _ s)
  | BoxedExtra s => BoxedExtra (f _ _ s)
  end.
Definition Boxed_EventSink : EventSink (BoxedEventSink E) := {|
  on_startup s x := boxed_map (fun _ _ s => on_startup s x) s;
  on_shutdown s := boxed_map (fun _ _ s => on_shutdown s) s;
  on_log_enabled s md :=
    match s with
    | BoxedHttp _ s => on_log_enabled s md
    | BoxedLocal s => on_log_enabled s md
    | BoxedExtra s => on_log_enabled s md
    end;
  on_log s md time args :=
    match s with
    | BoxedHttp p s => let '(s, md) := on_log s md time args in (BoxedHttp p s, md)
    | BoxedLocal s => let '(s, md) := on_log s md time args in (BoxedLocal s, md)
    | BoxedExtra s => let '(s, md) := on_log s md time args in (BoxedExtra s, md)
    end;
  on_init_log_stream s x := boxed_map (fun _ _ s => on_init_log_stream s x) s;
  on_process_log_block s x := boxed_map (fun _ _ s => on_process_log_block s x) s;
  on_init_metrics_stream s x := boxed_map (fun _ _ s => on_init_metrics_stream s x) s;
  on_process_metrics_block s x := boxed_map (fun _ _ s => on_process_metrics_block s x) s;
  on_init_thread_stream s x := boxed_map (fun _ _ s => on_init_thread_stream s x) s;
  on_process_thread_block s x := boxed_map (fun _ _ s => on_process_thread_block s x) s;
  is_busy s :=
    match s with
    | BoxedHttp _ s => is_busy s
    | BoxedLocal s => is_busy s
    | BoxedExtra s => is_busy s
    end
|}.
End boxed.

(** ** The builder *)
Record TelemetryGuardBuilder (E : Type) := mkTelemetryGuardBuilder {
  logs_buffer_size : Z;
  metrics_buffer_size : Z;
  threads_buffer_size : Z;
  target_max_levels : gmap string string;
  max_queue_size : Z;
  max_level_override : option LevelFilter;
  interop_max_level_override : option LevelFilter;
  install_log_capture : bool;
  install_tracing_capture : bool;
  local_sink_enabled : bool;
  local_sink_max_level : LevelFilter;
  telemetry_sink_max_level : LevelFilter;
  telemetry_metadata_retry : option nat;
  telemetry_make_request_decorator : RequestDecorator;
  extra_sinks : gmap Z (LevelFilter * E)
}.
#[global] Arguments mkTelemetryGuardBuilder {E}.
#[global] Arguments logs_buffer_size {E}.
#[global] Arguments metrics_buffer_size {E}.
#[global] Arguments threads_buffer_size {E}.
#[global] Arguments target_max_levels {E}.
#[global] Arguments max_queue_size {E}.
#[global] Arguments max_level_override {E}.
#[global] Arguments interop_max_level_override {E}.
#[global] Arguments install_log_capture {E}.
#[global] Arguments install_tracing_capture {E}.
#[global] Arguments local_sink_enabled {E}.
#[global] Arguments local_sink_max_level {E}.
#[global] Arguments telemetry_sink_max_level {E}.
#[global] Arguments telemetry_metadata_retry {E}.
#[global] Arguments telemetry_make_request_decorator {E}.
#[global] Arguments extra_sinks {E}.

Definition TelemetryGuardBuilder_default {E} : TelemetryGuardBuilder E := {|
  logs_buffer_size := 10 * 1024 * 1024;
  metrics_buffer_size := 1024 * 1024;
  threads_buffer_size := 10 * 1024 * 1024;
  local_sink_enabled := true;
  local_sink_max_level := LevelFilter.Info;
  telemetry_sink_max_level := LevelFilter.Debug;
  telemetry_metadata_retry := None;
  telemetry_make_request_decorator := TrivialRequestDecorator;
  target_max_levels := ∅;
  max_queue_size := 16;
  max_level_override := None;
  interop_max_level_override := None;
  install_log_capture := false;
  install_tracing_capture := true;
  extra_sinks := ∅
|}.

Section builder.
Context {E : Type}.
Abbreviation Builder := (TelemetryGuardBuilder E).

(** One sink of a type: the first one stays. *)
Definition add_sink (type_id : Z) (max_level : LevelFilter) (sink : E) (b : Builder) : Builder :=
  mkTelemetryGuardBuilder (logs_buffer_size b) (metrics_buffer_size b) (threads_buffer_size b)
    (target_max_levels b) (max_queue_size b) (max_level_override b) (interop_max_level_override b)
    (install_log_capture b) (install_tracing_capture b) (local_sink_enabled b) (local_sink_max_level b)
    (telemetry_sink_max_level b) (telemetry_metadata_retry b) (telemetry_make_request_decorator b)
    (match extra_sinks b !! type_id with
     | Some _ => extra_sinks b
     | None => <[type_id := (max_level, sink)]> (extra_sinks b)
     end).
Definition with_max_level_override (level_filter : LevelFilter) (b : Builder) : Builder :=
  mkTelemetryGuardBuilder (logs_buffer_size b) (metrics_buffer_size b) (threads_buffer_size b)
    (target_max_levels b) (max_queue_size b) (Some level_filter) (interop_max_level_override b)
    (install_log_capture b) (install_tracing_capture b) (local_sink_enabled b) (local_sink_max_level b)
    (telemetry_sink_max_level b) (telemetry_metadata_retry b) (telemetry_make_request_decorator b)
    (extra_sinks b).
Definition with_local_sink_enabled (enabled : bool) (b : Builder) : Builder :=
  mkTelemetryGuardBuilder (logs_buffer_size b) (metrics_buffer_size b) (threads_buffer_size b)
    (target_max_levels b) (max_queue_size b) (max_level_override b) (interop_max_level_override b)
    (install_log_capture b) (install_tracing_capture b) enabled (local_sink_max_level b)
    (telemetry_sink_max_level b) (telemetry_metadata_retry b) (telemetry_make_request_decorator b)
    (extra_sinks b).
Definition with_interop_max_level_override (level_filter : LevelFilter) (b : Builder) : Builder :=
  mkTelemetryGuardBuilder (logs_buffer_size b) (metrics_buffer_size b) (threads_buffer_size b)
    (target_max_levels b) (max_queue_size b) (max_level_override b) (Some level_filter)
    (install_log_capture b) (install_tracing_capture b) (local_sink_enabled b) (local_sink_max_level b)
    (telemetry_sink_max_level b) (telemetry_metadata_retry b) (telemetry_make_request_decorator b)
    (extra_sinks b).
Definition with_install_log_capture (enabled : bool) (b : Builder) : Builder :=
  mkTelemetryGuardBuilder (logs_buffer_size b) (metrics_buffer_size b) (threads_buffer_size b)
    (target_max_levels b) (max_queue_size b) (max_level_override b) (interop_max_level_override b)
    enabled (install_tracing_capture b) (local_sink_enabled b) (local_sink_max_level b)
    (telemetry_sink_max_level b) (telemetry_metadata_retry b) (telemetry_make_request_decorator b)
    (extra_sinks b).
Definition with_install_tracing_capture (enabled : bool) (b : Builder) : Builder :=
  mkTelemetryGuardBuilder (logs_buffer_size b) (metrics_buffer_size b) (threads_buffer_size b)
    (target_max_levels b) (max_queue_size b) (max_level_override b) (interop_max_level_override b)
    (install_log_capture b) enabled (local_sink_enabled b) (local_sink_max_level b)
    (telemetry_sink_max_level b) (telemetry_metadata_retry b) (telemetry_make_request_decorator b)
    (extra_sinks b).
Definition with_local_sink_max_level (level_filter : LevelFilter) (b : Builder) : Builder :=
  mkTelemetryGuardBuilder (logs_buffer_size b) (metrics_buffer_size b) (threads_buffer_size b)
    (target_max_levels b) (max_queue_size b) (max_level_override b) (interop_max_level_override b)
    (install_log_capture b) (install_tracing_capture b) (local_sink_enabled b) level_filter
    (telemetry_sink_max_level b) (telemetry_metadata_retry b) (telemetry_make_request_decorator b)
    (extra_sinks b).
(** A strategy is the number of its delays. *)
Definition with_telemetry_metadata_retry (retry_strategy : nat) (b : Builder) : Builder :=
  mkTelemetryGuardBuilder (logs_buffer_size b) (metrics_buffer_size b) (threads_buffer_size b)
    (target_max_levels b) (max_queue_size b) (max_level_override b) (interop_max_level_override b)
    (install_log_capture b) (install_tracing_capture b) (local_sink_enabled b) (local_sink_max_level b)
    (telemetry_sink_max_level b) (Some retry_strategy) (telemetry_make_request_decorator b)
    (extra_sinks b).
Definition with_request_decorator (make_decorator : RequestDecorator) (b : Builder) : Builder :=
  mkTelemetryGuardBuilder (logs_buffer_size b) (metrics_buffer_size b) (threads_buffer_size b)
    (target_max_levels b) (max_queue_size b) (max_level_override b) (interop_max_level_override b)
    (install_log_capture b) (install_tracing_capture b) (local_sink_enabled b) (local_sink_max_level b)
    (telemetry_sink_max_level b) (telemetry_metadata_retry b) make_decorator (extra_sinks b).

(** The levels of the targets, where a text that is not a level turns them off *)
Definition target_max_level_of (entries : list (string * string)) : list (string * LevelFilter) :=
  map (fun e => (e.1, match LevelFilter_from_str e.2 with Ok f => f | _ => LevelFilter.Off end))
    (List.filter (fun e => negb (String.eqb e.1 "MAX_LEVEL")) entries).

(** [ExponentialBackoff::from_millis(10).take(3)] when no strategy is given *)
Definition http_params (addr : string) (b : Builder) : HttpParams :=
  mkHttpParams addr (max_queue_size b) (default 3%nat (telemetry_metadata_retry b))
    (telemetry_make_request_decorator b).
(** The sinks that [build] makes, for the variable MICROMEGAS_TELEMETRY_URL *)
Definition build_sinks (telemetry_url : option string) (into_values : list (LevelFilter * E))
    (b : Builder) : list (LevelFilter * BoxedEventSink E) :=
  (match telemetry_url with
   | Some url => [(telemetry_sink_max_level b, BoxedHttp (http_params url b) HttpEventSink_new)]
   | None => []
   end) ++
  (if local_sink_enabled b then [(local_sink_max_level b, BoxedLocal LocalEventSink_new)] else []) ++
  map (fun e => (e.1, BoxedExtra e.2)) into_values.
End builder.

(** ** The guards *)
Record Globals (F S : Type) := mkGlobals {
  g_world : World S;
  g_hooks : PanicHooks;
  g_facade : F;
  g_strong : nat
}.
#[global] Arguments mkGlobals {F S}.
#[global] Arguments g_world {F S}.
#[global] Arguments g_hooks {F S}.
#[global] Arguments g_facade {F S}.
#[global] Arguments g_strong {F S}.

(** What a thread takes to start: an identifier, the time, itself *)
Record ThreadStart := mkThreadStart {
  ts_new_v4 : Uuid;
  ts_now : DualTime;
  ts_thread : Thread;
  ts_thread_id : string;
  ts_thread_name : option string
}.
Definition thread_guard `{Abi} {S} `{EventSink S} (ts : ThreadStart) (w : World S) : exec (World S) :=
  TracingThreadGuard_new (ts_new_v4 ts) (ts_now ts) (ts_thread ts) (ts_thread_id ts)
    (ts_thread_name ts) w.

Section build.
Context `{Abi} `{Alloc} `{Terminal} `{UuidText} `{UuidParse} {E : Type} `{EventSink E}.
Context {F : Type} `{Facade F}.
Context (into_iter : gmap string UserDefinedType -> list (string * UserDefinedType)).
(** The order of the values of the maps of the builder *)
Context (levels_into_iter : gmap string string -> list (string * string)).
Context (sinks_into_values : gmap Z (LevelFilter * E) -> list (LevelFilter * E)).
Context (STATIC_MAX_LEVEL : LevelFilter).
#[local] Hint Extern 0 (EventSink (BoxedEventSink _)) => exact (Boxed_EventSink into_iter) : typeclass_instances.
Abbreviation Sink := (CompositeSink (BoxedEventSink E)).

(** The system, when no guard lives; [su], [c], [log_desc] and [init_desc] are
    those of the start of the dispatcher, of the entries and of their
    descriptions. *)
Definition build_system (su : Startup) (c : Clock) (log_desc init_desc : Z) (telemetry_url : option string)
    (b : TelemetryGuardBuilder E) (g : Globals F Sink) : exec (Globals F Sink) :=
  let target_max_level := target_max_level_of (levels_into_iter (target_max_levels b)) in
  let sinks := build_sinks telemetry_url (sinks_into_values (extra_sinks b)) b in
  let w := g_world g in
  let '(sink, levels) :=
    CompositeSink_new sinks target_max_level (max_level_override b) (w_max_levels w) in
  let w := set_max_levels levels w in
  '(f, w) ←
    (if install_log_capture b
     then install_log_interop STATIC_MAX_LEVEL c log_desc (interop_max_level_override b) (g_facade g) w
     else Ok (g_facade g, w));
  f ← (if install_tracing_capture b
       then install_tracing_interop (interop_max_level_override b) f w
       else Ok f);
  '(r, w, hooks) ←
    TracingSystemGuard_new STATIC_MAX_LEVEL su c init_desc (logs_buffer_size b) (metrics_buffer_size b)
      (threads_buffer_size b) sink w (g_hooks g);
  match r with
  | Initialized => Ok (mkGlobals w hooks f (g_strong g))
  | AlreadyInitialized => bail "Event dispatch already initialized"
  end.

(** [weak.upgrade()], or a new system; then the stream of the thread *)
Definition TelemetryGuardBuilder_build (su : Startup) (c : Clock) (log_desc init_desc : Z)
    (telemetry_url : option string) (ts : ThreadStart) (b : TelemetryGuardBuilder E) (g : Globals F Sink)
  : exec (Globals F Sink) :=
  g ← (if (0 <? g_strong g)%nat then Ok g
       else build_system su c log_desc init_desc telemetry_url b g);
  w ← thread_guard ts (g_world g);
  Ok (mkGlobals w (g_hooks g) (g_facade g) (S (g_strong g))).

(** The fields of a guard are dropped in order: that of the thread, then that
    of the system, which ends with its last guard. *)
Definition TelemetryGuard_drop (c_thread c_system : Clock) (t : Thread) (g : Globals F Sink)
  : exec (Globals F Sink) :=
  w ← TracingThreadGuard_drop c_thread t (g_world g);
  w ← (if (g_strong g =? 1)%nat then TracingSystemGuard_drop c_system w else Ok w);
  Ok (mkGlobals w (g_hooks g) (g_facade g) (Nat.pred (g_strong g))).

(** The handler of [with_ctrlc_handling], before the process exits *)
Definition ctrlc_handler (c : Clock) (desc : Z) (w : World Sink) : exec (World Sink) :=
  md ← deref (st_logs (w_memory w)) desc;
  w ← log_macro STATIC_MAX_LEVEL c desc Level.Info
        (mkArguments (Some (lm_fmt_str md)) "Ctrl+C was hit!") w;
  shutdown_telemetry c w.
End build.
