(* ===== verification/BuilderSpec.v ===== *)
(** * What the guard of the telemetry promises

    A composite sink passes on what it is given to each of its sinks, so that
    the theorems about the dispatcher hold for the channel of the HTTP sink
    that the builder puts first: from the builder to the drop of the guard,
    everything that the process records is sent.  A process has one system. *)

From S2P Require Import Prelude RustString Float Transit Queue Pod Parser PodParser Blocks.
From S2P Require Import Levels LogFilter Deps LogEvents LogBlock Time Stream Wire MetricsBlock.
From S2P Require Import SpanEvents ThreadBlock Sink CompositeSink SinkSpec Dispatch StreamSpec.
From S2P Require Import DispatchSpec Guards HttpSink HttpSpec GuardsSpec Interop Builder.

(** ** Lawful sinks *)
Lemma log_each_lookup {S} `{EventSink S} filter l md time args n e :
  l !! n = Some e ->
  exists s', (log_each filter l md time args).1 !! n = Some (e.1, s') /\
    (s' = e.2 \/ exists md, s' = (on_log e.2 md time args).1).
Proof.
  revert md n. induction l as [|[m sink] l IH]; intros md n; [done|]. cbn [log_each].
  destruct (if le _ _ then _ else _) as [enabled md1].
  destruct (if enabled then on_log sink md1 time args else (sink, md1)) as [sink' md2] eqn:Es.
  specialize (IH md2). destruct (log_each filter l md2 time args) as [l' md3]. cbn [fst] in *.
  destruct n as [|n]; [|apply IH]. intros [= <-]. exists sink'. split; [done|].
  cbn [fst snd].
  destruct enabled; cbv iota in Es; [right; exists md1; by rewrite Es|left; by injection Es].
Qed.

(** The messages of one of the sinks of a composite *)
Definition sent_of {S M} `{LawfulSink S M} (n : nat) (s : CompositeSink S) : list M :=
  match sinks s !! n with Some e => sent e.2 | None => [] end.
Program Definition composite_lawful {S M} `{LawfulSink S M} (n : nat) : LawfulSink (CompositeSink S) M := {|
  sent := sent_of n;
  encode := encode;
  is_open s := exists e, sinks s !! n = Some e /\ is_open e.2
|}.
Next Obligation.
  intros S M HE HL n no s (e & Hs & Ho). destruct (notify_sent no e.2 Ho) as [Ho' Hsent].
  assert (sinks (notify no s) !! n = Some (e.1, notify no e.2)) as E.
  { destruct no; cbn; rewrite list_lookup_fmap, Hs; done. }
  unfold sent_of. rewrite E, Hs. split; [by eexists|done].
Qed.
Next Obligation.
  intros S M HE HL n s md t args (e & Hs & Ho). cbn [on_log CompositeSink_EventSink].
  destruct (target_max_level s md) as [filter md'].
  destruct (log_each_lookup filter (sinks s) md' t args n e Hs) as (s' & E & Hs').
  destruct (log_each filter (sinks s) md' t args) as [l md2]. cbn [fst sinks] in *. unfold sent_of. cbn [sinks]. rewrite E, Hs.
  destruct Hs' as [->|[md3 ->]]; [split; [by eexists|done]|].
  destruct (on_log_sent e.2 md3 t args Ho) as [Ho' Hsent]. split; [by eexists|done].
Qed.

Section boxed.
Context `{HA : LawfulAbi} `{Alloc} `{Terminal} {E : Type} `{EventSink E}.
Context (into_iter : gmap string UserDefinedType -> list (string * UserDefinedType)).
#[local] Hint Extern 0 (EventSink (BoxedEventSink _)) => exact (Boxed_EventSink into_iter) : typeclass_instances.

Definition boxed_channel (s : BoxedEventSink E) : list SinkEvent :=
  match s with BoxedHttp _ s => he_sent s | _ => [] end.
Definition boxed_open (s : BoxedEventSink E) : Prop :=
  match s with BoxedHttp _ s => he_sender s = true /\ he_receiver s = true | _ => False end.
Program Definition boxed_lawful : LawfulSink (BoxedEventSink E) SinkEvent := {|
  sent := boxed_channel;
  encode := message_of into_iter;
  is_open := boxed_open
|}.
Next Obligation.
  intros n [p s|s|s] Ho; [|done..].
  destruct (@notify_sent _ _ _ (http_lawful into_iter) n s Ho) as [Ho' Hs].
  destruct n; (split; [exact Ho'|exact Hs]).
Qed.
Next Obligation. by intros [p s|s|s] md t args Ho. Qed.

End boxed.

(** ** The system *)
Lemma max_level_of_set f st : max_level (set_max_level f st) = Ok f.
Proof. unfold max_level, set_max_level. cbn [MAX_LEVEL_FILTER]. unfold transmute. by rewrite LevelFilter_from_as_u32. Qed.

Lemma composite_levels {S} (l : list (LevelFilter * S)) targets override st :
  exists f, max_level (CompositeSink_new l targets override st).2 = Ok f.
Proof. unfold CompositeSink_new. destruct override; eexists; apply max_level_of_set. Qed.

Section build.
Context `{HA : LawfulAbi} `{Alloc} `{Terminal} `{UuidText} `{UuidParse} {E : Type} `{EventSink E}.
Context {F : Type} `{LawfulFacade F}.
Context (into_iter : gmap string UserDefinedType -> list (string * UserDefinedType)).
Context (levels_into_iter : gmap string string -> list (string * string)).
Context (sinks_into_values : gmap Z (LevelFilter * E) -> list (LevelFilter * E)).
Context (STATIC_MAX_LEVEL : LevelFilter).
#[local] Hint Extern 0 (EventSink (BoxedEventSink _)) => exact (Boxed_EventSink into_iter) : typeclass_instances.
#[local] Instance channel_lawful : LawfulSink (CompositeSink (BoxedEventSink E)) SinkEvent :=
  @composite_lawful _ _ _ (boxed_lawful into_iter) O.
Abbreviation Sink := (CompositeSink (BoxedEventSink E)).
Implicit Types (b : TelemetryGuardBuilder E) (g : Globals F Sink) (w : World Sink).

(** A process where nothing was started *)
Definition fresh g : Prop :=
  w_dispatch (g_world g) = None /\ w_thread_streams (g_world g) = ∅ /\
  previous_hook (g_hooks g) = None /\ has_logger (g_facade g) = false /\
  has_subscriber (g_facade g) = false /\ g_strong g = 0%nat.

(** The configuration of the dispatcher *)
Definition builder_config (su : Startup) b : config :=
  startup_config su (logs_buffer_size b) (metrics_buffer_size b) (threads_buffer_size b).

(** Installing the interoperability, for one crate at most *)
Lemma install_ok c desc b (f : F) w :
  w_dispatch w = None -> has_logger f = false -> has_subscriber f = false ->
  (exists m, max_level (w_max_levels w) = Ok m) ->
  install_log_capture b && install_tracing_capture b = false ->
  exists f1 f2,
    (if install_log_capture b
     then install_log_interop STATIC_MAX_LEVEL c desc (interop_max_level_override b) f w
     else Ok (f, w)) = Ok (f1, w) /\
    (if install_tracing_capture b then install_tracing_interop (interop_max_level_override b) f1 w
     else Ok f1) = Ok f2.
Proof.
  intros Hd Hl Hs (m & Hm) Hcap. unfold install_log_interop, install_tracing_interop. rewrite Hm.
  cbn [mbind exec_bind]. destruct (install_log_capture b); cbn [andb] in Hcap.
  - rewrite Hcap. set (level := mm_tracing_level_filter_to_log_level_filter _).
    destruct (max_level_set level f) as (_ & M2 & _).
    destruct (logger_set (set_log_max_level level f)) as (L1 & _).
    destruct (set_logger (set_log_max_level level f)) as [set f']. cbn [fst] in L1.
    rewrite L1, M2, Hl. cbn. by eexists _, _.
  - destruct (install_tracing_capture b); [|by exists f, f].
    pose proof (subscriber_init (mkTracingCaptureLayer (default m (interop_max_level_override b))) f) as Hi.
    exists f. destruct (init_subscriber _ f) as [f'|]; [by exists f'|]. rewrite Hl, Hs in Hi. by destruct Hi.
Qed.

Lemma build_system_ok su c log_desc init_desc url b g :
  fresh g -> install_log_capture b && install_tracing_capture b = false ->
  big_enough (builder_config su b) ->
  exists g' ns,
    build_system into_iter levels_into_iter sinks_into_values STATIC_MAX_LEVEL su c log_desc init_desc
      (Some url) b g = Ok g' /\ g_strong g' = g_strong g /\
    forall no_exit, world_inv (builder_config su b) [] no_exit (g_world g') [] ns [].
Proof.
  intros (Hd & Hts & Hh & Hl & Hs & _) Hcap Hbig. unfold build_system.
  set (l := build_sinks _ _ _). set (targets := target_max_level_of _).
  destruct (composite_levels l targets (max_level_override b) (w_max_levels (g_world g))) as (m & Hm).
  assert (sinks (CompositeSink_new l targets (max_level_override b) (w_max_levels (g_world g))).1 = l) as Esinks
    by done.
  destruct (CompositeSink_new l targets (max_level_override b) (w_max_levels (g_world g))) as [sink levels].
  cbn [snd fst] in Hm, Esinks.
  destruct (install_ok c log_desc b (g_facade g) (set_max_levels levels (g_world g)) Hd Hl Hs (ex_intro _ m Hm) Hcap)
    as (f1 & f2 & -> & E2). cbn [mbind exec_bind]. rewrite E2. cbn [mbind exec_bind].
  unfold TracingSystemGuard_new, init_telemetry, init_event_dispatch.
  cbn [set_max_levels w_dispatch]. rewrite Hd.
  destruct (dispatch_new_ok su (logs_buffer_size b) (metrics_buffer_size b) (threads_buffer_size b)
    (set_sink sink (set_max_levels levels (g_world g))) Hbig) as (w1 & d & -> & _ & _ & _ & Hinv).
  { cbn [w_sink set_sink]. exists (telemetry_sink_max_level b, BoxedHttp (http_params url b) HttpEventSink_new).
    rewrite Esinks. by split. }
  { done. }
  cbn [mbind exec_bind]. unfold init_panic_hook. rewrite Hh. cbn [assert_true mbind exec_bind].
  eexists _, _. split; [done|]. split; [done|]. intros no_exit. specialize (Hinv no_exit).
  cbn [w_sink set_sink sent channel_lawful composite_lawful] in Hinv. unfold sent_of in Hinv. rewrite Esinks in Hinv. exact Hinv.
Qed.


(** The thread that starts has recorded nothing. *)
Lemma started_nothing w id now t thread_id name :
  let e0 := recorded w (InitThread id now t thread_id name) in
  (length e0 <= 1)%nat /\ logs_of e0 = [] /\ metrics_of e0 = [] /\
  forall t' evs, thread_of t' (e0 ++ evs) = thread_of t' evs.
Proof.
  unfold recorded. destruct (w_dispatch w); [|by split_and!; cbn; try lia].
  destruct (w_thread_streams w !! t); split_and!; cbn; try done; try lia.
  intros t' evs. unfold thread_of. cbn [foldl thread_of_step]. by destruct (t =? t').
Qed.

(** A shutdown is not a message. *)
Lemma channel_shutdown (s : Sink) : sent (on_shutdown s) = sent s.
Proof.
  cbn [sent channel_lawful composite_lawful]. unfold sent_of.
  cbn [on_shutdown CompositeSink_EventSink for_each_sink sinks]. rewrite list_lookup_fmap.
  destruct (sinks s !! O) as [[m [p x|x|x]]|]; done.
Qed.

(** The drop of the last guard *)
Lemma guard_drop_ok cf no_exit c1 c2 t g ids ns evs :
  big_enough cf -> world_inv cf [] no_exit (g_world g) ids ns evs -> Z.of_nat (length evs) < 2 ^ 64 ->
  g_strong g = 1%nat ->
  exists g' ns', TelemetryGuard_drop into_iter c1 c2 t g = Ok g' /\
    sent (w_sink (g_world g')) = map (message_of into_iter) ns' /\
    (exists chunks, concat chunks = logs_of evs /\
    sent_blocks (cf_logs cf) (cf_pid cf) (cf_log_stream cf) 0 chunks (log_blocks ns')) /\
    (exists chunks, concat chunks = metrics_of evs /\
    sent_blocks (cf_metrics cf) (cf_pid cf) (cf_metrics_stream cf) 0 chunks (metrics_blocks ns')) /\
    (is_Some (w_thread_streams (g_world g) !! t) ->
     exists sid chunks, concat chunks = thread_of t evs /\
    sent_blocks (cf_threads cf) (cf_pid cf) sid 0 chunks (thread_blocks sid ns')).
Proof.
  intros Hbig Hw Hl Hg. unfold TelemetryGuard_drop, TracingThreadGuard_drop.
  destruct (flush_thread_ok cf [] no_exit Hbig c1 t (g_world g) ids ns evs Hw Hl)
    as (w1 & ns1 & Ef & Hw1 & Hemp).
  pose proof (flush_thread_same _ _ _ _ Ef) as (_ & _ & Hkeep). rewrite Ef.
  cbn [mbind exec_bind]. rewrite Hg. cbn [Nat.eqb]. unfold TracingSystemGuard_drop.
  destruct (shutdown_from_inv cf [] no_exit w1 ids _ evs c2 Hbig Hw1 Hl)
    as (w2 & s & ns2 & -> & Es & _ & Hsent & Hlog & Hm & _ & _ & Ht).
  cbn [mbind exec_bind]. eexists _, _. split; [done|]. cbn [g_world]. rewrite Es, channel_shutdown.
  split; [exact Hsent|]. split; [done|]. split; [done|]. intros Hs. apply Hkeep in Hs as [st Hst].
  destruct (Ht t st Hst (Hemp st Hst)) as (_ & chunks & Hc & Hb). by exists (stream_id st), chunks.
Qed.

Lemma build_ok su c log_desc init_desc url ts b g :
  fresh g -> install_log_capture b && install_tracing_capture b = false ->
  big_enough (builder_config su b) ->
  exists g1 e0,
    TelemetryGuardBuilder_build into_iter levels_into_iter sinks_into_values STATIC_MAX_LEVEL su c
      log_desc init_desc (Some url) ts b g = Ok g1 /\ g_strong g1 = 1%nat /\
    (forall no_exit, exists ns, world_inv (builder_config su b) [] no_exit (g_world g1) [ts_new_v4 ts] ns e0) /\
    (length e0 <= 1)%nat /\ logs_of e0 = [] /\ metrics_of e0 = [] /\
    forall t' evs, thread_of t' (e0 ++ evs) = thread_of t' evs.
Proof.
  intros Hf Hcap Hbig. unfold TelemetryGuardBuilder_build. pose proof Hf as (_ & _ & _ & _ & _ & Hg).
  rewrite Hg. cbn [Nat.ltb Nat.leb].
  destruct (build_system_ok su c log_desc init_desc url b g Hf Hcap Hbig) as (g' & ns & -> & Eg & Hinv).
  cbn [mbind exec_bind]. unfold thread_guard, TracingThreadGuard_new.
  assert (forall no_exit, exists w' ns',
    init_thread_stream (ts_new_v4 ts) (ts_now ts) (ts_thread ts) (ts_thread_id ts) (ts_thread_name ts)
      (g_world g') = Ok w' /\
    world_inv (builder_config su b) [] no_exit w' [ts_new_v4 ts] (ns ++ ns')
      (recorded (g_world g') (InitThread (ts_new_v4 ts) (ts_now ts) (ts_thread ts) (ts_thread_id ts)
                                (ts_thread_name ts)))) as Hi.
  { intros no_exit. apply (init_thread_ok _ _ no_exit Hbig _ _ _ _ _ _ [] ns [] (Hinv no_exit)).
    by apply not_elem_of_nil. }
  destruct (Hi false) as (w1 & _ & E1 & _). rewrite E1. cbn [mbind exec_bind]. rewrite Eg, Hg.
  destruct (started_nothing (g_world g') (ts_new_v4 ts) (ts_now ts) (ts_thread ts) (ts_thread_id ts)
    (ts_thread_name ts)) as (S1 & S2 & S3 & S4).
  eexists _, _. split; [done|]. split; [done|]. split; [|by split_and!].
  intros no_exit. destruct (Hi no_exit) as (w' & ns' & E' & Hw'). exists (ns ++ ns').
  rewrite E1 in E'. apply (f_equal (fun r => match r with Ok x => x | _ => w1 end)) in E'.
  cbn [g_world]. by rewrite E'.
Qed.

(** The dispatcher is not started twice. *)
Lemma log_macro_started c desc l args w w' :
  is_Some (w_dispatch w) -> log_macro STATIC_MAX_LEVEL c desc l args w = Ok w' -> is_Some (w_dispatch w').
Proof.
  intros Hd. pose proof Hd as [d Ed]. unfold log_macro.
  assert (Ok w = Ok w' -> is_Some (w_dispatch w')) as Hw.
  { intros Ew. apply (f_equal (fun r => match r with Ok x => x | _ => w end)) in Ew. by subst w'. }
  destruct (le l STATIC_MAX_LEVEL); [|done].
  destruct (max_level (w_max_levels w)); cbn [mbind exec_bind]; try discriminate. destruct (le l a); [|done].
  unfold log. rewrite Ed. unfold Dispatch_log. destruct (log_desc_at _ _) as [md| | | |]; cbn [mbind exec_bind]; try discriminate.
  destruct (sink_log_enabled d w md) as [enabled md']. destruct enabled; cbn [negb].
  2:{ intros Ew. apply (f_equal (fun r => match r with Ok x => x | _ => w end)) in Ew. by subst w'. }
  destruct (sink_on_log d _ md' (c_now c) args) as [w2 md2]. unfold record_log_event.
  destruct (with_events_mut _ _) as [s| | | |]; cbn [mbind exec_bind]; try discriminate.
  destruct (is_full s).
  - intros Ew. set (w3 := set_memory _ w2) in Ew.
    apply (flush_log_streams c (set_dispatch (set_log_stream s d) w3)) in Ew as [_ Hk].
    destruct (Hk _ eq_refl) as (d' & -> & _). by eexists.
  - intros Ew. apply (f_equal (fun r => match r with Ok x => x | _ => w end)) in Ew. subst w'. by eexists.
Qed.

Lemma started_fails su c log_desc init_desc url b g g' :
  is_Some (w_dispatch (g_world g)) ->
  build_system into_iter levels_into_iter sinks_into_values STATIC_MAX_LEVEL su c log_desc init_desc
    url b g <> Ok g'.
Proof.
  intros Hd. unfold build_system. destruct (CompositeSink_new _ _ _ _) as [sink levels].
  set (w := set_max_levels levels (g_world g)).
  assert (forall f w1, (if install_log_capture b
    then install_log_interop STATIC_MAX_LEVEL c log_desc (interop_max_level_override b) (g_facade g) w
    else Ok (g_facade g, w)) = Ok (f, w1) -> is_Some (w_dispatch w1)) as Hlog.
  { intros f w1. assert (forall x, Ok (x, w) = Ok (f, w1) -> is_Some (w_dispatch w1)) as Hw.
    { intros x Ew. apply (f_equal (fun r => match r with Ok (_, x) => x | _ => w end)) in Ew. by subst w1. }
    destruct (install_log_capture b); [|apply Hw]. unfold install_log_interop.
    destruct (max_level (w_max_levels w)); cbn [mbind exec_bind]; try discriminate.
    destruct (set_logger _) as [set f']. destruct set; [apply Hw|].
    destruct (log_macro _ _ _ _ _ w) as [w2| | | |] eqn:Ew; cbn [mbind exec_bind]; try discriminate.
    intros Ew2. apply (f_equal (fun r => match r with Ok (_, x) => x | _ => w end)) in Ew2. subst w1.
    by apply log_macro_started in Ew. }
  destruct (if install_log_capture b then _ else _) as [[f w1]| | | |]; cbn [mbind exec_bind]; try discriminate.
  destruct (Hlog f w1 eq_refl) as [d Ed].
  destruct (if install_tracing_capture b then _ else _) as [f2| | | |]; cbn [mbind exec_bind]; try discriminate.
  unfold TracingSystemGuard_new, init_telemetry, init_event_dispatch. rewrite Ed.
  destruct (deref _ _) as [md| | | |]; cbn [mbind exec_bind]; try discriminate.
  destruct (log_macro _ _ _ _ _ w1) as [w2| | | |]; cbn [mbind exec_bind]; discriminate.
Qed.

(** ** Properties *)

(** C35. The guard delivers: in a process where nothing was started, with the
    address of a server, buffers of 128 bytes at least and at most one of the two
    crates captured (both make it panic, [capture_conflict]), the builder
    succeeds; whatever valid commands the process runs then, which do not both
    end a thread and mark the streams of all threads full, the drop of the guard
    leaves in the channel of the sink of the server blocks that hold exactly
    the log entries and the metrics that were recorded, and the events of the
    thread of the guard, each one once and in order. *)
Theorem telemetry_guard_delivers su c log_desc init_desc url ts b g c1 c2 :
  fresh g -> install_log_capture b && install_tracing_capture b = false ->
  big_enough (builder_config su b) ->
  exists g1,
    TelemetryGuardBuilder_build into_iter levels_into_iter sinks_into_values STATIC_MAX_LEVEL su c
      log_desc init_desc (Some url) ts b g = Ok g1 /\
    forall cmds, run_ok (g_world g1) cmds -> Z.of_nat (length cmds) < 2 ^ 64 - 1 ->
      NoDup (ts_new_v4 ts :: drawn cmds) -> (existsb is_exit cmds = true -> existsb is_set_full cmds = false) ->
    exists w2 evs g3 ns, run (g_world g1) cmds = Ok (w2, evs) /\
      TelemetryGuard_drop into_iter c1 c2 (ts_thread ts)
        (mkGlobals w2 (g_hooks g1) (g_facade g1) (g_strong g1)) = Ok g3 /\
      sent (w_sink (g_world g3)) = map (message_of into_iter) ns /\
      (exists chunks, concat chunks = logs_of evs /\
         sent_blocks (logs_buffer_size b) (su_process_id su) (su_log_stream_id su) 0 chunks (log_blocks ns)) /\
      (exists chunks, concat chunks = metrics_of evs /\
         sent_blocks (metrics_buffer_size b) (su_process_id su) (su_metrics_stream_id su) 0 chunks
           (metrics_blocks ns)) /\
      (is_Some (w_thread_streams w2 !! ts_thread ts) ->
       exists sid chunks, concat chunks = thread_of (ts_thread ts) evs /\
         sent_blocks (threads_buffer_size b) (su_process_id su) sid 0 chunks (thread_blocks sid ns)).
Proof.
  intros Hf Hcap Hbig.
  destruct (build_ok su c log_desc init_desc url ts b g Hf Hcap Hbig)
    as (g1 & e0 & Hb & Eg & Hinv & S1 & S2 & S3 & S4).
  exists g1. split; [done|]. intros cmds Hok Hl Hnd Hx. apply list.NoDup_cons in Hnd as [Hnew Hnd].
  destruct (Hinv (negb (existsb is_exit cmds))) as (ns & Hw).
  destruct (run_inv _ _ (negb (existsb is_exit cmds)) Hbig cmds (g_world g1) _ _ _ Hw Hok)
    as (w2 & evs & ids & ns' & Hrun & Hw2 & _); [lia|done| |by intros ->| |].
  { intros id Hin Hi. apply list_elem_of_singleton in Hi as ->. by apply Hnew. }
  { destruct (existsb is_exit cmds); [|done]. by rewrite Hx. }
  pose proof (run_length _ _ _ _ Hrun) as Hlen.
  destruct (guard_drop_ok (builder_config su b) _ c1 c2 (ts_thread ts)
    (mkGlobals w2 (g_hooks g1) (g_facade g1) (g_strong g1)) ids _ (e0 ++ evs) Hbig Hw2)
    as (g3 & ns3 & Ed & Hsent & Hlog & Hm & Ht); [rewrite length_app; lia|done|].
  exists w2, evs, g3, ns3. split; [done|]. split; [done|]. split; [exact Hsent|].
  rewrite logs_of_app, S2 in Hlog. rewrite metrics_of_app, S3 in Hm. rewrite S4 in Ht. by split.
Qed.

(** The two crates cannot both be captured: installing the logger of the
    crate log first makes the subscriber of the crate tracing, which installs
    one too, fail, and the builder panics; the default captures tracing. *)
Theorem capture_conflict su c log_desc init_desc url ts b g :
  w_dispatch (g_world g) = None -> g_strong g = 0%nat ->
  install_log_capture b = true -> install_tracing_capture b = true ->
  TelemetryGuardBuilder_build into_iter levels_into_iter sinks_into_values STATIC_MAX_LEVEL su c
    log_desc init_desc url ts b g = Panic.
Proof.
  intros Hd Hg Hlog Htracing. unfold TelemetryGuardBuilder_build, build_system. rewrite Hg. cbn [Nat.ltb Nat.leb].
  set (l := build_sinks _ _ _). set (targets := target_max_level_of _).
  destruct (composite_levels l targets (max_level_override b) (w_max_levels (g_world g))) as (m & Hm).
  destruct (CompositeSink_new l targets (max_level_override b) (w_max_levels (g_world g))) as [sink levels].
  rewrite Hlog, Htracing. unfold install_log_interop, install_tracing_interop.
  cbn [snd set_max_levels w_max_levels] in Hm |- *. rewrite Hm. cbn [mbind exec_bind].
  set (level := mm_tracing_level_filter_to_log_level_filter _).
  destruct (logger_set (set_log_max_level level (g_facade g))) as (_ & L2 & _).
  destruct (set_logger (set_log_max_level level (g_facade g))) as [set f]. cbn [snd] in L2.
  assert (forall f', has_logger f' = true -> forall layer, init_subscriber layer f' = None) as Hi.
  { intros f' Hf' layer. pose proof (subscriber_init layer f') as Hs.
    destruct (init_subscriber layer f') as [f2|]; [|done]. rewrite Hf' in Hs. by destruct Hs. }
  destruct set.
  - cbn [mbind exec_bind set_max_levels w_max_levels]. rewrite Hm. cbn [mbind exec_bind]. by rewrite Hi.
  - rewrite (log_macro_none _ _ _ _ _ _ m) by done. cbn [mbind exec_bind set_max_levels w_max_levels]. rewrite Hm.
    cbn [mbind exec_bind]. rewrite Hi; [done|]. by destruct (max_level_set LogCrate.Off f) as (_ & -> & _).
Qed.

(** A process has one system: once its last guard was dropped the weak
    pointer is empty, and every builder tries to start the dispatcher again,
    which is there already: none succeeds. *)
Theorem no_second_system c1 c2 t g g' :
  is_Some (w_dispatch (g_world g)) -> g_strong g = 1%nat ->
  TelemetryGuard_drop into_iter c1 c2 t g = Ok g' ->
  g_strong g' = 0%nat /\
  forall su c log_desc init_desc url ts b g'',
    TelemetryGuardBuilder_build into_iter levels_into_iter sinks_into_values STATIC_MAX_LEVEL su c
      log_desc init_desc url ts b g' <> Ok g''.
Proof.
  intros Hd Hg. unfold TelemetryGuard_drop, TracingThreadGuard_drop.
  destruct (flush_thread_buffer c1 t (g_world g)) as [w1| | | |] eqn:E1; cbn [mbind exec_bind]; try discriminate.
  apply flush_thread_same in E1 as (_ & Hd1 & _). apply Hd1 in Hd. rewrite Hg. cbn [Nat.eqb].
  unfold TracingSystemGuard_drop, shutdown_telemetry.
  destruct (flush_log_buffer c2 w1) as [w2| | | |] eqn:E2; cbn [mbind exec_bind]; try discriminate.
  apply flush_log_streams in E2 as (_ & Hd2).
  destruct (flush_metrics_buffer c2 w2) as [w3| | | |] eqn:E3; cbn [mbind exec_bind]; try discriminate.
  apply flush_metrics_streams in E3 as (_ & Hd3). intros Eg.
  apply (f_equal (fun r => match r with Ok x => x | _ => g end)) in Eg. subst g'.
  split; [done|]. intros su c log_desc init_desc url ts b g''.
  destruct Hd as [d1 Hd]. destruct (Hd2 d1 Hd) as (d2 & Hd' & _). destruct (Hd3 d2 Hd') as (d3 & Hd'' & _).
  unfold TelemetryGuardBuilder_build. cbn [g_strong Nat.pred Nat.ltb Nat.leb].
  set (g' := mkGlobals (shutdown_dispatch w3) _ _ _).
  assert (is_Some (w_dispatch (g_world g'))) as Hs by (cbn; unfold shutdown_dispatch; rewrite Hd''; by eexists).
  destruct (build_system _ _ _ _ _ _ _ _ _ _ g') as [g2| | | |] eqn:Eb; cbn [mbind exec_bind]; try discriminate.
  exfalso. by apply (started_fails su c log_desc init_desc url b g' g2 Hs).
Qed.
End build.

(** *** A concrete process, with the default builder *)
Module BuilderExample.
Export InteropExample.
#[export] Instance terminal : Terminal := CompositeExample.terminal.
#[export] Hint Extern 0 (EventSink (BoxedEventSink _)) =>
  exact (Boxed_EventSink map_to_list) : typeclass_instances.
#[export] Hint Extern 0 (LawfulSink (CompositeSink (BoxedEventSink NullEventSink)) _) =>
  exact (@composite_lawful _ _ _ (boxed_lawful map_to_list) O) : typeclass_instances.
Definition w_none : World (CompositeSink (BoxedEventSink NullEventSink)) :=
  mkWorld None ∅ 0 st ∅ None initial_max_filters (mkCompositeSink [] []).
Definition g0 : Globals crates (CompositeSink (BoxedEventSink NullEventSink)) :=
  mkGlobals w_none (mkPanicHooks DefaultHook None) no_crates 0.
Definition ts : ThreadStart := mkThreadStart 10 (mkDualTime 12 100) 1 "1" (Some "main").
Definition builder : TelemetryGuardBuilder NullEventSink := TelemetryGuardBuilder_default.
Definition build_default := TelemetryGuardBuilder_build (E := NullEventSink) (F := crates) map_to_list map_to_list (fun m => (map_to_list m).*2)
  LevelFilter.Trace su (c 0) 500 500 (Some "http://localhost") ts.
Definition drop_guard := TelemetryGuard_drop (F := crates) (E := NullEventSink) map_to_list (c 40) (c 41) 1.
Definition g1 : Globals crates (CompositeSink (BoxedEventSink NullEventSink)) :=
  match build_default builder g0 with Ok g => g | _ => g0 end.
Definition some_cmds : list command :=
  [Log (c 20) 500 (mkArguments None "hello"); BeginScope (c 24) 1 700].
Lemma some_cmds_ok : run_ok (g_world g1) some_cmds.
Proof. unfold some_cmds. do 2 run_command. exact I. Qed.
End BuilderExample.
Import BuilderExample.

Lemma telemetry_guard_delivers_witness :
  exists w2 evs g3 ns, run (g_world g1) some_cmds = Ok (w2, evs) /\
    BuilderExample.drop_guard (mkGlobals w2 (g_hooks g1) (g_facade g1) (g_strong g1)) = Ok g3 /\
    sent_of (H0 := boxed_lawful map_to_list) O (w_sink (g_world g3)) = map (message_of map_to_list) ns /\
    exists chunks, concat chunks = logs_of evs /\
      sent_blocks (10 * 1024 * 1024) 7 8 0 chunks (log_blocks ns).
Proof.
  destruct (telemetry_guard_delivers map_to_list map_to_list (fun m => (map_to_list m).*2) LevelFilter.Trace
    su (c 0) 500 500 "http://localhost" ts builder g0 (c 40) (c 41)) as (g & E & Hg);
    [by split_and!|reflexivity|split_and!; vm_compute; congruence|].
  assert (g = g1) as -> by (unfold g1, build_default; by rewrite E).
  destruct (Hg some_cmds some_cmds_ok) as (w2 & evs & g3 & ns & E1 & E2 & E3 & Hlog & _);
    [reflexivity|apply NoDup_singleton|discriminate|].
  exists w2, evs, g3, ns. split; [exact E1|]. split; [exact E2|]. split; [exact E3|exact Hlog].
Defined.

Lemma capture_conflict_witness :
  build_default (with_install_log_capture true builder) g0 = Panic.
Proof. by apply (capture_conflict (F := crates)). Defined.

Lemma no_second_system_witness :
  exists g', BuilderExample.drop_guard g1 = Ok g' /\ forall g'', build_default builder g' <> Ok g''.
Proof.
  assert (exists g', BuilderExample.drop_guard g1 = Ok g') as (g' & E) by (eexists; vm_compute; reflexivity).
  exists g'. split; [exact E|].
  destruct (no_second_system (F := crates) map_to_list map_to_list (fun m => (map_to_list m).*2) LevelFilter.Trace
    (c 40) (c 41) 1 g1 g') as [_ H]; [by eexists|reflexivity|exact E|].
  intros g''. apply H.
Defined.
