(* ===== verification/Arrow.v ===== *)
(** * Arrow builders

    What the tables of the analytics rely on in the [arrow] crate: builders of
    columns, and a record batch that is made of a schema and columns that fit
    it.  The class [Arrow] holds the functions of the crate that can fail, and
    [LawfulArrow] their documented behaviour. *)

From S2P Require Import Prelude Float.

Inductive DataType :=
| Int8 | Int16 | Int32 | Int64 | UInt32 | Float64 | Utf8
| TimestampNanosecond (timezone : option string)
| Dictionary (key value : DataType)
| ListOf (name : string) (item : DataType) (nullable : bool)
| StructOf (fields : list (string * DataType * bool)).

Record Field := Field_new { fd_name : string; fd_type : DataType; fd_nullable : bool }.

Inductive cell :=
| CNull
| CInt (z : Z) | CFloat (x : f64) | CStr (s : string)
| CList (l : list cell) | CStruct (l : list cell).
Record Array := mkArray { a_type : DataType; a_values : list cell }.
Record RecordBatch := mkRecordBatch { rb_schema : list Field; rb_columns : list Array }.

(** A builder is what was appended; appending a value to a [PrimitiveBuilder]
    or to a [StringBuilder] does not fail. *)
Abbreviation PrimitiveBuilder := (list Z).
Abbreviation Float64Builder := (list f64).
Abbreviation StringBuilder := (list string).
Abbreviation StringDictionaryBuilder := (list string).
Definition append_value {A} (b : list A) (v : A) : list A := b ++ [v].

Definition finish_primitive (t : DataType) (b : PrimitiveBuilder) : Array := mkArray t (map CInt b).
Definition finish_f64 (b : Float64Builder) : Array := mkArray Float64 (map CFloat b).
Definition finish_string (b : StringBuilder) : Array := mkArray Utf8 (map CStr b).
Definition finish_dictionary (key : DataType) (b : StringDictionaryBuilder) : Array :=
  mkArray (Dictionary key Utf8) (map CStr b).
(** [finish().with_timezone_utc()] *)
Definition finish_timestamp (b : PrimitiveBuilder) : Array :=
  mkArray (TimestampNanosecond (Some "+00:00")) (map CInt b).

Class Arrow := {
  (** appending to a dictionary panics when its keys are exhausted *)
  dict_append : DataType -> StringDictionaryBuilder -> string -> exec StringDictionaryBuilder;
  RecordBatch_try_new : list Field -> list Array -> exec RecordBatch
}.

(** The number of keys of a type *)
Definition nb_keys (key : DataType) : Z :=
  match key with Int8 => 2 ^ 7 | Int16 => 2 ^ 15 | _ => 0 end.
Definition fits (key : DataType) (l : list string) : Prop :=
  Z.of_nat (size (list_to_set l : gset string)) <= nb_keys key.
#[export] Instance fits_dec key l : Decision (fits key l) := Z_le_dec _ _.

(** The columns of a batch: as many as fields, of their types and of one length *)
Definition batch_ok (schema : list Field) (columns : list Array) (n : nat) : Prop :=
  map fd_type schema = map a_type columns /\ columns <> [] /\
  Forall (fun c => length (a_values c) = n) columns.

Class LawfulArrow `{Arrow} := {
  dict_append_fits key b v :
    fits key (b ++ [v]) -> dict_append key b v = Ok (append_value b v);
  RecordBatch_try_new_ok schema columns n :
    batch_ok schema columns n -> RecordBatch_try_new schema columns = Ok (mkRecordBatch schema columns)
}.

Lemma fits_prefix key l1 l2 : fits key (l1 ++ l2) -> fits key l1.
Proof.
  unfold fits. intros H. etransitivity; [|exact H]. apply Nat2Z.inj_le, subseteq_size. rewrite list_to_set_app_L.
  set_solver.
Qed.

(** *** An implementation, for examples *)
#[global] Instance DataType_eq_dec : EqDecision DataType.
Proof.
  unfold EqDecision. fix go 1. intros x y. pose (Hgo := go : EqDecision DataType).
  destruct x, y; try (left; reflexivity); try (right; discriminate).
  - refine (cast_if (decide (timezone = timezone0))); congruence.
  - refine (cast_if_and (decide (x1 = y1)) (decide (x2 = y2))); congruence.
  - refine (cast_if_and3 (decide (name = name0)) (decide (x = y)) (decide (nullable = nullable0))); congruence.
  - refine (cast_if (decide (fields = fields0))); congruence.
Defined.

Definition simple_arrow : Arrow := {|
  dict_append key b v :=
    if decide (fits key (b ++ [v])) then Ok (append_value b v) else Panic;
  RecordBatch_try_new schema columns :=
    if decide (map fd_type schema = map a_type columns) then Ok (mkRecordBatch schema columns)
    else bail "column types must match schema types"
|}.

Lemma simple_arrow_lawful : @LawfulArrow simple_arrow.
Proof.
  split.
  - intros key b v H. cbn. by rewrite decide_True.
  - intros schema columns n (H & _). cbn. by rewrite decide_True.
Qed.
