(* ===== verification/Tables.v ===== *)
(** * The tables of the analytics

    [analytics/src/log_entries_table.rs], [metrics_table.rs],
    [thread_events_table.rs] and [span_table.rs]: builders of record batches,
    row by row. *)

From S2P Require Import Prelude Float RustString Transit Queue Pod Parser PodParser Blocks.
From S2P Require Import Levels Deps LogEvents LogBlock Time Stream Wire LogEntry MetricsBlock.
From S2P Require Import Measure SpanEvents ThreadBlock ThreadBlockProcessor CallTree Arrow.

(** ** Fields *)
Definition timestamp_field (name : string) : Field :=
  Field_new name (TimestampNanosecond (Some "+00:00")) false.
Definition dictionary_field (name : string) (key : DataType) : Field :=
  Field_new name (Dictionary key Utf8) false.

(** ** Log entries *)
Record LogEntriesRecordBuilder := mkLogEntriesRecordBuilder {
  leb_times : PrimitiveBuilder;
  leb_targets : StringDictionaryBuilder;
  leb_levels : PrimitiveBuilder;
  leb_msgs : StringBuilder
}.
Definition log_entries_with_capacity (capacity : Z) : LogEntriesRecordBuilder :=
  mkLogEntriesRecordBuilder [] [] [] [].
Definition log_entries_len (b : LogEntriesRecordBuilder) : Z := Z.of_nat (length (leb_times b)).
Definition log_entries_is_empty (b : LogEntriesRecordBuilder) : bool :=
  Nat.eqb (length (leb_times b)) 0.
Definition append_log_entry `{Arrow} (b : LogEntriesRecordBuilder) (row : LogEntry)
  : exec LogEntriesRecordBuilder :=
  targets ← dict_append Int16 (leb_targets b) (le_target row);
  Ok (mkLogEntriesRecordBuilder (append_value (leb_times b) (le_time row)) targets
        (append_value (leb_levels b) (le_level row)) (append_value (leb_msgs b) (le_msg row))).
Definition log_entries_schema : list Field :=
  [timestamp_field "time"; dictionary_field "target" Int16; Field_new "level" Int32 false;
   Field_new "msg" Utf8 false].
Definition finish_log_entries `{Arrow} (b : LogEntriesRecordBuilder) : exec RecordBatch :=
  with_context "building record batch"
    (RecordBatch_try_new log_entries_schema
       [finish_timestamp (leb_times b); finish_dictionary Int16 (leb_targets b);
        finish_primitive Int32 (leb_levels b); finish_string (leb_msgs b)]).

(** ** Measures *)
Record MetricsRecordBuilder := mkMetricsRecordBuilder {
  mrb_times : PrimitiveBuilder;
  mrb_targets : StringDictionaryBuilder;
  mrb_names : StringDictionaryBuilder;
  mrb_units : StringDictionaryBuilder;
  mrb_values : Float64Builder
}.
Definition metrics_with_capacity (capacity : Z) : MetricsRecordBuilder :=
  mkMetricsRecordBuilder [] [] [] [] [].
Definition append_measure `{Arrow} (b : MetricsRecordBuilder) (row : Measure)
  : exec MetricsRecordBuilder :=
  targets ← dict_append Int16 (mrb_targets b) (me_target row);
  names ← dict_append Int16 (mrb_names b) (me_name row);
  units ← dict_append Int16 (mrb_units b) (me_unit row);
  Ok (mkMetricsRecordBuilder (append_value (mrb_times b) (me_time row)) targets names units
        (append_value (mrb_values b) (me_value row))).
Definition metrics_schema : list Field :=
  [timestamp_field "time"; dictionary_field "target" Int16; dictionary_field "name" Int16;
   dictionary_field "unit" Int16; Field_new "value" Float64 false].
Definition finish_metrics `{Arrow} (b : MetricsRecordBuilder) : exec RecordBatch :=
  with_context "building record batch"
    (RecordBatch_try_new metrics_schema
       [finish_timestamp (mrb_times b); finish_dictionary Int16 (mrb_targets b);
        finish_dictionary Int16 (mrb_names b); finish_dictionary Int16 (mrb_units b);
        finish_f64 (mrb_values b)]).

(** ** Events of a thread *)
Record ThreadEventsRecordBuilder := mkThreadEventsRecordBuilder {
  teb_begin_query_ns : Z;
  teb_end_query_ns : Z;
  teb_limit : Z;
  teb_nb_rows : Z;
  teb_convert_ticks : ConvertTicks;
  teb_ids : PrimitiveBuilder;
  teb_event_types : StringDictionaryBuilder;
  teb_timestamps : PrimitiveBuilder;
  teb_hashes : PrimitiveBuilder;
  teb_names : StringDictionaryBuilder;
  teb_targets : StringDictionaryBuilder;
  teb_filenames : StringDictionaryBuilder;
  teb_lines : PrimitiveBuilder;
  teb_block_ids : StringDictionaryBuilder
}.
Definition thread_events_new (begin_query_ns end_query_ns limit : Z) (convert_ticks : ConvertTicks)
    (capacity : Z) : ThreadEventsRecordBuilder :=
  mkThreadEventsRecordBuilder begin_query_ns end_query_ns limit 0 convert_ticks
    [] [] [] [] [] [] [] [] [].
Definition thread_events_schema : list Field :=
  [Field_new "id" Int64 false; dictionary_field "event_type" Int8; timestamp_field "timestamp";
   Field_new "hash" UInt32 false; dictionary_field "name" Int16; dictionary_field "target" Int16;
   dictionary_field "filename" Int16; Field_new "line" UInt32 false;
   dictionary_field "block_id" Int16].
Definition finish_thread_events `{Arrow} (b : ThreadEventsRecordBuilder) : exec RecordBatch :=
  with_context "building record batch"
    (RecordBatch_try_new thread_events_schema
       [finish_primitive Int64 (teb_ids b); finish_dictionary Int8 (teb_event_types b);
        finish_timestamp (teb_timestamps b); finish_primitive UInt32 (teb_hashes b);
        finish_dictionary Int16 (teb_names b); finish_dictionary Int16 (teb_targets b);
        finish_dictionary Int16 (teb_filenames b); finish_primitive UInt32 (teb_lines b);
        finish_dictionary Int16 (teb_block_ids b)]).

Definition process_event `{Arrow} (b : ThreadEventsRecordBuilder) (block_id : string)
    (event_id : Z) (event_type : string) (scope : ScopeDesc) (ts : Z)
  : exec (ThreadEventsRecordBuilder * bool) :=
  if teb_limit b <=? teb_nb_rows b then Ok (b, false) else
  time ← ticks_to_nanoseconds (teb_convert_ticks b) ts;
  if time <? teb_begin_query_ns b then Ok (b, true) else
  if teb_end_query_ns b <? time then Ok (b, false) else
  nb_rows ← i64_checked (teb_nb_rows b + 1);
  event_types ← dict_append Int8 (teb_event_types b) event_type;
  names ← dict_append Int16 (teb_names b) (sd_name scope);
  targets ← dict_append Int16 (teb_targets b) (sd_target scope);
  filenames ← dict_append Int16 (teb_filenames b) (sd_filename scope);
  block_ids ← dict_append Int16 (teb_block_ids b) block_id;
  Ok (mkThreadEventsRecordBuilder (teb_begin_query_ns b) (teb_end_query_ns b) (teb_limit b) nb_rows
        (teb_convert_ticks b) (append_value (teb_ids b) event_id) event_types
        (append_value (teb_timestamps b) time) (append_value (teb_hashes b) (sd_hash scope))
        names targets filenames (append_value (teb_lines b) (sd_line scope)) block_ids,
      nb_rows <? teb_limit b).

#[export] Instance ThreadEventsRecordBuilder_ThreadBlockProcessor `{Arrow}
  : ThreadBlockProcessor ThreadEventsRecordBuilder :=
  {| on_begin_thread_scope b block_id event_id scope ts :=
       process_event b block_id event_id "begin" scope ts;
     on_end_thread_scope b block_id event_id scope ts :=
       process_event b block_id event_id "end" scope ts |}.

(** ** Spans *)
Record SpanRow := mkSpanRow {
  row_id : Z;
  row_parent : Z;
  row_depth : Z;
  row_begin : Z;
  row_end : Z;
  row_hash : Z;
  row_name : string;
  row_target : string;
  row_filename : string;
  row_line : Z
}.
Record SpanRecordBuilder := mkSpanRecordBuilder {
  srb_ids : PrimitiveBuilder;
  srb_parents : PrimitiveBuilder;
  srb_depths : PrimitiveBuilder;
  srb_hashes : PrimitiveBuilder;
  srb_begins : PrimitiveBuilder;
  srb_ends : PrimitiveBuilder;
  srb_durations : PrimitiveBuilder;
  srb_names : StringDictionaryBuilder;
  srb_targets : StringDictionaryBuilder;
  srb_filenames : StringDictionaryBuilder;
  srb_lines : PrimitiveBuilder
}.
Definition spans_with_capacity (capacity : Z) : SpanRecordBuilder :=
  mkSpanRecordBuilder [] [] [] [] [] [] [] [] [] [] [].
Definition spans_len (b : SpanRecordBuilder) : Z := Z.of_nat (length (srb_ids b)).
Definition spans_is_empty (b : SpanRecordBuilder) : bool := Nat.eqb (length (srb_ids b)) 0.

Definition append_span `{Arrow} (b : SpanRecordBuilder) (row : SpanRow) : exec SpanRecordBuilder :=
  duration ← i64_checked (row_end row - row_begin row);
  names ← dict_append Int16 (srb_names b) (row_name row);
  targets ← dict_append Int16 (srb_targets b) (row_target row);
  filenames ← dict_append Int16 (srb_filenames b) (row_filename row);
  Ok (mkSpanRecordBuilder (append_value (srb_ids b) (row_id row))
        (append_value (srb_parents b) (row_parent row)) (append_value (srb_depths b) (row_depth row))
        (append_value (srb_hashes b) (row_hash row)) (append_value (srb_begins b) (row_begin row))
        (append_value (srb_ends b) (row_end row)) (append_value (srb_durations b) duration)
        names targets filenames (append_value (srb_lines b) (row_line row))).

(** [for_each_node_in_tree], for a function over a state *)
Fixpoint for_each_node_in_tree {S} (process_node : S -> CallTreeNode -> Z -> Z -> exec S)
    (node : CallTreeNode) (parent depth : Z) (s : S) : exec S :=
  match node with
  | mkCallTreeNode id _ _ _ children =>
      s ← process_node s node parent depth;
      let span_id := default (-1) id in
      (fix loop (children : list CallTreeNode) (s : S) : exec S :=
         match children with
         | [] => Ok s
         | child :: children =>
             depth' ← u32_add depth 1;
             s ← for_each_node_in_tree process_node child span_id depth' s;
             loop children s
         end) children s
  end.

(** The closure of [append_call_tree] *)
Definition append_node `{Arrow} (tree : CallTree) (b : SpanRecordBuilder) (node : CallTreeNode)
    (parent depth : Z) : exec SpanRecordBuilder :=
  match ct_scopes tree !! ctn_hash node with
  | None => bail "fetching scope_desc from hash"
  | Some scope_desc =>
      append_span b (mkSpanRow (default (-1) (ctn_id node)) parent depth (ctn_begin node)
        (ctn_end node) (ctn_hash node) (sd_name scope_desc) (sd_target scope_desc)
        (sd_filename scope_desc) (sd_line scope_desc))
  end.

Definition append_call_tree_to `{Arrow} (b : SpanRecordBuilder) (tree : CallTree)
  : exec SpanRecordBuilder :=
  match call_tree_root tree with
  | Some root => for_each_node_in_tree (append_node tree) root 0 0 b
  | None => Ok b
  end.

Definition spans_schema : list Field :=
  [Field_new "id" Int64 false; Field_new "parent" Int64 false; Field_new "depth" UInt32 false;
   Field_new "hash" UInt32 false; timestamp_field "begin"; timestamp_field "end";
   Field_new "duration" Int64 false; dictionary_field "name" Int16;
   dictionary_field "target" Int16; dictionary_field "filename" Int16;
   Field_new "line" UInt32 false].
Definition finish_spans `{Arrow} (b : SpanRecordBuilder) : exec RecordBatch :=
  with_context "building record batch"
    (RecordBatch_try_new spans_schema
       [finish_primitive Int64 (srb_ids b); finish_primitive Int64 (srb_parents b);
        finish_primitive UInt32 (srb_depths b); finish_primitive UInt32 (srb_hashes b);
        finish_timestamp (srb_begins b); finish_timestamp (srb_ends b);
        finish_primitive Int64 (srb_durations b); finish_dictionary Int16 (srb_names b);
        finish_dictionary Int16 (srb_targets b); finish_dictionary Int16 (srb_filenames b);
        finish_primitive UInt32 (srb_lines b)]).

(** ** What the builders hold

    A builder that was given rows holds their columns, as long as the
    dictionaries have keys left. *)
Definition log_entries_of (l : list LogEntry) : LogEntriesRecordBuilder :=
  mkLogEntriesRecordBuilder (map le_time l) (map le_target l) (map le_level l) (map le_msg l).
Definition measures_of (l : list Measure) : MetricsRecordBuilder :=
  mkMetricsRecordBuilder (map me_time l) (map me_target l) (map me_name l) (map me_unit l)
    (map me_value l).
Definition spans_of (l : list SpanRow) : SpanRecordBuilder :=
  mkSpanRecordBuilder (map row_id l) (map row_parent l) (map row_depth l) (map row_hash l)
    (map row_begin l) (map row_end l) (map (fun r => row_end r - row_begin r) l)
    (map row_name l) (map row_target l) (map row_filename l) (map row_line l).

Definition log_entries_fit (l : list LogEntry) : Prop := fits Int16 (map le_target l).
Definition measures_fit (l : list Measure) : Prop :=
  fits Int16 (map me_target l) /\ fits Int16 (map me_name l) /\ fits Int16 (map me_unit l).
Definition spans_fit (l : list SpanRow) : Prop :=
  fits Int16 (map row_name l) /\ fits Int16 (map row_target l) /\ fits Int16 (map row_filename l).

(** The batches *)
Definition log_entries_batch (l : list LogEntry) : RecordBatch :=
  mkRecordBatch log_entries_schema
    [mkArray (TimestampNanosecond (Some "+00:00")) (map (fun e => CInt (le_time e)) l);
     mkArray (Dictionary Int16 Utf8) (map (fun e => CStr (le_target e)) l);
     mkArray Int32 (map (fun e => CInt (le_level e)) l);
     mkArray Utf8 (map (fun e => CStr (le_msg e)) l)].
Definition measures_batch (l : list Measure) : RecordBatch :=
  mkRecordBatch metrics_schema
    [mkArray (TimestampNanosecond (Some "+00:00")) (map (fun e => CInt (me_time e)) l);
     mkArray (Dictionary Int16 Utf8) (map (fun e => CStr (me_target e)) l);
     mkArray (Dictionary Int16 Utf8) (map (fun e => CStr (me_name e)) l);
     mkArray (Dictionary Int16 Utf8) (map (fun e => CStr (me_unit e)) l);
     mkArray Float64 (map (fun e => CFloat (me_value e)) l)].
Definition spans_batch (l : list SpanRow) : RecordBatch :=
  mkRecordBatch spans_schema
    [mkArray Int64 (map (fun r => CInt (row_id r)) l);
     mkArray Int64 (map (fun r => CInt (row_parent r)) l);
     mkArray UInt32 (map (fun r => CInt (row_depth r)) l);
     mkArray UInt32 (map (fun r => CInt (row_hash r)) l);
     mkArray (TimestampNanosecond (Some "+00:00")) (map (fun r => CInt (row_begin r)) l);
     mkArray (TimestampNanosecond (Some "+00:00")) (map (fun r => CInt (row_end r)) l);
     mkArray Int64 (map (fun r => CInt (row_end r - row_begin r)) l);
     mkArray (Dictionary Int16 Utf8) (map (fun r => CStr (row_name r)) l);
     mkArray (Dictionary Int16 Utf8) (map (fun r => CStr (row_target r)) l);
     mkArray (Dictionary Int16 Utf8) (map (fun r => CStr (row_filename r)) l);
     mkArray UInt32 (map (fun r => CInt (row_line r)) l)].

(** The rows of a tree: its nodes from the root, each with the identifier of
    its parent and its depth *)
Definition node_row (sc : ScopeHashMap) (node : CallTreeNode) (parent depth : Z) : SpanRow :=
  let scope := default (mkScopeDesc EmptyString EmptyString EmptyString 0 0) (sc !! ctn_hash node) in
  mkSpanRow (default (-1) (ctn_id node)) parent depth (ctn_begin node) (ctn_end node)
    (ctn_hash node) (sd_name scope) (sd_target scope) (sd_filename scope) (sd_line scope).
Fixpoint node_rows (sc : ScopeHashMap) (parent depth : Z) (node : CallTreeNode) : list SpanRow :=
  match node with
  | mkCallTreeNode id _ _ _ children =>
      node_row sc node parent depth ::
      concat (map (node_rows sc (default (-1) id) (depth + 1)) children)
  end.
Definition tree_rows (t : CallTree) : list SpanRow :=
  match call_tree_root t with Some root => node_rows (ct_scopes t) 0 0 root | None => [] end.

Section tables.
Context `{HA : LawfulArrow}.

Lemma append_log_entry_ok l e :
  log_entries_fit (l ++ [e]) -> append_log_entry (log_entries_of l) e = Ok (log_entries_of (l ++ [e])).
Proof.
  unfold log_entries_fit, append_log_entry, log_entries_of. rewrite !map_app. cbn [map].
  intros Hf. cbn [leb_targets leb_times leb_levels leb_msgs]. by rewrite dict_append_fits.
Qed.

Lemma append_measure_ok l e :
  measures_fit (l ++ [e]) -> append_measure (measures_of l) e = Ok (measures_of (l ++ [e])).
Proof.
  unfold measures_fit, append_measure, measures_of. rewrite !map_app. cbn [map].
  intros (H1 & H2 & H3). cbn [mrb_targets mrb_times mrb_names mrb_units mrb_values].
  by rewrite !dict_append_fits.
Qed.

Lemma append_span_ok l r :
  spans_fit (l ++ [r]) -> in_i 64 (row_end r - row_begin r) ->
  append_span (spans_of l) r = Ok (spans_of (l ++ [r])).
Proof.
  unfold spans_fit, append_span, spans_of. rewrite !map_app. cbn [map].
  intros (H1 & H2 & H3) Hd. rewrite (proj2 (i64_checked_Ok _ _) (conj eq_refl Hd)).
  cbn - [append_value]. by rewrite !dict_append_fits.
Qed.

Lemma finish_log_entries_ok l : finish_log_entries (log_entries_of l) = Ok (log_entries_batch l).
Proof.
  unfold finish_log_entries. rewrite (RecordBatch_try_new_ok _ _ (length l)).
  - unfold finish_timestamp, finish_dictionary, finish_primitive, finish_string, log_entries_of.
    cbn [leb_times leb_targets leb_levels leb_msgs]. by rewrite !map_map.
  - split; [done|]. split; [done|]. repeat constructor; cbn; by rewrite !length_map.
Qed.

Lemma finish_measures_ok l : finish_metrics (measures_of l) = Ok (measures_batch l).
Proof.
  unfold finish_metrics. rewrite (RecordBatch_try_new_ok _ _ (length l)).
  - unfold finish_timestamp, finish_dictionary, finish_f64, measures_of.
    cbn [mrb_times mrb_targets mrb_names mrb_units mrb_values]. by rewrite !map_map.
  - split; [done|]. split; [done|]. repeat constructor; cbn; by rewrite !length_map.
Qed.

Lemma finish_spans_ok l : finish_spans (spans_of l) = Ok (spans_batch l).
Proof.
  unfold finish_spans. rewrite (RecordBatch_try_new_ok _ _ (length l)).
  - unfold finish_timestamp, finish_dictionary, finish_primitive, spans_of. cbn [srb_ids srb_parents
      srb_depths srb_hashes srb_begins srb_ends srb_durations srb_names srb_targets srb_filenames
      srb_lines]. by rewrite !map_map.
  - split; [done|]. split; [done|]. repeat constructor; cbn; by rewrite !length_map.
Qed.

Lemma spans_fit_prefix l1 l2 : spans_fit (l1 ++ l2) -> spans_fit l1.
Proof. unfold spans_fit. rewrite !map_app. intros (H1 & H2 & H3). split_and!; by eapply fits_prefix. Qed.
End tables.

(** Induction on a tree, with the hypothesis for every child *)
Lemma node_induction (P : CallTreeNode -> Prop) :
  (forall id h b e c, Forall P c -> P (mkCallTreeNode id h b e c)) -> forall n, P n.
Proof.
  intros H. fix IH 1. intros [id h b e c]. apply H.
  induction c as [|x c IHc]; constructor; [apply IH|exact IHc].
Qed.

Section rows.
Context `{HA : LawfulArrow} (tree : CallTree) (begin_ns end_ns : Z).
Context (Hrange : end_ns - begin_ns < 2 ^ 63).
Abbreviation sc := (ct_scopes tree).

Lemma append_node_ok l node parent depth :
  node_ok sc begin_ns end_ns node -> spans_fit (l ++ [node_row sc node parent depth]) ->
  append_node tree (spans_of l) node parent depth =
  Ok (spans_of (l ++ [node_row sc node parent depth])).
Proof.
  intros ([s Hs] & Hb & He) Hf. unfold append_node. rewrite Hs.
  rewrite <- append_span_ok; [|done|unfold node_row, in_i; cbn; lia].
  unfold node_row. by rewrite Hs.
Qed.

Lemma for_each_node_rows node l parent depth :
  Forall (node_ok sc begin_ns end_ns) (node_list node) ->
  0 <= depth -> depth + Z.of_nat (length (node_list node)) <= 2 ^ 32 ->
  spans_fit (l ++ node_rows sc parent depth node) ->
  for_each_node_in_tree (append_node tree) node parent depth (spans_of l) =
  Ok (spans_of (l ++ node_rows sc parent depth node)).
Proof.
  revert l parent depth.
  induction node as [id h b e c IHc] using node_induction; intros l parent depth Hok H0 Hd Hf.
  apply all_node in Hok as [Hn Hc]. cbn [for_each_node_in_tree node_rows].
  cbn [node_rows] in Hf.
  set (row := node_row sc (mkCallTreeNode id h b e c) parent depth) in *.
  change (row :: ?x) with ([row] ++ x) in *. rewrite app_assoc in *.
  rewrite append_node_ok by (first [done | by eapply spans_fit_prefix]).
  cbn [mbind exec_bind]. fold row.
  assert (depth + Z.of_nat (length (concat (map node_list c))) < 2 ^ 32) as Hd'
    by (cbn [node_list length] in Hd; lia).
  clear Hn Hd. set (l1 := l ++ [row]) in *. clearbody l1 row.
  revert l1 Hf. induction c as [|x c IH]; intros l1 Hf; cbn [map concat] in *.
  { by rewrite app_nil_r. }
  apply list.Forall_cons in IHc as [IHx IHc]. apply list.Forall_cons in Hc as [Hx Hc].
  rewrite length_app in Hd'.
  assert (u32_add depth 1 = Ok (depth + 1)) as E.
  { unfold u32_add. rewrite (proj2 (Z.ltb_lt _ _)); [done|].
    destruct x; cbn [node_list length] in Hd'; lia. }
  rewrite E at 1. cbn [mbind exec_bind]. rewrite app_assoc in *.
  rewrite IHx; [|done|lia|lia|by eapply spans_fit_prefix]. cbn [mbind exec_bind].
  apply IH; [done|done|lia|done].
Qed.

Lemma append_call_tree_rows l :
  Forall (node_ok sc begin_ns end_ns) (tree_nodes tree) ->
  Z.of_nat (length (tree_nodes tree)) <= 2 ^ 32 -> spans_fit (l ++ tree_rows tree) ->
  append_call_tree_to (spans_of l) tree = Ok (spans_of (l ++ tree_rows tree)).
Proof.
  unfold tree_nodes, append_call_tree_to, tree_rows. intros Hok Hd Hf.
  destruct (call_tree_root tree) as [root|]; [|by rewrite app_nil_r].
  by apply for_each_node_rows.
Qed.
End rows.
