(* ===== verification/Sql.v ===== *)
(** * The SQL of the lake

    The statements of the source are kept as data: what a [CREATE TABLE], a
    positional [INSERT INTO t VALUES ($1, ..., $n)] and a
    [SELECT columns FROM t WHERE ... ORDER BY ...] do to tables of typed rows.
    Two things are left to the database: in which order it returns rows that
    no clause orders ([SqlOrder]), and that a [TIMESTAMPTZ] keeps less than
    the nanoseconds of a time ([Timestamptz]). *)

From Stdlib Require Import Sorting.Sorted.
From S2P Require Import Prelude RustString Time.

(** ** Types and values *)
Inductive sql_type :=
| UUID | TEXT | VARCHAR (n : Z) | BIGINT | INT | TIMESTAMPTZ | BYTEA | TEXT_ARRAY | PROPERTY_ARRAY.

(** A row of [micromegas_property] *)
Record Property := mkProperty { pr_key : string; pr_value : string }.

Inductive sql_value :=
| VNull
| VUuid (u : Uuid)
| VText (s : string)
| VBigint (z : Z)
| VInt (z : Z)
| VTimestamp (t : DateTime)
| VBytes (b : buffer)
| VTextArray (l : list string)
| VProperties (l : list Property).

(** The number of characters of a string: the bytes that do not continue one *)
Definition char_length (s : string) : Z :=
  Z.of_nat (length (List.filter (fun b => negb ((128 <=? byte.unsigned b) && (byte.unsigned b <? 192)))
    (bytes_of s))).

(** A text of the database has no byte 0: the server refuses a parameter that
    has one. *)
Definition no_nul (s : string) : bool :=
  forallb (fun b => negb (byte.unsigned b =? 0)) (bytes_of s).
Definition sendable (v : sql_value) : bool :=
  match v with
  | VText s => no_nul s
  | VTextArray l => forallb no_nul l
  | VProperties l => forallb (fun p => no_nul (pr_key p) && no_nul (pr_value p)) l
  | _ => true
  end.

(** What a column of a type accepts *)
Definition accepts (ty : sql_type) (v : sql_value) : bool :=
  sendable v &&
  match ty, v with
  | _, VNull => true
  | UUID, VUuid _ => true
  | TEXT, VText _ => true
  | VARCHAR n, VText s => char_length s <=? n
  | BIGINT, VBigint z => (- 2 ^ 63 <=? z) && (z <? 2 ^ 63)
  | INT, VInt z => (- 2 ^ 31 <=? z) && (z <? 2 ^ 31)
  | TIMESTAMPTZ, VTimestamp _ => true
  | BYTEA, VBytes _ => true
  | TEXT_ARRAY, VTextArray _ => true
  | PROPERTY_ARRAY, VProperties _ => true
  | _, _ => false
  end.

(** A [TIMESTAMPTZ] has a resolution of one microsecond. *)
Class Timestamptz := stored_time : DateTime -> DateTime.
Class LawfulTimestamptz `{Timestamptz} := stored_time_close t : Z.abs (stored_time t - t) < 1000.

(** ** Tables *)
Abbreviation row := (gmap string sql_value).
Record table := mkTable { t_columns : list (string * sql_type); t_rows : list row }.
Abbreviation Db := (gmap string table).

Class SqlOrder := {
  scan : list row -> list row;
  order_by : (row -> Z) -> list row -> list row
}.
Class LawfulSqlOrder `{SqlOrder} := {
  scan_perm l : scan l ≡ₚ l;
  order_by_perm key l : order_by key l ≡ₚ l;
  order_by_sorted key l : Sorted (fun x y => key x <= key y) (order_by key l)
}.

(** ** Statements *)
Definition create_table (name : string) (columns : list (string * sql_type)) (db : Db) : exec Db :=
  match db !! name with
  | Some _ => bail "relation already exists"
  | None => Ok (<[name := mkTable columns []]> db)
  end.

Fixpoint make_row (columns : list (string * sql_type)) (values : list sql_value) : exec row :=
  match columns, values with
  | _, [] => Ok ∅
  | [], _ => bail "INSERT has more expressions than target columns"
  | (name, ty) :: columns, v :: values =>
      if accepts ty v then
        r ← make_row columns values;
        Ok (<[name := v]> r)
      else bail "the value does not fit the column"
  end.

(** [INSERT INTO name VALUES (...)] *)
Definition insert_into (name : string) (values : list sql_value) (db : Db) : exec Db :=
  match db !! name with
  | None => bail "relation does not exist"
  | Some t =>
      r ← make_row (t_columns t) values;
      Ok (<[name := mkTable (t_columns t) (t_rows t ++ [r])]> db)
  end.

(** A condition [column op $n]; the comparison of a [NULL] is not true. *)
Inductive comparison_op := OpEq | OpLt | OpLe | OpGe.
Definition compare_with (op : comparison_op) (x y : Z) : bool :=
  match op with OpEq => x =? y | OpLt => x <? y | OpLe => x <=? y | OpGe => y <=? x end.
Definition holds (column : string) (op : comparison_op) (v : sql_value) (r : row) : bool :=
  match r !! column, v with
  | Some (VUuid x), VUuid y => compare_with op x y
  | Some (VBigint x), VBigint y => compare_with op x y
  | Some (VTimestamp x), VTimestamp y => compare_with op x y
  | _, _ => false
  end.

(** [array_position(column, $n) is not NULL] *)
Definition holds_tag (column : string) (v : sql_value) (r : row) : bool :=
  match r !! column, v with
  | Some (VTextArray l), VText s => existsb (String.eqb s) l
  | _, _ => false
  end.

(** A row of the answer has the selected columns and no other. *)
Definition project (columns : list string) (r : row) : row :=
  filter (fun kv : string * sql_value => kv.1 ∈ columns) r.

Definition select (columns : list string) (name : string)
    (condition : row -> bool) (order : list row -> list row) (db : Db)
  : exec (list row) :=
  match db !! name with
  | None => bail "relation does not exist"
  | Some t =>
      if forallb (fun c => existsb (fun col => String.eqb c col.1) (t_columns t)) columns then
        Ok (map (project columns) (order (List.filter condition (t_rows t))))
      else bail "column does not exist"
  end.

Definition fetch_one (rows : exec (list row)) : exec row :=
  rows ← rows;
  match rows with
  | r :: _ => Ok r
  | [] => bail "no rows returned by a query that expected to return at least one row"
  end.

(** [row.try_get("column")], at the type of a decoder *)
Class SqlDecode (T : Type) := sql_decode : sql_value -> option T.
Definition try_get {T} `{SqlDecode T} (r : row) (column : string) : exec T :=
  match r !! column with
  | None => bail "no column found for name: {}"
  | Some v => match sql_decode v with Some x => Ok x | None => bail "error occurred while decoding column {}" end
  end.

(** The decoders that the source uses; each at a type of its own. *)
Definition get_uuid (r : row) (c : string) : exec Uuid :=
  @try_get Uuid (fun v => match v with VUuid u => Some u | _ => None end) r c.
Definition get_opt_uuid (r : row) (c : string) : exec (option Uuid) :=
  @try_get (option Uuid) (fun v => match v with VUuid u => Some (Some u) | VNull => Some None | _ => None end)
    r c.
Definition get_text (r : row) (c : string) : exec string :=
  @try_get string (fun v => match v with VText s => Some s | _ => None end) r c.
Definition get_bigint (r : row) (c : string) : exec Z :=
  @try_get Z (fun v => match v with VBigint z => Some z | _ => None end) r c.
Definition get_int (r : row) (c : string) : exec Z :=
  @try_get Z (fun v => match v with VInt z => Some z | _ => None end) r c.
Definition get_timestamp (r : row) (c : string) : exec DateTime :=
  @try_get DateTime (fun v => match v with VTimestamp t => Some t | _ => None end) r c.
Definition get_bytes (r : row) (c : string) : exec buffer :=
  @try_get buffer (fun v => match v with VBytes b => Some b | _ => None end) r c.
Definition get_text_array (r : row) (c : string) : exec (list string) :=
  @try_get (list string) (fun v => match v with VTextArray l => Some l | _ => None end) r c.
Definition get_properties (r : row) (c : string) : exec (list Property) :=
  @try_get (list Property) (fun v => match v with VProperties l => Some l | _ => None end) r c.
