(* ===== verification/Lake.v ===== *)
(** * The lake and its ingestion

    [ingestion/src]: the schema of the database and its migration, properties
    as SQL values, and the service that inserts processes, streams and blocks;
    [telemetry/src/blob_storage.rs]: the payloads of the blocks.

    A request may fail after it has written a payload: the operations of the
    service return the lake that they leave, and their result. *)

From S2P Require Import Prelude RustString Float Transit Queue Pod Parser PodParser Blocks.
From S2P Require Import Time Stream Wire Sql.

(** ** sql_telemetry_db.rs *)
Definition processes_columns : list (string * sql_type) :=
  [("process_id", UUID); ("exe", VARCHAR 255); ("username", VARCHAR 255); ("realname", VARCHAR 255);
   ("computer", VARCHAR 255); ("distro", VARCHAR 255); ("cpu_brand", VARCHAR 255);
   ("tsc_frequency", BIGINT); ("start_time", TIMESTAMPTZ); ("start_ticks", BIGINT);
   ("insert_time", TIMESTAMPTZ); ("parent_process_id", UUID); ("properties", PROPERTY_ARRAY)].
Definition streams_columns : list (string * sql_type) :=
  [("stream_id", UUID); ("process_id", UUID); ("dependencies_metadata", BYTEA);
   ("objects_metadata", BYTEA); ("tags", TEXT_ARRAY); ("properties", PROPERTY_ARRAY);
   ("insert_time", TIMESTAMPTZ)].
Definition blocks_columns : list (string * sql_type) :=
  [("block_id", UUID); ("stream_id", UUID); ("process_id", UUID); ("begin_time", TIMESTAMPTZ);
   ("begin_ticks", BIGINT); ("end_time", TIMESTAMPTZ); ("end_ticks", BIGINT); ("nb_objects", INT);
   ("object_offset", BIGINT); ("payload_size", BIGINT)].

Definition create_migration_table (db : Db) : exec Db :=
  db ← with_context "Creating table migration" (create_table "migration" [("version", INT)] db);
  with_context "Recording the initial schema version" (insert_into "migration" [VInt 1] db).
(** A composite type takes its name among the relations. *)
Definition property_columns : list (string * sql_type) := [("key", TEXT); ("value", TEXT)].
Definition create_property_type (db : Db) : exec Db :=
  with_context "Creating property type" (create_table "micromegas_property" property_columns db).
Definition create_processes_table (db : Db) : exec Db :=
  with_context "Creating table processes and its indices"
    (create_table "processes" processes_columns db).
Definition create_streams_table (db : Db) : exec Db :=
  with_context "Creating table streams and its indices" (create_table "streams" streams_columns db).
Definition create_blocks_table (db : Db) : exec Db :=
  with_context "Creating table blocks and its indices" (create_table "blocks" blocks_columns db).
Definition create_tables (db : Db) : exec Db :=
  db ← create_property_type db;
  db ← create_processes_table db;
  db ← create_streams_table db;
  db ← create_blocks_table db;
  create_migration_table db.

(** ** sql_migration.rs and remote_data_lake.rs *)
Definition LATEST_SCHEMA_VERSION : Z := 1.

Definition read_schema_version `{SqlOrder} (db : Db) : exec Z :=
  match fetch_one (select ["version"] "migration" (fun _ => true) scan db) with
  | Ok row => match get_int row "version" with Ok v => Ok v | _ => Panic end
  | Err _ => Ok 0
  | Panic => Panic
  | Ub => Ub
  | Diverges => Diverges
  end.

(** The transaction that creates the schema commits as a whole. *)
Definition execute_migration `{SqlOrder} (db : Db) : exec Db :=
  current_version ← read_schema_version db;
  '(db, current_version) ←
    (if 0 =? current_version then
       db ← create_tables db;
       current_version ← read_schema_version db;
       Ok (db, current_version)
     else Ok (db, current_version));
  _ ← assert_true (current_version =? LATEST_SCHEMA_VERSION);
  Ok db.

Definition migrate_db `{SqlOrder} (db : Db) : exec Db :=
  current_version ← read_schema_version db;
  if negb (current_version =? LATEST_SCHEMA_VERSION) then
    current_version ← read_schema_version db;
    if LATEST_SCHEMA_VERSION =? current_version then Ok db else
    db ← execute_migration db;
    current_version ← read_schema_version db;
    _ ← assert_true (current_version =? LATEST_SCHEMA_VERSION);
    Ok db
  else
    _ ← assert_true (current_version =? LATEST_SCHEMA_VERSION);
    Ok db.

(** ** sql_property.rs *)

(** The order in which the map is iterated is the parameter [iter_map]. *)
Definition make_properties (iter_map : gmap string string -> list (string * string))
    (map_ : gmap string string) : list Property :=
  map (fun '(k, v) => mkProperty k v) (iter_map map_).
Definition into_hashmap (properties : list Property) : gmap string string :=
  foldl (fun hashmap property => <[pr_key property := pr_value property]> hashmap) ∅ properties.

(** ** Blob storage *)
Record BlobStorage := mkBlobStorage { blob_store : gmap string buffer; blob_store_root : string }.

(** [object_store::path::Path::from] *)
Class ObjectPath := path_from : string -> string.

Definition full_path `{ObjectPath} (s : BlobStorage) (obj_path : string) : string :=
  path_from (String.append (blob_store_root s) (String.append "/" obj_path)).
Definition put `{ObjectPath} (s : BlobStorage) (obj_path : string) (b : buffer) : BlobStorage :=
  mkBlobStorage (<[full_path s obj_path := b]> (blob_store s)) (blob_store_root s).
Definition read_blob `{ObjectPath} (s : BlobStorage) (obj_path : string) : exec buffer :=
  match blob_store s !! full_path s obj_path with
  | Some b => Ok b
  | None => bail "object not found"
  end.

Definition delete_blob `{ObjectPath} (s : BlobStorage) (obj_path : string) : BlobStorage :=
  mkBlobStorage (delete (full_path s obj_path) (blob_store s)) (blob_store_root s).

(** ** web_ingestion_service.rs *)
Record DataLakeConnection := mkDataLakeConnection { db_pool : Db; blob_storage : BlobStorage }.


(** The path of the payload of a block, for the ingestion and for the analytics *)
Definition payload_path `{UuidText} (process_id stream_id block_id : Uuid) : string :=
  String.concat "/" ["blobs"; uuid_to_string process_id; uuid_to_string stream_id;
                     uuid_to_string block_id].

(** What is read in the body of an insert_block request *)
Definition receive_block `{Cbor Block} `{Cbor BlockPayload} `{Rfc3339} (body : buffer)
  : exec (Block * buffer * DateTime * DateTime) :=
  block ← with_context "parsing block_wire_format::Block" (from_reader body);
  encoded_payload ← encode_cbor (bk_payload block);
  begin_time ← with_context "parsing begin_time" (parse_from_rfc3339 (bk_begin_time block));
  end_time ← with_context "parsing end_time" (parse_from_rfc3339 (bk_end_time block));
  Ok (block, encoded_payload, begin_time, end_time).

Definition block_values `{Timestamptz} (block : Block) (begin_time end_time : DateTime)
    (payload_size : Z) : list sql_value :=
  [VUuid (bk_block_id block); VUuid (bk_stream_id block); VUuid (bk_process_id block);
   VTimestamp (stored_time begin_time); VBigint (bk_begin_ticks block);
   VTimestamp (stored_time end_time); VBigint (bk_end_ticks block); VInt (bk_nb_objects block);
   VBigint (bk_object_offset block); VBigint payload_size].

(** The result of a request, and the lake it leaves *)
Definition commit (lake : DataLakeConnection) (db : exec Db) : DataLakeConnection * exec unit :=
  match db with
  | Ok db => (mkDataLakeConnection db (blob_storage lake), Ok tt)
  | Err m => (lake, Err m)
  | Panic => (lake, Panic)
  | Ub => (lake, Ub)
  | Diverges => (lake, Diverges)
  end.

Definition insert_block `{Cbor Block} `{Cbor BlockPayload} `{Rfc3339} `{Timestamptz} `{UuidText}
    `{ObjectPath} (lake : DataLakeConnection) (body : buffer) : DataLakeConnection * exec unit :=
  match receive_block body with
  | Ok (block, encoded_payload, begin_time, end_time) =>
      let payload_size := wrap_i 64 (blen encoded_payload) in
      let obj_path := payload_path (bk_process_id block) (bk_stream_id block) (bk_block_id block) in
      let lake := mkDataLakeConnection (db_pool lake) (put (blob_storage lake) obj_path encoded_payload) in
      commit lake (with_context "inserting into blocks"
        (insert_into "blocks" (block_values block begin_time end_time payload_size) (db_pool lake)))
  | Err m => (lake, Err m)
  | Panic => (lake, Panic)
  | Ub => (lake, Ub)
  | Diverges => (lake, Diverges)
  end.

Definition insert_stream `{Cbor StreamInfo} `{Cbor (list UserDefinedType)} `{Timestamptz}
    (iter_map : gmap string string -> list (string * string)) (now : DateTime)
    (lake : DataLakeConnection) (body : buffer) : DataLakeConnection * exec unit :=
  commit lake
    (stream_info ← with_context "parsing StreamInfo" (from_reader body);
     dependencies_metadata ← encode_cbor (si_dependencies_metadata stream_info);
     objects_metadata ← encode_cbor (si_objects_metadata stream_info);
     with_context "inserting into streams"
       (insert_into "streams"
          [VUuid (si_stream_id stream_info); VUuid (si_process_id stream_info);
           VBytes dependencies_metadata; VBytes objects_metadata; VTextArray (si_tags stream_info);
           VProperties (make_properties iter_map (si_properties stream_info));
           VTimestamp (stored_time now)] (db_pool lake))).

Definition insert_process `{Cbor ProcessInfo} `{Timestamptz}
    (iter_map : gmap string string -> list (string * string)) (now : DateTime)
    (lake : DataLakeConnection) (body : buffer) : DataLakeConnection * exec unit :=
  commit lake
    (process_info ← with_context "parsing ProcessInfo" (from_reader body);
     with_context "executing sql insert into processes"
       (insert_into "processes"
          [VUuid (process_id process_info); VText (exe process_info); VText (username process_info);
           VText (realname process_info); VText (computer process_info); VText (distro process_info);
           VText (cpu_brand process_info); VBigint (tsc_frequency process_info);
           VTimestamp (stored_time (start_time process_info)); VBigint (start_ticks process_info);
           VTimestamp (stored_time now);
           match parent_process_id process_info with Some u => VUuid u | None => VNull end;
           VProperties (make_properties iter_map (properties process_info))] (db_pool lake))).

(** ** telemetry-ingestion-srv/src/main.rs

    The handlers log an error and answer as if there were none. *)
Definition insert_process_request `{Cbor ProcessInfo} `{Timestamptz}
    (iter_map : gmap string string -> list (string * string)) (now : DateTime)
    (service : DataLakeConnection) (body : buffer) : DataLakeConnection :=
  fst (insert_process iter_map now service body).
Definition insert_stream_request `{Cbor StreamInfo} `{Cbor (list UserDefinedType)} `{Timestamptz}
    (iter_map : gmap string string -> list (string * string)) (now : DateTime)
    (service : DataLakeConnection) (body : buffer) : DataLakeConnection :=
  fst (insert_stream iter_map now service body).
Definition insert_block_request `{Cbor Block} `{Cbor BlockPayload} `{Rfc3339} `{Timestamptz}
    `{UuidText} `{ObjectPath} (service : DataLakeConnection) (body : buffer) : DataLakeConnection :=
  match body with
  | [] => service
  | _ => fst (insert_block service body)
  end.
