(* ===== verification/Statement.v ===== *)
(** * Statements with joins

    The statements of [analytics/src/lib.rs] and [lake_size.rs] join tables,
    match patterns, and bind their parameters to [?].  They are kept as data:
    [prepare] finds the tables, the columns and the operators as the database
    does before it runs a statement, and [execute] computes the rows.  Whether
    [?] is a placeholder (it is not in PostgreSQL), the pattern language and
    the clock are the database's ([Dialect]). *)

From S2P Require Import Prelude RustString Time Sql.

Class Dialect := {
  question_mark : bool;
  like : string -> string -> bool;
  sql_now : DateTime
}.

(** ** The syntax *)
Inductive expr :=
| Col (table : option string) (name : string)
| Param (i : nat)
| Call (f : string) (args : list expr).
Inductive condition :=
| Equal (x y : expr)
| AtLeast (x y : expr)
| LikePattern (x pattern : expr)
| IsNotNull (x : expr)
| And (c d : condition)
| Or (c d : condition).
Inductive item :=
| Item (e : expr) (alias : string)
| AllOf (table : string).
(** A table of the [FROM] list and its alias; a [LEFT JOIN] has a condition. *)
Record source := mkSource { so_table : string; so_alias : string; so_left_join : option condition }.
Inductive direction := Asc | Desc.
Record statement := mkStatement {
  sm_items : list item;
  sm_from : list source;
  sm_where : condition;
  sm_order : option (expr * direction);
  sm_limit : option nat
}.

(** A column that is selected under its own name *)
Definition column (name : string) : item := Item (Col None name) name.
Definition from (table : string) : source := mkSource table table None.

(** ** What is checked when a statement is prepared *)
Abbreviation scope := (list (string * list (string * sql_type))).

Definition type_in (columns : list (string * sql_type)) (name : string) : option sql_type :=
  snd <$> List.find (fun c => String.eqb c.1 name) columns.
Definition resolve (sc : scope) (table : option string) (name : string) : exec (string * sql_type) :=
  let candidates := List.filter (fun s => match table with Some a => String.eqb s.1 a | None => true end) sc in
  match omap (fun s => ty ← type_in s.2 name; Some (s.1, ty)) candidates with
  | [] => bail "column does not exist"
  | [found] => Ok found
  | _ => bail "column reference is ambiguous"
  end.

Definition value_type (v : sql_value) : option sql_type :=
  match v with
  | VNull => None
  | VUuid _ => Some UUID
  | VText _ => Some TEXT
  | VBigint _ => Some BIGINT
  | VInt _ => Some INT
  | VTimestamp _ => Some TIMESTAMPTZ
  | VBytes _ => Some BYTEA
  | VTextArray _ => Some TEXT_ARRAY
  | VProperties _ => Some PROPERTY_ARRAY
  end.

Definition type_of (sc : scope) (params : list sql_value) (e : expr) : exec sql_type :=
  match e with
  | Col table name => '(_, ty) ← resolve sc table name; Ok ty
  | Param i =>
      match params !! i with
      | Some v => match value_type v with Some ty => Ok ty | None => bail "could not determine data type of parameter" end
      | None => bail "bind message supplies fewer parameters"
      end
  | Call f args =>
      match args with
      | [] => if String.eqb f "NOW" then Ok TIMESTAMPTZ else bail "function does not exist"
      | _ => bail "function does not exist"
      end
  end.

Definition is_text (ty : sql_type) : bool := match ty with TEXT | VARCHAR _ => true | _ => false end.
(** The operators of the database: [=] on two values of one type, [>=] on two
    that are ordered by a number, and [LIKE] on texts. *)
Definition equal_operator (x y : sql_type) : bool :=
  match x, y with
  | UUID, UUID | BIGINT, BIGINT | INT, INT | TIMESTAMPTZ, TIMESTAMPTZ => true
  | _, _ => is_text x && is_text y
  end.
Definition order_operator (x y : sql_type) : bool :=
  match x, y with BIGINT, BIGINT | INT, INT | TIMESTAMPTZ, TIMESTAMPTZ => true | _, _ => false end.

Definition binary_check (operator : sql_type -> sql_type -> bool) (sc : scope) (params : list sql_value)
    (x y : expr) : exec unit :=
  tx ← type_of sc params x;
  ty ← type_of sc params y;
  if operator tx ty then Ok tt else bail "operator does not exist".
Fixpoint condition_check (sc : scope) (params : list sql_value) (c : condition) : exec unit :=
  match c with
  | Equal x y => binary_check equal_operator sc params x y
  | AtLeast x y => binary_check order_operator sc params x y
  | LikePattern x y => binary_check (fun x y => is_text x && is_text y) sc params x y
  | IsNotNull x => _ ← type_of sc params x; Ok tt
  | And c d | Or c d => _ ← condition_check sc params c; condition_check sc params d
  end.

Fixpoint make_scope (db : Db) (sources : list source) : exec scope :=
  match sources with
  | [] => Ok []
  | s :: sources =>
      match db !! so_table s with
      | None => bail "relation does not exist"
      | Some t => sc ← make_scope db sources; Ok ((so_alias s, t_columns t) :: sc)
      end
  end.

(** The names of the answer, with the alias and the column of each *)
Fixpoint items_check (sc : scope) (params : list sql_value) (items : list item) : exec unit :=
  match items with
  | [] => Ok tt
  | Item e _ :: items => _ ← type_of sc params e; items_check sc params items
  | AllOf a :: items =>
      if existsb (fun s => String.eqb s.1 a) sc then items_check sc params items
      else bail "missing FROM-clause entry"
  end.

Definition prepare `{Dialect} (st : statement) (params : list sql_value) (db : Db) : exec scope :=
  if negb question_mark then bail "syntax error" else
  sc ← make_scope db (sm_from st);
  _ ← items_check sc params (sm_items st);
  _ ← foldr (fun s rest => _ ← from_option (condition_check sc params) (Ok tt) (so_left_join s); rest) (Ok tt)
        (sm_from st);
  _ ← condition_check sc params (sm_where st);
  _ ← match sm_order st with Some (e, _) => _ ← type_of sc params e; Ok tt | None => Ok tt end;
  Ok sc.

(** ** Rows *)
Abbreviation joined := (gmap string row).

Section execute.
Context `{SqlOrder} `{Dialect} (sc : scope) (params : list sql_value).

Definition value_of (r : joined) (e : expr) : sql_value :=
  match e with
  | Col table name =>
      match resolve sc table name with
      | Ok (a, _) => default VNull (t ← r !! a; t !! name)
      | _ => VNull
      end
  | Param i => default VNull (params !! i)
  | Call _ _ => VTimestamp sql_now
  end.

Definition number (v : sql_value) : option Z :=
  match v with VUuid z | VBigint z | VInt z | VTimestamp z => Some z | _ => None end.
Fixpoint satisfies (r : joined) (c : condition) : bool :=
  match c with
  | Equal x y =>
      match value_of r x, value_of r y with
      | VText s, VText s' => String.eqb s s'
      | v, v' => match number v, number v' with Some a, Some b => a =? b | _, _ => false end
      end
  | AtLeast x y =>
      match number (value_of r x), number (value_of r y) with Some a, Some b => b <=? a | _, _ => false end
  | LikePattern x y =>
      match value_of r x, value_of r y with VText s, VText p => like s p | _, _ => false end
  | IsNotNull x => match value_of r x with VNull => false | _ => true end
  | And c d => satisfies r c && satisfies r d
  | Or c d => satisfies r c || satisfies r d
  end.

(** A left join keeps a row that matches none of the table, without it. *)
Definition join (db : Db) (rows : list joined) (s : source) : list joined :=
  let table := from_option t_rows [] (db !! so_table s) in
  let with_ r := map (fun t => <[so_alias s := t]> r) table in
  match so_left_join s with
  | None => concat (map with_ rows)
  | Some c =>
      concat (map (fun r =>
        match List.filter (fun r => satisfies r c) (with_ r) with [] => [r] | rs => rs end) rows)
  end.

Definition order_key (e : expr) (d : direction) (r : joined) : Z :=
  match number (value_of r e), d with
  | Some z, Asc => z
  | Some z, Desc => - z
  | None, Asc => 2 ^ 128
  | None, Desc => - 2 ^ 128
  end.

Definition project_item (r : joined) (i : item) : row :=
  match i with
  | Item e alias => {[ alias := value_of r e ]}
  | AllOf a => list_to_map (map (fun c => (c.1, value_of r (Col (Some a) c.1)))
                 (from_option snd [] (List.find (fun s => String.eqb s.1 a) sc)))
  end.
Definition project_items (items : list item) (r : joined) : row :=
  foldr (fun i acc => project_item r i ∪ acc) ∅ items.
End execute.

(** The rows of a query: the database orders the rows of the answer by the
    key of the row they come from, and returns them in any order otherwise. *)
Class JoinedOrder := {
  joined_scan : list joined -> list joined;
  joined_order_by : (joined -> Z) -> list joined -> list joined
}.
Definition execute `{JoinedOrder} `{Dialect} (st : statement) (params : list sql_value) (db : Db)
  : exec (list row) :=
  sc ← prepare st params db;
  let rows := foldl (join sc params db) [∅] (sm_from st) in
  let rows := List.filter (fun r => satisfies sc params r (sm_where st)) rows in
  let rows :=
    match sm_order st with
    | Some (e, d) => joined_order_by (order_key sc params e d) rows
    | None => joined_scan rows
    end in
  let rows := match sm_limit st with Some n => firstn n rows | None => rows end in
  Ok (map (project_items sc params (sm_items st)) rows).

(** ** Lemmas *)
Lemma execute_prepared `{JoinedOrder} `{Dialect} st params db rows :
  execute st params db = Ok rows -> exists sc, prepare st params db = Ok sc.
Proof. unfold execute. intros E. exec_inv E. by exists r. Qed.

(** A row has the names of the items, and no other. *)
Lemma project_items_None sc params items r name `{Dialect} :
  (forall e alias, In (Item e alias) items -> alias <> name) ->
  (forall a, ~ In (AllOf a) items) -> project_items sc params items r !! name = None.
Proof.
  intros Hn Ha. induction items as [|i items IH]; [apply lookup_empty|].
  cbn [project_items foldr]. apply lookup_union_None. split.
  - destruct i as [e alias|a]; [|by destruct (Ha a); left]. cbn [project_item].
    apply lookup_singleton_ne. eapply Hn. by left.
  - apply IH; [intros e alias Hi; apply (Hn e); by right|intros a Hi; apply (Ha a); by right].
Qed.

Lemma execute_rows `{JoinedOrder} `{Dialect} st params db rows :
  execute st params db = Ok rows ->
  exists sc, prepare st params db = Ok sc /\
    Forall (fun r => exists j, r = project_items sc params (sm_items st) j) rows.
Proof.
  unfold execute. intros E. exec_inv E. exists r. split; [done|].
  apply (f_equal (fun x => match x with Ok y => y | _ => rows end)) in E. subst rows.
  apply List.Forall_map, List.Forall_forall. intros j _. by exists j.
Qed.

(** [DELETE FROM table WHERE ...] *)
Definition execute_delete `{Dialect} (table : string) (c : condition) (params : list sql_value) (db : Db)
  : exec Db :=
  if negb question_mark then bail "syntax error" else
  match db !! table with
  | None => bail "relation does not exist"
  | Some t =>
      let sc := [(table, t_columns t)] in
      _ ← condition_check sc params c;
      let kept := List.filter (fun r => negb (satisfies sc params {[ table := r ]} c)) (t_rows t) in
      Ok (<[table := mkTable (t_columns t) kept]> db)
  end.
