(* ===== verification/Metadata.v ===== *)
(** * The metadata of the lake

    [analytics/src/metadata.rs], and [fetch_block_payload] of
    [analytics/src/lib.rs]: what the analytics reads in the database, and the
    payloads of the blocks. *)

From S2P Require Import Prelude RustString Float Transit Queue Pod Parser PodParser Blocks.
From S2P Require Import Time Stream Wire Sql Lake.

(** ** telemetry/src/types/block.rs *)
Record BlockMetadata := mkBlockMetadata {
  bm_block_id : Uuid;
  bm_stream_id : Uuid;
  bm_process_id : Uuid;
  bm_begin_time : DateTime;
  bm_end_time : DateTime;
  bm_begin_ticks : Z;
  bm_end_ticks : Z;
  bm_nb_objects : Z;
  bm_payload_size : Z;
  bm_object_offset : Z
}.

(** ** metadata.rs *)
Definition find_stream `{SqlOrder} `{Cbor (list UserDefinedType)} (db : Db) (stream_id : Uuid)
  : exec StreamInfo :=
  row ← with_context "select from streams"
    (fetch_one (select ["process_id"; "dependencies_metadata"; "objects_metadata"; "tags"; "properties"]
       "streams" (holds "stream_id" OpEq (VUuid stream_id)) scan db));
  dependencies_metadata_buffer ← get_bytes row "dependencies_metadata";
  dependencies_metadata ← with_context "decoding dependencies metadata"
    (from_reader dependencies_metadata_buffer);
  objects_metadata_buffer ← get_bytes row "objects_metadata";
  objects_metadata ← with_context "decoding objects metadata" (from_reader objects_metadata_buffer);
  tags ← get_text_array row "tags";
  properties ← get_properties row "properties";
  process_id ← get_uuid row "process_id";
  Ok (mkStreamInfo process_id stream_id dependencies_metadata objects_metadata tags
        (into_hashmap properties)).

Definition process_from_row (row : row) : exec ProcessInfo :=
  properties ← get_properties row "properties";
  process_id ← get_uuid row "process_id";
  exe ← get_text row "exe";
  username ← get_text row "username";
  realname ← get_text row "realname";
  computer ← get_text row "computer";
  distro ← get_text row "distro";
  cpu_brand ← get_text row "cpu_brand";
  tsc_frequency ← get_bigint row "tsc_frequency";
  start_time ← get_timestamp row "start_time";
  start_ticks ← get_bigint row "start_ticks";
  parent_process_id ← get_opt_uuid row "parent_process_id";
  Ok (mkProcessInfo process_id exe username realname computer distro cpu_brand tsc_frequency
        start_time start_ticks parent_process_id (into_hashmap properties)).

Definition find_process `{SqlOrder} (db : Db) (process_id : Uuid) : exec ProcessInfo :=
  row ← with_context "select from processes"
    (fetch_one (select ["process_id"; "exe"; "username"; "realname"; "computer"; "distro"; "cpu_brand";
       "tsc_frequency"; "start_time"; "start_ticks"; "parent_process_id"; "properties"]
       "processes" (holds "process_id" OpEq (VUuid process_id)) scan db));
  process_from_row row.

Definition map_row_block (row : row) : exec BlockMetadata :=
  block_id ← get_uuid row "block_id";
  stream_id ← get_uuid row "stream_id";
  process_id ← get_uuid row "process_id";
  begin_time ← get_timestamp row "begin_time";
  end_time ← get_timestamp row "end_time";
  begin_ticks ← get_bigint row "begin_ticks";
  end_ticks ← get_bigint row "end_ticks";
  nb_objects ← get_int row "nb_objects";
  object_offset ← get_bigint row "object_offset";
  payload_size ← get_bigint row "payload_size";
  Ok (mkBlockMetadata block_id stream_id process_id begin_time end_time begin_ticks end_ticks
        nb_objects payload_size object_offset).

(** [for r in rows { blocks.push(f(&r)?) }] *)
Fixpoint map_rows {A B} (f : A -> exec B) (rows : list A) : exec (list B) :=
  match rows with
  | [] => Ok []
  | r :: rows => x ← f r; l ← map_rows f rows; Ok (x :: l)
  end.

(** The key of [ORDER BY begin_ticks] *)
Definition begin_ticks_key (r : row) : Z :=
  match r !! "begin_ticks" with Some (VBigint z) => z | _ => 2 ^ 63 end.

Definition find_stream_blocks_in_range `{SqlOrder} (db : Db) (stream_id : Uuid)
    (begin_ticks end_ticks : Z) : exec (list BlockMetadata) :=
  rows ← with_context "find_stream_blocks"
    (select ["block_id"; "stream_id"; "process_id"; "begin_time"; "begin_ticks"; "end_time";
             "end_ticks"; "nb_objects"; "object_offset"; "payload_size"]
       "blocks"
       (fun r => holds "stream_id" OpEq (VUuid stream_id) r
                 && holds "begin_ticks" OpLe (VBigint end_ticks) r
                 && holds "end_ticks" OpGe (VBigint begin_ticks) r)
       (order_by begin_ticks_key) db);
  map_rows map_row_block rows.

(** ** lib.rs *)
Definition fetch_block_payload `{Cbor BlockPayload} `{UuidText} `{ObjectPath} (s : BlobStorage)
    (process_id stream_id block_id : Uuid) : exec BlockPayload :=
  buffer ← with_context "reading block payload from blob storage"
    (read_blob s (payload_path process_id stream_id block_id));
  with_context (String.append "reading payload " (uuid_to_string block_id)) (from_reader buffer).
