(* ===== verification/LakeSpec.v ===== *)
(** * What the lake promises

    An abstract lake is three lists: the processes, the streams and the blocks
    that were sent.  [represents] relates a lake (tables and payloads) to an
    abstract one; the ingestion implements the insertions, and the queries of
    the analytics find what was sent. *)

From Stdlib Require Import Sorting.Sorted.
From S2P Require Import Prelude RustString Float Transit Queue Pod Parser PodParser Blocks.
From S2P Require Import Time Stream Wire Sql Lake Metadata.

(** ** Documented behaviour of the libraries *)

(** A hyphenated UUID: 36 hexadecimal digits and hyphens *)
Definition plain_byte (b : byte) : bool :=
  let z := byte.unsigned b in
  ((48 <=? z) && (z <=? 57)) || ((97 <=? z) && (z <=? 122)) || (z =? 45).
Definition plain_segment (s : string) : Prop :=
  s <> EmptyString /\ forallb plain_byte (bytes_of s) = true.
Class LawfulUuidText `{UuidText} := {
  uuid_to_string_inj u v : uuid_to_string u = uuid_to_string v -> u = v;
  uuid_to_string_plain u : plain_segment (uuid_to_string u)
}.
(** Paths made of plain segments under one root are distinct objects. *)
Class LawfulObjectPath `{ObjectPath} :=
  path_from_inj root l l' :
    l <> [] -> l' <> [] -> Forall plain_segment l -> Forall plain_segment l' ->
    path_from (String.append root (String.append "/" (String.concat "/" l))) =
    path_from (String.append root (String.append "/" (String.concat "/" l'))) ->
    l = l'.

(** The bodies of the requests, as the sinks encode them *)
Class LawfulCbors `{Cbor Block} `{Cbor BlockPayload} `{Cbor StreamInfo} `{Cbor ProcessInfo}
    `{Cbor (list UserDefinedType)} := {
  cbor_block :: LawfulCbor Block (fun b => b);
  cbor_payload :: LawfulCbor BlockPayload (fun p => p);
  cbor_stream :: LawfulCbor StreamInfo received_stream;
  cbor_process :: LawfulCbor ProcessInfo (fun p => p);
  cbor_udts :: LawfulCbor (list UserDefinedType) (map received)
}.

(** ** The abstract lake *)
Record abstract_lake := mkAbstract {
  al_processes : list ProcessInfo;
  al_streams : list StreamInfo;
  al_blocks : list (BlockMetadata * BlockPayload)
}.

Definition is_process_row (p : ProcessInfo) (r : row) : Prop :=
  r !! "process_id" = Some (VUuid (process_id p)) /\ r !! "exe" = Some (VText (exe p)) /\
  r !! "username" = Some (VText (username p)) /\ r !! "realname" = Some (VText (realname p)) /\
  r !! "computer" = Some (VText (computer p)) /\ r !! "distro" = Some (VText (distro p)) /\
  r !! "cpu_brand" = Some (VText (cpu_brand p)) /\
  r !! "tsc_frequency" = Some (VBigint (tsc_frequency p)) /\
  r !! "start_time" = Some (VTimestamp (start_time p)) /\
  r !! "start_ticks" = Some (VBigint (start_ticks p)) /\
  r !! "parent_process_id" =
    Some (match parent_process_id p with Some u => VUuid u | None => VNull end) /\
  exists l, r !! "properties" = Some (VProperties l) /\ into_hashmap l = properties p.

Definition is_stream_row `{Cbor (list UserDefinedType)} (s : StreamInfo) (r : row) : Prop :=
  r !! "stream_id" = Some (VUuid (si_stream_id s)) /\
  r !! "process_id" = Some (VUuid (si_process_id s)) /\
  r !! "tags" = Some (VTextArray (si_tags s)) /\
  (exists l, r !! "properties" = Some (VProperties l) /\ into_hashmap l = si_properties s) /\
  (exists b, r !! "dependencies_metadata" = Some (VBytes b) /\
    from_reader b = Ok (si_dependencies_metadata s)) /\
  (exists b, r !! "objects_metadata" = Some (VBytes b) /\ from_reader b = Ok (si_objects_metadata s)).

Definition is_block_row (m : BlockMetadata) (r : row) : Prop :=
  r !! "block_id" = Some (VUuid (bm_block_id m)) /\
  r !! "stream_id" = Some (VUuid (bm_stream_id m)) /\
  r !! "process_id" = Some (VUuid (bm_process_id m)) /\
  r !! "begin_time" = Some (VTimestamp (bm_begin_time m)) /\
  r !! "end_time" = Some (VTimestamp (bm_end_time m)) /\
  r !! "begin_ticks" = Some (VBigint (bm_begin_ticks m)) /\
  r !! "end_ticks" = Some (VBigint (bm_end_ticks m)) /\
  r !! "nb_objects" = Some (VInt (bm_nb_objects m)) /\
  r !! "payload_size" = Some (VBigint (bm_payload_size m)) /\
  r !! "object_offset" = Some (VBigint (bm_object_offset m)).

Definition has_payload `{Cbor BlockPayload} `{UuidText} `{ObjectPath} (s : BlobStorage)
    (b : BlockMetadata * BlockPayload) : Prop :=
  fetch_block_payload s (bm_process_id b.1) (bm_stream_id b.1) (bm_block_id b.1) = Ok b.2.

Definition represents `{Cbor (list UserDefinedType)} `{Cbor BlockPayload} `{UuidText} `{ObjectPath}
    (lake : DataLakeConnection) (a : abstract_lake) : Prop :=
  (exists rows, db_pool lake !! "processes" = Some (mkTable processes_columns rows) /\
    Forall2 is_process_row (al_processes a) rows) /\
  (exists rows, db_pool lake !! "streams" = Some (mkTable streams_columns rows) /\
    Forall2 is_stream_row (al_streams a) rows) /\
  (exists rows, db_pool lake !! "blocks" = Some (mkTable blocks_columns rows) /\
    Forall2 is_block_row (map fst (al_blocks a)) rows) /\
  Forall (has_payload (blob_storage lake)) (al_blocks a).

(** ** Rows *)
Fixpoint all_accepted (columns : list (string * sql_type)) (values : list sql_value) : bool :=
  match columns, values with
  | (_, ty) :: columns, v :: values => accepts ty v && all_accepted columns values
  | [], [] => true
  | _, _ => false
  end.

Lemma make_row_ok columns values :
  all_accepted columns values = true ->
  make_row columns values = Ok (list_to_map (zip (map fst columns) values)).
Proof.
  revert values. induction columns as [|[name ty] columns IH]; intros [|v values] H; cbn in *;
    try done.
  apply andb_true_iff in H as [H1 H2]. rewrite H1. by rewrite IH.
Qed.

Lemma project_lookup columns (r : row) c : c ∈ columns -> project columns r !! c = r !! c.
Proof.
  intros Hc. unfold project. rewrite map_lookup_filter. destruct (r !! c); cbn; [|done].
  rewrite option_guard_True; done.
Qed.

Lemma into_hashmap_app l (m : gmap string string) :
  foldl (fun hashmap property => <[pr_key property := pr_value property]> hashmap) m l =
  list_to_map (map (fun p => (pr_key p, pr_value p)) (rev l)) ∪ m.
Proof.
  revert m. induction l as [|p l IH]; intros m; cbn [foldl].
  - change (m = ∅ ∪ m). by rewrite (left_id_L ∅ (∪)).
  - rewrite IH. cbn [rev]. rewrite map_app, list_to_map_app. cbn [map list_to_map foldr].
    rewrite <- map_union_assoc. f_equal. cbn [fst snd]. rewrite insert_empty.
    apply insert_union_singleton_l.
Qed.

Lemma properties_pairs (l : list (string * string)) :
  map (fun p => (pr_key p, pr_value p)) (map (fun '(k, v) => mkProperty k v) l) = l.
Proof. rewrite map_map. rewrite <- (map_id l) at 2. apply map_ext. by intros []. Qed.

(** The properties of a map, in any order, are the map. *)
Lemma into_hashmap_make_properties iter_map (m : gmap string string) :
  (forall m, iter_map m ≡ₚ map_to_list m) -> into_hashmap (make_properties iter_map m) = m.
Proof.
  intros Hit. unfold into_hashmap, make_properties.
  rewrite into_hashmap_app, (right_id_L ∅ (∪)), map_rev, properties_pairs.
  rewrite <- (list_to_map_to_list m) at 2.
  assert (rev (iter_map m) ≡ₚ map_to_list m) as Hp
    by (rewrite <- Hit; symmetry; apply Permutation_rev).
  apply list_to_map_proper; [|exact Hp].
  rewrite (Permutation_map fst Hp). apply NoDup_fst_map_to_list.
Qed.

(** ** Queries *)
Section queries.
Context `{Cbor (list UserDefinedType)} `{Cbor BlockPayload} `{UuidText} `{ObjectPath}.
Context `{HO : LawfulSqlOrder}.

Lemma get_uuid_at columns (r : row) c (x : Uuid) :
  r !! c = Some (VUuid x) -> c ∈ columns -> get_uuid (project columns r) c = Ok x.
Proof. intros E Hc. unfold get_uuid, try_get. by rewrite project_lookup, E. Qed.
Lemma get_text_at columns (r : row) c (x : string) :
  r !! c = Some (VText x) -> c ∈ columns -> get_text (project columns r) c = Ok x.
Proof. intros E Hc. unfold get_text, try_get. by rewrite project_lookup, E. Qed.
Lemma get_bigint_at columns (r : row) c (x : Z) :
  r !! c = Some (VBigint x) -> c ∈ columns -> get_bigint (project columns r) c = Ok x.
Proof. intros E Hc. unfold get_bigint, try_get. by rewrite project_lookup, E. Qed.
Lemma get_int_at columns (r : row) c (x : Z) :
  r !! c = Some (VInt x) -> c ∈ columns -> get_int (project columns r) c = Ok x.
Proof. intros E Hc. unfold get_int, try_get. by rewrite project_lookup, E. Qed.
Lemma get_timestamp_at columns (r : row) c (x : DateTime) :
  r !! c = Some (VTimestamp x) -> c ∈ columns -> get_timestamp (project columns r) c = Ok x.
Proof. intros E Hc. unfold get_timestamp, try_get. by rewrite project_lookup, E. Qed.
Lemma get_bytes_at columns (r : row) c (x : buffer) :
  r !! c = Some (VBytes x) -> c ∈ columns -> get_bytes (project columns r) c = Ok x.
Proof. intros E Hc. unfold get_bytes, try_get. by rewrite project_lookup, E. Qed.
Lemma get_text_array_at columns (r : row) c (x : list string) :
  r !! c = Some (VTextArray x) -> c ∈ columns -> get_text_array (project columns r) c = Ok x.
Proof. intros E Hc. unfold get_text_array, try_get. by rewrite project_lookup, E. Qed.
Lemma get_properties_at columns (r : row) c (x : list Property) :
  r !! c = Some (VProperties x) -> c ∈ columns -> get_properties (project columns r) c = Ok x.
Proof. intros E Hc. unfold get_properties, try_get. by rewrite project_lookup, E. Qed.
Lemma get_opt_uuid_at columns (r : row) c (x : option Uuid) :
  r !! c = Some (match x with Some u => VUuid u | None => VNull end) -> c ∈ columns ->
  get_opt_uuid (project columns r) c = Ok x.
Proof. intros E Hc. unfold get_opt_uuid, try_get. rewrite project_lookup, E by done. by destruct x. Qed.

Ltac in_columns := apply list_elem_of_In; cbn; tauto.
(** Read a column whose value is known. *)
Ltac read_column :=
  match goal with
  | E : ?r !! ?c = Some _ |- context [?get (project ?cols ?r) ?c] =>
      first [rewrite (get_uuid_at cols r c _ E) by in_columns
            |rewrite (get_text_at cols r c _ E) by in_columns
            |rewrite (get_bigint_at cols r c _ E) by in_columns
            |rewrite (get_int_at cols r c _ E) by in_columns
            |rewrite (get_timestamp_at cols r c _ E) by in_columns
            |rewrite (get_bytes_at cols r c _ E) by in_columns
            |rewrite (get_text_array_at cols r c _ E) by in_columns
            |rewrite (get_properties_at cols r c _ E) by in_columns
            |rewrite (get_opt_uuid_at cols r c _ E) by in_columns];
      cbn [mbind exec_bind]
  end.

Definition process_query : list string :=
  ["process_id"; "exe"; "username"; "realname"; "computer"; "distro"; "cpu_brand";
   "tsc_frequency"; "start_time"; "start_ticks"; "parent_process_id"; "properties"].

Lemma process_from_process_row p r :
  is_process_row p r -> process_from_row (project process_query r) = Ok p.
Proof.
  intros (E1 & E2 & E3 & E4 & E5 & E6 & E7 & E8 & E9 & E10 & E11 & l & E12 & Hl).
  unfold process_from_row, process_query. repeat read_column.
  rewrite Hl. by destruct p.
Qed.

(** Rows that represent elements, filtered by a condition that decides a
    property of the elements, and put in an order *)
Lemma filter_rows {A} (is_row : A -> row -> Prop) (cond : row -> bool) (q : A -> bool) l rows :
  Forall2 is_row l rows -> (forall x r, is_row x r -> cond r = q x) ->
  Forall2 is_row (List.filter q l) (List.filter cond rows).
Proof.
  intros Hl Hq. induction Hl as [|x r l rows Hx _ IH]; [done|]. cbn. rewrite (Hq x r Hx).
  destruct (q x); [by constructor|done].
Qed.

Lemma select_rows {A} (is_row : A -> row -> Prop) cols tcols name cond q order db l rows :
  db !! name = Some (mkTable tcols rows) -> Forall2 is_row l rows ->
  forallb (fun c => existsb (fun col => String.eqb c col.1) tcols) cols = true ->
  (forall x r, is_row x r -> cond r = q x) -> (forall l, order l ≡ₚ l) ->
  exists l', select cols name cond order db =
      Ok (map (project cols) (order (List.filter cond rows))) /\
    l' ≡ₚ List.filter q l /\ Forall2 is_row l' (order (List.filter cond rows)).
Proof.
  intros Hdb Hl Hcols Hq Ho. pose proof (filter_rows is_row cond q l rows Hl Hq) as Hf.
  apply Forall2_flip in Hf.
  destruct (Permutation_Forall2 (symmetry (Ho (List.filter cond rows))) Hf) as (l' & Hp & Hl').
  exists l'. split; [|split; [done|by apply Forall2_flip]].
  unfold select. rewrite Hdb. cbn [t_columns t_rows]. by rewrite Hcols.
Qed.

Lemma select_one {A} (is_row : A -> row -> Prop) cols tcols name cond q db l rows x :
  db !! name = Some (mkTable tcols rows) -> Forall2 is_row l rows ->
  forallb (fun c => existsb (fun col => String.eqb c col.1) tcols) cols = true ->
  (forall x r, is_row x r -> cond r = q x) ->
  In x l -> q x = true -> (forall y, In y l -> q y = true -> y = x) ->
  exists r, fetch_one (select cols name cond scan db) = Ok (project cols r) /\ is_row x r.
Proof.
  intros Hdb Hl Hcols Hq Hin Hx Huniq.
  destruct (select_rows is_row cols tcols name cond q scan db l rows Hdb Hl Hcols Hq scan_perm)
    as (l' & Hs & Hp & Hl').
  destruct l' as [|y l'].
  { assert (In x (List.filter q l)) as Hx' by by apply filter_In.
    eapply Permutation_in in Hx'; [|symmetry; exact Hp]. destruct Hx'. }
  assert (y = x) as ->.
  { assert (In y (List.filter q l)) as Hy by (eapply Permutation_in; [exact Hp|by left]).
    apply filter_In in Hy as [? ?]. by apply Huniq. }
  inversion Hl' as [|? r ? rs Hr Hrs Hx1 Hx2]. subst. exists r. split; [|done].
  unfold fetch_one. rewrite Hs. rewrite <- Hx2. reflexivity.
Qed.

(** Identifiers that the clients draw are distinct. *)
Definition distinct {A} (key : A -> Z) (l : list A) : Prop :=
  forall x y, In x l -> In y l -> key x = key y -> x = y.

Lemma holds_uuid_eq c u (r : row) v :
  r !! c = Some (VUuid v) -> holds c OpEq (VUuid u) r = (v =? u).
Proof. intros E. unfold holds. by rewrite E. Qed.

Lemma find_process_ok db l rows p :
  db !! "processes" = Some (mkTable processes_columns rows) -> Forall2 is_process_row l rows ->
  In p l -> distinct process_id l -> find_process db (process_id p) = Ok p.
Proof.
  intros Hdb Hl Hin Hd. unfold find_process.
  destruct (select_one is_process_row process_query processes_columns "processes"
    (holds "process_id" OpEq (VUuid (process_id p))) (fun x => process_id x =? process_id p) db l rows p)
    as (r & Hr & Hp); [done|done|reflexivity| |done|apply Z.eqb_refl| |].
  - intros x r (E & _). by apply holds_uuid_eq.
  - intros y Hy E. apply Hd; [done|done|]. by apply Z.eqb_eq.
  - unfold process_query in Hr at 1. rewrite Hr. cbn [with_context mbind exec_bind].
    by apply process_from_process_row.
Qed.

Lemma find_stream_ok db l rows s :
  db !! "streams" = Some (mkTable streams_columns rows) -> Forall2 is_stream_row l rows ->
  In s l -> distinct si_stream_id l -> find_stream db (si_stream_id s) = Ok s.
Proof.
  intros Hdb Hl Hin Hd. unfold find_stream.
  destruct (select_one is_stream_row
    ["process_id"; "dependencies_metadata"; "objects_metadata"; "tags"; "properties"]
    streams_columns "streams"
    (holds "stream_id" OpEq (VUuid (si_stream_id s))) (fun x => si_stream_id x =? si_stream_id s)
    db l rows s) as (r & Hr & Hs); [done|done|reflexivity| |done|apply Z.eqb_refl| |].
  - intros x r (E & _). by apply holds_uuid_eq.
  - intros y Hy E. apply Hd; [done|done|]. by apply Z.eqb_eq.
  - rewrite Hr. cbn [with_context mbind exec_bind].
    destruct Hs as (E1 & E2 & E3 & (pl & E4 & Hpl) & (b1 & E5 & H5) & (b2 & E6 & H6)).
    repeat read_column. rewrite H5. cbn [with_context mbind exec_bind].
    repeat read_column. rewrite H6. cbn [with_context mbind exec_bind].
    repeat read_column. rewrite Hpl. by destruct s.
Qed.

Definition block_query : list string :=
  ["block_id"; "stream_id"; "process_id"; "begin_time"; "begin_ticks"; "end_time";
   "end_ticks"; "nb_objects"; "object_offset"; "payload_size"].

Lemma map_row_block_ok m r :
  is_block_row m r -> map_row_block (project block_query r) = Ok m.
Proof.
  intros (E1 & E2 & E3 & E4 & E5 & E6 & E7 & E8 & E9 & E10).
  unfold map_row_block, block_query. repeat read_column. by destruct m.
Qed.

Lemma map_rows_ok {A} (f : row -> exec A) (g : row -> row) (is_row : A -> row -> Prop) l rows :
  (forall x r, is_row x r -> f (g r) = Ok x) -> Forall2 is_row l rows ->
  map_rows f (map g rows) = Ok l.
Proof.
  intros Hf Hl. induction Hl as [|x r l rows Hx _ IH]; [done|]. cbn. rewrite (Hf x r Hx).
  cbn. by rewrite IH.
Qed.

(** The blocks of a stream that a range of ticks meets *)
Definition in_range_block (stream_id begin_ticks end_ticks : Z) (m : BlockMetadata) : bool :=
  (bm_stream_id m =? stream_id) && (bm_begin_ticks m <=? end_ticks)
  && (begin_ticks <=? bm_end_ticks m).

Lemma find_blocks_ok db l rows stream_id begin_ticks end_ticks :
  db !! "blocks" = Some (mkTable blocks_columns rows) -> Forall2 is_block_row l rows ->
  exists l', find_stream_blocks_in_range db stream_id begin_ticks end_ticks = Ok l' /\
    l' ≡ₚ List.filter (in_range_block stream_id begin_ticks end_ticks) l /\
    Sorted (fun x y => bm_begin_ticks x <= bm_begin_ticks y) l'.
Proof.
  intros Hdb Hl. unfold find_stream_blocks_in_range.
  destruct (select_rows is_block_row block_query blocks_columns "blocks"
    (fun r => holds "stream_id" OpEq (VUuid stream_id) r
              && holds "begin_ticks" OpLe (VBigint end_ticks) r
              && holds "end_ticks" OpGe (VBigint begin_ticks) r)
    (in_range_block stream_id begin_ticks end_ticks) (order_by begin_ticks_key) db l rows Hdb Hl
    eq_refl) as (l' & Hs & Hp & Hl').
  - intros x r (_ & E1 & _ & _ & _ & E2 & E3 & _). unfold holds, in_range_block.
    by rewrite E1, E2, E3.
  - apply order_by_perm.
  - exists l'. unfold block_query in Hs at 1. rewrite Hs. cbn [with_context mbind exec_bind].
    split; [by eapply map_rows_ok; [apply map_row_block_ok|]|]. split; [done|].
    pose proof (order_by_sorted begin_ticks_key (List.filter (fun r =>
      holds "stream_id" OpEq (VUuid stream_id) r && holds "begin_ticks" OpLe (VBigint end_ticks) r
      && holds "end_ticks" OpGe (VBigint begin_ticks) r) rows)) as Hsort.
    clear - Hl' Hsort. induction Hl' as [|x r l' rs Hx Hl' IH]; [constructor|].
    inversion Hsort as [|? ? Hs' Hhd]; subst. constructor; [by apply IH|].
    inversion Hl' as [|y r' ? ? Hy]; subst; constructor. inversion Hhd as [|? ? Hle]; subst.
    destruct Hx as (_ & _ & _ & _ & _ & E & _), Hy as (_ & _ & _ & _ & _ & E' & _).
    unfold begin_ticks_key in Hle. by rewrite E, E' in Hle.
Qed.
End queries.

(** ** Ingestion *)
Section ingestion.
Context `{HCB : Cbor Block} `{HCP : Cbor BlockPayload} `{HCS : Cbor StreamInfo}.
Context `{HCI : Cbor ProcessInfo} `{HCU : Cbor (list UserDefinedType)} `{HC : !LawfulCbors}.
Context `{HR : Rfc3339} `{HT : Timestamptz} `{HU : LawfulUuidText} `{HP : LawfulObjectPath}.

Lemma payload_path_inj s p1 s1 b1 p2 s2 b2 :
  full_path s (payload_path p1 s1 b1) = full_path s (payload_path p2 s2 b2) ->
  p1 = p2 /\ s1 = s2 /\ b1 = b2.
Proof.
  intros E. apply (@path_from_inj _ HP) in E; [|done|done|..].
  - injection E as E1 E2 E3. split_and!; by apply uuid_to_string_inj.
  - repeat apply Forall_cons; try apply Forall_nil; try apply uuid_to_string_plain. by split.
  - repeat apply Forall_cons; try apply Forall_nil; try apply uuid_to_string_plain. by split.
Qed.

(** The metadata of a block, as it is stored *)
Definition stored_block (b : Block) (begin_time end_time : DateTime) (payload_size : Z) : BlockMetadata :=
  mkBlockMetadata (bk_block_id b) (bk_stream_id b) (bk_process_id b) (stored_time begin_time)
    (stored_time end_time) (bk_begin_ticks b) (bk_end_ticks b) (bk_nb_objects b) payload_size
    (bk_object_offset b).
Definition stored_process (p : ProcessInfo) : ProcessInfo :=
  mkProcessInfo (process_id p) (exe p) (username p) (realname p) (computer p) (distro p) (cpu_brand p)
    (tsc_frequency p) (stored_time (start_time p)) (start_ticks p) (parent_process_id p) (properties p).

(** The ranges of the fields of the structures *)
Definition block_in_range (b : Block) : Prop :=
  in_i 64 (bk_begin_ticks b) /\ in_i 64 (bk_end_ticks b) /\ in_i 32 (bk_nb_objects b) /\
  in_i 64 (bk_object_offset b).
Definition no_nul_in (m : gmap string string) : bool :=
  forallb (fun kv => no_nul kv.1 && no_nul kv.2) (map_to_list m).
Definition process_fits (p : ProcessInfo) : Prop :=
  Forall (fun s => char_length s <= 255 /\ no_nul s = true)
    [exe p; username p; realname p; computer p; distro p; cpu_brand p] /\
  no_nul_in (properties p) = true /\ in_i 64 (tsc_frequency p) /\ in_i 64 (start_ticks p).
Definition stream_fits (s : StreamInfo) : Prop :=
  forallb no_nul (si_tags s) = true /\ no_nul_in (si_properties s) = true.

Lemma accepts_bigint z : in_i 64 z -> accepts BIGINT (VBigint z) = true.
Proof. unfold in_i. cbn. intros [H1 H2]. apply andb_true_iff. split; lia. Qed.
Lemma accepts_int z : in_i 32 z -> accepts INT (VInt z) = true.
Proof. unfold in_i. cbn. intros [H1 H2]. apply andb_true_iff. split; lia. Qed.
Lemma accepts_varchar s : char_length s <= 255 /\ no_nul s = true -> accepts (VARCHAR 255) (VText s) = true.
Proof. intros [H1 H2]. unfold accepts. cbn [sendable]. rewrite H2. by apply Z.leb_le. Qed.
Lemma accepts_properties iter_map m :
  (forall m, iter_map m ≡ₚ map_to_list m) -> no_nul_in m = true ->
  accepts PROPERTY_ARRAY (VProperties (make_properties iter_map m)) = true.
Proof.
  intros Hit Hm. unfold accepts. cbn [sendable]. rewrite andb_true_r. unfold make_properties.
  apply forallb_forall. intros x Hx. apply in_map_iff in Hx as ([k v] & <- & Hx). cbn [pr_key pr_value].
  unfold no_nul_in in Hm. rewrite forallb_forall in Hm. apply (Hm (k, v)).
  apply list_elem_of_In. rewrite <- (Hit m). by apply list_elem_of_In.
Qed.

Lemma insert_row name tcols rows values db :
  db !! name = Some (mkTable tcols rows) -> all_accepted tcols values = true ->
  insert_into name values db =
  Ok (<[name := mkTable tcols (rows ++ [list_to_map (zip (map fst tcols) values)])]> db).
Proof. intros E Hacc. unfold insert_into. rewrite E. cbn [t_columns t_rows]. by rewrite make_row_ok. Qed.

Lemma has_payload_put s path b x :
  full_path s path <> full_path s (payload_path (bm_process_id x.1) (bm_stream_id x.1) (bm_block_id x.1)) ->
  has_payload s x -> has_payload (put s path b) x.
Proof.
  unfold has_payload, fetch_block_payload, read_blob. intros Hne <-. unfold put. cbn [blob_store].
  unfold full_path in *. cbn [blob_store_root]. by rewrite lookup_insert_ne.
Qed.

Lemma fetch_put s p st b bytes payload :
  from_reader bytes = Ok payload ->
  fetch_block_payload (put s (payload_path p st b) bytes) p st b = Ok payload.
Proof.
  intros Hr. unfold fetch_block_payload, read_blob, put, full_path. cbn [blob_store blob_store_root].
  rewrite lookup_insert_eq. cbn [with_context mbind exec_bind]. by rewrite Hr.
Qed.

Lemma insert_block_represents lake a b body bt et :
  represents lake a -> encode_cbor b = Ok body -> block_in_range b ->
  parse_from_rfc3339 (bk_begin_time b) = Ok bt -> parse_from_rfc3339 (bk_end_time b) = Ok et ->
  (forall x, In x (al_blocks a) -> bm_process_id x.1 = bk_process_id b ->
     bm_stream_id x.1 = bk_stream_id b -> bm_block_id x.1 <> bk_block_id b) ->
  exists bytes lake', encode_cbor (bk_payload b) = Ok bytes /\
    (blen bytes < 2 ^ 63 ->
     insert_block lake body = (lake', Ok tt) /\
     represents lake' (mkAbstract (al_processes a) (al_streams a)
       (al_blocks a ++ [(stored_block b bt et (blen bytes), bk_payload b)]))).
Proof.
  intros (Hpr & Hst & (rows & Hdb & Hrows) & Hpay) Henc (Hr1 & Hr2 & Hr3 & Hr4) Hbt Het Hfresh.
  destruct (cbor_round_trip b) as (body' & Hb1 & Hb2). rewrite Henc in Hb1. injection Hb1 as <-.
  destruct (cbor_round_trip (bk_payload b)) as (bytes & Hp1 & Hp2).
  set (path := payload_path (bk_process_id b) (bk_stream_id b) (bk_block_id b)).
  set (m := stored_block b bt et (blen bytes)).
  set (r := list_to_map (zip (map fst blocks_columns) (block_values b bt et (blen bytes))) : row).
  exists bytes, (mkDataLakeConnection
    (<["blocks" := mkTable blocks_columns (rows ++ [r])]> (db_pool lake))
    (put (blob_storage lake) path bytes)).
  split; [done|]. intros Hlen. split.
  - unfold insert_block, receive_block. rewrite Hb2. cbn [with_context mbind exec_bind].
    rewrite Hp1. cbn [mbind exec_bind]. rewrite Hbt. cbn [with_context mbind exec_bind].
    rewrite Het. cbn [with_context mbind exec_bind]. fold path.
    assert (in_i 64 (blen bytes)) as Hl.
    { pose proof (blen_nonneg bytes). unfold in_i. change (64 - 1) with 63. lia. }
    rewrite (wrap_i_id 64) by done. cbn [db_pool blob_storage].
    rewrite (insert_row _ _ _ _ _ Hdb); [done|]. unfold block_values, blocks_columns.
    cbn [all_accepted]. rewrite !accepts_bigint, accepts_int by done. done.
  - split_and!; cbn [db_pool blob_storage al_processes al_streams al_blocks].
    + destruct Hpr as (? & ? & ?). eexists. by rewrite lookup_insert_ne.
    + destruct Hst as (? & ? & ?). eexists. by rewrite lookup_insert_ne.
    + eexists. rewrite lookup_insert_eq. split; [done|]. rewrite map_app.
      apply Forall2_app; [done|]. constructor; [|constructor]. by split_and!.
    + apply Forall_app. split.
      * apply List.Forall_forall. intros x Hx. rewrite List.Forall_forall in Hpay.
        apply has_payload_put; [|by apply Hpay]. intros E.
        apply payload_path_inj in E as (E1 & E2 & E3). by eapply Hfresh.
      * constructor; [|constructor]. by apply fetch_put.
Qed.

(** A request that a sink sends, and the server's answer to it *)
Inductive request :=
| ReqProcess (p : ProcessInfo) (now : DateTime)
| ReqStream (s : StreamInfo) (now : DateTime)
| ReqBlock (b : Block).

Definition encoded {T} `{Cbor T} (x : T) : buffer := match encode_cbor x with Ok b => b | _ => [] end.
Definition serve (iter_map : gmap string string -> list (string * string))
    (lake : DataLakeConnection) (r : request) : DataLakeConnection :=
  match r with
  | ReqProcess p now => insert_process_request iter_map now lake (encoded p)
  | ReqStream s now => insert_stream_request iter_map now lake (encoded s)
  | ReqBlock b => insert_block_request lake (encoded b)
  end.

(** What it does to the abstract lake *)
Definition parsed_time (s : string) : DateTime :=
  match parse_from_rfc3339 s with Ok t => t | _ => 0 end.
Definition receive (a : abstract_lake) (r : request) : abstract_lake :=
  match r with
  | ReqProcess p _ => mkAbstract (al_processes a ++ [stored_process p]) (al_streams a) (al_blocks a)
  | ReqStream s _ => mkAbstract (al_processes a) (al_streams a ++ [received_stream s]) (al_blocks a)
  | ReqBlock b =>
      mkAbstract (al_processes a) (al_streams a)
        (al_blocks a ++
         [(stored_block b (parsed_time (bk_begin_time b)) (parsed_time (bk_end_time b))
             (blen (encoded (bk_payload b))), bk_payload b)])
  end.

(** What the server expects of a request: fields in the ranges of their types,
    texts without a byte 0 that fit their columns, times that are written in RFC 3339, and a
    block that has not been sent before. *)
Definition well_formed (a : abstract_lake) (r : request) : Prop :=
  match r with
  | ReqProcess p _ => process_fits p
  | ReqStream s _ => stream_fits s
  | ReqBlock b =>
      block_in_range b /\ encoded b <> [] /\ blen (encoded (bk_payload b)) < 2 ^ 63 /\
      is_Some (match parse_from_rfc3339 (bk_begin_time b) with Ok t => Some t | _ => None end) /\
      is_Some (match parse_from_rfc3339 (bk_end_time b) with Ok t => Some t | _ => None end) /\
      forall x, In x (al_blocks a) -> bm_process_id x.1 = bk_process_id b ->
        bm_stream_id x.1 = bk_stream_id b -> bm_block_id x.1 <> bk_block_id b
  end.
Fixpoint all_well_formed (a : abstract_lake) (rs : list request) : Prop :=
  match rs with
  | [] => True
  | r :: rs => well_formed a r /\ all_well_formed (receive a r) rs
  end.

Lemma received_twice l : map received (map received l) = map received l.
Proof. rewrite map_map. by apply map_ext. Qed.

Lemma insert_stream_represents lake a iter_map now s body :
  represents lake a -> (forall m, iter_map m ≡ₚ map_to_list m) -> encode_cbor s = Ok body ->
  stream_fits s ->
  exists lake', insert_stream iter_map now lake body = (lake', Ok tt) /\
    represents lake' (mkAbstract (al_processes a) (al_streams a ++ [received_stream s]) (al_blocks a)).
Proof.
  intros (Hpr & (rows & Hdb & Hrows) & Hbl & Hpay) Hit Henc [Htags Hprops].
  destruct (cbor_round_trip s) as (body' & Hb1 & Hb2). rewrite Henc in Hb1. injection Hb1 as <-.
  destruct (cbor_round_trip (si_dependencies_metadata (received_stream s))) as (bd & Hd1 & Hd2).
  destruct (cbor_round_trip (si_objects_metadata (received_stream s))) as (bo & Ho1 & Ho2).
  eexists. split.
  - unfold insert_stream. rewrite Hb2. cbn [with_context mbind exec_bind].
    rewrite Hd1. cbn [mbind exec_bind]. rewrite Ho1. cbn [mbind exec_bind].
    rewrite (insert_row _ _ _ _ _ Hdb); [reflexivity|]. unfold streams_columns. cbn [all_accepted].
    rewrite accepts_properties by done. unfold accepts. cbn [sendable].
    change (si_tags (received_stream s)) with (si_tags s). by rewrite Htags.
  - split_and!; cbn [db_pool blob_storage al_processes al_streams al_blocks].
    + destruct Hpr as (? & ? & ?). eexists. by rewrite lookup_insert_ne.
    + eexists. rewrite lookup_insert_eq. split; [done|].
      apply Forall2_app; [done|]. constructor; [|constructor]. split_and!; [done|done|done| | |].
      * eexists. split; [done|]. by apply into_hashmap_make_properties.
      * eexists. split; [done|]. rewrite Hd2. f_equal. apply received_twice.
      * eexists. split; [done|]. rewrite Ho2. f_equal. apply received_twice.
    + destruct Hbl as (? & ? & ?). eexists. by rewrite lookup_insert_ne.
    + exact Hpay.
Qed.

Lemma process_accepted p now iter_map :
  (forall m, iter_map m ≡ₚ map_to_list m) -> process_fits p ->
  all_accepted processes_columns
    [VUuid (process_id p); VText (exe p); VText (username p); VText (realname p); VText (computer p);
     VText (distro p); VText (cpu_brand p); VBigint (tsc_frequency p);
     VTimestamp (stored_time (start_time p)); VBigint (start_ticks p); VTimestamp (stored_time now);
     match parent_process_id p with Some u => VUuid u | None => VNull end;
     VProperties (make_properties iter_map (properties p))] = true.
Proof.
  intros Hit (Hf & Hp & Ht & Hs). unfold processes_columns. cbn [all_accepted].
  rewrite !accepts_bigint, accepts_properties by done.
  assert (forall s, In s [exe p; username p; realname p; computer p; distro p; cpu_brand p] ->
    accepts (VARCHAR 255) (VText s) = true) as Hv.
  { intros s Hin. apply accepts_varchar. by eapply List.Forall_forall in Hf. }
  rewrite !Hv by (cbn; tauto). by destruct (parent_process_id p).
Qed.

Lemma insert_process_represents lake a iter_map now p body :
  represents lake a -> (forall m, iter_map m ≡ₚ map_to_list m) -> encode_cbor p = Ok body ->
  process_fits p ->
  exists lake', insert_process iter_map now lake body = (lake', Ok tt) /\
    represents lake' (mkAbstract (al_processes a ++ [stored_process p]) (al_streams a) (al_blocks a)).
Proof.
  intros ((rows & Hdb & Hrows) & Hst & Hbl & Hpay) Hit Henc Hfit.
  destruct (cbor_round_trip p) as (body' & Hb1 & Hb2). rewrite Henc in Hb1. injection Hb1 as <-.
  eexists. split.
  - unfold insert_process. rewrite Hb2. cbn [with_context mbind exec_bind].
    rewrite (insert_row _ _ _ _ _ Hdb); [reflexivity|]. by apply process_accepted.
  - split_and!; cbn [db_pool blob_storage al_processes al_streams al_blocks].
    + eexists. rewrite lookup_insert_eq. split; [done|].
      apply Forall2_app; [done|]. constructor; [|constructor]. split_and!; try done.
      eexists. split; [done|]. by apply into_hashmap_make_properties.
    + destruct Hst as (? & ? & ?). eexists. by rewrite lookup_insert_ne.
    + destruct Hbl as (? & ? & ?). eexists. by rewrite lookup_insert_ne.
    + exact Hpay.
Qed.

Lemma encoded_ok {T} `{LawfulCbor T} (x : T) : encode_cbor x = Ok (encoded x).
Proof. unfold encoded. by destruct (cbor_round_trip x) as (b & -> & _). Qed.

Lemma serve_represents iter_map lake a r :
  (forall m, iter_map m ≡ₚ map_to_list m) -> represents lake a -> well_formed a r ->
  represents (serve iter_map lake r) (receive a r).
Proof.
  intros Hit Hl Hw. destruct r as [p now|s now|b]; cbn [serve receive].
  - destruct (insert_process_represents lake a iter_map now p _ Hl Hit (encoded_ok p) Hw)
      as (lake' & E & ?). unfold insert_process_request. by rewrite E.
  - destruct (insert_stream_represents lake a iter_map now s _ Hl Hit (encoded_ok s) Hw)
      as (lake' & E & ?). unfold insert_stream_request. by rewrite E.
  - destruct Hw as (Hr & Hne & Hlen & [bt Hbt] & [et Het] & Hf). unfold parsed_time.
    destruct (parse_from_rfc3339 (bk_begin_time b)) as [bt'| | | |] eqn:E1; try discriminate Hbt.
    destruct (parse_from_rfc3339 (bk_end_time b)) as [et'| | | |] eqn:E2; try discriminate Het.
    destruct (insert_block_represents lake a b _ bt' et' Hl (encoded_ok b) Hr E1 E2 Hf)
      as (bytes & lake' & Hb & H1). rewrite encoded_ok in Hb. injection Hb as <-.
    destruct (H1 Hlen) as [E H2]. unfold insert_block_request.
    destruct (encoded b) as [|x l]; [done|]. by rewrite E.
Qed.

Lemma serve_all_represents iter_map lake a rs :
  (forall m, iter_map m ≡ₚ map_to_list m) -> represents lake a -> all_well_formed a rs ->
  represents (foldl (serve iter_map) lake rs) (foldl receive a rs).
Proof.
  intros Hit. revert lake a. induction rs as [|r rs IH]; intros lake a Hl Hw; [done|].
  destruct Hw as [H1 H2]. cbn [foldl]. apply IH; [|done]. by apply serve_represents.
Qed.
End ingestion.

(** ** Migration *)
Definition migrated (db : Db) : Prop :=
  db = <["migration" := mkTable [("version", INT)] [{[ "version" := VInt 1 ]}]]>
         (<["blocks" := mkTable blocks_columns []]>
            (<["streams" := mkTable streams_columns []]>
               (<["processes" := mkTable processes_columns []]>
                  (<["micromegas_property" := mkTable property_columns []]> ∅)))).

Lemma select_scan_one `{LawfulSqlOrder} name tcols cols cond db r :
  db !! name = Some (mkTable tcols [r]) -> cond r = true ->
  forallb (fun c => existsb (fun col => String.eqb c col.1) tcols) cols = true ->
  fetch_one (select cols name cond scan db) = Ok (project cols r).
Proof.
  intros E Hc Hcols. unfold fetch_one, select. rewrite E. cbn [t_columns t_rows]. rewrite Hcols.
  cbn [List.filter]. rewrite Hc. pose proof (scan_perm [r]) as Hp.
  apply Permutation_singleton_r in Hp. by rewrite Hp.
Qed.

Lemma read_version_migrated `{LawfulSqlOrder} db :
  db !! "migration" = Some (mkTable [("version", INT)] [{[ "version" := VInt 1 ]}]) ->
  read_schema_version db = Ok 1.
Proof.
  intros E. unfold read_schema_version.
  by rewrite (select_scan_one "migration" [("version", INT)] ["version"] (fun _ => true) db _ E).
Qed.

Lemma read_version_none `{SqlOrder} db : db !! "migration" = None -> read_schema_version db = Ok 0.
Proof. intros E. unfold read_schema_version, select. by rewrite E. Qed.

Lemma migrate_empty `{LawfulSqlOrder} : exists db, migrate_db ∅ = Ok db /\ migrated db.
Proof.
  eexists. split; [|reflexivity]. unfold migrate_db. rewrite read_version_none by done.
  cbn [mbind exec_bind LATEST_SCHEMA_VERSION Z.eqb negb].
  unfold execute_migration. rewrite read_version_none by done. cbn [mbind exec_bind Z.eqb].
  assert (create_tables ∅ = Ok (<["migration" := mkTable [("version", INT)] [{[ "version" := VInt 1 ]}]]>
         (<["blocks" := mkTable blocks_columns []]>
            (<["streams" := mkTable streams_columns []]>
               (<["processes" := mkTable processes_columns []]>
                  (<["micromegas_property" := mkTable property_columns []]> ∅)))))) as -> by reflexivity.
  cbn [mbind exec_bind]. rewrite read_version_migrated by reflexivity. cbn [mbind exec_bind].
  unfold LATEST_SCHEMA_VERSION. cbn [Z.eqb Pos.eqb assert_true mbind exec_bind negb].
  rewrite read_version_migrated by reflexivity. reflexivity.
Qed.

Lemma migrate_again `{LawfulSqlOrder} db :
  db !! "migration" = Some (mkTable [("version", INT)] [{[ "version" := VInt 1 ]}]) ->
  migrate_db db = Ok db.
Proof. intros E. unfold migrate_db. by rewrite read_version_migrated. Qed.

Lemma represents_migrated `{Cbor (list UserDefinedType)} `{Cbor BlockPayload} `{UuidText} `{ObjectPath}
    db root :
  migrated db ->
  represents (mkDataLakeConnection db (mkBlobStorage ∅ root)) (mkAbstract [] [] []).
Proof. intros ->. split_and!; [exists []..|constructor]; by split. Qed.

(** ** Properties *)

(** C15. The ingestion implements the abstract lake: when the processes, streams
    and blocks that are sent are well formed ([all_well_formed]: names of 255
    characters at most, texts without a byte 0, integers of the widths of their
    columns, new blocks, times in RFC 3339), in whatever order, to a lake that
    was created by [migrate_db], the tables and the payloads represent exactly
    what was sent: times to the microsecond, properties as maps, metadata as the
    wire keeps them.  What is not well formed may be refused by the database,
    and is then not stored. *)
Theorem lake_refines `{LawfulCbors} `{Rfc3339} `{Timestamptz} `{LawfulUuidText} `{LawfulObjectPath}
    `{LawfulSqlOrder} iter_map root rs :
  (forall m, iter_map m ≡ₚ map_to_list m) -> all_well_formed (mkAbstract [] [] []) rs ->
  exists db, migrate_db ∅ = Ok db /\
    represents (foldl (serve iter_map) (mkDataLakeConnection db (mkBlobStorage ∅ root)) rs)
      (foldl receive (mkAbstract [] [] []) rs).
Proof.
  intros Hit Hw. destruct migrate_empty as (db & Hm & Hdb). exists db. split; [done|].
  apply serve_all_represents; [done| |done]. by apply represents_migrated.
Qed.

(** C16. The analytics find what the lake represents: the process and the
    stream with an identifier, the blocks of a stream that a range of ticks
    meets, sorted by their beginning, and the payload of each of them. *)
Theorem lake_queries `{Cbor (list UserDefinedType)} `{Cbor BlockPayload} `{UuidText} `{ObjectPath}
    `{LawfulSqlOrder} lake a :
  represents lake a -> distinct process_id (al_processes a) -> distinct si_stream_id (al_streams a) ->
  (forall p, In p (al_processes a) -> find_process (db_pool lake) (process_id p) = Ok p) /\
  (forall s, In s (al_streams a) -> find_stream (db_pool lake) (si_stream_id s) = Ok s) /\
  (forall stream_id begin_ticks end_ticks, exists l,
     find_stream_blocks_in_range (db_pool lake) stream_id begin_ticks end_ticks = Ok l /\
     l ≡ₚ List.filter (in_range_block stream_id begin_ticks end_ticks) (map fst (al_blocks a)) /\
     Sorted (fun x y => bm_begin_ticks x <= bm_begin_ticks y) l) /\
  (forall b, In b (al_blocks a) ->
     fetch_block_payload (blob_storage lake) (bm_process_id b.1) (bm_stream_id b.1) (bm_block_id b.1)
       = Ok b.2).
Proof.
  intros ((pr & Hpr & Hp) & (sr & Hsr & Hs) & (br & Hbr & Hb) & Hpay) Hdp Hds. split_and!.
  - intros p Hin. by eapply find_process_ok.
  - intros s Hin. by eapply find_stream_ok.
  - intros. by eapply find_blocks_ok.
  - intros b Hin. by eapply (proj1 (List.Forall_forall _ _)) in Hpay.
Qed.

(** Migrating is idempotent: it creates the schema of an empty database,
    and does nothing to a database whose schema is the latest one. *)
Theorem migrate_db_idempotent `{LawfulSqlOrder} :
  exists db, migrate_db ∅ = Ok db /\ migrated db /\ migrate_db db = Ok db.
Proof.
  destruct migrate_empty as (db & Hm & Hdb). exists db. split; [done|]. split; [done|].
  apply migrate_again. by rewrite Hdb.
Qed.
