(* ===== verification/LibQueries.v ===== *)
(** * The queries of lib.rs

    The functions of [analytics/src/lib.rs] that query the database, and
    [delete_old_blocks] of [telemetry-admin-cli/src/lake_size.rs].  No request
    of a server calls them.  Their statements are checked against the schema
    that the ingestion creates. *)

From S2P Require Import Prelude RustString Transit Parser PodParser Blocks Time Stream Wire.
From S2P Require Import Sql Statement Lake Metadata LakeSpec.

(** [serde_json::from_str] at a map of strings *)
Class JsonMap := json_map_from_str : string -> option (gmap string string).

(** ** lib.rs *)
Section lib.
Context `{JoinedOrder} `{Dialect} `{JsonMap} `{Cbor (list UserDefinedType)}.

Definition process_items (process_id : item) : list item :=
  process_id :: map column ["exe"; "username"; "realname"; "computer"; "distro"; "cpu_brand";
    "tsc_frequency"; "start_time"; "start_ticks"; "parent_process_id"].
Definition recent : option (expr * direction) := Some (Col None "start_time", Desc).

(** The [%keyword%] that is bound *)
Definition substring_pattern (keyword : string) : sql_value :=
  VText (String.append "%" (String.append keyword "%")).

Definition processes_by_name_substring (db : Db) (filter : string) : exec (list ProcessInfo) :=
  rows ← execute
    (mkStatement (process_items (column "process_id")) [from "processes"]
       (LikePattern (Col None "exe") (Param 0)) recent (Some 100%nat))
    [substring_pattern filter] db;
  map_rows process_from_row rows.

Definition find_block_process (db : Db) (block_id : string) : exec ProcessInfo :=
  row ← fetch_one (execute
    (mkStatement (process_items (Item (Col (Some "processes") "process_id") "process_id"))
       [from "processes"; from "streams"; from "blocks"]
       (And (Equal (Col (Some "blocks") "block_id") (Param 0))
       (And (Equal (Col (Some "blocks") "stream_id") (Col (Some "streams") "stream_id"))
            (Equal (Col (Some "processes") "process_id") (Col (Some "streams") "process_id"))))
       None None)
    [VText block_id] db);
  process_from_row row.

Definition list_recent_processes (db : Db) (parent_process_id : option string) : exec (list ProcessInfo) :=
  rows ← execute
    (mkStatement (process_items (column "process_id")) [from "processes"]
       (LikePattern (Col None "parent_process_id") (Param 0)) recent (Some 100%nat))
    [VText (default "''" parent_process_id)] db;
  map_rows process_from_row rows.

Definition search_processes (db : Db) (keyword : string) : exec (list ProcessInfo) :=
  rows ← execute
    (mkStatement (process_items (column "process_id")) [from "processes"]
       (Or (LikePattern (Col None "exe") (Param 0))
       (Or (LikePattern (Col None "username") (Param 1))
           (LikePattern (Col None "computer") (Param 2))))
       recent (Some 100%nat))
    [substring_pattern keyword; substring_pattern keyword; substring_pattern keyword] db;
  map_rows process_from_row rows.

Definition fetch_child_processes (db : Db) (parent_process_id : Uuid) : exec (list ProcessInfo) :=
  rows ← execute
    (mkStatement (process_items (column "process_id")) [from "processes"]
       (Equal (Col None "parent_process_id") (Param 0)) recent None)
    [VUuid parent_process_id] db;
  map_rows process_from_row rows.

(** [r.get("column")]: [try_get] and [unwrap] *)
Definition must {A} (m : exec A) : exec A := match m with Err _ => Panic | m => m end.

Definition stream_items (stream_id : item) : list item :=
  stream_id :: map column ["process_id"; "dependencies_metadata"; "objects_metadata"; "tags"; "properties"].
(** The body of the loops: the properties are read as a text. *)
Definition stream_from_row (r : row) : exec StreamInfo :=
  stream_id ← must (get_uuid r "stream_id");
  dependencies_metadata_buffer ← must (get_bytes r "dependencies_metadata");
  dependencies_metadata ← with_context "decoding dependencies metadata"
    (from_reader dependencies_metadata_buffer);
  objects_metadata_buffer ← must (get_bytes r "objects_metadata");
  objects_metadata ← with_context "decoding objects metadata" (from_reader objects_metadata_buffer);
  tags ← must (get_text_array r "tags");
  properties_str ← must (get_text r "properties");
  properties ← unwrap (json_map_from_str properties_str);
  process_id ← must (get_uuid r "process_id");
  Ok (mkStreamInfo process_id stream_id dependencies_metadata objects_metadata tags properties).

Definition find_process_streams_tagged (db : Db) (process_id : Uuid) (tag : string)
  : exec (list StreamInfo) :=
  rows ← with_context "fetch_all in find_process_streams_tagged"
    (execute
      (mkStatement (stream_items (column "stream_id")) [from "streams"]
         (And (LikePattern (Col None "tags") (Param 0)) (Equal (Col None "process_id") (Param 1)))
         None None)
      [substring_pattern tag; VUuid process_id] db);
  map_rows stream_from_row rows.

Definition find_process_streams (db : Db) (process_id : string) : exec (list StreamInfo) :=
  rows ← with_context "fetch_all in find_process_streams"
    (execute
      (mkStatement (stream_items (column "stream_id")) [from "streams"]
         (Equal (Col None "process_id") (Param 0)) None None)
      [VText process_id] db);
  map_rows stream_from_row rows.

Definition find_process_blocks (db : Db) (process_id tag : string) : exec (list BlockMetadata) :=
  rows ← with_context "find_process_blocks"
    (execute
      (mkStatement [AllOf "B"]
         [mkSource "streams" "S" None;
          mkSource "blocks" "B" (Some (Equal (Col (Some "S") "stream_id") (Col (Some "B") "stream_id")))]
         (And (Equal (Col (Some "S") "process_id") (Param 0))
         (And (LikePattern (Col (Some "S") "tags") (Param 1))
              (IsNotNull (Col (Some "B") "block_id"))))
         None None)
      [VText process_id; substring_pattern tag] db);
  map_rows map_row_block rows.

Definition find_process_log_streams (db : Db) (process_id : Uuid) : exec (list StreamInfo) :=
  find_process_streams_tagged db process_id "log".
Definition find_process_thread_streams (db : Db) (process_id : Uuid) : exec (list StreamInfo) :=
  find_process_streams_tagged db process_id "cpu".
Definition find_process_metrics_streams (db : Db) (process_id : Uuid) : exec (list StreamInfo) :=
  find_process_streams_tagged db process_id "metrics".

Definition find_block_stream (db : Db) (block_id : string) : exec StreamInfo :=
  row ← with_context "find_block_stream"
    (fetch_one (execute
      (mkStatement (stream_items (Item (Col (Some "streams") "stream_id") "stream_id"))
         [from "streams"; from "blocks"]
         (And (Equal (Col (Some "streams") "stream_id") (Col (Some "blocks") "stream_id"))
              (Equal (Col (Some "blocks") "block_id") (Param 0)))
         None None)
      [VText block_id] db));
  dependencies_metadata_buffer ← must (get_bytes row "dependencies_metadata");
  dependencies_metadata ← with_context "decoding dependencies metadata"
    (from_reader dependencies_metadata_buffer);
  objects_metadata_buffer ← must (get_bytes row "objects_metadata");
  objects_metadata ← with_context "decoding objects metadata" (from_reader objects_metadata_buffer);
  tags ← must (get_text_array row "tags");
  properties_str ← must (get_text row "properties");
  properties ← unwrap (json_map_from_str properties_str);
  stream_id ← must (get_uuid row "stream_id");
  process_id ← must (get_uuid row "process_id");
  Ok (mkStreamInfo process_id stream_id dependencies_metadata objects_metadata tags properties).

Definition block_items : list item :=
  map column ["block_id"; "stream_id"; "begin_time"; "begin_ticks"; "end_time"; "end_ticks"; "nb_objects";
    "object_offset"; "payload_size"].

Definition find_block (db : Db) (block_id : string) : exec BlockMetadata :=
  row ← with_context "find_block"
    (fetch_one (execute
      (mkStatement block_items [from "blocks"] (Equal (Col None "block_id") (Param 0)) None None)
      [VText block_id] db));
  map_row_block row.

Definition find_stream_blocks (db : Db) (stream_id : Uuid) : exec (list BlockMetadata) :=
  rows ← with_context "find_stream_blocks"
    (execute
      (mkStatement block_items [from "blocks"] (Equal (Col None "stream_id") (Param 0))
         (Some (Col None "begin_time", Asc)) None)
      [VUuid stream_id] db);
  map_rows map_row_block rows.

(** ** lake_size.rs

    The loop stops at the first error, and what it has deleted stays so. *)
Context `{ObjectPath}.
Fixpoint delete_blocks (rows : list row) (lake : DataLakeConnection) : DataLakeConnection * exec unit :=
  match rows with
  | [] => (lake, Ok tt)
  | r :: rows =>
      match
        (process_id ← get_text r "process_id";
         stream_id ← get_text r "stream_id";
         block_id ← get_text r "block_id";
         Ok (String.concat "/" ["blobs"; process_id; stream_id; block_id], block_id))
      with
      | Ok (path, block_id) =>
          let lake := mkDataLakeConnection (db_pool lake) (delete_blob (blob_storage lake) path) in
          match execute_delete "blocks" (Equal (Col None "block_id") (Param 0)) [VText block_id] (db_pool lake) with
          | Ok db => delete_blocks rows (mkDataLakeConnection db (blob_storage lake))
          | Err l => (lake, Err l)
          | _ => (lake, Panic)
          end
      | Err l => (lake, Err l)
      | _ => (lake, Panic)
      end
  end.

Definition delete_old_blocks (lake : DataLakeConnection) (min_days_old : Z) : DataLakeConnection * exec unit :=
  match
    execute
      (mkStatement
         [Item (Col (Some "blocks") "block_id") "block_id";
          Item (Col (Some "payloads") "block_id") "payload_block_id"]
         [from "processes"; from "streams"; from "blocks";
          mkSource "payloads" "payloads"
            (Some (Equal (Col (Some "blocks") "block_id") (Col (Some "payloads") "block_id")))]
         (And (Equal (Col (Some "streams") "process_id") (Col (Some "processes") "process_id"))
         (And (Equal (Col (Some "blocks") "stream_id") (Col (Some "streams") "stream_id"))
              (AtLeast (Call "DATEDIFF" [Call "NOW" []; Col (Some "processes") "start_time"]) (Param 0))))
         None None)
      [VInt min_days_old] (db_pool lake)
  with
  | Ok rows => delete_blocks rows lake
  | Err l => (lake, Err l)
  | _ => (lake, Panic)
  end.
End lib.

(** ** What they return *)
Definition fails {A} (m : exec A) : Prop := exists msgs, m = Err msgs.
Definition nothing {A} (m : exec (list A)) : Prop := m = Ok [] \/ fails m.

Lemma fails_bind {A B} (m : exec A) (f : A -> exec B) : fails m -> fails (m ≫= f).
Proof. intros [l ->]. by exists l. Qed.
Lemma fails_context {A} msg (m : exec A) : fails m -> fails (with_context msg m).
Proof. intros [l ->]. by eexists. Qed.
Lemma fails_fetch_one rows : fails rows -> fails (fetch_one rows).
Proof. intros Hf. by apply fails_bind. Qed.
Create HintDb mm_fails discriminated.
#[export] Hint Resolve fails_bind fails_context fails_fetch_one : mm_fails.

(** Reading a column never panics. *)
Lemma try_get_cases {T} `{SqlDecode T} r c : (exists x : T, try_get r c = Ok x) \/ fails (try_get (T := T) r c).
Proof. unfold try_get, fails, bail. repeat case_match; eauto. Qed.
Lemma try_get_None {T} `{SqlDecode T} (r : row) c : r !! c = None -> fails (try_get (T := T) r c).
Proof. unfold try_get. intros ->. by eexists. Qed.
Lemma get_bind {T B} `{SqlDecode T} r c (f : T -> exec B) :
  (forall x, fails (f x)) -> fails (try_get r c ≫= f).
Proof. intros Hf. destruct (try_get_cases (T := T) r c) as [[x ->]|Hx]; [apply Hf|by apply fails_bind]. Qed.

Lemma process_needs_properties r : r !! "properties" = None -> fails (process_from_row r).
Proof. intros Hr. unfold process_from_row. apply fails_bind. by apply try_get_None. Qed.
Lemma block_needs_process r : r !! "process_id" = None -> fails (map_row_block r).
Proof. intros Hr. unfold map_row_block. do 2 (apply get_bind; intros ?). apply fails_bind. by apply try_get_None. Qed.

Lemma map_rows_nothing {A} (f : row -> exec A) rows :
  Forall (fun r => fails (f r)) rows -> nothing (map_rows f rows).
Proof. intros [|r rows' Hr _]; [by left|]. right. by apply fails_bind. Qed.

Lemma nothing_context {A B} msg (m : exec A) (f : A -> exec (list B)) :
  nothing (m ≫= f) -> nothing (with_context msg m ≫= f).
Proof. destruct m; try done. intros _. right. by eexists. Qed.

Section lib_spec.
Context `{JoinedOrder} `{Dialect}.

(** A statement that is not prepared is not run. *)
Lemma execute_fails st params db : fails (prepare st params db) -> fails (execute st params db).
Proof. intros Hf. by apply fails_bind. Qed.
Lemma prepare_fails st params db :
  (question_mark = true -> fails (prepare st params db)) -> fails (prepare st params db).
Proof.
  intros Hp. destruct question_mark eqn:E; [by apply Hp|]. unfold prepare. rewrite E. by eexists.
Qed.

(** An answer without a column that the reader of its rows needs *)
Lemma execute_nothing {A} st params db (f : row -> exec A) name :
  (exists sc, prepare st params db = Ok sc) \/ fails (prepare st params db) ->
  (forall e alias, In (Item e alias) (sm_items st) -> alias <> name) ->
  (forall a, ~ In (AllOf a) (sm_items st)) ->
  (forall r, r !! name = None -> fails (f r)) ->
  nothing (rows ← execute st params db; map_rows f rows).
Proof.
  intros Hp Hn Ha Hf. destruct Hp as [[sc Hp]|Hp]; [|right; by apply fails_bind, execute_fails].
  unfold execute. rewrite Hp. cbn [mbind exec_bind]. apply map_rows_nothing, List.Forall_map, List.Forall_forall.
  intros j _. apply Hf. by apply project_items_None.
Qed.
End lib_spec.

(** The schema of the lake, as far as the statements see it *)
Definition has_schema (db : Db) : Prop :=
  t_columns <$> db !! "processes" = Some processes_columns /\
  t_columns <$> db !! "streams" = Some streams_columns /\
  t_columns <$> db !! "blocks" = Some blocks_columns /\
  db !! "payloads" = None.

Lemma schema_tables db :
  has_schema db ->
  exists ps ss bs, db !! "processes" = Some (mkTable processes_columns ps) /\
    db !! "streams" = Some (mkTable streams_columns ss) /\
    db !! "blocks" = Some (mkTable blocks_columns bs) /\ db !! "payloads" = None.
Proof.
  intros (H1 & H2 & H3 & H4).
  destruct (db !! "processes") as [[c1 r1]|]; [|discriminate]. injection H1 as H1. cbn in H1. subst c1.
  destruct (db !! "streams") as [[c2 r2]|]; [|discriminate]. injection H2 as H2. cbn in H2. subst c2.
  destruct (db !! "blocks") as [[c3 r3]|]; [|discriminate]. injection H3 as H3. cbn in H3. subst c3.
  by exists r1, r2, r3.
Qed.

(** Prepare a statement of the schema by computation. *)
Ltac prepare_step Hdb :=
  destruct (schema_tables _ Hdb) as (ps & ss & bs & E1 & E2 & E3 & E4);
  apply execute_fails, prepare_fails; intros Eq; unfold prepare; rewrite Eq;
  cbn [negb make_scope sm_from from so_table so_alias]; rewrite ?E1, ?E2, ?E3, ?E4;
  vm_compute; by eexists.
(** An answer of the schema that lacks a column *)
Ltac nothing_step Hdb name lemma :=
  apply (execute_nothing _ _ _ _ name);
  [destruct (schema_tables _ Hdb) as (ps & ss & bs & E1 & E2 & E3 & E4);
   destruct question_mark eqn:Eq; [left|right]; unfold prepare; rewrite Eq; [|by eexists];
   cbn [negb make_scope sm_from from so_table so_alias]; rewrite ?E1, ?E2, ?E3, ?E4;
   eexists; vm_compute; reflexivity
  |intros e alias Hin; repeat (destruct Hin as [[= <- <-]|Hin]; [discriminate|]); destruct Hin
  |intros a Hin; repeat (destruct Hin as [[=]|Hin]); destruct Hin
  |apply lemma].

(** A statement with [?], for a database where it is not a placeholder *)
Lemma refused {A} `{JoinedOrder} `{Dialect} st params db (f : list row -> exec A) :
  question_mark = false -> fails (rows ← execute st params db; f rows).
Proof. intros E. apply fails_bind, execute_fails, prepare_fails. by rewrite E. Qed.

Lemma delete_refused `{JoinedOrder} `{Dialect} `{ObjectPath} lake min_days_old :
  has_schema (db_pool lake) ->
  exists msgs, delete_old_blocks lake min_days_old = (lake, Err msgs).
Proof.
  intros Hdb. unfold delete_old_blocks.
  assert (forall m : exec (list row), fails m -> exists msgs,
    match m with Ok rows => delete_blocks rows lake | Err l => (lake, Err l) | _ => (lake, Panic) end
    = (lake, Err msgs)) as Hm by (intros m [l ->]; by exists l).
  apply Hm. prepare_step Hdb.
Qed.

(** ** Properties *)

(** C23. No query of lib.rs ever returns anything.  With the schema that the
    ingestion creates, whatever the rows, most statements are refused before
    they run: they compare an identifier or an array with a text, or name a
    column of two tables, or a table or a function that does not exist.  The
    others do not select a column that is read in every row: they fail, or
    find nothing.  [delete_old_blocks] deletes nothing.  In PostgreSQL, where
    [?] is not a placeholder, all of them are refused. *)
Theorem lib_queries_fail `{JoinedOrder} `{Dialect} `{JsonMap} `{Cbor (list UserDefinedType)} `{ObjectPath}
    lake text (id : Uuid) tag parent min_days_old :
  let db := db_pool lake in
  has_schema db ->
  fails (find_block db text) /\ fails (find_block_process db text) /\ fails (find_block_stream db text) /\
  fails (find_process_streams db text) /\ fails (find_process_streams_tagged db id tag) /\
  fails (find_process_blocks db text tag) /\ fails (list_recent_processes db parent) /\
  fst (delete_old_blocks lake min_days_old) = lake /\ fails (snd (delete_old_blocks lake min_days_old)) /\
  nothing (find_stream_blocks db id) /\ nothing (processes_by_name_substring db text) /\
  nothing (search_processes db text) /\ nothing (fetch_child_processes db id) /\
  (question_mark = false ->
   fails (find_stream_blocks db id) /\ fails (processes_by_name_substring db text) /\
   fails (search_processes db text) /\ fails (fetch_child_processes db id)).
Proof.
  intros db Hdb. unfold find_block, find_block_process, find_block_stream, find_process_streams,
    find_process_streams_tagged, find_process_blocks, list_recent_processes.
  destruct (delete_refused lake min_days_old Hdb) as [msgs ->].
  unfold find_stream_blocks, processes_by_name_substring, search_processes, fetch_child_processes.
  split_and!.
  1-7: apply fails_bind; repeat apply fails_context; try apply fails_fetch_one; prepare_step Hdb.
  - done.
  - by eexists.
  - apply nothing_context. nothing_step Hdb "process_id" block_needs_process.
  - nothing_step Hdb "properties" process_needs_properties.
  - nothing_step Hdb "properties" process_needs_properties.
  - nothing_step Hdb "properties" process_needs_properties.
  - intros E. split_and!; try by apply refused.
    apply fails_bind, fails_context, execute_fails, prepare_fails. by rewrite E.
Qed.

(** *** A lake with a block *)
Module LibExample.
#[export] Instance given_order : JoinedOrder := {| joined_scan l := l; joined_order_by _ l := l |}.
#[export] Instance question_dialect : Dialect :=
  {| question_mark := true; like s p := String.eqb s p; sql_now := 0 |}.
#[export] Instance no_json : JsonMap := fun _ => None.
#[export] Instance no_cbor : Cbor (list UserDefinedType) :=
  {| encode_cbor _ := bail "unsupported"; from_reader _ := bail "unsupported" |}.
#[export] Instance same_path : ObjectPath := fun s => s.
Definition block : row :=
  {[ "block_id" := VUuid 9; "stream_id" := VUuid 8; "process_id" := VUuid 7; "begin_time" := VTimestamp 0;
     "begin_ticks" := VBigint 0; "end_time" := VTimestamp 1; "end_ticks" := VBigint 1; "nb_objects" := VInt 1;
     "object_offset" := VBigint 0; "payload_size" := VBigint 10 ]}.
Definition db : Db :=
  {[ "processes" := mkTable processes_columns []; "streams" := mkTable streams_columns [];
     "blocks" := mkTable blocks_columns [block] ]}.
Definition lake : DataLakeConnection := mkDataLakeConnection db (mkBlobStorage ∅ "root").
(** The statement of [find_stream_blocks] finds the block, without its process. *)
Definition answer : exec (list row) :=
  execute (mkStatement block_items [from "blocks"] (Equal (Col None "stream_id") (Param 0))
    (Some (Col None "begin_time", Asc)) None) [VUuid 8] db.
Lemma answer_is_block :
  (rows ← answer; Ok (map (fun r : row => (r !! "block_id", r !! "payload_size", r !! "process_id")) rows)) =
  Ok [(Some (VUuid 9), Some (VBigint 10), None)].
Proof. vm_compute. reflexivity. Qed.
End LibExample.
Import LibExample.

Lemma lib_queries_fail_witness :
  has_schema (db_pool lake) /\ fails (find_block (db_pool lake) "9") /\ nothing (find_stream_blocks (db_pool lake) 8) /\
  fst (delete_old_blocks lake 30) = lake.
Proof.
  assert (has_schema (db_pool lake)) as Hs by (split_and!; reflexivity).
  destruct (lib_queries_fail lake "9" 8 "log" None 30 Hs)
    as (Hb & _ & _ & _ & _ & _ & _ & Hd & _ & Hn & _).
  split; [exact Hs|]. split; [exact Hb|]. split; [exact Hn|exact Hd].
Defined.
