(* ===== verification/Codecs.v ===== *)
(** * Concrete libraries

    An implementation of every interface to a library, with its laws: they
    are consistent, and the theorems that assume them can be evaluated on
    examples.  The encodings are the simplest that can be decoded. *)

From Stdlib Require Import Strings.Ascii.
From stdpp Require Import countable sorting.
From S2P Require Import Prelude RustString Float Transit Queue Pod Parser PodParser Blocks.
From S2P Require Import Time Stream Wire Sql Lake Metadata LakeSpec.

(** ** Serializers: a value, and what follows it *)
Class Serial (T : Type) := { ser : T -> buffer; de : buffer -> option (T * buffer) }.
Class LawfulSerial (T : Type) `{Serial T} := de_ser (x : T) r : de (ser x ++ r) = Some (x, r).

Fixpoint ser_pos (p : positive) : buffer :=
  match p with xH => [x00] | xO p => x01 :: ser_pos p | xI p => x02 :: ser_pos p end.
Fixpoint de_pos (b : buffer) : option (positive * buffer) :=
  match b with
  | x00 :: b => Some (xH, b)
  | x01 :: b => '(p, b) ← de_pos b; Some (xO p, b)
  | x02 :: b => '(p, b) ← de_pos b; Some (xI p, b)
  | _ => None
  end.
#[export] Instance pos_serial : Serial positive := {| ser := ser_pos; de := de_pos |}.
#[export] Instance pos_lawful : LawfulSerial positive.
Proof. intros p r. change (de_pos (ser_pos p ++ r) = Some (p, r)). induction p as [p IH|p IH|]; cbn; by rewrite ?IH. Qed.

#[export] Instance Z_serial : Serial Z := {|
  ser (z : Z) := match z with Z0 => [x00] | Zpos p => x01 :: ser p | Zneg p => x02 :: ser p end;
  de b :=
    match b with
    | x00 :: b => Some (Z0, b)
    | x01 :: b => '(p, b) ← de (T:=positive) b; Some (Zpos p, b)
    | x02 :: b => '(p, b) ← de (T:=positive) b; Some (Zneg p, b)
    | _ => None
    end
|}.
#[export] Instance Z_lawful : LawfulSerial Z.
Proof. intros [|p|p] r; [done|..]; cbn - [ser_pos de_pos]; change de_pos with (de (T:=positive)); change ser_pos with (ser (T:=positive)); by rewrite de_ser. Qed.

#[export] Instance byte_serial : Serial byte := {|
  ser (x : byte) := [x]; de b := match b with x :: b => Some (x, b) | [] => None end
|}.
#[export] Instance byte_lawful : LawfulSerial byte.
Proof. by intros x r. Qed.

#[export] Instance bool_serial : Serial bool := {|
  ser (x : bool) := [if x then x01 else x00];
  de b := match b with x00 :: b => Some (false, b) | x01 :: b => Some (true, b) | _ => None end
|}.
#[export] Instance bool_lawful : LawfulSerial bool.
Proof. by intros [] r. Qed.

#[export] Instance pair_serial {A B} `{Serial A} `{Serial B} : Serial (A * B) := {|
  ser (p : A * B) := ser p.1 ++ ser p.2;
  de b := '(x, b) ← de (T:=A) b; '(y, b) ← de (T:=B) b; Some ((x, y), b)
|}.
#[export] Instance pair_lawful {A B} `{LawfulSerial A} `{LawfulSerial B} : LawfulSerial (A * B).
Proof. intros [x y] r. cbn. rewrite <- app_assoc, de_ser. cbn. by rewrite de_ser. Qed.

(** A byte before each element; [fuel] is the length of the buffer. *)
Fixpoint de_list {A} `{Serial A} (fuel : nat) (b : buffer) : option (list A * buffer) :=
  match fuel, b with
  | _, x00 :: b => Some ([], b)
  | S fuel, x01 :: b => '(x, b) ← de (T:=A) b; '(l, b) ← de_list fuel b; Some (x :: l, b)
  | _, _ => None
  end.
#[export] Instance list_serial {A} `{Serial A} : Serial (list A) := {|
  ser (l : list A) := concat (map (fun x => x01 :: ser x) l) ++ [x00];
  de b := de_list (length b) b
|}.
Lemma de_list_ser {A} `{LawfulSerial A} fuel (l : list A) r :
  (length (ser l) <= fuel)%nat -> de_list fuel (ser l ++ r) = Some (l, r).
Proof.
  revert fuel. induction l as [|x l IH]; intros fuel Hf; [by destruct fuel|]. cbn in *.
  rewrite !length_app in Hf. destruct fuel as [|fuel]; [lia|]. cbn [de_list].
  rewrite <- !app_assoc. rewrite de_ser. cbn [mbind option_bind]. rewrite app_assoc.
  change (concat _ ++ [x00]) with (ser l). rewrite IH; [done|]. cbn. rewrite !length_app in *. cbn in *. lia.
Qed.
#[export] Instance list_lawful {A} `{LawfulSerial A} : LawfulSerial (list A).
Proof. intros l r. cbn [de list_serial]. apply de_list_ser. rewrite length_app. lia. Qed.

(** A type that is described by another one *)
Definition serial_via {T U} `{Serial U} (to : T -> U) (back : U -> T) : Serial T := {|
  ser (x : T) := ser (to x); de b := '(u, b) ← de (T:=U) b; Some (back u, b)
|}.
Lemma serial_via_lawful {T U} `{LawfulSerial U} (to : T -> U) (back : U -> T) :
  (forall x, back (to x) = x) -> @LawfulSerial T (serial_via to back).
Proof. intros Hb x r. cbn. rewrite de_ser. cbn. by rewrite Hb. Qed.

#[export] Instance string_serial : Serial string := serial_via bytes_of string_of.
#[export] Instance string_lawful : LawfulSerial string.
Proof. apply serial_via_lawful, string_of_list_byte_of_string. Qed.
#[export] Instance option_serial {A} `{Serial A} : Serial (option A) :=
  serial_via (fun x => match x with Some x => [x] | None => [] end) (fun l => head l).
#[export] Instance option_lawful {A} `{LawfulSerial A} : LawfulSerial (option A).
Proof. apply serial_via_lawful. by intros []. Qed.
#[export] Instance map_serial : Serial (gmap string string) :=
  serial_via map_to_list list_to_map.
#[export] Instance map_lawful : LawfulSerial (gmap string string).
Proof. apply serial_via_lawful, list_to_map_to_list. Qed.

Definition cbor_via {T U} `{Serial U} (to : T -> U) (back : U -> T) : Cbor T := {|
  encode_cbor x := Ok (ser (to x));
  from_reader b := match de (T:=U) b with Some (u, []) => Ok (back u) | _ => bail "invalid cbor" end
|}.

Lemma cbor_via_lawful {T U} `{LawfulSerial U} (to : T -> U) (back : U -> T) (sent : T -> T) :
  (forall x, back (to x) = sent x) -> @LawfulCbor T (cbor_via to back) sent.
Proof.
  intros Hs x. eexists. split; [done|]. cbn. rewrite <- (app_nil_r (ser (to x))), de_ser. by rewrite Hs.
Qed.

(** ** Formats *)
Definition udt_to (u : UserDefinedType) : string * Z * list (string * string * Z * Z * bool) * bool :=
  (udt_name u, udt_size u,
   map (fun m => (m_name m, m_type_name m, m_offset m, m_size m, m_is_reference m)) (udt_members u),
   udt_is_reference u).
Definition udt_of (t : string * Z * list (string * string * Z * Z * bool) * bool) : UserDefinedType :=
  let '(name, size, members, is_ref) := t in
  mkUDT name size (map (fun '(n, ty, off, sz, r) => mkMember n ty off sz r) members) is_ref [].

Lemma udt_of_to u : udt_of (udt_to u) = received u.
Proof.
  unfold udt_of, udt_to, received. f_equal. rewrite map_map. rewrite <- (map_id (udt_members u)) at 2.
  apply map_ext. by intros [].
Qed.
Lemma udts_of_to l : map udt_of (map udt_to l) = map received l.
Proof. rewrite map_map. apply map_ext. apply udt_of_to. Qed.

Definition udts_cbor : Cbor (list UserDefinedType) := cbor_via (map udt_to) (map udt_of).
Definition payload_to (p : BlockPayload) : buffer * buffer := (bp_dependencies p, bp_objects p).
Definition payload_of (t : buffer * buffer) : BlockPayload := mkBlockPayload t.1 t.2.
Definition payload_cbor : Cbor BlockPayload := cbor_via payload_to payload_of.
Definition block_cbor : Cbor Block :=
  cbor_via
    (fun b => (bk_block_id b, bk_stream_id b, bk_process_id b, (bk_begin_time b, bk_begin_ticks b),
               (bk_end_time b, bk_end_ticks b), payload_to (bk_payload b),
               (bk_object_offset b, bk_nb_objects b)))
    (fun '(id, s, p, (bt, bti), (et, eti), pl, (off, n)) =>
       mkBlock id s p bt bti et eti (payload_of pl) off n).
Definition stream_cbor : Cbor StreamInfo :=
  cbor_via
    (fun s => (si_process_id s, si_stream_id s, map udt_to (si_dependencies_metadata s),
               map udt_to (si_objects_metadata s), si_tags s, si_properties s))
    (fun '(p, s, d, o, t, pr) => mkStreamInfo p s (map udt_of d) (map udt_of o) t pr).
Definition process_cbor : Cbor ProcessInfo :=
  cbor_via
    (fun p => (process_id p, (exe p, username p, realname p, computer p, distro p, cpu_brand p),
               tsc_frequency p, start_time p, start_ticks p, parent_process_id p, properties p))
    (fun '(id, (e, u, r, c, d, b), f, st, stt, pp, pr) =>
       mkProcessInfo id e u r c d b f st stt pp pr).

Lemma cbors_lawful :
  @LawfulCbors block_cbor payload_cbor stream_cbor process_cbor udts_cbor.
Proof.
  split; apply cbor_via_lawful.
  - by intros [? ? ? ? ? ? ? [] ? ?].
  - by intros [].
  - intros []. cbn. unfold received_stream. cbn. by rewrite !udts_of_to.
  - by intros [].
  - apply udts_of_to.
Qed.

(** ** Identifiers and times as text: binary digits, least significant first *)
Fixpoint pos_to_string (p : positive) : string :=
  match p with
  | xH => "1"
  | xO p => String "0"%char (pos_to_string p)
  | xI p => String "1"%char (pos_to_string p)
  end.
Fixpoint pos_of_string (s : string) : option positive :=
  match s with
  | EmptyString => None
  | String _ EmptyString => Some xH
  | String "0"%char s => option_map xO (pos_of_string s)
  | String _ s => option_map xI (pos_of_string s)
  end.

Lemma pos_of_to_string p : pos_of_string (pos_to_string p) = Some p.
Proof.
  assert (forall p, exists c s, pos_to_string p = String c s) as Hc
    by (intros []; cbn; by do 2 eexists).
  induction p as [p IH|p IH|]; [..|done]; destruct (Hc p) as (x & l & E);
    cbn [pos_to_string]; rewrite E in *; cbn [pos_of_string] in *; by rewrite IH.
Qed.

Definition uuid_text : UuidText := fun u => pos_to_string (encode u).
Definition rfc3339 : Rfc3339 := {|
  to_rfc3339 t := pos_to_string (encode t);
  parse_from_rfc3339 s :=
    match pos_of_string s ≫= decode with Some t => Ok t | None => bail "invalid time" end
|}.

Lemma rfc3339_lawful : @LawfulRfc3339 rfc3339.
Proof. intros t. cbn. rewrite pos_of_to_string. cbn. by rewrite decode_encode. Qed.

Lemma uuid_text_lawful : @LawfulUuidText uuid_text.
Proof.
  split.
  - intros u v E. unfold uuid_to_string, uuid_text in E. apply (inj encode).
    apply (inj Some). by rewrite <- !pos_of_to_string, E.
  - intros u. unfold uuid_to_string, uuid_text.
    split; [by destruct (encode u)|]. by induction (encode u).
Qed.

(** ** Paths, the order of rows, and microseconds *)
Definition object_path : ObjectPath := fun s => s.

Lemma segment_split a b r r' :
  plain_segment a -> plain_segment b ->
  (r = EmptyString \/ exists s, r = String "/"%char s) -> (r' = EmptyString \/ exists s, r' = String "/"%char s) ->
  String.append a r = String.append b r' -> a = b /\ r = r'.
Proof.
  intros [_ Ha] [_ Hb] Hr Hr'. revert b Hb. induction a as [|x a IH]; intros [|y b] Hb E; cbn in *.
  - done.
  - change (r = String y (String.append b r')) in E. subst r. destruct Hr as [?|[s ?]]; simplify_eq; by cbn in Hb.
  - change (String x (String.append a r) = r') in E. subst r'. destruct Hr' as [?|[s ?]]; simplify_eq; by cbn in Ha.
  - change (String x (String.append a r) = String y (String.append b r')) in E.
    injection E as -> E. apply andb_true_iff in Ha as [_ Ha], Hb as [_ Hb].
    destruct (IH Ha b Hb E) as [-> ->]. done.
Qed.

Definition tail_path (l : list string) : string :=
  match l with [] => EmptyString | _ => String "/"%char (String.concat "/" l) end.
Lemma concat_tail x l : String.concat "/" (x :: l) = String.append x (tail_path l).
Proof.
  destruct l as [|y l]; [|done]. cbn [String.concat tail_path].
  induction x as [|c x IH]; [done|].
  change (String c x = String c (String.append x EmptyString)). by rewrite <- IH.
Qed.

Lemma concat_inj l l' :
  l <> [] -> l' <> [] -> Forall plain_segment l -> Forall plain_segment l' ->
  String.concat "/" l = String.concat "/" l' -> l = l'.
Proof.
  intros Hne Hne' Hl. revert l' Hne'. induction Hl as [|x l Hx Hl IH]; intros [|x' l'] Hne' Hl' E;
    try done. apply list.Forall_cons in Hl' as [Hx' Hl']. rewrite !concat_tail in E.
  apply segment_split in E as [-> E]; [|done|done|destruct l; [by left|right; by eexists]
    |destruct l'; [by left|right; by eexists]].
  f_equal. destruct l as [|y l], l' as [|y' l']; try done. apply IH; try done. by injection E.
Qed.

Lemma object_path_lawful : @LawfulObjectPath object_path.
Proof.
  intros root l l' H1 H2 H3 H4 E. unfold path_from, object_path in E.
  apply (inj (String.append root)) in E. injection E as E. by apply concat_inj.
Qed.

Definition key_le (key : row -> Z) (x y : row) : Prop := key x <= key y.
#[export] Instance key_le_dec key x y : Decision (key_le key x y) := Z_le_dec _ _.
#[export] Instance key_le_total key : Total (key_le key).
Proof. intros x y. unfold key_le. lia. Qed.
Definition sql_order : SqlOrder := {|
  scan l := l;
  order_by key l := merge_sort (key_le key) l
|}.
Lemma sql_order_lawful : @LawfulSqlOrder sql_order.
Proof.
  split.
  - done.
  - intros. cbn. apply merge_sort_Permutation.
  - intros. cbn. apply (Sorted_merge_sort (key_le key)).
Qed.

Definition timestamptz : Timestamptz := fun t => t / 1000 * 1000.
Lemma timestamptz_lawful : @LawfulTimestamptz timestamptz.
Proof. intros t. unfold stored_time, timestamptz. pose proof (Z.div_mod t 1000). pose proof (Z.mod_pos_bound t 1000). lia. Qed.

(** ** A lake with a process, a stream and two blocks *)
Module LakeExample.
Definition process : ProcessInfo :=
  mkProcessInfo 7 "app" "u" "u" "c" "d" "cpu" 1000000000 1234567 1000 None {[ "version" := "1" ]}.
Definition stream : StreamInfo :=
  mkStreamInfo 7 9 [mkUDT "StaticString" 0 [] false []] [] ["log"] {[ "thread-name" := "main" ]}.
Definition block (id begin_ticks end_ticks offset : Z) : Block :=
  mkBlock id 9 7 (@to_rfc3339 rfc3339 0) begin_ticks (@to_rfc3339 rfc3339 1000) end_ticks
    (mkBlockPayload [] [x01]) offset 1.
(** The blocks are sent before the stream and the process. *)
Definition requests : list request :=
  [ReqBlock (block 12 100 200 1); ReqBlock (block 11 0 100 0); ReqStream stream 1;
   ReqProcess process 2].
#[local] Existing Instances block_cbor payload_cbor stream_cbor process_cbor udts_cbor cbors_lawful
  rfc3339 timestamptz uuid_text uuid_text_lawful object_path object_path_lawful sql_order
  sql_order_lawful.
Definition abstract : abstract_lake := foldl receive (mkAbstract [] [] []) requests.
Definition lake_of (db : Db) : DataLakeConnection :=
  foldl (serve map_to_list) (mkDataLakeConnection db (mkBlobStorage ∅ "root")) requests.
Definition well_formed_requests : Prop := all_well_formed (mkAbstract [] [] []) requests.

Lemma requests_well_formed : well_formed_requests.
Proof.
  unfold well_formed_requests, requests. cbn [all_well_formed well_formed].
  repeat match goal with |- _ /\ _ => split end;
    try exact I; try (by vm_compute); try (by eexists); try (by intros ? []).
  - intros y Hy _ _. vm_compute in Hy. destruct Hy as [<-|[]]. discriminate.
  - repeat constructor; vm_compute; discriminate.
Qed.
End LakeExample.

Lemma lake_refines_witness :
  exists db, @migrate_db sql_order ∅ = Ok db /\
    @represents udts_cbor payload_cbor uuid_text object_path (LakeExample.lake_of db)
      LakeExample.abstract /\
    length (al_blocks LakeExample.abstract) = 2%nat.
Proof.
  destruct (@lake_refines block_cbor payload_cbor stream_cbor process_cbor udts_cbor cbors_lawful
    rfc3339 timestamptz uuid_text uuid_text_lawful object_path object_path_lawful sql_order
    sql_order_lawful map_to_list "root" LakeExample.requests) as (db & Hm & Hr).
  - reflexivity.
  - exact LakeExample.requests_well_formed.
  - exists db. split; [exact Hm|]. split; [exact Hr|reflexivity].
Defined.

Lemma lake_queries_witness :
  exists lake, option_map si_tags
      (match @find_stream sql_order udts_cbor (db_pool lake) 9 with Ok s => Some s | _ => None end)
      = Some ["log"] /\
    exists l, @find_stream_blocks_in_range sql_order (db_pool lake) 9 50 150 = Ok l /\
      map bm_block_id l ≡ₚ [12; 11].
Proof.
  destruct (@migrate_empty sql_order sql_order_lawful) as (db & _ & Hdb).
  pose proof (@serve_all_represents block_cbor payload_cbor stream_cbor process_cbor udts_cbor
    cbors_lawful rfc3339 timestamptz uuid_text uuid_text_lawful object_path object_path_lawful
    map_to_list _ _ LakeExample.requests (fun m => Permutation_refl _)
    (@represents_migrated udts_cbor payload_cbor uuid_text object_path db "root" Hdb)
    LakeExample.requests_well_formed) as Hl.
  destruct (@lake_queries udts_cbor payload_cbor uuid_text object_path sql_order sql_order_lawful
    _ _ Hl) as (_ & Hs & Hb & _).
  - intros x y [<-|[]] [<-|[]] _. reflexivity.
  - intros x y [<-|[]] [<-|[]] _. reflexivity.
  - eexists. split.
    + pose proof (Hs _ (or_introl eq_refl)) as Hs'.
      change (si_stream_id (received_stream LakeExample.stream)) with 9 in Hs'. rewrite Hs'. reflexivity.
    + destruct (Hb 9 50 150) as (l & Hl' & Hp & _). exists l. split; [exact Hl'|].
      rewrite Hp. vm_compute. reflexivity.
Defined.
