(* ===== verification/Migration.v ===== *)
(** * Servers that migrate the same database

    [migrate_db] of [ingestion/src/remote_data_lake.rs] is run by every server
    that connects to a lake, at any time.  Its steps are those between which
    other servers may act: the statements it sends, and the transaction that
    creates the tables, which commits as a whole.  The advisory lock belongs to
    a transaction, so that it is released when the transaction is dropped, or
    when the server dies ([crash]). *)

From stdpp Require Import relations.
From S2P Require Import Prelude Sql Lake LakeSpec Codecs.

(** ** The steps of [migrate_db] *)
Inductive phase :=
| Reading      (* the version is read, without the lock *)
| Locking      (* [acquire_lock] *)
| Rereading    (* the version is read again *)
| Migrating    (* [execute_migration] reads the version *)
| Creating     (* and creates the tables *)
| Verifying    (* the version is read a last time *)
| Finished (r : exec unit)
| Crashed.

Record migration_state := mkMigrationState {
  ms_db : Db;
  ms_lock : option nat;
  ms_servers : gmap nat phase
}.

Section steps.
Context `{SqlOrder}.

Definition release (i : nat) (lock : option nat) : option nat :=
  if bool_decide (lock = Some i) then None else lock.
(** [None] while the lock is taken *)
Definition acquire_lock (i : nat) (lock : option nat) : option (option nat) :=
  match lock with None => Some (Some i) | Some _ => None end.

Definition with_version (m : exec Z) (next : Z -> phase) : phase :=
  match m with
  | Ok v => next v
  | Err l => Finished (Err l)
  | Panic => Finished Panic
  | Ub => Finished Ub
  | Diverges => Finished Diverges
  end.
Definition assert_latest (version : Z) (next : phase) : phase :=
  if version =? LATEST_SCHEMA_VERSION then next else Finished Panic.

(** The transaction of [create_tables]: it is rolled back when it fails. *)
Definition create_schema (db : Db) : exec (Db * Z) :=
  db ← create_tables db; v ← read_schema_version db; Ok (db, v).

Definition server_step (i : nat) (p : phase) (db : Db) (lock : option nat)
  : option (phase * Db * option nat) :=
  let finish p := match p with Finished _ => release i lock | _ => lock end in
  let to p := Some (p, db, finish p) in
  match p with
  | Reading =>
      to (with_version (read_schema_version db) (fun v =>
            if negb (v =? LATEST_SCHEMA_VERSION) then Locking else assert_latest v (Finished (Ok tt))))
  | Locking => lock ← acquire_lock i lock; Some (Rereading, db, lock)
  | Rereading =>
      to (with_version (read_schema_version db) (fun v =>
            if LATEST_SCHEMA_VERSION =? v then Finished (Ok tt) else Migrating))
  | Migrating =>
      to (with_version (read_schema_version db) (fun v =>
            if 0 =? v then Creating else assert_latest v Verifying))
  | Creating =>
      match create_schema db with
      | Ok (db', v) => let p := assert_latest v Verifying in Some (p, db', finish p)
      | e => to (with_version (r ← e; Ok (snd r)) (fun _ => Verifying))
      end
  | Verifying =>
      to (with_version (read_schema_version db) (fun v => assert_latest v (Finished (Ok tt))))
  | Finished _ | Crashed => None
  end.

Definition active (p : phase) : Prop := match p with Finished _ | Crashed => False | _ => True end.

Inductive migration_step : migration_state -> migration_state -> Prop :=
| server db lock servers i p p' db' lock' :
    servers !! i = Some p -> server_step i p db lock = Some (p', db', lock') ->
    migration_step (mkMigrationState db lock servers) (mkMigrationState db' lock' (<[i := p']> servers))
| crash db lock servers i p :
    servers !! i = Some p -> active p ->
    migration_step (mkMigrationState db lock servers)
      (mkMigrationState db (release i lock) (<[i := Crashed]> servers)).

(** A server that is alone: [migrate_db] *)
Fixpoint run_alone (fuel i : nat) (p : phase) (db : Db) (lock : option nat) : phase * Db * option nat :=
  match fuel with
  | O => (p, db, lock)
  | S fuel => match server_step i p db lock with
              | Some (p, db, lock) => run_alone fuel i p db lock
              | None => (p, db, lock)
              end
  end.
End steps.

(** [connect_to_remote_data_lake], for what [BlobStorage::connect] and the
    connection to the database give *)
Definition connect_to_remote_data_lake `{SqlOrder} (connect : exec BlobStorage) (pool : exec Db)
  : exec DataLakeConnection :=
  blob_storage ← with_context "connecting to blob storage" connect;
  pool ← with_context "Connecting to telemetry database" pool;
  pool ← migrate_db pool;
  Ok (mkDataLakeConnection pool blob_storage).

(** ** Lemmas *)
Definition in_lock (p : phase) : Prop :=
  match p with Rereading | Migrating | Creating | Verifying => True | _ => False end.
(** What a phase says of the database *)
Definition phase_ok (db : Db) (p : phase) : Prop :=
  match p with
  | Migrating | Creating => db = ∅
  | Verifying => migrated db
  | Finished r => r = Ok tt /\ migrated db
  | _ => True
  end.
Definition weight (p : phase) : nat :=
  match p with
  | Reading => 6 | Locking => 5 | Rereading => 4 | Migrating => 3 | Creating => 2 | Verifying => 1
  | Finished _ | Crashed => 0
  end.
Definition remaining (servers : gmap nat phase) : nat := map_fold (fun _ p n => (weight p + n)%nat) 0%nat servers.

Lemma remaining_insert_new i p servers :
  servers !! i = None -> remaining (<[i := p]> servers) = (weight p + remaining servers)%nat.
Proof. intros Hi. unfold remaining. rewrite map_fold_insert_L; [done|intros; lia|done]. Qed.
Lemma remaining_insert i p p' servers :
  servers !! i = Some p -> (remaining (<[i := p']> servers) + weight p = remaining servers + weight p')%nat.
Proof.
  intros Hi. rewrite <- (insert_id servers i p Hi) at 2. rewrite <- !(insert_delete_eq servers).
  rewrite !remaining_insert_new by apply lookup_delete_eq. lia.
Qed.
Lemma remaining_bound servers : (remaining servers <= 6 * size servers)%nat.
Proof.
  induction servers as [|i p servers Hi IH] using map_ind; [done|].
  rewrite remaining_insert_new, map_size_insert_None by done. destruct p; cbn [weight]; lia.
Qed.

(** The lock belongs to the server that is in it. *)
Definition lock_ok (lock : option nat) (servers : gmap nat phase) : Prop :=
  forall i, lock = Some i <-> exists p, servers !! i = Some p /\ in_lock p.

Record migration_inv (s : migration_state) : Prop := {
  mi_db : ms_db s = ∅ \/ migrated (ms_db s);
  mi_phases : forall i p, ms_servers s !! i = Some p -> phase_ok (ms_db s) p;
  mi_lock : lock_ok (ms_lock s) (ms_servers s)
}.

Section migration.
Context `{LawfulSqlOrder}.

Lemma read_migrated db : migrated db -> read_schema_version db = Ok 1.
Proof. intros ->. by apply read_version_migrated. Qed.
Lemma read_empty : read_schema_version ∅ = Ok 0.
Proof. by apply read_version_none. Qed.
Lemma create_empty : exists db, create_schema ∅ = Ok (db, 1) /\ migrated db.
Proof.
  assert (exists db, create_tables ∅ = Ok db /\ migrated db) as (db & E & Hdb) by (eexists; split; reflexivity).
  exists db. split; [|done]. unfold create_schema. rewrite E. cbn [mbind exec_bind]. by rewrite read_migrated.
Qed.

(** The steps of a server, when its phase and the database agree *)
Inductive good_step (i : nat) (lock : option nat) : phase -> Db -> phase -> Db -> option nat -> Prop :=
| good_behind : good_step i lock Reading ∅ Locking ∅ lock
| good_latest db : migrated db -> good_step i lock Reading db (Finished (Ok tt)) db (release i lock)
| good_lock db : lock = None -> good_step i lock Locking db Rereading db (Some i)
| good_still : good_step i lock Rereading ∅ Migrating ∅ lock
| good_late db : migrated db -> good_step i lock Rereading db (Finished (Ok tt)) db (release i lock)
| good_migrate : good_step i lock Migrating ∅ Creating ∅ lock
| good_create db : migrated db -> good_step i lock Creating ∅ Verifying db lock
| good_verify db : migrated db -> good_step i lock Verifying db (Finished (Ok tt)) db (release i lock).

Lemma server_step_good i p db lock p' db' lock' :
  server_step i p db lock = Some (p', db', lock') -> db = ∅ \/ migrated db -> phase_ok db p ->
  good_step i lock p db p' db' lock'.
Proof.
  intros E Hdb Hp. destruct p; cbn [server_step phase_ok] in *; try discriminate.
  1,3: destruct Hdb as [->|Hm];
    [rewrite read_empty in E; injection E as <- <- <-; constructor
    |rewrite read_migrated in E by done; injection E as <- <- <-; by constructor].
  - destruct lock; [discriminate|]. injection E as <- <- <-. by constructor.
  - subst db. rewrite read_empty in E. injection E as <- <- <-. constructor.
  - subst db. destruct create_empty as (db & Ec & Hm). rewrite Ec in E. injection E as <- <- <-. by constructor.
  - rewrite read_migrated in E by done. injection E as <- <- <-. by constructor.
Qed.

(** A server that is not waiting for the lock can always go on. *)
Lemma server_step_enabled i p db lock :
  active p -> (p = Locking -> lock = None) -> db = ∅ \/ migrated db -> phase_ok db p ->
  is_Some (server_step i p db lock).
Proof.
  intros Ha Hl Hdb Hp. destruct p; cbn [server_step phase_ok active] in *; try done.
  - by rewrite Hl.
  - subst db. destruct create_empty as (db & Ec & Hm). by rewrite Ec.
Qed.

Lemma good_weight i lock p db p' db' lock' : good_step i lock p db p' db' lock' -> (weight p' < weight p)%nat.
Proof. destruct 1; cbn; lia. Qed.

Lemma release_id i lock : lock <> Some i -> release i lock = lock.
Proof. intros Hn. unfold release. by rewrite bool_decide_false. Qed.
Lemma release_other i j lock : i <> j -> release i lock = Some j <-> lock = Some j.
Proof. intros Hn. unfold release. case_bool_decide; split; congruence. Qed.
Lemma release_self i : release i (Some i) = None.
Proof. unfold release. by rewrite bool_decide_true. Qed.

Lemma lock_ok_insert i p p' lock lock' servers :
  servers !! i = Some p -> lock_ok lock servers ->
  (lock' = Some i <-> in_lock p') -> (forall j, j <> i -> lock' = Some j <-> lock = Some j) ->
  lock_ok lock' (<[i := p']> servers).
Proof.
  intros Hi Hl Hii Hij j. destruct (decide (j = i)) as [->|Hn].
  - rewrite lookup_insert_eq. rewrite Hii. split; [intros Hin; by exists p'|intros (q & [= <-] & Hq); done].
  - rewrite lookup_insert_ne by done. by rewrite Hij.
Qed.

Lemma release_not i lock : release i lock <> Some i.
Proof. unfold release. case_bool_decide; congruence. Qed.
Lemma not_migrated_empty : ~ migrated ∅.
Proof. intros E. apply (f_equal (lookup "migration")) in E. by rewrite lookup_empty, lookup_insert_eq in E. Qed.

Lemma good_lock_ok i p p' db db' lock lock' servers :
  good_step i lock p db p' db' lock' -> servers !! i = Some p -> lock_ok lock servers ->
  lock_ok lock' (<[i := p']> servers).
Proof.
  intros Hs Hi Hl. pose proof (Hl i) as Hli. rewrite Hi in Hli.
  assert (lock = Some i <-> in_lock p) as Hp.
  { rewrite Hli. split; [by intros (q & [= <-] & Hq)|intros Hq; by exists p]. }
  destruct Hs; eapply lock_ok_insert; try done; cbn [in_lock] in *; try tauto;
    try (intros j Hn; by apply release_other); try (split; [intros E; by apply release_not in E|done]).
  intros j Hn. subst lock. split; [intros [= ->]; done|discriminate].
Qed.

(** A phase of a server that is not in the lock stays right. *)
Lemma phase_ok_created db p : phase_ok ∅ p -> ~ in_lock p -> phase_ok db p.
Proof. destruct p; cbn; try tauto. intros [_ Hm]. by apply not_migrated_empty in Hm. Qed.

Lemma good_phases i p p' db db' lock lock' servers :
  good_step i lock p db p' db' lock' -> servers !! i = Some p -> lock_ok lock servers ->
  (forall j q, servers !! j = Some q -> phase_ok db q) ->
  forall j q, <[i := p']> servers !! j = Some q -> phase_ok db' q.
Proof.
  intros Hs Hi Hl Hph j q Hj. apply lookup_insert_Some in Hj as [[<- <-]|[Hn Hj]]; [by destruct Hs|].
  pose proof (Hph j q Hj) as Hq. destruct Hs; try done. apply phase_ok_created; [done|].
  intros Hin. assert (lock = Some j) as E1 by (apply Hl; by exists q).
  assert (lock = Some i) as E2 by (apply Hl; by exists Creating). congruence.
Qed.

Lemma good_db i p p' db db' lock lock' :
  good_step i lock p db p' db' lock' -> db = ∅ \/ migrated db -> db' = ∅ \/ migrated db'.
Proof. destruct 1; intros Hdb; (try (by left)); try (by right); done. Qed.

Lemma migration_step_inv s s' : migration_inv s -> migration_step s s' -> migration_inv s'.
Proof.
  intros [Hdb Hph Hl] Hs. destruct Hs as [db lock servers i p p' db' lock' Hi E|db lock servers i p Hi Ha];
    cbn [ms_db ms_lock ms_servers] in *.
  - apply server_step_good in E; [|done|by apply (Hph i)].
    split; cbn [ms_db ms_lock ms_servers]; [by eapply good_db|by eapply good_phases|by eapply good_lock_ok].
  - split; cbn [ms_db ms_lock ms_servers]; [done| |].
    + intros j q Hj. apply lookup_insert_Some in Hj as [[<- <-]|[Hn Hj]]; [done|by eapply Hph].
    + eapply lock_ok_insert; [done|done| |intros j Hn; by apply release_other].
      split; [intros E; by apply release_not in E|done].
Qed.

Lemma migration_step_weight s s' :
  migration_inv s -> migration_step s s' -> (remaining (ms_servers s') < remaining (ms_servers s))%nat.
Proof.
  intros [Hdb Hph Hl] Hs. destruct Hs as [db lock servers i p p' db' lock' Hi E|db lock servers i p Hi Ha];
    cbn [ms_db ms_lock ms_servers] in *.
  - apply server_step_good in E; [|done|by apply (Hph i)]. apply good_weight in E.
    pose proof (remaining_insert i p p' servers Hi). lia.
  - pose proof (remaining_insert i p Crashed servers Hi). destruct p; cbn [weight active] in *; lia || done.
Qed.

Lemma migration_steps_inv n s s' :
  migration_inv s -> nsteps migration_step n s s' ->
  migration_inv s' /\ (n + remaining (ms_servers s') <= remaining (ms_servers s))%nat /\
  size (ms_servers s') = size (ms_servers s).
Proof.
  intros Hs Hn. induction Hn as [s|n s s' s'' Hstep _ IH]; [split; [done|]; split; [lia|done]|].
  pose proof (migration_step_weight _ _ Hs Hstep). pose proof (migration_step_inv _ _ Hs Hstep) as Hinv'.
  destruct (IH Hinv') as (Hinv & Hw & Hsz). split; [done|]. split; [lia|]. rewrite Hsz.
  destruct Hstep; cbn [ms_servers]; by rewrite map_size_insert_Some.
Qed.

(** As long as a server is active, one of them can take a step of its own. *)
Lemma migration_progress s i p :
  migration_inv s -> ms_servers s !! i = Some p -> active p ->
  exists j q r, ms_servers s !! j = Some q /\ server_step j q (ms_db s) (ms_lock s) = Some r.
Proof.
  intros [Hdb Hph Hl] Hi Ha.
  assert (forall j q, ms_servers s !! j = Some q -> active q -> (q = Locking -> ms_lock s = None) ->
    exists r, server_step j q (ms_db s) (ms_lock s) = Some r) as Hgo.
  { intros j q Hj Hq Hql. destruct (server_step_enabled j q (ms_db s) (ms_lock s)) as [r Hr]; eauto. }
  destruct (ms_lock s) as [k|] eqn:Ek.
  - destruct (proj1 (Hl k) eq_refl) as (q & Hk & Hq). destruct (Hgo k q) as [r Hr]; [done|by destruct q| |by eauto].
    by intros ->.
  - destruct (Hgo i p) as [r Hr]; eauto.
Qed.
End migration.

Ltac alone :=
  unfold assert_latest, LATEST_SCHEMA_VERSION, create_schema;
  cbn [run_alone server_step with_version acquire_lock mbind option_bind exec_bind negb fst snd].
Ltac alone_end d := alone; exists d; split; [done|]; intros ? E; by inversion E.

(** A server that is alone does what [migrate_db] does. *)
Lemma run_alone_migrate `{SqlOrder} i db :
  exists db', run_alone 6 i Reading db None = (Finished (_ ← migrate_db db; Ok tt), db', None) /\
    forall d, migrate_db db = Ok d -> db' = d.
Proof.
  assert (release i (Some i) = None) as Hrel by (unfold release; by rewrite bool_decide_true).
  assert (release i None = None) as Hrel0 by (unfold release; by rewrite bool_decide_false).
  unfold migrate_db, execute_migration, assert_true, LATEST_SCHEMA_VERSION.
  alone. destruct (read_schema_version db) as [v| | | |] eqn:Ev; alone; rewrite ?Hrel0; try alone_end db.
  destruct (v =? 1) eqn:E1; alone; rewrite ?Hrel0; [alone_end db|].
  rewrite Ev. alone. rewrite (Z.eqb_sym 1), E1. alone. rewrite Ev. alone.
  destruct (0 =? v) eqn:E0; alone.
  2:{ rewrite E1. alone. rewrite ?Hrel. alone_end db. }
  unfold create_schema. destruct (create_tables db) as [d| | | |]; alone; rewrite ?Hrel; try alone_end db.
  destruct (read_schema_version d) as [v'| | | |] eqn:Ev'; alone; rewrite ?Hrel; try alone_end db.
  destruct (v' =? 1) eqn:E1'; alone; rewrite ?Hrel; [|alone_end d].
  rewrite Ev'. alone. rewrite E1'. alone. rewrite ?Hrel. alone_end d.
Qed.

(** ** A schedule of servers *)
Fixpoint run_schedule `{SqlOrder} (l : list nat) (s : migration_state) : option migration_state :=
  match l with
  | [] => Some s
  | i :: l =>
      p ← ms_servers s !! i;
      '(p', db', lock') ← server_step i p (ms_db s) (ms_lock s);
      run_schedule l (mkMigrationState db' lock' (<[i := p']> (ms_servers s)))
  end.
Lemma run_schedule_steps `{SqlOrder} l s s' :
  run_schedule l s = Some s' -> nsteps migration_step (length l) s s'.
Proof.
  revert s. induction l as [|i l IH]; intros s E; [injection E as ->; constructor|]. cbn [run_schedule] in E.
  destruct s as [db lock servers]. cbn [ms_servers ms_db ms_lock] in E.
  destruct (servers !! i) as [p|] eqn:Ei; [|discriminate]. cbn [mbind option_bind] in E.
  destruct (server_step i p db lock) as [[[p' db'] lock']|] eqn:Es; [|discriminate].
  eapply nsteps_l; [by eapply server|by apply IH].
Qed.

(** ** Properties *)

(** C22. Servers may migrate the same database at the same time.  From a
    database that is empty or migrated, however the steps of the servers are
    interleaved and whichever of them die: the database is empty or has exactly
    the latest schema; a server that is done has succeeded, on the latest
    schema; two servers are never in the lock together; there are at most six
    steps per server; and as long as one is active, one can take a step. *)
Theorem migrate_concurrently `{LawfulSqlOrder} n s s' :
  ms_db s = ∅ \/ migrated (ms_db s) -> ms_lock s = None ->
  (forall i p, ms_servers s !! i = Some p -> p = Reading) ->
  nsteps migration_step n s s' ->
  (ms_db s' = ∅ \/ migrated (ms_db s')) /\
  (forall i r, ms_servers s' !! i = Some (Finished r) -> r = Ok tt /\ migrated (ms_db s')) /\
  (forall i j p q, ms_servers s' !! i = Some p -> in_lock p -> ms_servers s' !! j = Some q -> in_lock q -> i = j) /\
  (n <= 6 * size (ms_servers s))%nat /\
  (forall i p, ms_servers s' !! i = Some p -> active p -> exists j q r,
     ms_servers s' !! j = Some q /\ server_step j q (ms_db s') (ms_lock s') = Some r).
Proof.
  intros Hdb Hlock Hstart Hn.
  assert (migration_inv s) as Hs.
  { split; [done|intros i p Hi; by rewrite (Hstart i p Hi)|].
    intros i. rewrite Hlock. split; [discriminate|]. intros (p & Hi & Hp). by rewrite (Hstart i p Hi) in Hp. }
  destruct (migration_steps_inv n s s' Hs Hn) as (Hs' & Hw & _). pose proof Hs' as [Hdb' Hph Hl].
  split; [done|]. split; [intros i r Hi; exact (Hph i _ Hi)|]. split.
  - intros i j p q Hi Hp Hj Hq. assert (ms_lock s' = Some i) as E1 by (apply Hl; by exists p).
    assert (ms_lock s' = Some j) as E2 by (apply Hl; by exists q). congruence.
  - split; [pose proof (remaining_bound (ms_servers s)); lia|]. intros i p Hi Ha. by eapply migration_progress.
Qed.

(** *** Two servers that both find an old version: the second waits for the first *)
Module MigrationExample.
#[export] Existing Instances sql_order sql_order_lawful.
Definition start : migration_state :=
  mkMigrationState ∅ None {[ 0%nat := Reading; 1%nat := Reading ]}.
Definition schedule : list nat := [0; 1; 0; 0; 0; 0; 0; 1; 1]%nat.
Definition final : migration_state := default start (run_schedule schedule start).
Lemma schedule_runs : run_schedule schedule start = Some final.
Proof.
  assert (exists s, run_schedule schedule start = Some s) as [s E] by (eexists; vm_compute; reflexivity).
  unfold final. by rewrite E.
Qed.
Lemma both_finished :
  ms_servers final !! 0%nat = Some (Finished (Ok tt)) /\ ms_servers final !! 1%nat = Some (Finished (Ok tt)).
Proof. by vm_compute. Qed.
Lemma start_reading i p : ms_servers start !! i = Some p -> p = Reading.
Proof. cbn [start ms_servers]. intros [[_ <-]|[_ [_ <-]%lookup_singleton_Some]]%lookup_insert_Some; done. Qed.
End MigrationExample.
Import MigrationExample.

Lemma migrate_concurrently_witness :
  nsteps migration_step 9 start final /\ ms_servers final !! 1%nat = Some (Finished (Ok tt)) /\
  migrated (ms_db final).
Proof.
  pose proof (run_schedule_steps schedule start final schedule_runs) as Hn.
  destruct (migrate_concurrently 9 start final (or_introl eq_refl) eq_refl start_reading Hn)
    as (_ & Hf & _ & _ & _).
  split; [exact Hn|]. destruct both_finished as [_ H1]. split; [exact H1|exact (proj2 (Hf _ _ H1))].
Defined.
