(* ===== verification/Query.v ===== *)
(** * Queries

    [analytics/src/query_log_entries.rs], [query_metrics.rs],
    [query_thread_events.rs], [query_spans.rs], [make_call_tree], and the
    reading of a stored block by [log_entry.rs], [measure.rs] and
    [thread_block_processor.rs]. *)

From S2P Require Import Prelude RustString Float Transit Queue Pod Parser PodParser Blocks.
From S2P Require Import Levels Deps LogEvents LogBlock Time Stream Wire LogEntry MetricsBlock.
From S2P Require Import Measure SpanEvents ThreadBlock ThreadBlockProcessor CallTree Arrow.
From S2P Require Import Tables.
From S2P Require Import Sql Lake Metadata.

(** [blocks.last()] *)
Abbreviation list_last := list.last.

Section queries.
Context `{Compression} `{Cbor BlockPayload} `{Cbor (list UserDefinedType)} `{UuidText}.
Context `{ObjectPath} `{SqlOrder} `{Arrow} `{Xxh32}.

(** ** Stored blocks *)
Definition for_each_log_entry_in_stored_block {S} (blobs : BlobStorage) (convert_ticks : ConvertTicks)
    (stream : StreamInfo) (block : BlockMetadata) (fun_ : S -> LogEntry -> exec (S * bool)) (s : S)
  : exec S :=
  payload ← fetch_block_payload blobs (si_process_id stream) (si_stream_id stream) (bm_block_id block);
  for_each_log_entry_in_block convert_ticks stream payload fun_ s.

Definition for_each_measure_in_stored_block {S} (blobs : BlobStorage) (convert_ticks : ConvertTicks)
    (stream : StreamInfo) (block : BlockMetadata) (fun_ : S -> Measure -> exec (S * bool)) (s : S)
  : exec (S * bool) :=
  payload ← fetch_block_payload blobs (si_process_id stream) (si_stream_id stream) (bm_block_id block);
  for_each_measure_in_block convert_ticks stream payload fun_ s.

Definition parse_thread_block {Proc} `{ThreadBlockProcessor Proc} (blobs : BlobStorage)
    (stream : StreamInfo) (block_id : Uuid) (object_offset : Z) (processor : Proc)
  : exec (Proc * bool) :=
  payload ← fetch_block_payload blobs (si_process_id stream) (si_stream_id stream) block_id;
  let block_id_str := uuid_to_string block_id in
  parse_thread_block_payload block_id_str object_offset payload stream processor.

(** ** query_log_entries.rs *)
Definition on_log_entry (begin_ns end_ns limit : Z) (record_builder : LogEntriesRecordBuilder)
    (log_entry : LogEntry) : exec (LogEntriesRecordBuilder * bool) :=
  record_builder ←
    (if (begin_ns <=? le_time log_entry) && (le_time log_entry <=? end_ns)
        && (log_entries_len record_builder <? limit)
     then append_log_entry record_builder log_entry
     else Ok record_builder);
  Ok (record_builder,
      (le_time log_entry <=? end_ns) && (log_entries_len record_builder <? limit)).

Definition make_log_entries_record_batch (blocks : list BlockMetadata) (begin_ end_ : DateTime)
    (limit : Z) (blobs : BlobStorage) (convert_ticks : ConvertTicks) (stream : StreamInfo)
  : exec RecordBatch :=
  let record_builder := log_entries_with_capacity 1024 in
  let begin_ns := default 0 (timestamp_nanos_opt begin_) in
  let end_ns := default 0 (timestamp_nanos_opt end_) in
  record_builder ←
    foldM (fun record_builder block =>
      with_context "for_each_log_entry_in_block"
        (for_each_log_entry_in_stored_block blobs convert_ticks stream block
           (on_log_entry begin_ns end_ns limit) record_builder)) record_builder blocks;
  finish_log_entries record_builder.

Definition query_log_entries (data_lake : DataLakeConnection) (stream_id : Uuid)
    (begin_ end_ : DateTime) (limit : Z) : exec RecordBatch :=
  let connection := db_pool data_lake in
  stream_info ← with_context "find_stream" (find_stream connection stream_id);
  process_info ← with_context "find_process" (find_process connection (si_process_id stream_info));
  let convert_ticks := ConvertTicks_new process_info in
  let relative_begin_ticks := to_ticks convert_ticks (begin_ - start_time process_info) in
  let relative_end_ticks := to_ticks convert_ticks (end_ - start_time process_info) in
  blocks ← with_context "find_stream_blocks_in_range"
    (find_stream_blocks_in_range connection stream_id relative_begin_ticks relative_end_ticks);
  with_context "make_log_entries_record_batch"
    (make_log_entries_record_batch blocks begin_ end_ limit (blob_storage data_lake) convert_ticks
       stream_info).

(** ** query_metrics.rs *)
Definition on_measure (begin_ns end_ns limit : Z) (s : MetricsRecordBuilder * Z) (measure : Measure)
  : exec (MetricsRecordBuilder * Z * bool) :=
  let '(record_builder, nb) := s in
  if me_time measure <? begin_ns then Ok (s, true) else
  if (end_ns <? me_time measure) || (limit <=? nb) then Ok (s, false) else
  record_builder ← append_measure record_builder measure;
  nb ← i64_checked (nb + 1);
  Ok ((record_builder, nb), nb <? limit).

(** The loop over the blocks, which a block may break *)
Fixpoint measures_of_blocks (blobs : BlobStorage) (convert_ticks : ConvertTicks) (stream : StreamInfo)
    (begin_ns end_ns limit : Z) (blocks : list BlockMetadata) (s : MetricsRecordBuilder * Z)
  : exec (MetricsRecordBuilder * Z) :=
  match blocks with
  | [] => Ok s
  | block :: blocks =>
      '(s, continue_iterating) ←
        with_context "for_each_measure_in_block"
          (for_each_measure_in_stored_block blobs convert_ticks stream block
             (on_measure begin_ns end_ns limit) s);
      if continue_iterating : bool
      then measures_of_blocks blobs convert_ticks stream begin_ns end_ns limit blocks s
      else Ok s
  end.

Definition make_metrics_record_batch (blocks : list BlockMetadata) (limit : Z) (begin_ end_ : DateTime)
    (blobs : BlobStorage) (convert_ticks : ConvertTicks) (stream : StreamInfo) : exec RecordBatch :=
  let record_builder := metrics_with_capacity 1024 in
  let begin_ns := default 0 (timestamp_nanos_opt begin_) in
  let end_ns := default 0 (timestamp_nanos_opt end_) in
  '(record_builder, _) ←
    measures_of_blocks blobs convert_ticks stream begin_ns end_ns limit blocks (record_builder, 0);
  finish_metrics record_builder.

Definition query_metrics (data_lake : DataLakeConnection) (limit : Z) (stream_id : Uuid)
    (begin_ end_ : DateTime) : exec RecordBatch :=
  let connection := db_pool data_lake in
  stream_info ← with_context "find_stream" (find_stream connection stream_id);
  process_info ← with_context "find_process" (find_process connection (si_process_id stream_info));
  let convert_ticks := ConvertTicks_new process_info in
  let relative_begin_ticks := to_ticks convert_ticks (begin_ - start_time process_info) in
  let relative_end_ticks := to_ticks convert_ticks (end_ - start_time process_info) in
  blocks ← with_context "find_stream_blocks_in_range"
    (find_stream_blocks_in_range connection stream_id relative_begin_ticks relative_end_ticks);
  with_context "make_metrics_record_batch"
    (make_metrics_record_batch blocks limit begin_ end_ (blob_storage data_lake) convert_ticks
       stream_info).

(** ** query_thread_events.rs *)
Fixpoint thread_events_of_blocks (blobs : BlobStorage) (stream : StreamInfo)
    (blocks : list BlockMetadata) (record_builder : ThreadEventsRecordBuilder)
  : exec ThreadEventsRecordBuilder :=
  match blocks with
  | [] => Ok record_builder
  | block :: blocks =>
      '(record_builder, cont) ←
        parse_thread_block blobs stream (bm_block_id block) (bm_object_offset block) record_builder;
      if cont : bool then thread_events_of_blocks blobs stream blocks record_builder
      else Ok record_builder
  end.

Definition make_thread_events_record_batch (blocks : list BlockMetadata) (limit : Z)
    (begin_query_ns end_query_ns : Z) (blobs : BlobStorage) (convert_ticks : ConvertTicks)
    (stream : StreamInfo) : exec RecordBatch :=
  let record_builder :=
    thread_events_new begin_query_ns end_query_ns limit convert_ticks (1024 * 1024) in
  record_builder ← thread_events_of_blocks blobs stream blocks record_builder;
  finish_thread_events record_builder.

(** Ticks of the process, from ticks relative to its start *)
Definition relative_to_nanoseconds (convert_ticks : ConvertTicks) (process_info : ProcessInfo)
    (relative_ticks : Z) : exec Z :=
  ticks ← i64_checked (relative_ticks + start_ticks process_info);
  ticks_to_nanoseconds convert_ticks ticks.

Definition query_thread_events (data_lake : DataLakeConnection) (limit : Z) (stream_id : Uuid)
    (begin_ end_ : DateTime) : exec RecordBatch :=
  let connection := db_pool data_lake in
  stream_info ← with_context "find_stream" (find_stream connection stream_id);
  process_info ← with_context "find_process" (find_process connection (si_process_id stream_info));
  let convert_ticks := ConvertTicks_new process_info in
  let begin_ := Z.max begin_ (start_time process_info) in
  let relative_begin_ticks := to_ticks convert_ticks (begin_ - start_time process_info) in
  let relative_end_ticks := to_ticks convert_ticks (end_ - start_time process_info) in
  blocks ← with_context "find_stream_blocks_in_range"
    (find_stream_blocks_in_range connection stream_id relative_begin_ticks relative_end_ticks);
  let relative_end_ticks :=
    match list_last blocks with
    | Some b => Z.min relative_end_ticks (bm_end_ticks b)
    | None => relative_end_ticks
    end in
  begin_query_ns ← relative_to_nanoseconds convert_ticks process_info relative_begin_ticks;
  end_query_ns ← relative_to_nanoseconds convert_ticks process_info relative_end_ticks;
  with_context "make_thread_events_record_batch"
    (make_thread_events_record_batch blocks limit begin_query_ns end_query_ns
       (blob_storage data_lake) convert_ticks stream_info).

(** ** [make_call_tree] of call_tree.rs *)
Definition make_call_tree (blocks : list BlockMetadata) (begin_range_ns end_range_ns limit : Z)
    (blobs : BlobStorage) (convert_ticks : ConvertTicks) (stream : StreamInfo) : exec CallTree :=
  let builder :=
    CallTreeBuilder_new begin_range_ns end_range_ns limit convert_ticks
      (get_thread_name uuid_to_string stream) in
  builder ←
    foldM (fun builder block =>
      '(builder, _) ←
        parse_thread_block blobs stream (bm_block_id block) (bm_object_offset block) builder;
      Ok builder) builder blocks;
  Ok (finish builder).

(** ** query_spans.rs *)
Definition append_call_tree (record_builder : SpanRecordBuilder) (process_info : ProcessInfo)
    (blocks : list BlockMetadata) (relative_begin_ticks relative_end_ticks limit : Z)
    (blobs : BlobStorage) (stream : StreamInfo) : exec (SpanRecordBuilder * bool) :=
  first ← unwrap (head blocks);
  last_ ← unwrap (list_last blocks);
  let begin_call_tree_rel_ticks := Z.max relative_begin_ticks (bm_begin_ticks first) in
  let end_call_tree_rel_ticks := Z.min relative_end_ticks (bm_end_ticks last_) in
  let convert_ticks := ConvertTicks_new process_info in
  begin_ns ← relative_to_nanoseconds convert_ticks process_info begin_call_tree_rel_ticks;
  end_ns ← relative_to_nanoseconds convert_ticks process_info end_call_tree_rel_ticks;
  limit_left ← i64_checked (limit - spans_len record_builder);
  call_tree ← with_context "make_call_tree"
    (make_call_tree blocks begin_ns end_ns limit_left blobs convert_ticks stream);
  record_builder ← with_context "adding call tree to span record builder"
    (append_call_tree_to record_builder call_tree);
  Ok (record_builder, spans_len record_builder <? limit).

(** The loop of [query_spans] over the blocks: it returns the record builder,
    and the blocks that are still to be processed when it is not interrupted. *)
Fixpoint spans_of_blocks (process_info : ProcessInfo)
    (relative_begin_ticks relative_end_ticks limit : Z) (blobs : BlobStorage) (stream : StreamInfo)
    (blocks : list BlockMetadata) (record_builder : SpanRecordBuilder)
    (blocks_to_process : list BlockMetadata) (last_end : option Z)
  : exec (SpanRecordBuilder * option (list BlockMetadata)) :=
  match blocks with
  | [] => Ok (record_builder, Some blocks_to_process)
  | block :: blocks =>
      if bm_begin_ticks block =? default (bm_begin_ticks block) last_end then
        spans_of_blocks process_info relative_begin_ticks relative_end_ticks limit blobs stream blocks
          record_builder (blocks_to_process ++ [block]) (Some (bm_end_ticks block))
      else
        '(record_builder, cont) ←
          append_call_tree record_builder process_info blocks_to_process relative_begin_ticks
            relative_end_ticks limit blobs stream;
        if negb cont then Ok (record_builder, None)
        else
          spans_of_blocks process_info relative_begin_ticks relative_end_ticks limit blobs stream blocks
            record_builder [] None
  end.

Definition query_spans_batch (process_info : ProcessInfo)
    (relative_begin_ticks relative_end_ticks limit : Z) (blobs : BlobStorage) (stream : StreamInfo)
    (blocks : list BlockMetadata) : exec RecordBatch :=
  let record_builder := spans_with_capacity 1024 in
  '(record_builder, rest) ←
    spans_of_blocks process_info relative_begin_ticks relative_end_ticks limit blobs stream blocks
      record_builder [] None;
  record_builder ←
    match rest with
    | None | Some [] => Ok record_builder
    | Some blocks_to_process =>
        '(record_builder, _) ←
          append_call_tree record_builder process_info blocks_to_process relative_begin_ticks
            relative_end_ticks limit blobs stream;
        Ok record_builder
    end;
  with_context "finalizing span record builder" (finish_spans record_builder).

Definition query_spans (data_lake : DataLakeConnection) (limit : Z) (stream_id : Uuid)
    (begin_ end_ : DateTime) : exec RecordBatch :=
  let connection := db_pool data_lake in
  stream_info ← with_context "find_stream" (find_stream connection stream_id);
  process_info ← with_context "find_process" (find_process connection (si_process_id stream_info));
  let convert_ticks := ConvertTicks_new process_info in
  let begin_ := Z.max begin_ (start_time process_info) in
  let relative_begin_ticks := to_ticks convert_ticks (begin_ - start_time process_info) in
  let relative_end_ticks := to_ticks convert_ticks (end_ - start_time process_info) in
  blocks ← with_context "find_stream_blocks_in_range"
    (find_stream_blocks_in_range connection stream_id relative_begin_ticks relative_end_ticks);
  query_spans_batch process_info relative_begin_ticks relative_end_ticks limit
    (blob_storage data_lake) stream_info blocks.
End queries.
