(* ===== verification/QuerySpec.v ===== *)
(** * What the queries return

    For a lake that represents what was sent, a query of log entries returns
    the rows of the entries that the blocks hold, and a query of spans the rows
    of the tree of the scopes. *)

From Stdlib Require Import Sorting.Sorted.
From S2P Require Import Prelude RustString Float Transit Queue Pod Parser PodParser Blocks.
From S2P Require Import Levels Deps LogEvents LogBlock Time Stream Wire LogEntry MetricsBlock.
From S2P Require Import Measure Scan SpanEvents ThreadBlock ThreadBlockProcessor CallTree.
From S2P Require Import Arrow.
From S2P Require Import Tables.
From S2P Require Import Sql Lake Metadata LakeSpec Query.

(** ** Log entries *)
Section log_entries.
Context `{Compression} `{Cbor BlockPayload} `{Cbor (list UserDefinedType)} `{UuidText}.
Context `{ObjectPath} `{HO : LawfulSqlOrder} `{HA : LawfulArrow}.

(** The payload of a block is read as a list of entries: what
    [for_each_log_entry_in_block] does is to visit them. *)
Definition decodes_log (ct : ConvertTicks) (stream : StreamInfo) (payload : BlockPayload)
    (es : list LogEntry) : Prop :=
  forall S (f : S -> LogEntry -> exec (S * bool)) s,
    for_each_log_entry_in_block ct stream payload f s =
    with_context "parse_block" (with_context "parsing object buffer" (visit Ok f s es)).

(** The entries of a block are in the order of their times. *)
Definition in_order (es : list LogEntry) : Prop :=
  StronglySorted (fun x y => le_time x <= le_time y) es.

Definition selected (begin_ns end_ns : Z) (e : LogEntry) : bool :=
  (begin_ns <=? le_time e) && (le_time e <=? end_ns).

Lemma log_entries_len_of l : log_entries_len (log_entries_of l) = Z.of_nat (length l).
Proof. unfold log_entries_len, log_entries_of. cbn. by rewrite length_map. Qed.

Lemma log_entries_fit_prefix l1 l2 : log_entries_fit (l1 ++ l2) -> log_entries_fit l1.
Proof. unfold log_entries_fit. rewrite map_app. apply fits_prefix. Qed.

Lemma on_log_entry_of begin_ns end_ns lim l e :
  on_log_entry begin_ns end_ns lim (log_entries_of l) e =
  (rb ← (if selected begin_ns end_ns e && (Z.of_nat (length l) <? lim)
         then append_log_entry (log_entries_of l) e else Ok (log_entries_of l));
   Ok (rb, (le_time e <=? end_ns) && (log_entries_len rb <? lim))).
Proof. unfold on_log_entry. by rewrite log_entries_len_of. Qed.

Lemma on_log_entry_step begin_ns end_ns lim e :
  step_ok le_time begin_ns end_ns lim log_entries_of log_entries_fit (on_log_entry begin_ns end_ns lim) e.
Proof.
  intros l Hl l' Hok. rewrite on_log_entry_of. change (selected begin_ns end_ns e) with (wanted le_time begin_ns end_ns e).
  eexists. split.
  - assert ((if wanted le_time begin_ns end_ns e && (Z.of_nat (length l) <? lim)
      then append_log_entry (log_entries_of l) e else Ok (log_entries_of l)) = Ok (log_entries_of l')) as ->.
    { subst l'. destruct (_ && _); [by apply append_log_entry_ok|done]. }
    reflexivity.
  - intros [Hc|Hc]%andb_false_iff; [left|right]; [lia|]. rewrite log_entries_len_of in Hc. lia.
Qed.

(** One block: the rows that are selected, until there are enough *)
Lemma visit_log_rows begin_ns end_ns lim x es :
  in_order es ->
  log_entries_fit (firstn (Z.to_nat lim) (x ++ List.filter (selected begin_ns end_ns) es)) ->
  visit Ok (on_log_entry begin_ns end_ns lim) (log_entries_of (firstn (Z.to_nat lim) x)) es =
  Ok (log_entries_of (firstn (Z.to_nat lim) (x ++ List.filter (selected begin_ns end_ns) es))).
Proof.
  intros Hs Hf. rewrite <- (firstn_app_firstn _ x) in Hf |- *.
  destruct (scan_visit le_time begin_ns end_ns lim log_entries_of log_entries_fit log_entries_fit_prefix
    (on_log_entry begin_ns end_ns lim) es (firstn (Z.to_nat lim) x)) as (c & E & _); [done| | |done|].
  - apply List.Forall_forall. intros e _. apply on_log_entry_step.
  - rewrite length_firstn. lia.
  - by eapply visit_of_all.
Qed.

Lemma filter_concat {A B} (q : B -> bool) (g : A -> list B) (l : list A) x y :
  (x ++ List.filter q (g y)) ++ List.filter q (concat (map g l)) =
  x ++ List.filter q (concat (map g (y :: l))).
Proof. cbn [map concat]. by rewrite List.filter_app, app_assoc. Qed.

Lemma fits_incl key l l' : incl l l' -> fits key l' -> fits key l.
Proof.
  unfold fits. intros Hi Hf. etransitivity; [|exact Hf]. apply Nat2Z.inj_le, subseteq_size.
  intros x Hx. apply elem_of_list_to_set in Hx. apply elem_of_list_to_set.
  by apply list_elem_of_In, Hi, list_elem_of_In.
Qed.

Lemma log_entries_fit_incl l l' : incl l l' -> log_entries_fit l' -> log_entries_fit l.
Proof. unfold log_entries_fit. intros Hi. apply fits_incl. by apply incl_map. Qed.

Lemma incl_firstn {A} n (l : list A) : incl (firstn n l) l.
Proof. intros x Hx. rewrite <- (firstn_skipn n l). apply in_or_app. by left. Qed.
Lemma incl_filter_of {A} (q : A -> bool) (l : list A) : incl (List.filter q l) l.
Proof. intros x Hx. apply filter_In in Hx as [Hx _]. exact Hx. Qed.

(** The blocks one after the other *)
Lemma fold_log_rows blobs ct stream begin_ns end_ns lim (entries : BlockMetadata -> list LogEntry) l x :
  (forall b, In b l -> exists payload,
     fetch_block_payload blobs (si_process_id stream) (si_stream_id stream) (bm_block_id b) = Ok payload /\
     decodes_log ct stream payload (entries b) /\ in_order (entries b)) ->
  log_entries_fit (x ++ concat (map entries l)) ->
  foldM (fun record_builder block =>
      with_context "for_each_log_entry_in_block"
        (for_each_log_entry_in_stored_block blobs ct stream block
           (on_log_entry begin_ns end_ns lim) record_builder))
    (log_entries_of (firstn (Z.to_nat lim) x)) l =
  Ok (log_entries_of (firstn (Z.to_nat lim)
    (x ++ List.filter (selected begin_ns end_ns) (concat (map entries l))))).
Proof.
  revert x. induction l as [|b l IH]; intros x Hb Hf; cbn [foldM].
  { by rewrite app_nil_r. }
  destruct (Hb b (or_introl eq_refl)) as (payload & Hp & Hd & Hs).
  assert (for_each_log_entry_in_stored_block blobs ct stream b (on_log_entry begin_ns end_ns lim)
    (log_entries_of (firstn (Z.to_nat lim) x)) =
    Ok (log_entries_of (firstn (Z.to_nat lim) (x ++ List.filter (selected begin_ns end_ns) (entries b)))))
    as ->.
  { unfold for_each_log_entry_in_stored_block. rewrite Hp. cbn [mbind exec_bind].
    rewrite Hd, visit_log_rows; [done|done|].
    eapply log_entries_fit_incl; [|exact Hf]. cbn [map concat].
    intros y Hy. apply incl_firstn, in_app_or in Hy. rewrite app_assoc. apply in_or_app. left.
    apply in_or_app. destruct Hy as [Hy|Hy]; [by left|right]. by apply incl_filter_of in Hy. }
  cbn [with_context mbind exec_bind]. rewrite IH; [by rewrite filter_concat|by intros; apply Hb; right|].
  eapply log_entries_fit_incl; [|exact Hf]. cbn [map concat]. rewrite app_assoc.
  intros y Hy. apply in_app_or in Hy as [Hy|Hy]; apply in_or_app; [left|by right].
  apply in_app_or in Hy as [Hy|Hy]; apply in_or_app; [by left|right]. by apply incl_filter_of in Hy.
Qed.

(** Where the queries start: the stream, its process, its blocks in the range *)
Lemma find_blocks_in_lake lake a s p begin_ticks end_ticks :
  represents lake a -> distinct process_id (al_processes a) -> distinct si_stream_id (al_streams a) ->
  In s (al_streams a) -> In p (al_processes a) -> si_process_id s = process_id p ->
  find_stream (db_pool lake) (si_stream_id s) = Ok s /\
  find_process (db_pool lake) (si_process_id s) = Ok p /\
  exists l, find_stream_blocks_in_range (db_pool lake) (si_stream_id s) begin_ticks end_ticks = Ok l /\
    l ≡ₚ List.filter (in_range_block (si_stream_id s) begin_ticks end_ticks) (map fst (al_blocks a)) /\
    Sorted (fun x y => bm_begin_ticks x <= bm_begin_ticks y) l /\
    forall b, In b l -> exists payload, In (b, payload) (al_blocks a) /\
      bm_stream_id b = si_stream_id s /\
      fetch_block_payload (blob_storage lake) (bm_process_id b) (bm_stream_id b) (bm_block_id b)
        = Ok payload.
Proof.
  intros ((pr & Hpr & Hp) & (sr & Hsr & Hs) & (br & Hbr & Hb) & Hpay) Hdp Hds Hin Hinp Hsp.
  split; [by eapply find_stream_ok|]. split; [rewrite Hsp; by eapply find_process_ok|].
  destruct (find_blocks_ok (db_pool lake) (map fst (al_blocks a)) br (si_stream_id s) begin_ticks
    end_ticks Hbr Hb) as (l & Hl & Hperm & Hsort).
  exists l. split; [done|]. split; [done|]. split; [done|]. intros b Hbin.
  eapply Permutation_in in Hbin; [|exact Hperm]. apply filter_In in Hbin as [Hbin Hr].
  apply in_map_iff in Hbin as ([b' payload] & <- & Hbin). exists payload. split; [done|].
  unfold in_range_block in Hr. apply andb_true_iff in Hr as [Hr _].
  apply andb_true_iff in Hr as [Hr%Z.eqb_eq _]. split; [done|].
  pose proof (proj1 (List.Forall_forall _ _) Hpay _ Hbin) as Hx. exact Hx.
Qed.
End log_entries.

(** The blocks that a sink encodes are decoded: entries from events. *)
Lemma visit_events {A E S} (entry : A -> exec E) (f : S -> E -> exec (S * bool)) s evs es :
  Forall2 (fun a e => entry a = Ok e) evs es -> visit entry f s evs = visit Ok f s es.
Proof.
  intros Hl. revert s. induction Hl as [|a e evs es Ha _ IH]; intros s; [done|].
  cbn [visit]. rewrite Ha. cbn [mbind exec_bind].
  destruct (f s e) as [[s' []]| | | |]; cbn [mbind exec_bind]; try done; apply IH.
Qed.

Lemma log_block_decodes `{HAbi : LawfulAbi} `{HC : LawfulCompression} `{Rfc3339}
    into_iter st strs evs size stream ct es :
  iterates into_iter -> log_metadata_ok st strs -> Forall (log_event_ok st strs) evs ->
  Forall2 (fun a e => event_entry st strs ct a = Ok e) evs es ->
  exists q deps, foldM (push_log_event (st_bytes st)) (queue_new size) evs = Ok q /\
    extract_logs st q = Ok deps /\
    (blen (as_bytes deps) < 2 ^ 63 -> blen (as_bytes q) < 2 ^ 63 ->
     forall new_v4 b e p,
       eb_events b = q -> eb_end b = Some e ->
       in_i 64 (dt_ticks (eb_begin b) - start_ticks p) -> in_i 64 (dt_ticks e - start_ticks p) ->
       exists block, encode_block (extract_logs st) new_v4 b p = Ok block /\
         decodes_log ct
           (received_stream (make_stream_info into_iter LogMsgQueueAny LogDepsQueueAny stream))
           (bk_payload block) es).
Proof.
  intros Hit Hmd Hok Hes. destruct (log_stream_udts into_iter stream Hit) as [Hu Hdu].
  destruct (log_block_values st strs _ _ evs size Hu Hdu Hmd Hok) as (q & deps & Hq & _ & Hx & Hv).
  exists q, deps. split; [done|]. split; [done|].
  intros Hbd Hbq new_v4 b e p <- He Hb1 Hb2. destruct (Hv Hbd Hbq) as (h & Hh & Hparse).
  destruct (encode_block_Ok _ new_v4 b e deps p He Hx Hb1 Hb2) as (block & -> & Hcd & Hco).
  exists block. split; [done|]. intros S f s. unfold for_each_log_entry_in_block.
  rewrite (parse_block_Ok _ _ _ _ h _ s Hcd Hco Hh), Hparse.
  rewrite <- (visit_events _ f s evs es Hes), <- (visit_log_values st strs ct f evs s Hmd Hok).
  by destruct (fold_until _ _ _) as [[s' c]| | | |].
Qed.

(** The query, from the blocks that it finds *)
Lemma log_rows_of_blocks `{Compression} `{Cbor BlockPayload} `{Cbor (list UserDefinedType)}
    `{UuidText} `{ObjectPath} `{SqlOrder} `{LawfulArrow}
    lake s p (entries : BlockMetadata -> list LogEntry) begin_ end_ limit l :
  let ct := ConvertTicks_new p in
  find_stream (db_pool lake) (si_stream_id s) = Ok s ->
  find_process (db_pool lake) (si_process_id s) = Ok p ->
  find_stream_blocks_in_range (db_pool lake) (si_stream_id s) (to_ticks ct (begin_ - start_time p))
    (to_ticks ct (end_ - start_time p)) = Ok l ->
  (forall b, In b l -> exists payload,
     fetch_block_payload (blob_storage lake) (si_process_id s) (si_stream_id s) (bm_block_id b) = Ok payload /\
     decodes_log ct s payload (entries b) /\ in_order (entries b)) ->
  log_entries_fit (concat (map entries l)) ->
  query_log_entries lake (si_stream_id s) begin_ end_ limit =
  Ok (log_entries_batch (firstn (Z.to_nat limit)
        (List.filter (selected (default 0 (timestamp_nanos_opt begin_)) (default 0 (timestamp_nanos_opt end_)))
           (concat (map entries l))))).
Proof.
  intros ct Hs Hp Hfb Hb Hf.
  unfold query_log_entries. rewrite Hs. cbn [with_context mbind exec_bind].
  rewrite Hp. cbn [with_context mbind exec_bind]. fold ct. rewrite Hfb.
  cbn [with_context mbind exec_bind]. unfold make_log_entries_record_batch.
  change (log_entries_with_capacity 1024) with (log_entries_of []).
  pose proof (fold_log_rows (blob_storage lake) ct s (default 0 (timestamp_nanos_opt begin_))
    (default 0 (timestamp_nanos_opt end_)) limit entries l []) as Hfold.
  rewrite firstn_nil in Hfold. rewrite Hfold by done. cbn [mbind exec_bind]. by rewrite finish_log_entries_ok.
Qed.

(** ** Properties *)

(** C17. A query of log entries returns the rows of the entries: for a lake that
    represents what was sent, where the blocks of the stream hold entries in
    the order of their times, the batch has exactly the entries between the two
    times, block after block from the earliest one, up to the limit. *)
Theorem query_log_entries_rows `{Compression} `{Cbor BlockPayload} `{Cbor (list UserDefinedType)}
    `{UuidText} `{ObjectPath} `{LawfulSqlOrder} `{LawfulArrow}
    lake a s p (entries : BlockMetadata -> list LogEntry) begin_ end_ limit :
  represents lake a -> distinct process_id (al_processes a) -> distinct si_stream_id (al_streams a) ->
  In s (al_streams a) -> In p (al_processes a) -> si_process_id s = process_id p ->
  (forall b payload, In (b, payload) (al_blocks a) -> bm_stream_id b = si_stream_id s ->
     bm_process_id b = si_process_id s /\ decodes_log (ConvertTicks_new p) s payload (entries b) /\
     in_order (entries b)) ->
  log_entries_fit (concat (map (fun b => entries (fst b)) (al_blocks a))) ->
  let ct := ConvertTicks_new p in
  let begin_ns := default 0 (timestamp_nanos_opt begin_) in
  let end_ns := default 0 (timestamp_nanos_opt end_) in
  exists l,
    l ≡ₚ List.filter (in_range_block (si_stream_id s) (to_ticks ct (begin_ - start_time p))
                        (to_ticks ct (end_ - start_time p))) (map fst (al_blocks a)) /\
    Sorted (fun x y => bm_begin_ticks x <= bm_begin_ticks y) l /\
    query_log_entries lake (si_stream_id s) begin_ end_ limit =
    Ok (log_entries_batch (firstn (Z.to_nat limit)
          (List.filter (selected begin_ns end_ns) (concat (map entries l))))).
Proof.
  intros Hl Hdp Hds Hin Hinp Hsp Hb Hf ct begin_ns end_ns.
  destruct (find_blocks_in_lake lake a s p (to_ticks ct (begin_ - start_time p))
    (to_ticks ct (end_ - start_time p)) Hl Hdp Hds Hin Hinp Hsp) as (Hs & Hp & l & Hfb & Hperm & Hsort & Hpay).
  exists l. split; [done|]. split; [done|]. apply log_rows_of_blocks with p; try done.
  - intros b Hbl. destruct (Hpay b Hbl) as (payload & Hbin & Hst & Hfetch).
    destruct (Hb b payload Hbin Hst) as (Hbp & Hd & Ho). exists payload. by rewrite <- Hbp, <- Hst.
  - eapply log_entries_fit_incl; [|exact Hf].
    intros e He. apply in_concat in He as (es & Hes & He). apply in_map_iff in Hes as (b & <- & Hbl).
    apply in_concat. destruct (Hpay b Hbl) as (payload & Hbin & _).
    exists (entries b). split; [|done]. apply in_map_iff. by exists (b, payload).
Qed.
