(* ===== verification/SpanQuery.v ===== *)
(** * What a query of spans returns *)

From S2P Require Import Prelude RustString Float Transit Queue Pod Parser PodParser Blocks.
From S2P Require Import Levels Deps LogEvents LogBlock Time Stream Wire LogEntry MetricsBlock.
From S2P Require Import Measure SpanEvents ThreadBlock ThreadBlockProcessor CallTree Arrow.
From S2P Require Import Tables.
From S2P Require Import Sql Lake Metadata LakeSpec Query QuerySpec.

(** ** Blocks of a thread *)
Section spans.
Context `{Compression} `{Cbor BlockPayload} `{UuidText} `{ObjectPath} `{HA : LawfulArrow} `{Xxh32}.

(** The payload of a block is read as a list of events: what
    [parse_thread_block_payload] does is to call the processor for each. *)
Definition decodes_thread (st : statics) (strs : gmap Z string) (stream : StreamInfo)
    (payload : BlockPayload) (object_offset : Z) (evs : list ThreadEventQueueAny) : Prop :=
  forall Proc (HP : ThreadBlockProcessor Proc) block_id proc,
    parse_thread_block_payload block_id object_offset payload stream proc =
    with_context "parsing object buffer" (visit_scopes st strs block_id object_offset proc evs).

Definition stored_thread_block (st : statics) (strs : gmap Z string) (blobs : BlobStorage)
    (stream : StreamInfo) (evs : BlockMetadata -> list ThreadEventQueueAny) (b : BlockMetadata) : Prop :=
  exists payload,
    fetch_block_payload blobs (si_process_id stream) (si_stream_id stream) (bm_block_id b) = Ok payload /\
    decodes_thread st strs stream payload (bm_object_offset b) (evs b).

Definition block_calls (st : statics) (strs : gmap Z string)
    (evs : BlockMetadata -> list ThreadEventQueueAny) (b : BlockMetadata) : list (Z * scope_call) :=
  numbered st strs (bm_object_offset b) (evs b).

(** The builder does not look at the identifier of the block. *)
Lemma call_block_id id id' i (b : CallTreeBuilder) c : call_scope id i b c = call_scope id' i b c.
Proof. by destruct c as [[]|]. Qed.
Lemma run_calls_block_id id id' (b : CallTreeBuilder) cs : run_calls id b cs = run_calls id' b cs.
Proof.
  revert b. induction cs as [|[i c] cs IH]; intros b; [done|]. cbn [run_calls].
  rewrite (call_block_id id id').
  destruct (call_scope id' i b (Some c)) as [[b' []]| | | |]; cbn [mbind exec_bind]; done.
Qed.

Lemma run_calls_app id (b b2 : CallTreeBuilder) cs cs' :
  run_calls id b (cs ++ cs') = Ok (b2, true) ->
  exists b1, run_calls id b cs = Ok (b1, true) /\ run_calls id b1 cs' = Ok (b2, true).
Proof.
  revert b. induction cs as [|[i c] cs IH]; intros b Hr; [by exists b|].
  cbn [app run_calls] in *. destruct (call_scope id i b (Some c)) as [[b' []]| | | |];
    cbn [mbind exec_bind] in *; try discriminate Hr. by apply IH.
Qed.

(** Blocks through which the builder runs *)
Lemma blocks_run st strs blobs stream evs l (b0 b : CallTreeBuilder) id :
  Forall (stored_thread_block st strs blobs stream evs) l ->
  run_calls id b0 (concat (map (block_calls st strs evs) l)) = Ok (b, true) ->
  foldM (fun builder block =>
    '(builder, _) ← parse_thread_block blobs stream (bm_block_id block) (bm_object_offset block) builder;
    Ok builder) b0 l = Ok b.
Proof.
  intros Hl. revert b0. induction Hl as [|m l (payload & Hp & Hd) _ IH]; intros b0 Hr.
  { by injection Hr as ->. }
  cbn [map concat] in Hr. apply run_calls_app in Hr as (b1 & Hr1 & Hr2). cbn [foldM].
  assert (parse_thread_block blobs stream (bm_block_id m) (bm_object_offset m) b0 = Ok (b1, true)) as ->.
  { unfold parse_thread_block. rewrite Hp. cbn [mbind exec_bind]. rewrite Hd.
    rewrite (visit_scopes_calls st strs _ _ _ _ (b1, true)); [done|].
    by rewrite (run_calls_block_id _ id). }
  cbn [mbind exec_bind]. by apply IH.
Qed.

Lemma make_call_tree_calls st strs blobs stream evs l begin_ns end_ns lim ct b id :
  Forall (stored_thread_block st strs blobs stream evs) l ->
  run_calls id (CallTreeBuilder_new begin_ns end_ns lim ct (get_thread_name uuid_to_string stream))
    (concat (map (block_calls st strs evs) l)) = Ok (b, true) ->
  make_call_tree l begin_ns end_ns lim blobs ct stream = Ok (finish b).
Proof. intros Hl Hr. unfold make_call_tree. by rewrite (blocks_run _ _ _ _ _ _ _ _ _ Hl Hr). Qed.

(** ** Contiguous blocks *)

(** Every block begins when the one before it ends. *)
Fixpoint contiguous (last_end : option Z) (l : list BlockMetadata) : Prop :=
  match l with
  | [] => True
  | b :: l => bm_begin_ticks b = default (bm_begin_ticks b) last_end /\
              contiguous (Some (bm_end_ticks b)) l
  end.

Lemma spans_of_contiguous p rb re lim blobs s l builder acc last_end :
  contiguous last_end l ->
  spans_of_blocks p rb re lim blobs s l builder acc last_end = Ok (builder, Some (acc ++ l)).
Proof.
  revert acc last_end. induction l as [|b l IH]; intros acc last_end Hc; cbn [spans_of_blocks].
  - by rewrite app_nil_r.
  - destruct Hc as [E Hc]. rewrite (proj2 (Z.eqb_eq _ _) E). rewrite IH by done.
    by rewrite <- app_assoc.
Qed.

(** [append_call_tree], when the builder runs through all the calls *)
Lemma append_call_tree_calls st strs p s blobs evs l rb re lim begin_ns end_ns first last_ b id :
  let ct := ConvertTicks_new p in
  head l = Some first -> list_last l = Some last_ ->
  relative_to_nanoseconds ct p (Z.max rb (bm_begin_ticks first)) = Ok begin_ns ->
  relative_to_nanoseconds ct p (Z.min re (bm_end_ticks last_)) = Ok end_ns ->
  begin_ns <= end_ns -> end_ns - begin_ns < 2 ^ 63 -> in_i 64 lim ->
  Forall (stored_thread_block st strs blobs s evs) l ->
  run_calls id (CallTreeBuilder_new begin_ns end_ns lim ct (get_thread_name uuid_to_string s))
    (concat (map (block_calls st strs evs) l)) = Ok (b, true) ->
  Z.of_nat (length (tree_nodes (finish b))) <= 2 ^ 32 -> spans_fit (tree_rows (finish b)) ->
  append_call_tree (spans_of []) p l rb re lim blobs s =
  Ok (spans_of (tree_rows (finish b)), spans_len (spans_of (tree_rows (finish b))) <? lim).
Proof.
  intros ct Hf Hl Hb He Hle Hrange Hlim Hst Hr Hsize Hfit. unfold append_call_tree. rewrite Hf, Hl.
  cbn [unwrap mbind exec_bind]. fold ct. rewrite Hb. cbn [mbind exec_bind]. rewrite He.
  cbn [mbind exec_bind]. change (spans_len (spans_of [])) with 0. rewrite Z.sub_0_r.
  rewrite (proj2 (i64_checked_Ok _ _) (conj eq_refl Hlim)). cbn [mbind exec_bind].
  rewrite (make_call_tree_calls st strs _ _ evs _ _ _ _ _ b id Hst Hr). cbn [with_context mbind exec_bind].
  apply run_calls_ok in Hr as [Hok [E1 E2]]; [|by apply builder_new_ok].
  destruct (finish_ok b Hok) as [Hn Hsc]. rewrite E1, E2, <- Hsc in Hn.
  rewrite (append_call_tree_rows (finish b) begin_ns end_ns Hrange []); [done|exact Hn|done|done].
Qed.

Lemma query_spans_contiguous st strs p s blobs evs l rb re lim begin_ns end_ns first last_ b id :
  let ct := ConvertTicks_new p in
  contiguous None l -> head l = Some first -> list_last l = Some last_ ->
  relative_to_nanoseconds ct p (Z.max rb (bm_begin_ticks first)) = Ok begin_ns ->
  relative_to_nanoseconds ct p (Z.min re (bm_end_ticks last_)) = Ok end_ns ->
  begin_ns <= end_ns -> end_ns - begin_ns < 2 ^ 63 -> in_i 64 lim ->
  Forall (stored_thread_block st strs blobs s evs) l ->
  run_calls id (CallTreeBuilder_new begin_ns end_ns lim ct (get_thread_name uuid_to_string s))
    (concat (map (block_calls st strs evs) l)) = Ok (b, true) ->
  Z.of_nat (length (tree_nodes (finish b))) <= 2 ^ 32 -> spans_fit (tree_rows (finish b)) ->
  query_spans_batch p rb re lim blobs s l = Ok (spans_batch (tree_rows (finish b))).
Proof.
  intros ct Hc Hf Hl Hb He Hle Hrange Hlim Hst Hr Hsize Hfit. unfold query_spans_batch.
  change (spans_with_capacity 1024) with (spans_of []). rewrite spans_of_contiguous by done.
  cbn [mbind exec_bind app]. destruct l as [|m l]; [done|].
  rewrite (append_call_tree_calls st strs p s blobs evs (m :: l) rb re lim begin_ns end_ns first last_ b id)
    by done.
  cbn [mbind exec_bind]. by rewrite finish_spans_ok.
Qed.
End spans.

(** The blocks that a sink encodes are decoded. *)
Lemma thread_block_decodes `{HAbi : LawfulAbi} `{HC : LawfulCompression} `{Rfc3339} `{Xxh32}
    into_iter st strs evs size stream :
  iterates into_iter -> span_metadata_ok st strs -> Forall (thread_event_ok st strs) evs ->
  exists q deps, foldM (push_thread_event (st_bytes st)) (queue_new size) evs = Ok q /\
    extract_thread st q = Ok deps /\
    (blen (as_bytes deps) < 2 ^ 63 -> blen (as_bytes q) < 2 ^ 63 ->
     forall new_v4 b e p,
       eb_events b = q -> eb_end b = Some e ->
       in_i 64 (dt_ticks (eb_begin b) - start_ticks p) -> in_i 64 (dt_ticks e - start_ticks p) ->
       exists block, encode_block (extract_thread st) new_v4 b p = Ok block /\
         forall object_offset,
           - 2 ^ 63 <= object_offset -> object_offset + Z.of_nat (length evs) < 2 ^ 63 ->
           decodes_thread st strs
             (received_stream (make_stream_info into_iter ThreadEventQueueAny ThreadDepsQueueAny stream))
             (bk_payload block) object_offset evs).
Proof.
  intros Hit Hmd Hok. destruct (thread_stream_udts into_iter stream Hit) as [Hu Hdu].
  destruct (thread_block_values st strs _ _ evs size Hu Hdu Hmd Hok) as (q & deps & Hq & _ & Hx & Hv).
  exists q, deps. split; [done|]. split; [done|].
  intros Hbd Hbq new_v4 b e p <- He Hb1 Hb2. destruct (Hv Hbd Hbq) as (h & Hh & Hparse).
  destruct (encode_block_Ok _ new_v4 b e deps p He Hx Hb1 Hb2) as (block & -> & Hcd & Hco).
  exists block. split; [done|]. intros off Hl Hr Proc HP block_id proc.
  unfold parse_thread_block_payload.
  rewrite (parse_block_Ok _ _ _ _ h _ _ Hcd Hco Hh), Hparse.
  rewrite <- (visit_thread_values st strs Hmd block_id evs off proc Hok Hl Hr).
  by destruct (fold_until _ _ _) as [[[? ?] ?]| | | |].
Qed.

(** ** Single calls of the builder *)
Lemma record_scope_eta b sc :
  record_scope_desc b sc = set_scopes b (ctb_scopes (record_scope_desc b sc)).
Proof. unfold record_scope_desc. destruct b as [? ? ? ? ? scs ? ?]. cbn. by destruct (scs !! _). Qed.

Lemma builder_on_begin_in b id sc ts t :
  ticks_to_nanoseconds (ctb_convert_ticks b) ts = Ok t ->
  ctb_begin_range_ns b <= t <= ctb_end_range_ns b ->
  ctb_nb_spans b < ctb_limit b -> in_i 64 (ctb_nb_spans b + 1) ->
  builder_on_begin b id sc ts =
  Ok (set_nb_spans (set_stack (record_scope_desc b sc)
        (mkCallTreeNode (Some id) (sd_hash sc) t (ctb_end_range_ns b) [] :: ctb_stack b))
        (ctb_nb_spans b + 1), true).
Proof.
  intros Ht [Hl Hr] Hn Hi. unfold builder_on_begin. rewrite (proj2 (Z.leb_gt _ _) Hn), Ht.
  cbn [mbind exec_bind]. rewrite (proj2 (Z.ltb_ge _ _) Hl), (proj2 (Z.ltb_ge _ _) Hr).
  rewrite record_scope_eta.
  cbn [ctb_nb_spans ctb_end_range_ns ctb_stack set_scopes].
  by rewrite (proj2 (i64_checked_Ok _ _) (conj eq_refl Hi)).
Qed.

Lemma builder_on_begin_full b id sc ts :
  ctb_limit b <= ctb_nb_spans b -> builder_on_begin b id sc ts = Ok (b, false).
Proof. intros Hn. unfold builder_on_begin. by rewrite (proj2 (Z.leb_le _ _) Hn). Qed.

Lemma builder_on_end_mismatch b id sc ts t top rest :
  ticks_to_nanoseconds (ctb_convert_ticks b) ts = Ok t ->
  ctb_begin_range_ns b <= t <= ctb_end_range_ns b ->
  ctb_stack b = top :: rest -> ctn_hash top <> sd_hash sc -> ctn_hash top <> ctb_root_hash b ->
  builder_on_end b id sc ts = Err ["top scope mismatch parsing thread block"].
Proof.
  intros Ht [Hl Hr] Hs H1 H2. unfold builder_on_end. rewrite Ht.
  cbn [mbind exec_bind]. rewrite (proj2 (Z.ltb_ge _ _) Hl), (proj2 (Z.ltb_ge _ _) Hr).
  rewrite record_scope_eta.
  cbn [ctb_stack set_scopes ctb_root_hash set_stack]. rewrite Hs.
  by rewrite (proj2 (Z.eqb_neq _ _) H1), (proj2 (Z.eqb_neq _ _) H2).
Qed.

(** What no call changes *)
Definition builder_config (b : CallTreeBuilder) : Z * Z * Z * ConvertTicks * Z :=
  (ctb_begin_range_ns b, ctb_end_range_ns b, ctb_limit b, ctb_convert_ticks b, ctb_root_hash b).

Lemma add_child_config b node b' : add_child_to_top b node = Ok b' -> builder_config b' = builder_config b.
Proof.
  unfold add_child_to_top. destruct (ctb_stack b); [|by intros [= <-]].
  destruct (i64_checked _) as [n| | | |]; cbn [mbind exec_bind]; try discriminate. by intros [= <-].
Qed.

Lemma call_config id i b c b' cont :
  call_scope id i b (Some c) = Ok (b', cont) -> builder_config b' = builder_config b.
Proof.
  assert (forall sc, builder_config (record_scope_desc b sc) = builder_config b) as Hsc
    by (intros; by rewrite record_scope_eta).
  destruct c as [sc ts|sc ts]; cbn [call_scope on_begin_thread_scope on_end_thread_scope
    CallTreeBuilder_ThreadBlockProcessor]; [unfold builder_on_begin|unfold builder_on_end].
  - destruct (_ <=? _); [by intros [= <- _]|]. intros E. exec_inv E.
    destruct (r <? _); [by injection E as <- _|]. destruct (_ <? r); [by injection E as <- _|].
    exec_inv E. injection E as <- _. apply (Hsc sc).
  - intros E. exec_inv E. destruct (r <? _); [by injection E as <- _|]. destruct (_ <? r); [by injection E as <- _|].
    destruct (ctb_stack (record_scope_desc b sc)) as [|top rest].
    + destruct (_ <=? _); [injection E as <- _; apply (Hsc sc)|]. exec_inv E. injection E as <- _.
      apply add_child_config in Hr0. by rewrite Hr0.
    + destruct (_ =? _); [|destruct (_ =? _); [|discriminate E]]; exec_inv E; injection E as <- _;
        apply add_child_config in Hr0; rewrite Hr0; apply (Hsc sc).
Qed.

Lemma run_calls_config id b cs b' cont :
  run_calls id b cs = Ok (b', cont) -> builder_config b' = builder_config b.
Proof.
  revert b. induction cs as [|[i c] cs IH]; intros b; cbn [run_calls]; [by intros [= <-]|].
  destruct (call_scope id i b (Some c)) as [[b1 []]| | | |] eqn:Ec; cbn [mbind exec_bind]; try discriminate.
  - intros E. rewrite (IH b1 E). by eapply call_config.
  - intros [= <- _]. by eapply call_config.
Qed.

Lemma numbered_quiet `{Xxh32} st strs i quiet :
  Forall (fun e => event_scope st strs e = None) quiet -> numbered st strs i quiet = [].
Proof. intros Hq. revert i. induction Hq as [|q quiet E _ IH]; intros i; [done|]. cbn [numbered]. by rewrite E. Qed.

(** The events that the builder runs through, and those that follow *)
Lemma visit_scopes_run `{Xxh32} st strs block_id id i (b b1 : CallTreeBuilder) evs evs' :
  run_calls id b (numbered st strs i evs) = Ok (b1, true) ->
  visit_scopes st strs block_id i b (evs ++ evs') =
  visit_scopes st strs block_id (i + Z.of_nat (length evs)) b1 evs'.
Proof.
  revert i b. induction evs as [|a evs IH]; intros i b; cbn [numbered app visit_scopes length].
  { intros [= ->]. by rewrite Z.add_0_r. }
  replace (i + Z.of_nat (S (length evs))) with (i + 1 + Z.of_nat (length evs)) by lia.
  destruct (event_scope st strs a) as [c|].
  - cbn [run_calls]. rewrite (call_block_id block_id id).
    destruct (call_scope id i b (Some c)) as [[b2 []]| | | |]; cbn [with_context mbind exec_bind]; try discriminate.
    apply IH.
  - cbn [call_scope with_context mbind exec_bind]. apply IH.
Qed.

(** ** Properties *)

(** A query of spans returns the tree of the scopes: when the blocks of
    the range follow each other without a gap, and the scopes of the thread
    are nested and within the limit, the rows are the nodes of the tree of the
    scopes, from the root, each with its parent, its depth and its times. *)
Theorem query_spans_rows `{Compression} `{Cbor BlockPayload} `{Cbor (list UserDefinedType)}
    `{UuidText} `{ObjectPath} `{SqlOrder} `{LawfulArrow} `{Xxh32}
    st strs lake stream_id begin_ end_ p s evs l lim begin_ns end_ns first last_ prefix mid opens :
  let ct := ConvertTicks_new p in
  let rh := compute_scope_hash (get_thread_name uuid_to_string s) EmptyString EmptyString 0 in
  let rb := to_ticks ct (Z.max begin_ (start_time p) - start_time p) in
  let re := to_ticks ct (end_ - start_time p) in
  find_stream (db_pool lake) stream_id = Ok s ->
  find_process (db_pool lake) (si_process_id s) = Ok p ->
  find_stream_blocks_in_range (db_pool lake) stream_id rb re = Ok l ->
  contiguous None l -> head l = Some first -> list_last l = Some last_ ->
  relative_to_nanoseconds ct p (Z.max rb (bm_begin_ticks first)) = Ok begin_ns ->
  relative_to_nanoseconds ct p (Z.min re (bm_end_ticks last_)) = Ok end_ns ->
  begin_ns <= end_ns -> end_ns - begin_ns < 2 ^ 63 -> lim < 2 ^ 63 ->
  Forall (stored_thread_block st strs (blob_storage lake) s evs) l ->
  concat (map (block_calls st strs evs) l) = prefix_calls prefix ++ calls mid ++ open_calls opens ->
  Forall (in_view ct begin_ns end_ns) (prefix_calls prefix ++ calls mid ++ open_calls opens) ->
  Forall (fun p => sd_hash p.2.1.2 <> rh) prefix ->
  0 < 1 + prefix_size prefix + forest_size mid + open_size opens <= lim ->
  exists tree, call_tree_root tree = expected_root ct begin_ns end_ns rh prefix mid opens /\
    Forall (node_ok (ct_scopes tree) begin_ns end_ns) (tree_nodes tree) /\
    scopes_ok (ct_scopes tree) /\
    (Z.of_nat (length (tree_nodes tree)) <= 2 ^ 32 -> spans_fit (tree_rows tree) ->
     query_spans lake lim stream_id begin_ end_ = Ok (spans_batch (tree_rows tree))).
Proof.
  intros ct rh rb re Hfs Hfp Hfb Hc Hf Hl Hb He Hle Hrange Hlim Hst Hcs Hv Hh Hn.
  set (name := get_thread_name uuid_to_string s) in *.
  destruct (run_all ct begin_ns end_ns lim rh EmptyString Hlim prefix mid opens
    {[ rh := ScopeDesc_new name EmptyString EmptyString 0 ]} (proj2 Hn) Hv Hh) as (b & Hr & Hroot).
  change (mkCallTreeBuilder _ _ _ _ _ _ _ _) with (CallTreeBuilder_new begin_ns end_ns lim ct name) in Hr.
  rewrite <- Hcs in Hr. exists (finish b). split; [done|].
  pose proof Hr as Hr'. apply run_calls_ok in Hr' as [Hok [E1 E2]]; [|by apply builder_new_ok].
  destruct (finish_ok b Hok) as [Hnodes Hsc]. cbn in E1, E2. rewrite E1, E2, <- Hsc in Hnodes.
  split; [exact Hnodes|]. split; [rewrite Hsc; apply Hok|]. intros Hsize Hfit.
  unfold query_spans. rewrite Hfs. cbn [with_context mbind exec_bind]. rewrite Hfp.
  cbn [with_context mbind exec_bind]. fold ct rb re. rewrite Hfb. cbn [with_context mbind exec_bind].
  apply (query_spans_contiguous st strs p s (blob_storage lake) evs l rb re lim begin_ns end_ns first
    last_ b EmptyString); try done. unfold in_i. change (64 - 1) with 63. lia.
Qed.

(** A gap loses a block: when a block does not begin where the one before
    it ends, the query returns what it would return without that block. *)
Theorem query_spans_gap `{Compression} `{Cbor BlockPayload} `{UuidText} `{ObjectPath} `{Arrow} `{Xxh32}
    p rb re lim blobs s b1 b2 :
  bm_begin_ticks b2 <> bm_end_ticks b1 ->
  query_spans_batch p rb re lim blobs s [b1; b2] = query_spans_batch p rb re lim blobs s [b1].
Proof.
  intros Hgap. unfold query_spans_batch.
  rewrite (spans_of_contiguous p rb re lim blobs s [b1] _ [] None) by done.
  cbn [spans_of_blocks]. unfold default at 1. cbn [from_option]. rewrite Z.eqb_refl.
  cbn [app default id from_option]. apply Z.eqb_neq in Hgap. rewrite Hgap.
  cbn [spans_of_blocks mbind exec_bind].
  destruct (append_call_tree _ p [b1] rb re lim blobs s) as [[rb' []]| | | |]; reflexivity.
Qed.

(** C21. The limit makes a query fail: when it is reached inside a scope (of any
    blocks before, with any calls), the scope that begins next ends the reading
    of its block and is dropped; but the next block is read all the same, and
    when its first call is the end of a dropped scope, which does not match the
    scope that is open, the query fails, whatever the rest. *)
Theorem make_call_tree_limit `{Compression} `{Cbor BlockPayload} `{UuidText} `{ObjectPath} `{Xxh32}
    st strs blobs s evs l b1 b2 l' ct begin_ns end_ns lim id b top stack
    before e1 after quiet e2 rest dropped ticks sc ticks' :
  let name := get_thread_name uuid_to_string s in
  let rh := compute_scope_hash name EmptyString EmptyString 0 in
  Forall (stored_thread_block st strs blobs s evs) (l ++ [b1; b2]) ->
  evs b1 = before ++ e1 :: after -> evs b2 = quiet ++ e2 :: rest ->
  run_calls id (CallTreeBuilder_new begin_ns end_ns lim ct name)
    (concat (map (block_calls st strs evs) l) ++ numbered st strs (bm_object_offset b1) before) = Ok (b, true) ->
  lim <= ctb_nb_spans b -> ctb_stack b = top :: stack ->
  event_scope st strs e1 = Some (BeginScope dropped ticks) ->
  Forall (fun e => event_scope st strs e = None) quiet ->
  event_scope st strs e2 = Some (EndScope sc ticks') -> in_view ct begin_ns end_ns (0, EndScope sc ticks') ->
  ctn_hash top <> sd_hash sc -> ctn_hash top <> rh ->
  make_call_tree (l ++ b1 :: b2 :: l') begin_ns end_ns lim blobs ct s =
  Err ["parsing object buffer"; reading e2; "top scope mismatch parsing thread block"].
Proof.
  intros name rh Hst E1 E2 Hr Hlim Htop S1 Hq S2 (y & Hy & Hyr) Hne Hroot.
  apply list.Forall_app in Hst as [Hl [(p1 & F1 & D1) [(p2 & F2 & D2) _]%list.Forall_cons]%list.Forall_cons].
  pose proof (run_calls_config _ _ _ _ _ Hr) as Hc. unfold builder_config in Hc. cbn in Hc.
  injection Hc as C1 C2 C3 C4 C5. apply run_calls_app in Hr as (b0 & Hr0 & Hr).
  unfold make_call_tree. fold name. rewrite foldM_app, (blocks_run _ _ _ _ _ _ _ _ _ Hl Hr0).
  cbn [mbind exec_bind foldM]. unfold parse_thread_block. rewrite F1, F2. cbn [mbind exec_bind].
  rewrite D1, E1, (visit_scopes_run _ _ _ _ _ _ _ _ _ Hr). cbn [visit_scopes]. rewrite S1.
  unfold call_scope at 1. cbn [on_begin_thread_scope CallTreeBuilder_ThreadBlockProcessor].
  rewrite builder_on_begin_full by (by rewrite C3). cbn [with_context mbind exec_bind].
  rewrite D2, E2, (visit_scopes_run _ _ _ EmptyString _ b b).
  2:{ by rewrite (numbered_quiet _ _ _ _ Hq). }
  cbn [visit_scopes]. rewrite S2. unfold call_scope. cbn [on_end_thread_scope CallTreeBuilder_ThreadBlockProcessor].
  rewrite (builder_on_end_mismatch b _ _ _ y top stack); [reflexivity|by rewrite C4|by rewrite C1, C2|done|done|].
  by rewrite C5.
Qed.
