(* ===== verification/RowQueries.v ===== *)
(** * Queries of measures and of the events of a thread

    [query_metrics] and [query_thread_events] return the rows of what was
    recorded between the two times, up to the limit: they are loops over the
    blocks, as [Scan.v] describes them. *)

From Stdlib Require Import Sorting.Sorted.
From S2P Require Import Prelude RustString Float Transit Queue Pod Parser PodParser Blocks.
From S2P Require Import Levels Deps LogEvents LogBlock Time Stream Wire LogEntry MetricsBlock.
From S2P Require Import Measure Scan SpanEvents ThreadBlock ThreadBlockProcessor CallTree.
From S2P Require Import Arrow.
From S2P Require Import Tables.
From S2P Require Import Sql Lake Metadata LakeSpec Query QuerySpec SpanQuery.

(** ** Measures *)
Section measures.
Context `{Compression} `{Cbor BlockPayload} `{Cbor (list UserDefinedType)} `{UuidText}.
Context `{ObjectPath} `{HO : LawfulSqlOrder} `{HA : LawfulArrow}.

(** The payload of a block is read as a list of measures. *)
Definition decodes_metrics (ct : ConvertTicks) (stream : StreamInfo) (payload : BlockPayload)
    (ms : list Measure) : Prop :=
  forall S (f : S -> Measure -> exec (S * bool)) s,
    for_each_measure_in_block ct stream payload f s =
    with_context "parse_block" (with_context "parsing object buffer" (visit_all Ok f s ms)).

(** The state of the loop: the builder, and the number of its rows *)
Definition measures_built (l : list Measure) : MetricsRecordBuilder * Z :=
  (measures_of l, Z.of_nat (length l)).

Lemma measures_fit_prefix l1 l2 : measures_fit (l1 ++ l2) -> measures_fit l1.
Proof.
  unfold measures_fit. rewrite !map_app. intros (F1 & F2 & F3). split_and!; by eapply fits_prefix.
Qed.

Lemma on_measure_step begin_ns end_ns lim e :
  in_i 64 lim ->
  step_ok me_time begin_ns end_ns lim measures_built measures_fit (on_measure begin_ns end_ns lim) e.
Proof.
  intros Hlim l Hl. cbv zeta. unfold wanted, on_measure, measures_built at 1. rewrite (Z.ltb_antisym begin_ns).
  destruct (begin_ns <=? me_time e); cbn [andb negb]; [|intros Hok; by exists true].
  rewrite (Z.ltb_antisym (me_time e)). destruct (Z.leb_spec (me_time e) end_ns) as [He|He]; cbn [andb orb negb].
  2:{ intros Hok. exists false. split; [done|]. by left. }
  rewrite Z.leb_antisym. destruct (Z.ltb_spec (Z.of_nat (length l)) lim) as [Hn|Hn]; cbn [negb]; intros Hok.
  2:{ exists false. split; [done|]. by right. }
  rewrite append_measure_ok by done.
  cbn [mbind exec_bind]. rewrite (proj2 (i64_checked_Ok _ _)) by (split; [done|]; unfold in_i in *; lia).
  cbn [mbind exec_bind]. unfold measures_built. rewrite length_app. cbn [length].
  replace (Z.of_nat (length l + 1)) with (Z.of_nat (length l) + 1) by lia.
  eexists. split; [done|]. intros Hc%Z.ltb_ge. by right.
Qed.

Lemma measures_of_blocks_until blobs ct stream begin_ns end_ns lim bs s :
  measures_of_blocks blobs ct stream begin_ns end_ns lim bs s =
  read_until (fun b => with_context "for_each_measure_in_block" ∘
    for_each_measure_in_stored_block blobs ct stream b (on_measure begin_ns end_ns lim)) bs s.
Proof.
  revert s. induction bs as [|b bs IH]; intros s; [done|]. cbn [measures_of_blocks read_until].
  unfold compose. destruct (with_context _ _) as [[s' []]| | | |]; cbn [mbind exec_bind]; done.
Qed.

(** The loop, over blocks whose measures come in the order of their times *)
Lemma measures_of_blocks_rows blobs ct stream begin_ns end_ns lim (measures : BlockMetadata -> list Measure) bs :
  in_i 64 lim ->
  (forall b, In b bs -> exists payload,
     fetch_block_payload blobs (si_process_id stream) (si_stream_id stream) (bm_block_id b) = Ok payload /\
     decodes_metrics ct stream payload (measures b)) ->
  in_time me_time (concat (map measures bs)) ->
  let rows := firstn (Z.to_nat lim)
    (List.filter (wanted me_time begin_ns end_ns) (concat (map measures bs))) in
  measures_fit rows ->
  measures_of_blocks blobs ct stream begin_ns end_ns lim bs (measures_built []) = Ok (measures_built rows).
Proof.
  intros Hlim Hb Hs rows Hok. rewrite measures_of_blocks_until.
  apply (scan_blocks me_time begin_ns end_ns lim measures_built measures_fit measures_fit_prefix
    _ measures (on_measure begin_ns end_ns lim) bs []); [|done| |cbn; lia|done].
  - intros b s r Hin Hr. unfold compose, for_each_measure_in_stored_block.
    destruct (Hb b Hin) as (payload & -> & Hd). cbn [mbind exec_bind]. by rewrite Hd, Hr.
  - apply List.Forall_forall. intros e _. by apply on_measure_step.
Qed.

(** The query, from the blocks that it finds *)
Lemma metrics_rows_of_blocks lake s p (measures : BlockMetadata -> list Measure) begin_ end_ limit l :
  let ct := ConvertTicks_new p in
  find_stream (db_pool lake) (si_stream_id s) = Ok s ->
  find_process (db_pool lake) (si_process_id s) = Ok p ->
  find_stream_blocks_in_range (db_pool lake) (si_stream_id s) (to_ticks ct (begin_ - start_time p))
    (to_ticks ct (end_ - start_time p)) = Ok l ->
  (forall b, In b l -> exists payload,
     fetch_block_payload (blob_storage lake) (si_process_id s) (si_stream_id s) (bm_block_id b) = Ok payload /\
     decodes_metrics ct s payload (measures b)) ->
  in_i 64 limit -> in_time me_time (concat (map measures l)) ->
  let rows := firstn (Z.to_nat limit)
    (List.filter (wanted me_time (default 0 (timestamp_nanos_opt begin_)) (default 0 (timestamp_nanos_opt end_)))
       (concat (map measures l))) in
  measures_fit rows ->
  query_metrics lake limit (si_stream_id s) begin_ end_ = Ok (measures_batch rows).
Proof.
  intros ct Hs Hp Hfb Hb Hlim Hord rows Hfit.
  unfold query_metrics. rewrite Hs. cbn [with_context mbind exec_bind]. rewrite Hp.
  cbn [with_context mbind exec_bind]. fold ct. rewrite Hfb. cbn [with_context mbind exec_bind].
  unfold make_metrics_record_batch.
  change (metrics_with_capacity 1024, 0) with (measures_built []).
  rewrite (measures_of_blocks_rows _ ct s _ _ limit measures l) by done.
  cbn [measures_built mbind exec_bind]. by rewrite finish_measures_ok.
Qed.
End measures.

(** The blocks that a sink encodes are decoded. *)
Lemma metrics_block_decodes `{HAbi : LawfulAbi} `{HC : LawfulCompression} `{Rfc3339}
    into_iter st strs evs size stream ct ms :
  iterates into_iter -> metric_metadata_ok st strs -> Forall (metric_event_ok st) evs ->
  Forall2 (fun a m => event_measure st strs ct a = Ok m) evs ms ->
  exists q deps, foldM (push_metric_event (st_bytes st)) (queue_new size) evs = Ok q /\
    extract_metrics st q = Ok deps /\
    (blen (as_bytes deps) < 2 ^ 63 -> blen (as_bytes q) < 2 ^ 63 ->
     forall new_v4 b e p,
       eb_events b = q -> eb_end b = Some e ->
       in_i 64 (dt_ticks (eb_begin b) - start_ticks p) -> in_i 64 (dt_ticks e - start_ticks p) ->
       exists block, encode_block (extract_metrics st) new_v4 b p = Ok block /\
         decodes_metrics ct
           (received_stream (make_stream_info into_iter MetricsMsgQueueAny MetricsDepsQueueAny stream))
           (bk_payload block) ms).
Proof.
  intros Hit Hmd Hok Hms. destruct (metrics_stream_udts into_iter stream Hit) as [Hu Hdu].
  destruct (metrics_block_values st strs _ _ evs size Hu Hdu Hmd Hok) as (q & deps & Hq & _ & Hx & Hv).
  exists q, deps. split; [done|]. split; [done|].
  intros Hbd Hbq new_v4 b e p <- He Hb1 Hb2. destruct (Hv Hbd Hbq) as (h & Hh & Hparse).
  destruct (encode_block_Ok _ new_v4 b e deps p He Hx Hb1 Hb2) as (block & -> & Hcd & Hco).
  exists block. split; [done|]. intros S f s. unfold for_each_measure_in_block.
  rewrite (parse_block_Ok _ _ _ _ h _ s Hcd Hco Hh), Hparse.
  rewrite (visit_measure_values st strs ct f evs s Hmd Hok). do 2 f_equal.
  clear -Hms. revert s. induction Hms as [|a m evs ms Ha _ IH]; intros s; [done|].
  cbn [visit_all]. rewrite Ha. cbn [mbind exec_bind].
  destruct (f s m) as [[s' []]| | | |]; cbn [mbind exec_bind]; done.
Qed.

(** ** Events of a thread *)

(** A row: the block of the event, its number in the stream, and the call *)
Record EventRow := mkEventRow { ev_block : string; ev_id : Z; ev_call : scope_call }.
Definition call_is_begin (c : scope_call) : bool :=
  match c with BeginScope _ _ => true | EndScope _ _ => false end.
Definition call_scope_desc (c : scope_call) : ScopeDesc :=
  match c with BeginScope s _ | EndScope s _ => s end.
Definition call_ticks (c : scope_call) : Z := match c with BeginScope _ ts | EndScope _ ts => ts end.

Definition ev_type (e : EventRow) : string := if call_is_begin (ev_call e) then "begin" else "end".
Definition ev_scope (e : EventRow) : ScopeDesc := call_scope_desc (ev_call e).
Definition ev_time (ct : ConvertTicks) (e : EventRow) : Z :=
  match ticks_to_nanoseconds ct (call_ticks (ev_call e)) with Ok t => t | _ => 0 end.
(** The ticks of the event can be converted. *)
Definition in_clock (ct : ConvertTicks) (e : EventRow) : Prop :=
  ticks_to_nanoseconds ct (call_ticks (ev_call e)) = Ok (ev_time ct e).

(** The rows of a block *)
Definition block_events `{Xxh32} `{UuidText} (st : statics) (strs : gmap Z string)
    (evs : BlockMetadata -> list ThreadEventQueueAny) (b : BlockMetadata) : list EventRow :=
  map (fun c => mkEventRow (uuid_to_string (bm_block_id b)) c.1 c.2) (block_calls st strs evs b).

(** The keys of the dictionaries are enough. *)
Definition events_fit (l : list EventRow) : Prop :=
  fits Int16 (map (fun e => sd_name (ev_scope e)) l) /\
  fits Int16 (map (fun e => sd_target (ev_scope e)) l) /\
  fits Int16 (map (fun e => sd_filename (ev_scope e)) l) /\ fits Int16 (map ev_block l).

Definition events_batch (ct : ConvertTicks) (l : list EventRow) : RecordBatch :=
  mkRecordBatch thread_events_schema
    [mkArray Int64 (map (fun e => CInt (ev_id e)) l);
     mkArray (Dictionary Int8 Utf8) (map (fun e => CStr (ev_type e)) l);
     mkArray (TimestampNanosecond (Some "+00:00")) (map (fun e => CInt (ev_time ct e)) l);
     mkArray UInt32 (map (fun e => CInt (sd_hash (ev_scope e))) l);
     mkArray (Dictionary Int16 Utf8) (map (fun e => CStr (sd_name (ev_scope e))) l);
     mkArray (Dictionary Int16 Utf8) (map (fun e => CStr (sd_target (ev_scope e))) l);
     mkArray (Dictionary Int16 Utf8) (map (fun e => CStr (sd_filename (ev_scope e))) l);
     mkArray UInt32 (map (fun e => CInt (sd_line (ev_scope e))) l);
     mkArray (Dictionary Int16 Utf8) (map (fun e => CStr (ev_block e)) l)].

Section events.
Context `{Compression} `{Cbor BlockPayload} `{UuidText} `{ObjectPath} `{HA : LawfulArrow} `{Xxh32}.
Context (begin_ns end_ns lim : Z) (ct : ConvertTicks).

(** The builder that has the rows *)
Definition events_built (l : list EventRow) : ThreadEventsRecordBuilder :=
  mkThreadEventsRecordBuilder begin_ns end_ns lim (Z.of_nat (length l)) ct (map ev_id l) (map ev_type l)
    (map (ev_time ct) l) (map (fun e => sd_hash (ev_scope e)) l) (map (fun e => sd_name (ev_scope e)) l)
    (map (fun e => sd_target (ev_scope e)) l) (map (fun e => sd_filename (ev_scope e)) l)
    (map (fun e => sd_line (ev_scope e)) l) (map ev_block l).
Definition on_event_row (b : ThreadEventsRecordBuilder) (e : EventRow)
  : exec (ThreadEventsRecordBuilder * bool) :=
  call_scope (ev_block e) (ev_id e) b (Some (ev_call e)).

(** There are only two types of events. *)
Lemma types_fit l : fits Int8 (map ev_type l).
Proof.
  unfold fits. etransitivity; [|instantiate (1 := 2); cbn; lia]. apply (Nat2Z.inj_le _ 2).
  etransitivity; [apply (subseteq_size _ ({["begin"]} ∪ {["end"]} : gset string))|by vm_compute].
  intros x Hx. apply elem_of_list_to_set, list_elem_of_In, in_map_iff in Hx as (e & <- & _).
  unfold ev_type. destruct (call_is_begin _); set_solver.
Qed.

Lemma events_fit_prefix l1 l2 : events_fit (l1 ++ l2) -> events_fit l1.
Proof.
  unfold events_fit. rewrite !map_app. intros (F1 & F2 & F3 & F4). split_and!; by eapply fits_prefix.
Qed.

Lemma process_event_row b e :
  on_event_row b e =
  process_event b (ev_block e) (ev_id e) (ev_type e) (ev_scope e) (call_ticks (ev_call e)).
Proof. destruct e as [? ? []]; reflexivity. Qed.

Lemma process_event_append l e :
  in_clock ct e -> begin_ns <= ev_time ct e <= end_ns -> Z.of_nat (length l) < lim -> in_i 64 lim ->
  events_fit (l ++ [e]) ->
  on_event_row (events_built l) e =
  Ok (events_built (l ++ [e]), Z.of_nat (length (l ++ [e])) <? lim).
Proof.
  intros Hc [Hb He] Hn Hlim Hf. rewrite process_event_row. unfold process_event.
  assert (fits Int8 (map ev_type l ++ [ev_type e])) as F0
    by (pose proof (types_fit (l ++ [e])) as F; by rewrite map_app in F).
  unfold events_fit in Hf. rewrite !map_app in Hf. cbn [map] in Hf. destruct Hf as (F1 & F2 & F3 & F4).
  unfold events_built. cbn - [append_value Z.leb Z.ltb Z.add dict_append].
  rewrite (proj2 (Z.leb_gt _ _) Hn), Hc. cbn [mbind exec_bind].
  rewrite (proj2 (Z.ltb_ge _ _) Hb), (proj2 (Z.ltb_ge _ _) He).
  rewrite (proj2 (i64_checked_Ok _ _)) by (split; [done|]; unfold in_i in *; lia).
  cbn [mbind exec_bind]. rewrite !dict_append_fits by done. cbn [mbind exec_bind].
  rewrite !map_app, length_app. cbn [map length].
  by replace (Z.of_nat (length l + 1)) with (Z.of_nat (length l) + 1) by lia.
Qed.

Lemma on_event_row_step e :
  in_i 64 lim -> in_clock ct e ->
  step_ok (ev_time ct) begin_ns end_ns lim events_built events_fit on_event_row e.
Proof.
  intros Hlim Hc l Hl. cbv zeta. unfold wanted.
  destruct (Z.ltb_spec (Z.of_nat (length l)) lim) as [Hn|Hn].
  2:{ rewrite andb_false_r. intros _. exists false. split; [|by right].
      rewrite process_event_row. unfold process_event. cbn [events_built teb_limit teb_nb_rows].
      by rewrite (proj2 (Z.leb_le _ _) Hn). }
  rewrite andb_true_r.
  destruct (Z.leb_spec begin_ns (ev_time ct e)) as [Hb|Hb]; cbn [andb].
  - destruct (Z.leb_spec (ev_time ct e) end_ns) as [He|He]; intros Hf.
    + rewrite process_event_append by done. eexists. split; [done|]. intros Hcc%Z.ltb_ge. by right.
    + exists false. split; [|by left]. rewrite process_event_row. unfold process_event.
      cbn [events_built teb_limit teb_nb_rows teb_convert_ticks teb_begin_query_ns teb_end_query_ns].
      rewrite (proj2 (Z.leb_gt _ _) Hn), Hc. cbn [mbind exec_bind].
      by rewrite (proj2 (Z.ltb_ge _ _) Hb), (proj2 (Z.ltb_lt _ _) He).
  - intros _. exists true. split; [|done]. rewrite process_event_row. unfold process_event.
    cbn [events_built teb_limit teb_nb_rows teb_convert_ticks teb_begin_query_ns].
    rewrite (proj2 (Z.leb_gt _ _) Hn), Hc. cbn [mbind exec_bind]. by rewrite (proj2 (Z.ltb_lt _ _) Hb).
Qed.

(** The rows of a block are the calls that it makes. *)
Lemma visit_event_rows id b cs :
  visit_all Ok on_event_row b (map (fun c => mkEventRow id c.1 c.2) cs) = run_calls id b cs.
Proof.
  revert b. induction cs as [|[i c] cs IH]; intros b; [done|]. cbn [map visit_all run_calls mbind exec_bind].
  change (on_event_row b _) with (call_scope id i b (Some c)).
  destruct (call_scope id i b (Some c)) as [[b' []]| | | |]; cbn [mbind exec_bind]; done.
Qed.

Lemma thread_events_of_blocks_until blobs stream bs s :
  thread_events_of_blocks blobs stream bs s =
  read_until (fun b => parse_thread_block blobs stream (bm_block_id b) (bm_object_offset b)) bs s.
Proof.
  revert s. induction bs as [|b bs IH]; intros s; [done|]. cbn [thread_events_of_blocks read_until].
  destruct (parse_thread_block _ _ _ _ _) as [[s' []]| | | |]; cbn [mbind exec_bind]; done.
Qed.

Lemma thread_events_of_blocks_rows st strs blobs stream evs bs :
  in_i 64 lim -> Forall (stored_thread_block st strs blobs stream evs) bs ->
  Forall (in_clock ct) (concat (map (block_events st strs evs) bs)) ->
  in_time (ev_time ct) (concat (map (block_events st strs evs) bs)) ->
  let rows := firstn (Z.to_nat lim)
    (List.filter (wanted (ev_time ct) begin_ns end_ns) (concat (map (block_events st strs evs) bs))) in
  events_fit rows ->
  thread_events_of_blocks blobs stream bs (events_built []) = Ok (events_built rows).
Proof.
  intros Hlim Hb Hc Hs rows Hok. rewrite thread_events_of_blocks_until.
  apply (scan_blocks (ev_time ct) begin_ns end_ns lim events_built events_fit events_fit_prefix
    _ (block_events st strs evs) on_event_row bs []); [|done| |cbn; lia|done].
  - intros b s r Hin Hr. pose proof (proj1 (List.Forall_forall _ _) Hb b Hin) as (payload & Hp & Hd).
    unfold parse_thread_block. rewrite Hp. cbn [mbind exec_bind]. rewrite Hd.
    unfold block_events in Hr. rewrite visit_event_rows in Hr.
    by rewrite (visit_scopes_calls st strs _ _ _ _ r Hr).
  - apply List.Forall_forall. intros e He. apply on_event_row_step; [done|].
    by apply (proj1 (List.Forall_forall _ _) Hc).
Qed.

Lemma finish_events_ok l : finish_thread_events (events_built l) = Ok (events_batch ct l).
Proof.
  unfold finish_thread_events. rewrite (RecordBatch_try_new_ok _ _ (length l)).
  - unfold finish_timestamp, finish_dictionary, finish_primitive, events_built. cbn [teb_ids teb_event_types
      teb_timestamps teb_hashes teb_names teb_targets teb_filenames teb_lines teb_block_ids].
    by rewrite !map_map.
  - split; [done|]. split; [done|]. repeat constructor; cbn; by rewrite !length_map.
Qed.
End events.

(** ** Properties *)

(** C18. A query of metrics returns the rows of the measures: for a lake that
    represents what was sent, where the measures of the blocks that are found
    come in the order of their times, the batch has exactly the measures
    between the two times, block after block, up to the limit. *)
Theorem query_metrics_rows `{Compression} `{Cbor BlockPayload} `{Cbor (list UserDefinedType)}
    `{UuidText} `{ObjectPath} `{LawfulSqlOrder} `{LawfulArrow}
    lake a s p (measures : BlockMetadata -> list Measure) limit begin_ end_ :
  represents lake a -> distinct process_id (al_processes a) -> distinct si_stream_id (al_streams a) ->
  In s (al_streams a) -> In p (al_processes a) -> si_process_id s = process_id p -> in_i 64 limit ->
  (forall b payload, In (b, payload) (al_blocks a) -> bm_stream_id b = si_stream_id s ->
     bm_process_id b = si_process_id s /\
     decodes_metrics (ConvertTicks_new p) s payload (measures b)) ->
  let ct := ConvertTicks_new p in
  let begin_ns := default 0 (timestamp_nanos_opt begin_) in
  let end_ns := default 0 (timestamp_nanos_opt end_) in
  exists l,
    l ≡ₚ List.filter (in_range_block (si_stream_id s) (to_ticks ct (begin_ - start_time p))
                        (to_ticks ct (end_ - start_time p))) (map fst (al_blocks a)) /\
    Sorted (fun x y => bm_begin_ticks x <= bm_begin_ticks y) l /\
    let rows := firstn (Z.to_nat limit)
      (List.filter (wanted me_time begin_ns end_ns) (concat (map measures l))) in
    (in_time me_time (concat (map measures l)) -> measures_fit rows ->
     query_metrics lake limit (si_stream_id s) begin_ end_ = Ok (measures_batch rows)).
Proof.
  intros Hl Hdp Hds Hin Hinp Hsp Hlim Hb ct begin_ns end_ns.
  destruct (find_blocks_in_lake lake a s p (to_ticks ct (begin_ - start_time p))
    (to_ticks ct (end_ - start_time p)) Hl Hdp Hds Hin Hinp Hsp) as (Hs & Hp & l & Hfb & Hperm & Hsort & Hpay).
  exists l. split; [done|]. split; [done|]. intros rows Hord Hfit.
  apply (metrics_rows_of_blocks lake s p measures); try done.
  intros b Hbl. destruct (Hpay b Hbl) as (payload & Hbin & Hst & Hfetch).
  destruct (Hb b payload Hbin Hst) as (Hbp & Hd). exists payload. by rewrite <- Hbp, <- Hst.
Qed.

(** A query of the events of a thread returns the begins and the ends of its
    scopes: over blocks that hold events in the order of their times, the
    batch has exactly those between the two times, up to the limit, each with
    its number in the stream, its time, its scope and its block.  The range
    starts with the process at the earliest, and stops with the last block. *)
Theorem query_thread_events_rows `{Compression} `{Cbor BlockPayload} `{Cbor (list UserDefinedType)}
    `{UuidText} `{ObjectPath} `{SqlOrder} `{LawfulArrow} `{Xxh32}
    st strs lake stream_id begin_ end_ p s evs l lim begin_ns end_ns :
  let ct := ConvertTicks_new p in
  let rb := to_ticks ct (Z.max begin_ (start_time p) - start_time p) in
  let re := to_ticks ct (end_ - start_time p) in
  let last_end := match list_last l with Some b => bm_end_ticks b | None => re end in
  let events := concat (map (block_events st strs evs) l) in
  let rows := firstn (Z.to_nat lim) (List.filter (wanted (ev_time ct) begin_ns end_ns) events) in
  find_stream (db_pool lake) stream_id = Ok s ->
  find_process (db_pool lake) (si_process_id s) = Ok p ->
  find_stream_blocks_in_range (db_pool lake) stream_id rb re = Ok l ->
  relative_to_nanoseconds ct p rb = Ok begin_ns ->
  relative_to_nanoseconds ct p (Z.min re last_end) = Ok end_ns -> in_i 64 lim ->
  Forall (stored_thread_block st strs (blob_storage lake) s evs) l ->
  Forall (in_clock ct) events -> in_time (ev_time ct) events -> events_fit rows ->
  query_thread_events lake lim stream_id begin_ end_ = Ok (events_batch ct rows).
Proof.
  intros ct rb re last_end events rows Hfs Hfp Hfb Hb He Hlim Hst Hc Hs Hfit.
  unfold query_thread_events. rewrite Hfs. cbn [with_context mbind exec_bind]. rewrite Hfp.
  cbn [with_context mbind exec_bind]. fold ct rb re. rewrite Hfb. cbn [with_context mbind exec_bind].
  rewrite Hb. cbn [mbind exec_bind].
  assert (match list_last l with Some b => Z.min re (bm_end_ticks b) | None => re end = Z.min re last_end)
    as -> by (unfold last_end; destruct (list_last l); lia).
  rewrite He. cbn [mbind exec_bind]. unfold make_thread_events_record_batch.
  change (thread_events_new begin_ns end_ns lim ct (1024 * 1024))
    with (events_built begin_ns end_ns lim ct []).
  rewrite (thread_events_of_blocks_rows begin_ns end_ns lim ct st strs _ s evs l Hlim Hst Hc Hs Hfit).
  cbn [mbind exec_bind]. by rewrite finish_events_ok.
Qed.

(** C19. A measure that is too late hides those that follow it: at a measure
    after the end of the query the loop stops, and neither the rest of the
    block nor the next blocks are read.  The times are taken before the lock of
    the stream, so that a measure of the range can follow it. *)
Theorem late_measure_hides `{Compression} `{Cbor BlockPayload} `{UuidText} `{ObjectPath} `{Arrow}
    blobs ct stream begin_ns end_ns lim block blocks payload ms e ms' s s' :
  fetch_block_payload blobs (si_process_id stream) (si_stream_id stream) (bm_block_id block) = Ok payload ->
  decodes_metrics ct stream payload (ms ++ e :: ms') ->
  visit_all Ok (on_measure begin_ns end_ns lim) s ms = Ok (s', true) ->
  begin_ns <= me_time e -> end_ns < me_time e ->
  measures_of_blocks blobs ct stream begin_ns end_ns lim (block :: blocks) s = Ok s'.
Proof.
  intros Hp Hd Hv Hb He. cbn [measures_of_blocks]. unfold for_each_measure_in_stored_block. rewrite Hp.
  cbn [mbind exec_bind]. rewrite Hd.
  assert (visit_all Ok (on_measure begin_ns end_ns lim) s (ms ++ e :: ms') = Ok (s', false)) as ->; [|done].
  clear -Hv Hb He. revert s Hv. induction ms as [|m ms IH]; intros s Hv.
  - injection Hv as ->. cbn [app visit_all mbind exec_bind].
    assert (on_measure begin_ns end_ns lim s' e = Ok (s', false)) as ->; [|done]. destruct s' as [rb nb].
    unfold on_measure. by rewrite (proj2 (Z.ltb_ge _ _) Hb), (proj2 (Z.ltb_lt _ _) He).
  - cbn [app visit_all mbind exec_bind] in *.
    destruct (on_measure begin_ns end_ns lim s m) as [[s1 []]| | | |]; cbn [mbind exec_bind] in *; try done.
    by apply IH.
Qed.
