(* ===== verification/QueryExamples.v ===== *)
(** * Queries of concrete lakes

    A log stream and a thread whose events are pushed on queues, encoded, sent
    to the ingestion and queried: the hypotheses of the theorems about the
    queries hold together. *)

From Stdlib Require Import Sorting.Sorted.
From stdpp Require Import countable sorting.
From S2P Require Import Prelude RustString Float Transit Queue Pod Parser PodParser Blocks.
From S2P Require Import Levels Deps LogEvents LogBlock Time Stream Wire LogEntry MetricsBlock.
From S2P Require Import Measure SpanEvents ThreadBlock ThreadBlockProcessor CallTree Arrow.
From S2P Require Import Tables.
From S2P Require Import Sql Lake Metadata LakeSpec Codecs Query QuerySpec SpanQuery.

Lemma migrate_db_idempotent_witness :
  exists db, @migrate_db sql_order ∅ = Ok db /\ migrated db /\ @migrate_db sql_order db = Ok db.
Proof. exact (@migrate_db_idempotent sql_order sql_order_lawful). Defined.

(** ** What is sent to the lake *)
Module QueryExample.
#[local] Existing Instances natural_abi natural_lawful identity_compression
  identity_compression_lawful block_cbor payload_cbor stream_cbor process_cbor udts_cbor cbors_lawful
  rfc3339 rfc3339_lawful timestamptz uuid_text uuid_text_lawful object_path object_path_lawful
  sql_order sql_order_lawful.

Definition ok_or_default {A} (d : A) (e : exec A) : A := match e with Ok a => a | _ => d end.
Definition no_block : Block := mkBlock 0 0 0 EmptyString 0 EmptyString 0 (mkBlockPayload [] []) 0 0.

(** A block with the events of the log example, from tick 1000 to tick 2000 *)
Definition events : Queue :=
  ok_or_default (queue_new 0)
    (foldM (push_log_event (st_bytes LogExample.st)) (queue_new 1024) LogExample.evs).
Definition event_block : EventBlock :=
  mkEventBlock 7 9 (mkDualTime 1000 0) events (Some (mkDualTime 2000 1000)) 0.
Definition block : Block :=
  ok_or_default no_block
    (encode_block (extract_logs LogExample.st) 11 event_block LogExample.process).
Definition stream : StreamInfo :=
  make_stream_info map_to_list LogMsgQueueAny LogDepsQueueAny LogExample.stream.
Definition requests : list request :=
  [ReqBlock block; ReqStream stream 1; ReqProcess LogExample.process 2].

Definition lake_of (db : Db) (rs : list request) : DataLakeConnection :=
  foldl (serve map_to_list) (mkDataLakeConnection db (mkBlobStorage ∅ "root")) rs.
Definition abstract (rs : list request) : abstract_lake := foldl receive (mkAbstract [] [] []) rs.

Lemma lake_represents rs :
  all_well_formed (mkAbstract [] [] []) rs ->
  exists db, migrate_db ∅ = Ok db /\ represents (lake_of db rs) (abstract rs).
Proof.
  intros Hw. destruct migrate_empty as (db & Hm & Hdb). exists db. split; [done|].
  apply serve_all_represents; [done| |done]. by apply represents_migrated.
Qed.

Definition entries : list LogEntry :=
  [mkLogEntry 10 4 "app" "server started"; mkLogEntry 20 4 "app" "x = 1";
   mkLogEntry 30 3 "app" "server started"; mkLogEntry 40 2 "app::main" "dynamic"].

Lemma log_requests_well_formed : all_well_formed (mkAbstract [] [] []) requests.
Proof.
  unfold requests. cbn [all_well_formed well_formed].
  repeat match goal with |- _ /\ _ => split end;
    try exact I; try (by vm_compute); try (vm_compute; by eexists); try (by intros ? []).
  repeat constructor; vm_compute; discriminate.
Qed.

Lemma log_payload_decodes :
  decodes_log LogExample.ct (received_stream stream) (bk_payload block) entries.
Proof.
  destruct (log_block_decodes map_to_list LogExample.st LogExample.strs LogExample.evs 1024
    LogExample.stream LogExample.ct entries (fun m => Permutation_refl _) LogExample.log_md_ok
    LogExample.log_evs_ok) as (q & deps & Hq & Hx & Hrest).
  - repeat apply Forall2_cons; try apply Forall2_nil; try (vm_compute; reflexivity).
  - assert (q = events) as -> by (unfold events; by rewrite Hq).
    assert (blen (as_bytes events) < 2 ^ 63) as Hbq by (vm_compute; reflexivity).
    assert (blen (as_bytes deps) < 2 ^ 63) as Hbd.
    { vm_compute in Hx. injection Hx as <-. vm_compute. reflexivity. }
    destruct (Hrest Hbd Hbq 11 event_block (mkDualTime 2000 1000) LogExample.process eq_refl eq_refl)
      as (b & Hb & Hd); [vm_compute; split; [discriminate|reflexivity]..|].
    assert (block = b) as -> by (unfold block; by rewrite Hb). exact Hd.
Qed.

Lemma log_block_sent b payload :
  In (b, payload) (al_blocks (abstract requests)) ->
  bm_process_id b = si_process_id (received_stream stream) /\ payload = bk_payload block.
Proof.
  intros [E|[]]. split.
  - apply (f_equal (fun x => bm_process_id x.1)) in E. change (bk_process_id block = bm_process_id b) in E.
    rewrite <- E. vm_compute. reflexivity.
  - apply (f_equal snd) in E. symmetry. exact E.
Qed.

Lemma ticks_stored : ConvertTicks_new (stored_process LogExample.process) = LogExample.ct.
Proof. vm_compute. reflexivity. Qed.
End QueryExample.

Lemma query_log_entries_rows_witness :
  exists lake,
    @query_log_entries identity_compression payload_cbor udts_cbor uuid_text object_path sql_order
      simple_arrow lake 9 15 35 10 =
    Ok (log_entries_batch [mkLogEntry 20 4 "app" "x = 1"; mkLogEntry 30 3 "app" "server started"]).
Proof.
  destruct (QueryExample.lake_represents QueryExample.requests QueryExample.log_requests_well_formed)
    as (db & _ & Hl).
  exists (QueryExample.lake_of db QueryExample.requests).
  destruct (@query_log_entries_rows identity_compression payload_cbor udts_cbor uuid_text object_path
    sql_order sql_order_lawful simple_arrow simple_arrow_lawful _ _
    (received_stream QueryExample.stream) (@stored_process timestamptz LogExample.process)
    (fun _ => QueryExample.entries) 15 35 10 Hl) as (l & Hp & _ & Hq).
  - intros x y [<-|[]] [<-|[]] _. reflexivity.
  - intros x y [<-|[]] [<-|[]] _. reflexivity.
  - left. reflexivity.
  - left. reflexivity.
  - reflexivity.
  - intros b payload Hin _. apply QueryExample.log_block_sent in Hin as [Hid ->].
    split; [exact Hid|]. rewrite QueryExample.ticks_stored. split.
    + exact QueryExample.log_payload_decodes.
    + repeat constructor; vm_compute; discriminate.
  - vm_compute. discriminate.
  - change (si_stream_id (received_stream QueryExample.stream)) with 9 in Hq. rewrite Hq.
    vm_compute in Hp. apply Permutation_sym, Permutation_length_1_inv in Hp. subst l.
    vm_compute. reflexivity.
Defined.

(** ** A thread in two blocks *)
Module SpanExample.
#[local] Existing Instances natural_abi natural_lawful identity_compression
  identity_compression_lawful block_cbor payload_cbor stream_cbor process_cbor udts_cbor cbors_lawful
  rfc3339 rfc3339_lawful timestamptz uuid_text uuid_text_lawful object_path object_path_lawful
  sql_order sql_order_lawful.
#[local] Existing Instance ThreadExample.xxh.

(** The scopes begin in the first block, and end in the second one. *)
Definition evs1 : list ThreadEventQueueAny := firstn 3 ThreadExample.evs.
Definition evs2 : list ThreadEventQueueAny := skipn 3 ThreadExample.evs.
Definition events (evs : list ThreadEventQueueAny) : Queue :=
  QueryExample.ok_or_default (queue_new 0)
    (foldM (push_thread_event (st_bytes ThreadExample.st)) (queue_new 1024) evs).
Definition event_block (evs : list ThreadEventQueueAny) (begin_ticks end_ticks offset : Z) : EventBlock :=
  mkEventBlock 7 9 (mkDualTime begin_ticks 0) (events evs) (Some (mkDualTime end_ticks 1000)) offset.
Definition block (id : Z) (evs : list ThreadEventQueueAny) (begin_ticks end_ticks offset : Z) : Block :=
  QueryExample.ok_or_default QueryExample.no_block
    (encode_block (extract_thread ThreadExample.st) id (event_block evs begin_ticks end_ticks offset)
       LogExample.process).
Definition block1 : Block := block 21 evs1 1000 1275 0.
Definition block2 : Block := block 22 evs2 1275 2000 3.
Definition stream : StreamInfo :=
  make_stream_info map_to_list ThreadEventQueueAny ThreadDepsQueueAny LogExample.stream.
Definition requests : list request :=
  [ReqBlock block2; ReqBlock block1; ReqStream stream 1; ReqProcess LogExample.process 2].
Definition lake : DataLakeConnection :=
  QueryExample.lake_of (QueryExample.ok_or_default ∅ (migrate_db ∅)) requests.
Definition evs (b : BlockMetadata) : list ThreadEventQueueAny :=
  if bm_block_id b =? 21 then evs1 else evs2.
Definition blocks : list BlockMetadata :=
  QueryExample.ok_or_default [] (find_stream_blocks_in_range (db_pool lake) 9 0 1000).
Definition process : ProcessInfo := stored_process LogExample.process.
Definition nth_block (n : nat) : BlockMetadata :=
  nth n blocks (mkBlockMetadata 0 0 0 0 0 0 0 0 0 0).

Definition mid : forest :=
  Span 0 (ScopeDesc_new "update" "src/main.rs" "app" 7) 1100 1400 4
    (Span 1 (ScopeDesc_new "asset 7" "src/main.rs" "app" 7) 1200 1300 3 Nil Nil) Nil.

(** A block of the thread is decoded. *)
Lemma block_decodes id evs begin_ticks end_ticks offset :
  Forall (thread_event_ok ThreadExample.st ThreadExample.strs) evs ->
  in_i 64 (begin_ticks - 1000) -> in_i 64 (end_ticks - 1000) ->
  blen (as_bytes (events evs)) < 2 ^ 63 ->
  match extract_thread ThreadExample.st (events evs) with
  | Ok deps => blen (as_bytes deps) < 2 ^ 63
  | _ => False
  end ->
  - 2 ^ 63 <= offset -> offset + Z.of_nat (length evs) < 2 ^ 63 ->
  decodes_thread ThreadExample.st ThreadExample.strs (received_stream stream)
    (bk_payload (block id evs begin_ticks end_ticks offset)) offset evs.
Proof.
  intros Hok Hb He Hbq Hbd Hl Hr.
  destruct (thread_block_decodes map_to_list ThreadExample.st ThreadExample.strs evs 1024
    LogExample.stream (fun m => Permutation_refl _) ThreadExample.thread_md_ok Hok)
    as (q & deps & Hq & Hx & Hrest).
  assert (q = events evs) as -> by (unfold events; by rewrite Hq). rewrite Hx in Hbd.
  destruct (Hrest Hbd Hbq id (event_block evs begin_ticks end_ticks offset)
    (mkDualTime end_ticks 1000) LogExample.process eq_refl eq_refl Hb He) as (b & Hblk & Hd).
  assert (block id evs begin_ticks end_ticks offset = b) as -> by (unfold block; by rewrite Hblk).
  by apply Hd.
Qed.

Lemma blocks_stored :
  Forall (stored_thread_block ThreadExample.st ThreadExample.strs (blob_storage lake)
    (received_stream stream) evs) blocks.
Proof.
  pose proof ThreadExample.thread_evs_ok as Hok.
  assert (exists b1 b2, blocks = [b1; b2] /\ bm_block_id b1 = 21 /\ bm_block_id b2 = 22 /\
    bm_object_offset b1 = 0 /\ bm_object_offset b2 = 3) as (b1 & b2 & -> & I1 & I2 & O1 & O2)
    by (do 2 eexists; vm_compute; split_and!; reflexivity).
  repeat apply Forall_cons; try apply Forall_nil.
  - exists (bk_payload block1). split; [rewrite I1; vm_compute; reflexivity|].
    unfold evs. rewrite I1, O1. apply block_decodes.
    + by apply list.Forall_take.
    + split; vm_compute; [discriminate|reflexivity].
    + split; vm_compute; [discriminate|reflexivity].
    + vm_compute. reflexivity.
    + vm_compute. reflexivity.
    + vm_compute. discriminate.
    + vm_compute. reflexivity.
  - exists (bk_payload block2). split; [rewrite I2; vm_compute; reflexivity|].
    unfold evs. rewrite I2, O2. apply block_decodes.
    + by apply list.Forall_drop.
    + split; vm_compute; [discriminate|reflexivity].
    + split; vm_compute; [discriminate|reflexivity].
    + vm_compute. reflexivity.
    + vm_compute. reflexivity.
    + vm_compute. discriminate.
    + vm_compute. reflexivity.
Qed.

(** The second block, as if five ticks had been lost before it *)
Definition late_block : BlockMetadata :=
  let b := nth_block 1 in
  mkBlockMetadata (bm_block_id b) (bm_stream_id b) (bm_process_id b) (bm_begin_time b) (bm_end_time b)
    280 (bm_end_ticks b) (bm_nb_objects b) (bm_payload_size b) (bm_object_offset b).
End SpanExample.

Lemma fits_short l : Z.of_nat (length l) <= 2 ^ 15 -> fits Int16 l.
Proof.
  intros Hl. unfold fits. etransitivity; [|exact Hl]. apply Nat2Z.inj_le. clear Hl.
  induction l as [|x l IH]; [done|]. cbn [list_to_set length].
  rewrite size_union_alt, size_singleton.
  enough (size ((list_to_set l : gset string) ∖ {[x]}) <= size (list_to_set l : gset string))%nat by lia.
  apply subseteq_size. set_solver.
Qed.

Lemma spans_fit_short l : Z.of_nat (length l) <= 2 ^ 15 -> spans_fit l.
Proof. intros Hl. split_and!; apply fits_short; by rewrite length_map. Qed.

Lemma query_spans_rows_witness :
  exists batch,
    @query_spans identity_compression payload_cbor udts_cbor uuid_text object_path sql_order
      simple_arrow ThreadExample.xxh SpanExample.lake 100 9 0 1000 = Ok batch /\
    map a_values (firstn 7 (rb_columns batch)) =
      map (map CInt) [[-1; 0; 1]; [0; -1; 0]; [0; 1; 2]; [3089891536; 2569600228; 3893232248];
                      [0; 100; 200]; [1000; 400; 300]; [1000; 300; 100]].
Proof.
  destruct (@query_spans_rows identity_compression payload_cbor udts_cbor uuid_text object_path
    sql_order simple_arrow simple_arrow_lawful ThreadExample.xxh ThreadExample.st ThreadExample.strs
    SpanExample.lake 9 0 1000 SpanExample.process (received_stream SpanExample.stream)
    SpanExample.evs SpanExample.blocks 100 0 1000 (SpanExample.nth_block 0) (SpanExample.nth_block 1) [] SpanExample.mid [])
    as (tree & Hroot & Hnodes & Hsc & Hq).
  - vm_compute. reflexivity.
  - vm_compute. reflexivity.
  - vm_compute. reflexivity.
  - vm_compute. split_and!; try reflexivity; exact I.
  - vm_compute. reflexivity.
  - vm_compute. reflexivity.
  - vm_compute. reflexivity.
  - vm_compute. reflexivity.
  - vm_compute. discriminate.
  - vm_compute. reflexivity.
  - vm_compute. reflexivity.
  - exact SpanExample.blocks_stored.
  - vm_compute. reflexivity.
  - repeat apply Forall_cons; try apply Forall_nil; eexists;
      (split; [vm_compute; reflexivity|lia]).
  - apply Forall_nil.
  - vm_compute. split; [reflexivity|discriminate].
  - exists (spans_batch (tree_rows tree)). destruct tree as [sc root]. cbn [call_tree_root] in Hroot.
    subst root. split; [|vm_compute; reflexivity]. apply Hq; [vm_compute; discriminate|].
    apply spans_fit_short. vm_compute. discriminate.
Defined.

(** The rows of the first block, and none of the second one *)
Lemma query_spans_gap_witness :
  exists batch,
    @query_spans_batch identity_compression payload_cbor uuid_text object_path simple_arrow
      ThreadExample.xxh SpanExample.process 0 1000 100 (blob_storage SpanExample.lake)
      (received_stream SpanExample.stream) [SpanExample.nth_block 0; SpanExample.late_block] = Ok batch /\
    map a_values (firstn 6 (rb_columns batch)) =
      map (map CInt) [[0; 1]; [0; 0]; [0; 1]; [2569600228; 3893232248]; [100; 200]; [275; 275]].
Proof.
  eexists. split.
  - rewrite (@query_spans_gap identity_compression payload_cbor uuid_text object_path simple_arrow
      ThreadExample.xxh); [vm_compute; reflexivity|]. vm_compute. discriminate.
  - vm_compute. reflexivity.
Defined.

(** The first block is read up to the second begin; the second block begins
    with the end of the scope that was dropped. *)
Lemma make_call_tree_limit_witness :
  exists e,
    @make_call_tree identity_compression payload_cbor uuid_text object_path ThreadExample.xxh
      SpanExample.blocks 0 1000 1 (blob_storage SpanExample.lake) LogExample.ct
      (received_stream SpanExample.stream) = Err e /\
    list.last e = Some "top scope mismatch parsing thread block".
Proof.
  pose proof SpanExample.blocks_stored as Hb.
  assert (SpanExample.blocks = [] ++ [SpanExample.nth_block 0; SpanExample.nth_block 1]) as E
    by (vm_compute; reflexivity).
  rewrite E in Hb |- *. eexists. split.
  - eapply (@make_call_tree_limit identity_compression payload_cbor uuid_text object_path
      ThreadExample.xxh ThreadExample.st ThreadExample.strs _ _ SpanExample.evs [] _ _ [] _ _ _ _ EmptyString
      _ _ _ (firstn 1 SpanExample.evs1) _ _ [] _ (skipn 1 SpanExample.evs2)).
    + exact Hb.
    + vm_compute. reflexivity.
    + vm_compute. reflexivity.
    + vm_compute. reflexivity.
    + vm_compute. discriminate.
    + vm_compute. reflexivity.
    + vm_compute. reflexivity.
    + apply Forall_nil.
    + vm_compute. reflexivity.
    + eexists. split; [vm_compute; reflexivity|lia].
    + vm_compute. discriminate.
    + vm_compute. discriminate.
  - reflexivity.
Defined.
