(* ===== verification/RowExamples.v ===== *)
(** * Queries of measures and of events of concrete lakes

    The measures of a process and the events of a thread, recorded, sent and
    queried. *)

From Stdlib Require Import Sorting.Sorted.
From stdpp Require Import countable sorting.
From S2P Require Import Prelude RustString Float Transit Queue Pod Parser PodParser Blocks.
From S2P Require Import Levels Deps LogEvents LogBlock Time Stream Wire LogEntry MetricsBlock.
From S2P Require Import Measure Scan SpanEvents ThreadBlock ThreadBlockProcessor CallTree.
From S2P Require Import Arrow.
From S2P Require Import Tables.
From S2P Require Import Sql Lake Metadata LakeSpec Codecs Query QuerySpec SpanQuery RowQueries.
From S2P Require Import QueryExamples.

(** ** A lake with a block of measures *)
Module MetricsLake.
#[local] Existing Instances natural_abi natural_lawful identity_compression
  identity_compression_lawful block_cbor payload_cbor stream_cbor process_cbor udts_cbor cbors_lawful
  rfc3339 rfc3339_lawful timestamptz uuid_text uuid_text_lawful object_path object_path_lawful
  sql_order sql_order_lawful.

Definition events : Queue :=
  QueryExample.ok_or_default (queue_new 0)
    (foldM (push_metric_event (st_bytes MetricExample.st)) (queue_new 1024) MetricExample.evs).
Definition event_block : EventBlock :=
  mkEventBlock 7 9 (mkDualTime 1000 0) events (Some (mkDualTime 2000 1000)) 0.
Definition block : Block :=
  QueryExample.ok_or_default QueryExample.no_block
    (encode_block (extract_metrics MetricExample.st) 11 event_block LogExample.process).
Definition stream : StreamInfo :=
  make_stream_info map_to_list MetricsMsgQueueAny MetricsDepsQueueAny LogExample.stream.
Definition requests : list request :=
  [ReqStream stream 1; ReqBlock block; ReqProcess LogExample.process 2].
Definition measures : list Measure :=
  [mkMeasure 100 "app" "frame time" "ms" (f64_of_Z 16);
   mkMeasure 200 "app" "frame time" "ms" (f64_of_Z 17)].

Lemma metrics_requests_well_formed : all_well_formed (mkAbstract [] [] []) requests.
Proof.
  unfold requests. cbn [all_well_formed well_formed].
  repeat match goal with |- _ /\ _ => split end;
    try exact I; try (by vm_compute); try (vm_compute; by eexists); try (by intros ? []).
  all: repeat constructor; vm_compute; discriminate.
Qed.

Lemma metrics_payload_decodes :
  decodes_metrics LogExample.ct (received_stream stream) (bk_payload block) measures.
Proof.
  destruct (metrics_block_decodes map_to_list MetricExample.st MetricExample.strs MetricExample.evs 1024
    LogExample.stream LogExample.ct measures (fun m => Permutation_refl _) MetricExample.metric_md_ok
    MetricExample.metric_evs_ok) as (q & deps & Hq & Hx & Hrest).
  - repeat apply Forall2_cons; try apply Forall2_nil; try (vm_compute; reflexivity).
  - assert (q = events) as -> by (unfold events; by rewrite Hq).
    assert (blen (as_bytes events) < 2 ^ 63) as Hbq by (vm_compute; reflexivity).
    assert (blen (as_bytes deps) < 2 ^ 63) as Hbd.
    { vm_compute in Hx. injection Hx as <-. vm_compute. reflexivity. }
    destruct (Hrest Hbd Hbq 11 event_block (mkDualTime 2000 1000) LogExample.process eq_refl eq_refl)
      as (b & Hb & Hd); [vm_compute; split; [discriminate|reflexivity]..|].
    assert (block = b) as -> by (unfold block; by rewrite Hb). exact Hd.
Qed.

Lemma metrics_block_sent b payload :
  In (b, payload) (al_blocks (QueryExample.abstract requests)) ->
  bm_process_id b = si_process_id (received_stream stream) /\ payload = bk_payload block.
Proof.
  intros [E|[]]. split.
  - apply (f_equal (fun x => bm_process_id x.1)) in E. change (bk_process_id block = bm_process_id b) in E.
    rewrite <- E. vm_compute. reflexivity.
  - apply (f_equal snd) in E. symmetry. exact E.
Qed.
End MetricsLake.

(** The second measure is between the times. *)
Lemma query_metrics_rows_witness :
  exists lake,
    @query_metrics identity_compression payload_cbor udts_cbor uuid_text object_path sql_order
      simple_arrow lake 10 9 150 350 =
    Ok (measures_batch [mkMeasure 200 "app" "frame time" "ms" (f64_of_Z 17)]).
Proof.
  destruct (QueryExample.lake_represents MetricsLake.requests MetricsLake.metrics_requests_well_formed)
    as (db & _ & Hl).
  exists (QueryExample.lake_of db MetricsLake.requests).
  destruct (@query_metrics_rows identity_compression payload_cbor udts_cbor uuid_text object_path
    sql_order sql_order_lawful simple_arrow simple_arrow_lawful _ _
    (received_stream MetricsLake.stream) (@stored_process timestamptz LogExample.process)
    (fun _ => MetricsLake.measures) 10 150 350 Hl) as (l & Hp & _ & Hq).
  - intros x y [<-|[]] [<-|[]] _. reflexivity.
  - intros x y [<-|[]] [<-|[]] _. reflexivity.
  - left. reflexivity.
  - left. reflexivity.
  - reflexivity.
  - vm_compute. split; [discriminate|reflexivity].
  - intros b payload Hin _. apply MetricsLake.metrics_block_sent in Hin as [Hid ->].
    split; [exact Hid|]. rewrite QueryExample.ticks_stored. exact MetricsLake.metrics_payload_decodes.
  - change (si_stream_id (received_stream MetricsLake.stream)) with 9 in Hq.
    vm_compute in Hp. apply Permutation_sym, Permutation_length_1_inv in Hp. subst l.
    rewrite Hq; [vm_compute; reflexivity| |].
    + repeat constructor; vm_compute; discriminate.
    + split_and!; apply fits_short; vm_compute; discriminate.
Defined.

(** The rows of the thread in two blocks *)
Module ThreadRows.
#[local] Existing Instances uuid_text.
#[local] Existing Instance ThreadExample.xxh.
Definition update : ScopeDesc := ScopeDesc_new "update" "src/main.rs" "app" 7.
Definition asset : ScopeDesc := ScopeDesc_new "asset 7" "src/main.rs" "app" 7.
Definition rows : list EventRow :=
  [mkEventRow (uuid_to_string 21) 0 (BeginScope update 1100);
   mkEventRow (uuid_to_string 21) 1 (BeginScope asset 1200);
   mkEventRow (uuid_to_string 22) 3 (EndScope asset 1300);
   mkEventRow (uuid_to_string 22) 4 (EndScope update 1400)].
Lemma rows_of_blocks :
  concat (map (block_events ThreadExample.st ThreadExample.strs SpanExample.evs) SpanExample.blocks) = rows.
Proof. vm_compute. reflexivity. Qed.
End ThreadRows.

(** The events of the thread: from the begin of the second scope
    to the end of the range, at most two of them *)
Lemma query_thread_events_rows_witness :
  exists batch,
    @query_thread_events identity_compression payload_cbor udts_cbor uuid_text object_path sql_order
      simple_arrow ThreadExample.xxh SpanExample.lake 2 9 150 1000 = Ok batch /\
    map a_values (firstn 3 (rb_columns batch)) =
      [map CInt [1; 3]; map CStr ["begin"; "end"]; map CInt [200; 300]].
Proof.
  eexists. split.
  - apply (@query_thread_events_rows identity_compression payload_cbor udts_cbor uuid_text object_path
      sql_order simple_arrow simple_arrow_lawful ThreadExample.xxh ThreadExample.st ThreadExample.strs
      SpanExample.lake 9 150 1000 SpanExample.process (received_stream SpanExample.stream)
      SpanExample.evs SpanExample.blocks 2 150 1000).
    + vm_compute. reflexivity.
    + vm_compute. reflexivity.
    + vm_compute. reflexivity.
    + vm_compute. reflexivity.
    + vm_compute. reflexivity.
    + vm_compute. split; [discriminate|reflexivity].
    + exact SpanExample.blocks_stored.
    + rewrite ThreadRows.rows_of_blocks. repeat apply Forall_cons; try apply Forall_nil; vm_compute; reflexivity.
    + rewrite ThreadRows.rows_of_blocks. repeat constructor; vm_compute; discriminate.
    + rewrite ThreadRows.rows_of_blocks. split_and!; apply fits_short; vm_compute; discriminate.
  - rewrite ThreadRows.rows_of_blocks. vm_compute. reflexivity.
Defined.

(** ** Measures out of order *)
Module LateExample.
#[local] Existing Instances natural_abi natural_lawful identity_compression
  identity_compression_lawful block_cbor payload_cbor stream_cbor process_cbor udts_cbor cbors_lawful
  rfc3339 rfc3339_lawful timestamptz uuid_text uuid_text_lawful object_path object_path_lawful
  sql_order sql_order_lawful.

(** The third one was timed before the second one. *)
Definition evs : list MetricsMsgQueueAny :=
  MetricExample.evs ++ [MetricsMsgQueueAny.IntegerMetricEvent (mkIntegerMetricEvent 6000 18 1120)].
Definition measures : list Measure :=
  MetricsLake.measures ++ [mkMeasure 120 "app" "frame time" "ms" (f64_of_Z 18)].
Definition events : Queue :=
  QueryExample.ok_or_default (queue_new 0)
    (foldM (push_metric_event (st_bytes MetricExample.st)) (queue_new 1024) evs).
Definition block : Block :=
  QueryExample.ok_or_default QueryExample.no_block
    (encode_block (extract_metrics MetricExample.st) 11
       (mkEventBlock 7 9 (mkDualTime 1000 0) events (Some (mkDualTime 2000 1000)) 0) LogExample.process).
Definition lake : DataLakeConnection :=
  QueryExample.lake_of (QueryExample.ok_or_default ∅ (migrate_db ∅))
    [ReqStream MetricsLake.stream 1; ReqBlock block; ReqProcess LogExample.process 2].
Definition stored : BlockMetadata :=
  nth 0 (QueryExample.ok_or_default [] (find_stream_blocks_in_range (db_pool lake) 9 0 1000))
    (mkBlockMetadata 0 0 0 0 0 0 0 0 0 0).

Lemma late_evs_ok : Forall (@metric_event_ok natural_abi natural_lawful MetricExample.st) evs.
Proof.
  apply list.Forall_app. split; [exact MetricExample.metric_evs_ok|].
  apply Forall_cons; [|apply Forall_nil]. unfold metric_event_ok, item_ok. cbn.
  split_and!; try (vm_compute; done). by eexists.
Qed.

Lemma late_payload_decodes :
  decodes_metrics LogExample.ct (received_stream MetricsLake.stream) (bk_payload block) measures.
Proof.
  destruct (metrics_block_decodes map_to_list MetricExample.st MetricExample.strs evs 1024
    LogExample.stream LogExample.ct measures (fun m => Permutation_refl _) MetricExample.metric_md_ok
    late_evs_ok) as (q & deps & Hq & Hx & Hrest).
  - repeat apply Forall2_cons; try apply Forall2_nil; try (vm_compute; reflexivity).
  - assert (q = events) as -> by (unfold events; by rewrite Hq).
    assert (blen (as_bytes events) < 2 ^ 63) as Hbq by (vm_compute; reflexivity).
    assert (blen (as_bytes deps) < 2 ^ 63) as Hbd.
    { vm_compute in Hx. injection Hx as <-. vm_compute. reflexivity. }
    destruct (Hrest Hbd Hbq 11 (mkEventBlock 7 9 (mkDualTime 1000 0) events (Some (mkDualTime 2000 1000)) 0)
      (mkDualTime 2000 1000) LogExample.process eq_refl eq_refl)
      as (b & Hb & Hd); [vm_compute; split; [discriminate|reflexivity]..|].
    assert (block = b) as -> by (unfold block; by rewrite Hb). exact Hd.
Qed.
End LateExample.

(** Of the measures at 100, 200 and 120, a query until 150 has the first one;
    a block that is not in the storage does not matter. *)
Lemma late_measure_hides_witness :
  exists missing,
    bm_block_id missing = 77 /\
    @measures_of_blocks identity_compression payload_cbor uuid_text object_path simple_arrow
      (blob_storage LateExample.lake) LogExample.ct (received_stream MetricsLake.stream) 0 150 10
      [LateExample.stored; missing] (measures_built []) =
    Ok (measures_built [mkMeasure 100 "app" "frame time" "ms" (f64_of_Z 16)]).
Proof.
  exists (mkBlockMetadata 77 0 0 0 0 0 0 0 0 0). split; [reflexivity|].
  apply (@late_measure_hides identity_compression payload_cbor uuid_text object_path simple_arrow
    (blob_storage LateExample.lake) LogExample.ct (received_stream MetricsLake.stream) 0 150 10
    LateExample.stored [mkBlockMetadata 77 0 0 0 0 0 0 0 0 0] (bk_payload LateExample.block)
    [mkMeasure 100 "app" "frame time" "ms" (f64_of_Z 16)]
    (mkMeasure 200 "app" "frame time" "ms" (f64_of_Z 17))
    [mkMeasure 120 "app" "frame time" "ms" (f64_of_Z 18)]).
  - vm_compute. reflexivity.
  - exact LateExample.late_payload_decodes.
  - vm_compute. reflexivity.
  - vm_compute. discriminate.
  - vm_compute. reflexivity.
Defined.
