(* ===== verification/SqlBridge.v ===== *)
(** * From rows of the database to record batches

    [analytics/src/sql_arrow_bridge.rs] and [arrow_utils.rs].  A row of sqlx
    knows its columns, with the names of their types; the reader of a column
    decodes its value and appends it to the builder that Arrow made for the
    field of the column.  A builder is what was appended ([Arrow.v]); that of a
    list has the values of the list in progress, and the lists that are
    closed. *)

From S2P Require Import Prelude RustString Float Time.
From S2P Require Import Sql.
From S2P Require Import Lake.
From S2P Require Import Arrow.

(** ** Rows of sqlx *)
Record PgColumn := mkPgColumn { pg_name : string; pg_ordinal : nat; pg_type_name : string }.
Record PgRow := mkPgRow { pg_columns : list PgColumn; pg_values : list sql_value }.

(** [column.type_info().name()] *)
Definition type_info_name (ty : sql_type) : string :=
  match ty with
  | UUID => "UUID"
  | TEXT => "TEXT"
  | VARCHAR _ => "VARCHAR"
  | BIGINT => "INT8"
  | INT => "INT4"
  | TIMESTAMPTZ => "TIMESTAMPTZ"
  | BYTEA => "BYTEA"
  | TEXT_ARRAY => "TEXT[]"
  | PROPERTY_ARRAY => "_micromegas_property"
  end.

(** [row.try_get(ordinal)]: a value that is NULL or of another type is an error,
    unless the type is an [Option]. *)
Definition try_get_at {T} (decode : sql_value -> option T) (row : PgRow) (ordinal : nat) : exec T :=
  match pg_values row !! ordinal with
  | None => bail "column index out of bounds"
  | Some v => match decode v with Some x => Ok x | None => bail "error occurred while decoding column" end
  end.

(** ** Builders of arrow *)
Record ColumnBuilder := mkColumnBuilder {
  cb_type : DataType;
  cb_values : list cell;
  cb_pending : list cell
}.
Record StructBuilder := mkStructBuilder { sb_fields : list Field; sb_columns : list ColumnBuilder; sb_len : nat }.
Definition StructBuilder_from_fields (fields : list Field) : StructBuilder :=
  mkStructBuilder fields (map (fun f => mkColumnBuilder (fd_type f) [] []) fields) 0.

(** [field_builder::<T>(ordinal)], where [is_builder] says whether the builder of
    a type is a [T]; the index must be that of a field. *)
Definition field_builder (is_builder : DataType -> bool) (sb : StructBuilder) (ordinal : nat)
  : exec ColumnBuilder :=
  match sb_columns sb !! ordinal with
  | None => Panic
  | Some b => if is_builder (cb_type b) then Ok b else bail "field builder of another type"
  end.
Definition set_column (ordinal : nat) (b : ColumnBuilder) (sb : StructBuilder) : StructBuilder :=
  mkStructBuilder (sb_fields sb) (<[ordinal := b]> (sb_columns sb)) (sb_len sb).
Definition append_cell (c : cell) (b : ColumnBuilder) : ColumnBuilder :=
  mkColumnBuilder (cb_type b) (cb_values b ++ [c]) (cb_pending b).
(** A value of the list in progress, and [append(true)] *)
Definition append_item (c : cell) (b : ColumnBuilder) : ColumnBuilder :=
  mkColumnBuilder (cb_type b) (cb_values b) (cb_pending b ++ [c]).
Definition append_list (b : ColumnBuilder) : ColumnBuilder :=
  mkColumnBuilder (cb_type b) (cb_values b ++ [CList (cb_pending b)]) [].
Definition append_struct (sb : StructBuilder) : StructBuilder :=
  mkStructBuilder (sb_fields sb) (sb_columns sb) (S (sb_len sb)).
(** [finish] panics when the builders of the fields have other lengths. *)
Definition finish_struct (sb : StructBuilder) : exec RecordBatch :=
  _ ← assert_true (forallb (fun b => Nat.eqb (length (cb_values b)) (sb_len sb)) (sb_columns sb));
  Ok (mkRecordBatch (sb_fields sb) (map (fun b => mkArray (cb_type b) (cb_values b)) (sb_columns sb))).

Definition is_string_builder (t : DataType) : bool := bool_decide (t = Utf8).
Definition is_int64_builder (t : DataType) : bool := bool_decide (t = Int64).
Definition is_int32_builder (t : DataType) : bool := bool_decide (t = Int32).
Definition is_timestamp_builder (t : DataType) : bool :=
  match t with TimestampNanosecond _ => true | _ => false end.
Definition is_list_builder (t : DataType) : bool := match t with ListOf _ _ _ => true | _ => false end.

(** [values().downcast_mut().unwrap()]: the builder of the items *)
Definition item_type (b : ColumnBuilder) : DataType :=
  match cb_type b with ListOf _ item _ => item | t => t end.

(** ** Readers *)
Record reader := mkReader { field : Field; column_ordinal : nat }.
Inductive ColumnReader :=
| StringColumnReader (r : reader)
| UuidColumnReader (r : reader)
| Int64ColumnReader (r : reader)
| Int32ColumnReader (r : reader)
| TimestampColumnReader (r : reader)
| StringArrayColumnReader (r : reader)
| PropertiesColumnReader (r : reader).

Definition ColumnReader_field (c : ColumnReader) : Field :=
  match c with
  | StringColumnReader r | UuidColumnReader r | Int64ColumnReader r | Int32ColumnReader r
  | TimestampColumnReader r | StringArrayColumnReader r | PropertiesColumnReader r => field r
  end.

Section bridge.
Context `{UuidText}.

Definition String_extract (r : reader) (row : PgRow) (sb : StructBuilder) : exec StructBuilder :=
  value ← with_context "try_get failed on row"
    (try_get_at (fun v => match v with VText s => Some s | _ => None end) row (column_ordinal r));
  b ← with_context "getting field builder for string column"
    (field_builder is_string_builder sb (column_ordinal r));
  Ok (set_column (column_ordinal r) (append_cell (CStr value) b) sb).

Definition Uuid_extract (r : reader) (row : PgRow) (sb : StructBuilder) : exec StructBuilder :=
  value ← with_context "try_get failed on row"
    (try_get_at (fun v => match v with VUuid u => Some (Some u) | VNull => Some None | _ => None end)
       row (column_ordinal r));
  b ← with_context "getting field builder for string column"
    (field_builder is_string_builder sb (column_ordinal r));
  Ok (set_column (column_ordinal r)
        (append_cell (match value with Some uuid => CStr (uuid_to_string uuid) | None => CNull end) b) sb).

Definition Int64_extract (r : reader) (row : PgRow) (sb : StructBuilder) : exec StructBuilder :=
  value ← with_context "try_get failed on row"
    (try_get_at (fun v => match v with VBigint z => Some z | _ => None end) row (column_ordinal r));
  b ← with_context "getting field builder for int64 column"
    (field_builder is_int64_builder sb (column_ordinal r));
  Ok (set_column (column_ordinal r) (append_cell (CInt value) b) sb).

Definition Int32_extract (r : reader) (row : PgRow) (sb : StructBuilder) : exec StructBuilder :=
  value ← with_context "try_get failed on row"
    (try_get_at (fun v => match v with VInt z => Some z | _ => None end) row (column_ordinal r));
  b ← with_context "getting field builder for int32 column"
    (field_builder is_int32_builder sb (column_ordinal r));
  Ok (set_column (column_ordinal r) (append_cell (CInt value) b) sb).

Definition Timestamp_extract (r : reader) (row : PgRow) (sb : StructBuilder) : exec StructBuilder :=
  value ← with_context "try_get failed on row"
    (try_get_at (fun v => match v with VTimestamp t => Some t | _ => None end) row (column_ordinal r));
  b ← with_context "getting field builder for timestamp column"
    (field_builder is_timestamp_builder sb (column_ordinal r));
  Ok (set_column (column_ordinal r) (append_cell (CInt (default 0 (timestamp_nanos_opt value))) b) sb).

Definition StringArray_extract (r : reader) (row : PgRow) (sb : StructBuilder) : exec StructBuilder :=
  strings ← with_context "try_get failed on row"
    (try_get_at (fun v => match v with VTextArray l => Some l | _ => None end) row (column_ordinal r));
  b ← with_context "getting field builder for string array column"
    (field_builder is_list_builder sb (column_ordinal r));
  _ ← assert_true (bool_decide (item_type b = Utf8));
  let b := foldl (fun b v => append_item (CStr v) b) b strings in
  Ok (set_column (column_ordinal r) (append_list b) sb).

Definition Properties_extract (r : reader) (row : PgRow) (sb : StructBuilder) : exec StructBuilder :=
  props ← with_context "try_get failed on row"
    (try_get_at (fun v => match v with VProperties l => Some l | _ => None end) row (column_ordinal r));
  b ← with_context "getting list field builder for property"
    (field_builder is_list_builder sb (column_ordinal r));
  _ ← assert_true (match item_type b with StructOf [(_, Utf8, _); (_, Utf8, _)] => true | _ => false end);
  let b := foldl (fun b p => append_item (CStruct [CStr (pr_key p); CStr (pr_value p)]) b) b props in
  Ok (set_column (column_ordinal r) (append_list b) sb).

Definition extract_column_from_row (c : ColumnReader) (row : PgRow) (sb : StructBuilder)
  : exec StructBuilder :=
  match c with
  | StringColumnReader r => String_extract r row sb
  | UuidColumnReader r => Uuid_extract r row sb
  | Int64ColumnReader r => Int64_extract r row sb
  | Int32ColumnReader r => Int32_extract r row sb
  | TimestampColumnReader r => Timestamp_extract r row sb
  | StringArrayColumnReader r => StringArray_extract r row sb
  | PropertiesColumnReader r => Properties_extract r row sb
  end.

Definition string_array_type : DataType := ListOf "tag" Utf8 false.
Definition properties_type : DataType :=
  ListOf "Property" (StructOf [("key", Utf8, false); ("value", Utf8, false)]) false.
Definition make_column_reader (column : PgColumn) : exec ColumnReader :=
  let new t := mkReader (Field_new (pg_name column) t true) (pg_ordinal column) in
  if String.eqb (pg_type_name column) "VARCHAR" then Ok (StringColumnReader (new Utf8))
  else if String.eqb (pg_type_name column) "UUID" then Ok (UuidColumnReader (new Utf8))
  else if String.eqb (pg_type_name column) "TIMESTAMPTZ" then
    Ok (TimestampColumnReader (new (TimestampNanosecond (Some "UCT"))))
  else if String.eqb (pg_type_name column) "INT8" then Ok (Int64ColumnReader (new Int64))
  else if String.eqb (pg_type_name column) "INT4" then Ok (Int32ColumnReader (new Int32))
  else if String.eqb (pg_type_name column) "TEXT[]" then Ok (StringArrayColumnReader (new string_array_type))
  else if String.eqb (pg_type_name column) "_micromegas_property" then
    Ok (PropertiesColumnReader (new properties_type))
  else bail "unknown type {other}".

Fixpoint make_readers (columns : list PgColumn) : exec (list ColumnReader) :=
  match columns with
  | [] => Ok []
  | column :: columns =>
      reader ← with_context "error building column reader" (make_column_reader column);
      readers ← make_readers columns;
      Ok (reader :: readers)
  end.

(** ** arrow_utils.rs *)
Definition make_empty_record_batch : RecordBatch := mkRecordBatch [] [].

Definition append_row (readers : list ColumnReader) (sb : StructBuilder) (row : PgRow)
  : exec StructBuilder :=
  sb ← foldM (fun sb reader => extract_column_from_row reader row sb) sb readers;
  Ok (append_struct sb).
Definition rows_to_record_batch (rows : list PgRow) : exec RecordBatch :=
  match rows with
  | [] => Ok make_empty_record_batch
  | first :: _ =>
      field_readers ← make_readers (pg_columns first);
      let fields := map ColumnReader_field field_readers in
      sb ← foldM (append_row field_readers) (StructBuilder_from_fields fields) rows;
      finish_struct sb
  end.
End bridge.

(** ** The batch of a table *)

(** The type of the column of a batch, for the type of a column of the database *)
Definition bridge_type (ty : sql_type) : option DataType :=
  match ty with
  | VARCHAR _ | UUID => Some Utf8
  | TIMESTAMPTZ => Some (TimestampNanosecond (Some "UCT"))
  | BIGINT => Some Int64
  | INT => Some Int32
  | TEXT_ARRAY => Some string_array_type
  | PROPERTY_ARRAY => Some properties_type
  | TEXT | BYTEA => None
  end.
Definition property_cell (p : Property) : cell := CStruct [CStr (pr_key p); CStr (pr_value p)].
(** The value in the batch; only an identifier may be NULL. *)
Definition bridge_cell `{UuidText} (ty : sql_type) (v : sql_value) : option cell :=
  match ty, v with
  | VARCHAR _, VText s => Some (CStr s)
  | UUID, VUuid u => Some (CStr (uuid_to_string u))
  | UUID, VNull => Some CNull
  | TIMESTAMPTZ, VTimestamp t => Some (CInt (default 0 (timestamp_nanos_opt t)))
  | BIGINT, VBigint z | INT, VInt z => Some (CInt z)
  | TEXT_ARRAY, VTextArray l => Some (CList (map CStr l))
  | PROPERTY_ARRAY, VProperties l => Some (CList (map property_cell l))
  | _, _ => None
  end.

Definition pg_columns_of (columns : list (string * sql_type)) : list PgColumn :=
  imap (fun i c => mkPgColumn c.1 i (type_info_name c.2)) columns.
Definition bridge_fields (columns : list (string * sql_type)) : option (list Field) :=
  mapM (fun c => t ← bridge_type c.2; Some (Field_new c.1 t true)) columns.
Fixpoint bridge_row `{UuidText} (columns : list (string * sql_type)) (values : list sql_value)
  : option (list cell) :=
  match columns, values with
  | [], [] => Some []
  | c :: columns, v :: values => x ← bridge_cell c.2 v; l ← bridge_row columns values; Some (x :: l)
  | _, _ => None
  end.
Definition column_of (table : list (list cell)) (i : nat) : list cell := omap (fun cells => cells !! i) table.
Definition batch_of `{UuidText} (columns : list (string * sql_type)) (rows : list (list sql_value))
  : option RecordBatch :=
  fields ← bridge_fields columns;
  table ← mapM (bridge_row columns) rows;
  Some (mkRecordBatch fields (imap (fun i f => mkArray (fd_type f) (column_of table i)) fields)).

Section proofs.
Context `{UuidText}.

Definition reader_for (c : string * sql_type) (ordinal : nat) : option ColumnReader :=
  t ← bridge_type c.2;
  let r := mkReader (Field_new c.1 t true) ordinal in
  match c.2 with
  | VARCHAR _ => Some (StringColumnReader r)
  | UUID => Some (UuidColumnReader r)
  | TIMESTAMPTZ => Some (TimestampColumnReader r)
  | BIGINT => Some (Int64ColumnReader r)
  | INT => Some (Int32ColumnReader r)
  | TEXT_ARRAY => Some (StringArrayColumnReader r)
  | PROPERTY_ARRAY => Some (PropertiesColumnReader r)
  | _ => None
  end.

Lemma make_column_reader_spec c ordinal :
  make_column_reader (mkPgColumn c.1 ordinal (type_info_name c.2)) =
  match reader_for c ordinal with Some r => Ok r | None => bail "unknown type {other}" end.
Proof. destruct c as [name []]; reflexivity. Qed.

Lemma reader_for_field c ordinal r :
  reader_for c ordinal = Some r ->
  exists t, bridge_type c.2 = Some t /\ ColumnReader_field r = Field_new c.1 t true.
Proof. destruct c as [name []]; intros [= <-]; by eexists. Qed.

(** One reader per column, from an ordinal *)
Fixpoint readers_from (columns : list (string * sql_type)) (ordinal : nat) : option (list ColumnReader) :=
  match columns with
  | [] => Some []
  | c :: columns => r ← reader_for c ordinal; l ← readers_from columns (S ordinal); Some (r :: l)
  end.

Lemma make_readers_spec columns ordinal :
  match readers_from columns ordinal with
  | Some l => make_readers (imap (fun i c => mkPgColumn c.1 (ordinal + i) (type_info_name c.2)) columns) = Ok l /\
      bridge_fields columns = Some (map ColumnReader_field l)
  | None => (exists e, make_readers (imap (fun i c => mkPgColumn c.1 (ordinal + i) (type_info_name c.2)) columns)
      = Err e) /\ bridge_fields columns = None
  end.
Proof.
  revert ordinal. induction columns as [|c columns IH]; intros n; [by split|].
  cbn [readers_from imap make_readers]. rewrite Nat.add_0_r, make_column_reader_spec.
  unfold bridge_fields in *. cbn [mapM].
  destruct (reader_for c n) as [r|] eqn:Er; cbn [mbind option_bind].
  - destruct (reader_for_field c n r Er) as (t & -> & Ef). cbn [mbind option_bind with_context exec_bind].
    rewrite (imap_ext _ (fun i c => mkPgColumn c.1 (S n + i) (type_info_name c.2))) by (intros; cbn; f_equal; lia).
    specialize (IH (S n)). destruct (readers_from columns (S n)) as [l|].
    + destruct IH as [-> ->]. cbn. by rewrite Ef.
    + destruct IH as [(e & ->) ->]. cbn. split; [by eexists|done].
  - split; [by eexists|]. unfold reader_for in Er. destruct c as [name []]; cbn in *; done.
Qed.

(** *** One value *)
Lemma fold_items {A} (f : A -> cell) l b :
  cb_pending b = [] ->
  append_list (foldl (fun b v => append_item (f v) b) b l) = append_cell (CList (map f l)) b.
Proof.
  intros Hp. assert (forall l b, foldl (fun b v => append_item (f v) b) b l =
    mkColumnBuilder (cb_type b) (cb_values b) (cb_pending b ++ map f l)) as ->.
  { clear. induction l as [|x l IH]; intros b; cbn [foldl map].
    - rewrite app_nil_r. by destruct b.
    - rewrite IH. cbn. by rewrite <- app_assoc. }
  unfold append_list, append_cell. cbn. by rewrite Hp.
Qed.

Lemma extract_spec c ordinal r t row sb b v :
  reader_for c ordinal = Some r -> bridge_type c.2 = Some t ->
  pg_values row !! ordinal = Some v -> sb_columns sb !! ordinal = Some b ->
  cb_type b = t -> cb_pending b = [] ->
  match bridge_cell c.2 v with
  | Some x => extract_column_from_row r row sb = Ok (set_column ordinal (append_cell x b) sb)
  | None => exists e, extract_column_from_row r row sb = Err e
  end.
Proof.
  intros Hr Ht Hv Hb Hbt Hp. destruct c as [name []]; cbn in Hr, Ht |- *; try discriminate;
    injection Hr as <-; injection Ht as <-;
    cbn [extract_column_from_row]; unfold String_extract, Uuid_extract, Int64_extract, Int32_extract,
      Timestamp_extract, StringArray_extract, Properties_extract, try_get_at, field_builder;
    cbn [column_ordinal]; rewrite Hv, Hb, Hbt; destruct v; cbn; try (by eexists); try done;
    unfold item_type; rewrite Hbt; cbn; by rewrite fold_items.
Qed.

(** *** One row *)
Definition ready (c : string * sql_type) (b : ColumnBuilder) : Prop :=
  bridge_type c.2 = Some (cb_type b) /\ cb_pending b = [].

Lemma extract_row columns fs n readers row : forall l pre todo vals,
  readers_from columns (length l) = Some readers -> Forall2 ready columns todo ->
  pg_values row = pre ++ vals -> length pre = length l -> length vals = length columns ->
  match bridge_row columns vals with
  | Some cs => foldM (fun sb reader => extract_column_from_row reader row sb)
      (mkStructBuilder fs (l ++ todo) n) readers = Ok (mkStructBuilder fs (l ++ zip_with append_cell cs todo) n)
  | None => exists e, foldM (fun sb reader => extract_column_from_row reader row sb)
      (mkStructBuilder fs (l ++ todo) n) readers = Err e
  end.
Proof.
  revert readers. induction columns as [|c columns IH]; intros readers l pre todo vals Hr Htodo Hv Hl Hlen.
  { injection Hr as <-. inversion Htodo. destruct vals; [|done]. done. }
  destruct vals as [|v vals]; [done|]. cbn [length] in Hlen.
  inversion Htodo as [|? b ? todo' [Ht Hp] Htodo']; subst. cbn [readers_from] in Hr.
  destruct (reader_for c (length l)) as [r|] eqn:Er; [|done].
  destruct (readers_from columns (S (length l))) as [rs|] eqn:Ers; [|done]. injection Hr as <-.
  cbn [bridge_row foldM].
  pose proof (extract_spec c (length l) r (cb_type b) row (mkStructBuilder fs (l ++ b :: todo') n) b v Er Ht) as He.
  specialize (He ltac:(rewrite Hv; by apply list_lookup_middle) ltac:(by apply list_lookup_middle) eq_refl Hp).
  destruct (bridge_cell c.2 v) as [x|]; cbn [mbind option_bind].
  2:{ destruct He as (e & ->). by eexists. }
  rewrite He. cbn [mbind exec_bind]. unfold set_column. cbn [sb_fields sb_columns sb_len].
  rewrite insert_app_r_alt by lia. rewrite Nat.sub_diag. cbn [list_insert insert].
  specialize (IH rs (l ++ [append_cell x b]) (pre ++ [v]) todo' vals).
  rewrite !length_app in IH. cbn [length] in IH. rewrite Nat.add_1_r, <- !app_assoc in IH.
  specialize (IH Ers Htodo' Hv ltac:(lia) ltac:(lia)).
  destruct (bridge_row columns vals) as [cs|]; cbn [app zip_with] in *; [|exact IH].
  rewrite IH. by rewrite <- app_assoc.
Qed.

(** *** The table *)
Definition builders (columns : list (string * sql_type)) (types : list DataType) (table : list (list cell))
  : list ColumnBuilder := imap (fun i t => mkColumnBuilder t (column_of table i) []) types.

Lemma column_of_app x y i : column_of (x ++ y) i = column_of x i ++ column_of y i.
Proof. apply omap_app. Qed.

Lemma builders_app columns types table cs :
  length cs = length types ->
  zip_with append_cell cs (builders columns types table) = builders columns types (table ++ [cs]).
Proof.
  intros Hl. unfold builders. apply list_eq. intros i. rewrite lookup_zip_with, !list_lookup_imap.
  destruct (types !! i) as [t|] eqn:Et; cbn; [|by destruct (cs !! i)].
  apply lookup_lt_Some in Et. destruct (lookup_lt_is_Some_2 cs i) as [x Hx]; [lia|]. rewrite Hx. cbn.
  unfold append_cell. cbn. rewrite column_of_app. cbn. by rewrite Hx.
Qed.

Lemma builders_ready columns types table :
  mapM (fun c => bridge_type c.2) columns = Some types -> Forall2 ready columns (builders columns types table).
Proof.
  intros Hm. apply mapM_Some_1 in Hm. unfold builders. apply Forall2_same_length_lookup_2.
  - rewrite length_imap. by eapply Forall2_length.
  - intros i c b Hc Hb. rewrite list_lookup_imap in Hb. destruct (types !! i) as [t|] eqn:Et; [|done].
    injection Hb as <-. split; [|done]. by eapply Forall2_lookup_lr in Hm.
Qed.

Lemma bridge_row_length columns vals cs : bridge_row columns vals = Some cs -> length cs = length columns.
Proof.
  revert vals cs. induction columns as [|c columns IH]; intros [|v vals] cs; cbn; try by intros [= <-].
  destruct (bridge_cell c.2 v); cbn; [|done]. destruct (bridge_row columns vals) as [l|] eqn:E; [|done].
  intros [= <-]. cbn. by rewrite (IH _ _ E).
Qed.

Lemma bridge_types columns fields :
  bridge_fields columns = Some fields ->
  mapM (fun c => bridge_type c.2) columns = Some (map fd_type fields).
Proof.
  unfold bridge_fields. revert fields. induction columns as [|c columns IH]; intros fields; cbn [mapM].
  - by intros [= <-].
  - destruct (bridge_type c.2) as [t|]; cbn [mbind option_bind]; [|done].
    destruct (mapM _ columns) as [l|] eqn:E; cbn [mbind option_bind]; [|done]. intros [= <-].
    rewrite (IH l eq_refl). done.
Qed.

(** A builder of the table, and the row that is appended *)
Definition table_builder (columns : list (string * sql_type)) (fields : list Field) (types : list DataType)
  (table : list (list cell)) : StructBuilder :=
  mkStructBuilder fields (builders columns types table) (length table).

Lemma append_row_spec columns types readers fs vals table :
  readers_from columns 0 = Some readers -> mapM (fun c => bridge_type c.2) columns = Some types ->
  length vals = length columns ->
  let r := append_row readers (table_builder columns fs types table) (mkPgRow (pg_columns_of columns) vals) in
  match bridge_row columns vals with
  | Some cs => r = Ok (table_builder columns fs types (table ++ [cs]))
  | None => exists e, r = Err e
  end.
Proof.
  intros Hr Ht Hv. unfold append_row.
  pose proof (extract_row columns fs (length table) readers (mkPgRow (pg_columns_of columns) vals) [] []
    (builders columns types table) vals Hr (builders_ready columns types table Ht) eq_refl eq_refl Hv) as Hx.
  cbn [app] in Hx. fold (table_builder columns fs types table) in Hx.
  destruct (bridge_row columns vals) as [cs|] eqn:Ecs.
  2:{ destruct Hx as (e & ->). by eexists. }
  pose proof (Forall2_length (mapM_Some_1 _ _ _ Ht)) as Hlt. pose proof (bridge_row_length _ _ _ Ecs) as Hcs.
  cbv zeta. rewrite Hx. cbn [mbind exec_bind]. unfold append_struct, table_builder.
  cbn [sb_fields sb_columns sb_len]. rewrite builders_app by lia. rewrite length_app. cbn [length].
  by rewrite Nat.add_1_r.
Qed.

Lemma append_rows columns types readers fs rows : forall table,
  readers_from columns 0 = Some readers -> mapM (fun c => bridge_type c.2) columns = Some types ->
  Forall (fun vals => length vals = length columns) rows ->
  let r := foldM (append_row readers) (table_builder columns fs types table)
             (map (mkPgRow (pg_columns_of columns)) rows) in
  match mapM (bridge_row columns) rows with
  | Some table' => r = Ok (table_builder columns fs types (table ++ table'))
  | None => exists e, r = Err e
  end.
Proof.
  induction rows as [|vals rows IH]; intros table Hr Ht Hl; cbn [mapM map foldM].
  { cbn. by rewrite app_nil_r. }
  inversion_clear Hl as [|? ? Hv Hl'].
  pose proof (append_row_spec columns types readers fs vals table Hr Ht Hv) as Hx. cbv zeta in Hx |- *.
  destruct (bridge_row columns vals) as [cs|]; cbn [mbind option_bind].
  2:{ destruct Hx as (e & ->). by eexists. }
  rewrite Hx. cbn [mbind exec_bind]. specialize (IH (table ++ [cs]) Hr Ht Hl'). cbv zeta in IH.
  destruct (mapM (bridge_row columns) rows) as [table'|]; cbn [mbind option_bind]; [|exact IH].
  rewrite IH. cbn. by rewrite <- app_assoc.
Qed.

Lemma length_column_of table n i :
  Forall (fun cs => length cs = n) table -> (i < n)%nat -> length (column_of table i) = length table.
Proof.
  intros Hl Hi. induction Hl as [|cs table Hcs _ IH]; [done|]. unfold column_of in *. cbn.
  destruct (lookup_lt_is_Some_2 cs i) as [x ->]; [lia|]. cbn. by rewrite IH.
Qed.

Lemma finish_builders columns fields table :
  Forall (fun cs => length cs = length fields) table ->
  finish_struct (table_builder columns fields (map fd_type fields) table) =
  Ok (mkRecordBatch fields (imap (fun i f => mkArray (fd_type f) (column_of table i)) fields)).
Proof.
  intros Hl. unfold finish_struct, table_builder. cbn [sb_columns sb_len sb_fields].
  assert (forallb (fun b => Nat.eqb (length (cb_values b)) (length table))
    (builders columns (map fd_type fields) table) = true) as ->.
  { apply forallb_forall. intros b Hb. apply list_elem_of_In, list_elem_of_lookup in Hb as (i & Hb).
    unfold builders in Hb. rewrite list_lookup_imap in Hb.
    destruct (map fd_type fields !! i) as [t|] eqn:Et; [|done]. injection Hb as <-.
    apply lookup_lt_Some in Et. rewrite length_map in Et. cbn.
    rewrite (length_column_of table (length fields)) by done. apply Nat.eqb_refl. }
  cbn [assert_true mbind exec_bind]. do 2 f_equal. unfold builders. apply list_eq. intros i.
  rewrite list_lookup_fmap, !list_lookup_imap, list_lookup_fmap. by destruct (fields !! i).
Qed.

Lemma from_fields_builder columns fields :
  StructBuilder_from_fields fields = table_builder columns fields (map fd_type fields) [].
Proof.
  unfold StructBuilder_from_fields, table_builder. f_equal. unfold builders. apply list_eq. intros i.
  rewrite list_lookup_imap, !list_lookup_fmap. by destruct (fields !! i).
Qed.

(** A table that the bridge can read *)
Lemma rows_to_batch columns rows batch :
  rows <> [] -> Forall (fun vals => length vals = length columns) rows -> batch_of columns rows = Some batch ->
  rows_to_record_batch (map (mkPgRow (pg_columns_of columns)) rows) = Ok batch.
Proof.
  intros Hne Hl. unfold batch_of, rows_to_record_batch. destruct rows as [|vals rows]; [done|].
  cbn [map pg_columns]. pose proof (make_readers_spec columns 0) as Hr.
  change (imap _ columns) with (pg_columns_of columns) in Hr.
  destruct (readers_from columns 0) as [readers|] eqn:Er; [|by destruct Hr as [_ ->]].
  destruct Hr as [-> Hf]. rewrite Hf. cbn [mbind option_bind exec_bind].
  pose proof (bridge_types _ _ Hf) as Ht. set (fields := map ColumnReader_field readers) in *.
  rewrite (from_fields_builder columns).
  pose proof (append_rows columns _ readers fields (vals :: rows) [] Er Ht Hl) as Ha. cbv zeta in Ha.
  cbn [map] in Ha. destruct (mapM (bridge_row columns) (vals :: rows)) as [table|] eqn:Em; [|done].
  cbn [mbind option_bind]. intros [= <-]. rewrite Ha. cbn [mbind exec_bind app]. apply finish_builders.
  apply mapM_Some_1 in Em. pose proof (Forall2_length (mapM_Some_1 _ _ _ Ht)) as Hlt.
  rewrite length_map in Hlt. apply list.Forall_forall. intros cs Hcs.
  apply list_elem_of_lookup in Hcs as (i & Hcs). destruct (Forall2_lookup_r _ _ _ _ _ Em Hcs) as (vs & _ & Hvs).
  rewrite (bridge_row_length _ _ _ Hvs). lia.
Qed.

(** ** Properties *)

(** C38. The bridge is the batch of the table: for rows of any columns, the
    record batch has one field per column, of the type that fits it, and the
    values of the rows in their order; it is an error, never a panic, exactly
    when a column has a type that the bridge does not know or a value that its
    reader does not take: a NULL that is not an identifier. *)
Theorem rows_to_record_batch_spec columns rows :
  rows <> [] -> Forall (fun vals => length vals = length columns) rows ->
  match batch_of columns rows with
  | Some batch => rows_to_record_batch (map (mkPgRow (pg_columns_of columns)) rows) = Ok batch
  | None => exists e, rows_to_record_batch (map (mkPgRow (pg_columns_of columns)) rows) = Err e
  end.
Proof.
  intros Hne Hl. destruct (batch_of columns rows) as [batch|] eqn:Eb; [by apply rows_to_batch|].
  unfold batch_of in Eb. unfold rows_to_record_batch. destruct rows as [|vals rows]; [done|].
  cbn [map pg_columns]. pose proof (make_readers_spec columns 0) as Hr.
  change (imap _ columns) with (pg_columns_of columns) in Hr.
  destruct (readers_from columns 0) as [readers|] eqn:Er; [|destruct Hr as [(e & ->) _]; by eexists].
  destruct Hr as [-> Hf]. rewrite Hf in Eb. cbn [mbind option_bind exec_bind] in *.
  pose proof (bridge_types _ _ Hf) as Ht. set (fields := map ColumnReader_field readers) in *.
  rewrite (from_fields_builder columns).
  pose proof (append_rows columns _ readers fields (vals :: rows) [] Er Ht Hl) as Ha. cbv zeta in Ha.
  cbn [map] in Ha. destruct (mapM (bridge_row columns) (vals :: rows)) as [table|] eqn:Em; [done|].
  destruct Ha as (e & ->). by eexists.
Qed.
End proofs.

(** *** The answer to a query of processes *)
Module BridgeExample.
#[export] Instance uuid_text : UuidText := fun _ => "6ba7b810".
Definition columns : list (string * sql_type) :=
  [("process_id", UUID); ("exe", VARCHAR 255); ("start_ticks", BIGINT); ("parent_process_id", UUID);
   ("properties", PROPERTY_ARRAY)].
Definition rows : list (list sql_value) :=
  [[VUuid 7; VText "app"; VBigint 100; VNull; VProperties [mkProperty "lang" "rust"]];
   [VUuid 8; VText "srv"; VBigint 200; VUuid 7; VProperties []]].
End BridgeExample.
Import BridgeExample.

Lemma rows_to_record_batch_spec_witness :
  exists batch, rows_to_record_batch (map (mkPgRow (pg_columns_of columns)) rows) = Ok batch /\
    map a_values (rb_columns batch) =
      [[CStr "6ba7b810"; CStr "6ba7b810"]; [CStr "app"; CStr "srv"]; [CInt 100; CInt 200];
       [CNull; CStr "6ba7b810"]; [CList [CStruct [CStr "lang"; CStr "rust"]]; CList []]].
Proof.
  pose proof (rows_to_record_batch_spec columns rows ltac:(discriminate) ltac:(repeat constructor)) as Hspec.
  destruct (batch_of columns rows) as [batch|] eqn:Eb; [|discriminate Eb].
  exists batch. split; [exact Hspec|]. vm_compute in Eb. injection Eb as <-. reflexivity.
Defined.
