(* ===== verification/Service.v ===== *)
(** * The analytics service

    [analytics/src/analytics_service.rs] and [analytics-srv/src/main.rs]: the
    requests of the clients, decoded from CBOR, the queries of the tables of the
    lake, and the answers, record batches written as Parquet.  The statement of
    [query_streams] is built from the parts of the request that are present: its
    conditions name the placeholders of the values that are bound. *)

From S2P Require Import Prelude RustString Float Transit Queue Pod Parser PodParser Blocks.
From S2P Require Import Levels Deps LogEvents LogBlock Time Stream Wire LogEntry MetricsBlock.
From S2P Require Import Measure SpanEvents ThreadBlock ThreadBlockProcessor CallTree Arrow.
From S2P Require Import Tables Sql Lake Metadata Query SqlBridge.

(** ** Requests *)
Record FindProcessRequest := mkFindProcessRequest { fp_process_id : Uuid }.
Record QueryProcessesRequest := mkQueryProcessesRequest { qp_limit : Z; qp_begin : string; qp_end : string }.
Record QueryStreamsRequest := mkQueryStreamsRequest {
  qs_limit : Z;
  qs_begin : option string;
  qs_end : option string;
  qs_tag_filter : option string;
  qs_process_id : option Uuid
}.
Record QueryBlocksRequest := mkQueryBlocksRequest { qb_stream_id : Uuid }.
(** The four queries of the events of a stream have the same fields. *)
Record StreamRangeRequest := mkStreamRangeRequest {
  sr_limit : Z;
  sr_begin : string;
  sr_end : string;
  sr_stream_id : Uuid
}.
Definition QuerySpansRequest : Type := StreamRangeRequest.
Definition QueryThreadEventsRequest : Type := StreamRangeRequest.
Definition QueryLogEntriesRequest : Type := StreamRangeRequest.
Definition QueryMetricsRequest : Type := StreamRangeRequest.

(** [ArrowWriter]: a batch as a Parquet file *)
Class Parquet := write_parquet : RecordBatch -> exec buffer.

(** ** Statements *)

(** The answer of a statement: the selected columns, with their types, in order *)
Definition column_type (columns : list (string * sql_type)) (c : string) : option sql_type :=
  snd <$> List.find (fun col => String.eqb c col.1) columns.
Definition typed_columns (tcols : list (string * sql_type)) (columns : list string)
  : list (string * sql_type) := omap (fun c => (fun ty => (c, ty)) <$> column_type tcols c) columns.
Definition pg_row (columns : list (string * sql_type)) (r : row) : PgRow :=
  mkPgRow (pg_columns_of columns) (map (fun c => default VNull (r !! c.1)) columns).
Definition fetch_all (columns : list string) (name : string) (condition : row -> bool)
    (order : list row -> list row) (db : Db) : exec (list PgRow) :=
  rows ← select columns name condition order db;
  let tcols := match db !! name with Some t => t_columns t | None => [] end in
  Ok (map (pg_row (typed_columns tcols columns)) rows).

(** The key of [ORDER BY column], for a time *)
Definition time_key (column : string) (r : row) : Z :=
  match r !! column with Some (VTimestamp t) => t | _ => 2 ^ 80 end.
(** [LIMIT $n]: the database refuses a negative one. *)
Definition check_limit (limit : Z) : exec nat :=
  if limit <? 0 then bail "LIMIT must not be negative" else Ok (Z.to_nat limit).

Section service.
Context `{Compression} `{Cbor BlockPayload} `{Cbor (list UserDefinedType)} `{UuidText}.
Context `{ObjectPath} `{SqlOrder} `{Arrow} `{Xxh32} `{Rfc3339} `{Timestamptz} `{Parquet}.
Context `{Cbor FindProcessRequest} `{Cbor QueryProcessesRequest} `{Cbor QueryStreamsRequest}.
Context `{Cbor QueryBlocksRequest} `{Cbor StreamRangeRequest}.

Definition serialize_record_batch (record_batch : RecordBatch) : exec buffer := write_parquet record_batch.
Definition rows_response (rows : exec (list PgRow)) : exec buffer :=
  rows ← rows;
  batch ← with_context "converting rows to record batch" (rows_to_record_batch rows);
  serialize_record_batch batch.
(** A time that is bound is sent as one of the database. *)
Definition bind_time (t : DateTime) : sql_value := VTimestamp (stored_time t).

Definition process_select : list string :=
  ["process_id"; "exe"; "username"; "realname"; "computer"; "distro"; "cpu_brand"; "tsc_frequency";
   "start_time"; "start_ticks"; "insert_time"; "parent_process_id"; "properties"].
Definition service_find_process (lake : DataLakeConnection) (body : buffer) : exec buffer :=
  request ← with_context "parsing FindProcessRequest" (from_reader (T := FindProcessRequest) body);
  rows_response
    (fetch_all process_select "processes" (holds "process_id" OpEq (VUuid (fp_process_id request))) scan
       (db_pool lake)).

Definition service_query_processes (lake : DataLakeConnection) (body : buffer) : exec buffer :=
  request ← with_context "parsing QueryProcessesRequest" (from_reader (T := QueryProcessesRequest) body);
  begin_ ← with_context "parsing begin time range" (parse_from_rfc3339 (qp_begin request));
  end_ ← with_context "parsing end time range" (parse_from_rfc3339 (qp_end request));
  rows_response
    (n ← check_limit (qp_limit request);
     fetch_all process_select "processes"
       (fun r => holds "start_time" OpGe (bind_time begin_) r && holds "start_time" OpLt (bind_time end_) r)
       (fun l => firstn n (order_by (time_key "start_time") l)) (db_pool lake)).

(** *** query_streams *)

(** A condition of the statement, with the number of its placeholder *)
Inductive sql_condition :=
| InsertTimeAtLeast (placeholder : nat)
| InsertTimeBefore (placeholder : nat)
| ProcessIs (placeholder : nat)
| HasTag (placeholder : nat).
Definition format_postgres_placeholder (index : nat) : nat := (index + 1)%nat.

(** A placeholder is a value that was bound, the first one being [$1]. *)
Definition bound (binds : list sql_value) (placeholder : nat) : sql_value :=
  default VNull (match placeholder with O => None | S i => binds !! i end).
Definition eval_condition (binds : list sql_value) (c : sql_condition) (r : row) : bool :=
  match c with
  | InsertTimeAtLeast n => holds "insert_time" OpGe (bound binds n) r
  | InsertTimeBefore n => holds "insert_time" OpLt (bound binds n) r
  | ProcessIs n => holds "process_id" OpEq (bound binds n) r
  | HasTag n => holds_tag "tags" (bound binds n) r
  end.

Record streams_statement := mkStreamsStatement {
  ss_conditions : list sql_condition;
  ss_limit_placeholder : nat;
  ss_binds : list sql_value
}.
Definition push_condition (c : nat -> sql_condition) (conditions : list sql_condition) : list sql_condition :=
  conditions ++ [c (format_postgres_placeholder (length conditions))].
Definition is_none {A} (o : option A) : bool := match o with None => true | Some _ => false end.
Definition opt_list {A} (o : option A) : list A := match o with Some a => [a] | None => [] end.

Definition make_streams_statement (request : QueryStreamsRequest) : exec streams_statement :=
  if (is_none (qs_begin request) || is_none (qs_end request)) && is_none (qs_process_id request)
  then bail "Time range or process_id have to be provided" else
  '(begin_time, conditions) ←
    match qs_begin request with
    | Some time_str =>
        t ← with_context "parsing begin time range" (parse_from_rfc3339 time_str);
        Ok (Some t, push_condition InsertTimeAtLeast [])
    | None => Ok (None, [])
    end;
  '(end_time, conditions) ←
    match qs_end request with
    | Some time_str =>
        t ← with_context "parsing end time range" (parse_from_rfc3339 time_str);
        Ok (Some t, push_condition InsertTimeBefore conditions)
    | None => Ok (None, conditions)
    end;
  let conditions := if is_none (qs_process_id request) then conditions
                    else push_condition ProcessIs conditions in
  let conditions := if is_none (qs_tag_filter request) then conditions
                    else push_condition HasTag conditions in
  let limit_placeholder := format_postgres_placeholder (length conditions) in
  let binds :=
    opt_list (bind_time <$> begin_time) ++ opt_list (bind_time <$> end_time)
    ++ opt_list (VUuid <$> qs_process_id request) ++ opt_list (VText <$> qs_tag_filter request)
    ++ [VBigint (qs_limit request)] in
  Ok (mkStreamsStatement conditions limit_placeholder binds).

Definition stream_select : list string := ["stream_id"; "process_id"; "tags"; "properties"].
Definition run_streams_statement (db : Db) (s : streams_statement) : exec (list PgRow) :=
  if negb (forallb sendable (ss_binds s)) then bail "invalid byte sequence for encoding" else
  match ss_conditions s, bound (ss_binds s) (ss_limit_placeholder s) with
  | _ :: _, VBigint limit =>
      n ← check_limit limit;
      fetch_all stream_select "streams"
        (fun r => forallb (fun c => eval_condition (ss_binds s) c r) (ss_conditions s))
        (fun l => firstn n (order_by (time_key "insert_time") l)) db
  | _, _ => bail "syntax error"
  end.
Definition service_query_streams (lake : DataLakeConnection) (body : buffer) : exec buffer :=
  request ← with_context "parsing QueryStreamsRequest" (from_reader (T := QueryStreamsRequest) body);
  statement ← make_streams_statement request;
  rows_response (run_streams_statement (db_pool lake) statement).

(** *** The other queries *)
Definition block_select : list string :=
  ["block_id"; "stream_id"; "process_id"; "begin_time"; "begin_ticks"; "end_time"; "end_ticks";
   "nb_objects"; "object_offset"; "payload_size"].
Definition service_query_blocks (lake : DataLakeConnection) (body : buffer) : exec buffer :=
  request ← with_context "parsing QueryBlocksRequest" (from_reader (T := QueryBlocksRequest) body);
  rows_response
    (fetch_all block_select "blocks" (holds "stream_id" OpEq (VUuid (qb_stream_id request)))
       (order_by (time_key "begin_time")) (db_pool lake)).

(** The four queries of a stream: [name] is the context of the decoding of the
    request, [context] that of the query. *)
Definition stream_range_query (name context : string)
    (query : Uuid -> DateTime -> DateTime -> Z -> exec RecordBatch) (body : buffer) : exec buffer :=
  request ← with_context name (from_reader (T := StreamRangeRequest) body);
  begin_ ← with_context "parsing begin time range" (parse_from_rfc3339 (sr_begin request));
  end_ ← with_context "parsing end time range" (parse_from_rfc3339 (sr_end request));
  batch ← with_context context (query (sr_stream_id request) begin_ end_ (sr_limit request));
  serialize_record_batch batch.
Definition service_query_spans (lake : DataLakeConnection) : buffer -> exec buffer :=
  stream_range_query "parsing QuerySpansRequest" "query_spans"
    (fun stream_id begin_ end_ limit => query_spans lake limit stream_id begin_ end_).
Definition service_query_thread_events (lake : DataLakeConnection) : buffer -> exec buffer :=
  stream_range_query "parsing QueryThreadEventsRequest" "query_thread_events"
    (fun stream_id begin_ end_ limit => query_thread_events lake limit stream_id begin_ end_).
Definition service_query_log_entries (lake : DataLakeConnection) : buffer -> exec buffer :=
  stream_range_query "parsing QueryLogEntriesRequest" "query_log_entries"
    (fun stream_id begin_ end_ limit => query_log_entries lake stream_id begin_ end_ limit).
Definition service_query_metrics (lake : DataLakeConnection) : buffer -> exec buffer :=
  stream_range_query "parsing QueryMetricsRequest" "query_log_entries"
    (fun stream_id begin_ end_ limit => query_metrics lake limit stream_id begin_ end_).

(** ** The server

    An answer is the status and the body; that of an error is its messages.
    A panic aborts the task of the connection, and there is no answer. *)
Inductive Response := Success (body : buffer) | Failure (msgs : list string).
Definition status (r : Response) : Z := match r with Success _ => 200 | Failure _ => 500 end.
Definition bytes_response (result : exec buffer) : exec Response :=
  match result with
  | Ok bytes => Ok (Success bytes)
  | Err e => Ok (Failure e)
  | Panic => Panic
  | Ub => Ub
  | Diverges => Diverges
  end.

Definition request_handler (name : string) (f : DataLakeConnection -> buffer -> exec buffer)
    (service : DataLakeConnection) (body : buffer) : exec Response :=
  bytes_response (with_context name (f service body)).
Definition find_process_request := request_handler "find_process" service_find_process.
Definition query_processes_request := request_handler "query_processes" service_query_processes.
Definition query_streams_request := request_handler "query_streams" service_query_streams.
Definition query_blocks_request := request_handler "query_blocks" service_query_blocks.
Definition query_spans_request := request_handler "query_spans" service_query_spans.
Definition query_thread_events_request := request_handler "query_thread_events" service_query_thread_events.
Definition query_log_entries_request := request_handler "query_log_entries" service_query_log_entries.
Definition query_metrics_request := request_handler "query_metrics" service_query_metrics.

(** The router: the handler of a path *)
Definition serve_http_route (path : string) : option (DataLakeConnection -> buffer -> exec Response) :=
  if String.eqb path "/analytics/find_process" then Some find_process_request
  else if String.eqb path "/analytics/query_processes" then Some query_processes_request
  else if String.eqb path "/analytics/query_streams" then Some query_streams_request
  else if String.eqb path "/analytics/query_blocks" then Some query_blocks_request
  else if String.eqb path "/analytics/query_spans" then Some query_spans_request
  else if String.eqb path "/analytics/query_log_entries" then Some query_log_entries_request
  else if String.eqb path "/analytics/query_metrics" then Some query_metrics_request
  else if String.eqb path "/analytics/query_thread_events" then Some query_thread_events_request
  else None.
End service.
