(* ===== verification/ServiceSpec.v ===== *)
(** * What the analytics service promises

    The statement that [query_streams] builds is the filter that the request
    asks for: its placeholders name the values that are bound.  Whatever is
    posted to the ingestion server, the rows of the tables can be read, so that
    the queries of the tables are answered. *)

From S2P Require Import Prelude RustString Float Transit Queue Pod Parser PodParser Blocks.
From S2P Require Import Levels Deps LogEvents LogBlock Time Stream Wire LogEntry MetricsBlock.
From S2P Require Import Measure SpanEvents ThreadBlock ThreadBlockProcessor CallTree Arrow.
From S2P Require Import Tables Sql Lake Metadata LakeSpec Codecs Query SqlBridge Service.

(** ** The statement of query_streams *)
Section streams.
Context `{UuidText} `{SqlOrder} `{Rfc3339} `{Timestamptz}.

(** The times of the request *)
Definition parsed (time_str : option string) (t : option DateTime) : Prop :=
  match time_str, t with
  | Some s, Some t => parse_from_rfc3339 s = Ok t
  | None, None => True
  | _, _ => False
  end.
Definition opt_all {A} (p : A -> bool) (o : option A) : bool :=
  match o with Some x => p x | None => true end.
(** The streams that a request asks for *)
Definition stream_matches (request : QueryStreamsRequest) (begin_ end_ : option DateTime) (r : row) : bool :=
  opt_all (fun t => holds "insert_time" OpGe (VTimestamp (stored_time t)) r) begin_
  && opt_all (fun t => holds "insert_time" OpLt (VTimestamp (stored_time t)) r) end_
  && opt_all (fun u => holds "process_id" OpEq (VUuid u) r) (qs_process_id request)
  && opt_all (fun tag => holds_tag "tags" (VText tag) r) (qs_tag_filter request).

Lemma fetch_all_ext columns name cond cond' order db :
  (forall r, cond r = cond' r) ->
  fetch_all columns name cond order db = fetch_all columns name cond' order db.
Proof.
  intros Hc. unfold fetch_all, select. destruct (db !! name) as [t|]; [|done].
  by rewrite (filter_ext _ _ Hc).
Qed.

(** A request needs a range or a process, and its tag is a text of the database. *)
Definition acceptable (request : QueryStreamsRequest) : bool :=
  (negb (is_none (qs_begin request) || is_none (qs_end request)) || negb (is_none (qs_process_id request)))
  && opt_all no_nul (qs_tag_filter request).

Lemma streams_statement_ok db request begin_ end_ :
  acceptable request = true -> parsed (qs_begin request) begin_ -> parsed (qs_end request) end_ ->
  (statement ← make_streams_statement request; run_streams_statement db statement) =
  (n ← check_limit (qs_limit request);
   fetch_all stream_select "streams" (stream_matches request begin_ end_)
     (fun l => firstn n (order_by (time_key "insert_time") l)) db).
Proof.
  destruct request as [limit [b|] [e|] [tag|] [pid|]], begin_ as [bt|], end_ as [et|];
    cbn [qs_begin qs_end qs_process_id qs_tag_filter qs_limit parsed acceptable is_none orb andb negb opt_all];
    try done; intros Htag Hb He.
  all: unfold make_streams_statement;
    cbn [qs_begin qs_end qs_process_id qs_tag_filter qs_limit is_none orb andb negb];
    rewrite ?Hb, ?He;
    cbn [with_context mbind exec_bind push_condition format_postgres_placeholder length app Nat.add
         option_fmap option_map fmap opt_list];
    unfold run_streams_statement;
    cbn [ss_conditions ss_limit_placeholder ss_binds push_condition app length Nat.add
         option_fmap option_map fmap opt_list forallb sendable bind_time andb negb];
    rewrite ?Htag; cbn [andb negb].
  all: unfold bound at 1; cbn [lookup list_lookup default option_fmap option_map fmap opt_list app id].
  all: destruct (check_limit limit); cbn [mbind exec_bind]; try done.
  all: apply fetch_all_ext; intros r; unfold stream_matches, bind_time.
  all: cbn -[holds holds_tag]; by rewrite ?andb_true_r, ?andb_assoc.
Qed.
End streams.

(** ** Tables that can be read *)
Section readable.
Context `{UuidText}.

(** A value that the reader of a column takes, if the bridge knows its type *)
Definition readable_value (ty : sql_type) (v : sql_value) : Prop :=
  bridge_type ty = None \/ is_Some (bridge_cell ty v).
Definition readable_row (tcols : list (string * sql_type)) (r : row) : Prop :=
  Forall (fun c => exists v, r !! c.1 = Some v /\ readable_value c.2 v) tcols.
Definition readable_table (db : Db) (name : string) (tcols : list (string * sql_type)) : Prop :=
  exists rows, db !! name = Some (mkTable tcols rows) /\ Forall (readable_row tcols) rows.
Definition readable (db : Db) : Prop :=
  readable_table db "processes" processes_columns /\ readable_table db "streams" streams_columns /\
  readable_table db "blocks" blocks_columns.

(** Only an identifier is NULL. *)
Definition not_null (c : string * sql_type) (v : sql_value) : Prop := v <> VNull \/ c.2 = UUID.

Lemma accepts_readable c v : accepts c.2 v = true -> not_null c v -> readable_value c.2 v.
Proof.
  destruct c as [name ty]. unfold not_null, readable_value. cbn [snd].
  intros [_ Ha]%andb_true_iff Hv. destruct ty, v; cbn in *; try done;
    solve [by left|by right; eexists|by destruct Hv as [Hv|Hv]].
Qed.

Lemma make_row_readable tcols values r :
  NoDup (map fst tcols) -> Forall2 not_null tcols values -> make_row tcols values = Ok r ->
  readable_row tcols r.
Proof.
  intros Hnd Hn. revert r. induction Hn as [|c v tcols values Hv _ IH]; intros r; [constructor|].
  cbn in Hnd. apply list.NoDup_cons in Hnd as [Hc Hnd]. destruct c as [name ty]. cbn [make_row].
  destruct (accepts ty v) eqn:Ea; [|done].
  destruct (make_row tcols values) as [r'| | | |] eqn:Er; cbn [mbind exec_bind]; try done.
  intros E. apply (f_equal (fun x => match x with Ok r => r | _ => r' end)) in E. subst r.
  constructor.
  - exists v. cbn [fst snd]. rewrite lookup_insert_eq. split; [done|]. by apply (accepts_readable (name, ty)).
  - specialize (IH Hnd r' eq_refl). apply list.Forall_forall. intros c' Hc'.
    eapply list.Forall_forall in IH as (v' & Hv' & Hr); [|exact Hc']. exists v'. split; [|done].
    rewrite lookup_insert_ne; [done|]. intros ->. apply Hc.
    cbn [fst]. apply list_elem_of_In, (in_map fst tcols c'), list_elem_of_In, Hc'.
Qed.

Lemma insert_readable name tcols values db db' :
  NoDup (map fst tcols) -> Forall2 not_null tcols values -> readable_table db name tcols ->
  insert_into name values db = Ok db' ->
  readable_table db' name tcols /\ forall other, other <> name -> db' !! other = db !! other.
Proof.
  intros Hnd Hn (rows & Hdb & Hrows). unfold insert_into. rewrite Hdb. cbn [t_columns t_rows].
  destruct (make_row tcols values) as [r| | | |] eqn:Er; cbn [mbind exec_bind]; try done.
  intros E. apply (f_equal (fun x => match x with Ok d => d | _ => db end)) in E. subst db'. split.
  - exists (rows ++ [r]). rewrite lookup_insert_eq. split; [done|]. apply Forall_app. split; [done|].
    constructor; [|constructor]. by eapply make_row_readable.
  - intros other Ho. by rewrite lookup_insert_ne.
Qed.

Lemma readable_table_other db db' name tcols :
  db' !! name = db !! name -> readable_table db name tcols -> readable_table db' name tcols.
Proof. intros E (rows & Hdb & Hrows). exists rows. by rewrite E. Qed.
End readable.

(** ** Ingestion *)
Section ingestion.
Context `{Cbor Block} `{Cbor BlockPayload} `{Cbor StreamInfo} `{Cbor ProcessInfo}.
Context `{Cbor (list UserDefinedType)} `{Rfc3339} `{Timestamptz} `{UuidText} `{ObjectPath}.
Context (iter_map : gmap string string -> list (string * string)).

(** A request that anyone may post, with any body *)
Inductive ingestion_call :=
| PostProcess (now : DateTime) (body : buffer)
| PostStream (now : DateTime) (body : buffer)
| PostBlock (body : buffer).
Definition ingest (lake : DataLakeConnection) (c : ingestion_call) : DataLakeConnection :=
  match c with
  | PostProcess now body => insert_process_request iter_map now lake body
  | PostStream now body => insert_stream_request iter_map now lake body
  | PostBlock body => insert_block_request lake body
  end.

Lemma commit_readable lake m :
  readable (db_pool lake) -> (forall db, m = Ok db -> readable db) ->
  readable (db_pool (commit lake m).1).
Proof. intros Hl Hm. destruct m; try done. by apply Hm. Qed.

Lemma with_context_insert_readable name tcols values ctx db db' :
  NoDup (map fst tcols) -> Forall2 not_null tcols values -> readable_table db name tcols ->
  with_context ctx (insert_into name values db) = Ok db' ->
  readable_table db' name tcols /\ forall other, other <> name -> db' !! other = db !! other.
Proof. intros Hnd Hn Hr E. apply with_context_Ok in E. by eapply insert_readable. Qed.

Ltac distinct_names := eapply bool_decide_unpack; by vm_compute.

Ltac by_not_null := repeat (apply Forall2_nil_2 || apply Forall2_cons_2); solve [by left|by right].

Lemma ingest_readable lake c : readable (db_pool lake) -> readable (db_pool (ingest lake c)).
Proof.
  intros Hl. pose proof Hl as (Hp & Hs & Hb). destruct c as [now body|now body|body]; cbn [ingest].
  - apply commit_readable; [done|]. intros db E. exec_inv E.
    apply (with_context_insert_readable _ processes_columns) in E as [Hp' Ho]; [| | |done].
    + split_and!; [done|eapply readable_table_other; [by apply Ho|done]..].
    + distinct_names.
    + by_not_null.
  - apply commit_readable; [done|]. intros db E. exec_inv E. exec_inv E. exec_inv E.
    apply (with_context_insert_readable _ streams_columns) in E as [Hs' Ho]; [| | |done].
    + split_and!; [eapply readable_table_other; [by apply Ho|done]|done|].
      eapply readable_table_other; [by apply Ho|done].
    + distinct_names.
    + by_not_null.
  - unfold insert_block_request. destruct body as [|x body]; [done|]. unfold insert_block.
    destruct (receive_block _) as [[[[b payload] bt] et]| | | |]; try done.
    apply commit_readable; [done|]. intros db E.
    apply (with_context_insert_readable _ blocks_columns) in E as [Hb' Ho]; [| | |done].
    + split_and!; [eapply readable_table_other; [by apply Ho|done]..|done].
    + distinct_names.
    + by_not_null.
Qed.
End ingestion.

(** ** Answers *)
Section answers.
Context `{UuidText} `{SqlOrder}.

Definition row_values (columns : list (string * sql_type)) (r : row) : list sql_value :=
  map (fun c => default VNull (r !! c.1)) columns.
(** The batch of the rows of a table that a condition keeps, in an order *)
Definition answer (lake : DataLakeConnection) (columns : list string) (name : string)
    (cond : row -> bool) (order : list row -> list row) (batch : RecordBatch) : Prop :=
  exists tcols rows, db_pool lake !! name = Some (mkTable tcols rows) /\
    match order (List.filter cond rows) with
    | [] => batch = make_empty_record_batch
    | selected =>
        batch_of (typed_columns tcols columns) (map (row_values (typed_columns tcols columns)) selected)
        = Some batch
    end.

(** The selected columns are in the table, and their types are known. *)
Definition selectable (tcols : list (string * sql_type)) (columns : list string) : bool :=
  forallb (fun c => existsb (fun col => String.eqb c col.1) tcols) columns &&
  forallb (fun c => match bridge_type c.2 with Some _ => true | None => false end) (typed_columns tcols columns).

Lemma typed_column tcols columns c :
  c ∈ typed_columns tcols columns -> c ∈ tcols /\ c.1 ∈ columns.
Proof.
  unfold typed_columns. rewrite list_elem_of_omap. intros (x & Hx & Hc). unfold column_type in Hc.
  destruct (List.find _ tcols) as [[n ty]|] eqn:Ef; [|done]. injection Hc as <-.
  apply List.find_some in Ef as [Hin He]. apply String.eqb_eq in He. cbn in He. subst n.
  split; [by apply list_elem_of_In|done].
Qed.

Lemma bridge_row_some columns r :
  Forall (fun c => exists v, r !! c.1 = Some v /\ is_Some (bridge_cell c.2 v)) columns ->
  is_Some (bridge_row columns (row_values columns r)).
Proof.
  induction 1 as [|c columns (v & Hv & x & Hx) _ [l Hl]]; [by eexists|]. cbn.
  rewrite Hv. cbn. rewrite Hx. cbn. unfold row_values in Hl. rewrite Hl. by eexists.
Qed.

Lemma bridge_fields_some columns :
  Forall (fun c => is_Some (bridge_type c.2)) columns -> is_Some (bridge_fields columns).
Proof.
  unfold bridge_fields. induction 1 as [|c columns [t Ht] _ [l Hl]]; cbn; [by eexists|]. rewrite Ht. cbn.
  unfold bridge_fields in *. rewrite Hl. by eexists.
Qed.

Lemma mapM_is_Some {A B} (f : A -> option B) l : Forall (fun x => is_Some (f x)) l -> is_Some (mapM f l).
Proof. induction 1 as [|x l [y Hy] _ [k Hk]]; cbn; [by eexists|]. rewrite Hy. cbn. rewrite Hk. by eexists. Qed.

Lemma pg_rows_project tcols columns rows :
  map (pg_row (typed_columns tcols columns)) (map (project columns) rows) =
  map (mkPgRow (pg_columns_of (typed_columns tcols columns)))
    (map (row_values (typed_columns tcols columns)) rows).
Proof.
  rewrite !map_map. apply map_ext. intros r. unfold pg_row, row_values. f_equal.
  apply map_ext_in. intros c Hc. rewrite project_lookup; [done|].
  by eapply typed_column, list_elem_of_In.
Qed.

Lemma table_answer lake name tcols columns cond order :
  readable_table (db_pool lake) name tcols -> selectable tcols columns = true ->
  (forall l r, In r (order l) -> In r l) ->
  exists rows batch, fetch_all columns name cond order (db_pool lake) = Ok rows /\
    rows_to_record_batch rows = Ok batch /\ answer lake columns name cond order batch.
Proof.
  intros (rows & Hdb & Hrows) Hsel Ho. apply andb_true_iff in Hsel as [Hcols Htypes].
  unfold fetch_all, select. rewrite Hdb. cbn [t_columns t_rows]. rewrite Hcols. cbn [mbind exec_bind].
  rewrite pg_rows_project. set (typed := typed_columns tcols columns).
  set (sel := order (List.filter cond rows)).
  assert (exists batch, match sel with [] => batch = make_empty_record_batch
    | _ => batch_of typed (map (row_values typed) sel) = Some batch end /\
    rows_to_record_batch (map (mkPgRow (pg_columns_of typed)) (map (row_values typed) sel)) = Ok batch)
    as (batch & Hb & Hr).
  2:{ eexists _, batch. split; [done|]. split; [done|]. exists tcols, rows. split; [done|].
      fold typed sel. by destruct sel. }
  assert (Forall (fun c => is_Some (bridge_type c.2)) typed) as Ht.
  { apply List.Forall_forall. intros c Hc. eapply forallb_forall in Htypes; [|exact Hc].
    by destruct (bridge_type c.2). }
  assert (Forall (fun vals => is_Some (bridge_row typed vals)) (map (row_values typed) sel)) as Hvals.
  { apply List.Forall_forall. intros vals Hv. apply in_map_iff in Hv as (r & <- & Hr).
    apply Ho in Hr. apply filter_In in Hr as [Hr _]. apply bridge_row_some, List.Forall_forall.
    intros c Hc. eapply List.Forall_forall in Hrows; [|exact Hr]. apply list_elem_of_In in Hc as Hc'.
    apply typed_column in Hc' as [Hc' _]. eapply list.Forall_forall in Hrows as (v & Hv & Hrv); [|exact Hc'].
    exists v. split; [done|]. eapply List.Forall_forall in Ht; [|exact Hc].
    destruct Hrv as [Hn|Hs]; [|done]. rewrite Hn in Ht. by destruct Ht. }
  destruct sel as [|r l] eqn:Es; [by eexists|].
  destruct (bridge_fields_some typed Ht) as [fields Hf].
  destruct (mapM_is_Some _ _ Hvals) as [table Hm].
  destruct (batch_of typed (map (row_values typed) (r :: l))) as [batch|] eqn:Eb.
  2:{ unfold batch_of in Eb. rewrite Hf in Eb. cbn [mbind option_bind] in Eb. by rewrite Hm in Eb. }
  exists batch. split; [done|]. apply rows_to_batch; [done| |done].
  apply List.Forall_forall. intros vals Hv. apply in_map_iff in Hv as (r' & <- & _). apply length_map.
Qed.
End answers.

Section reached.
Context `{Cbor Block} `{Cbor BlockPayload} `{Cbor StreamInfo} `{Cbor ProcessInfo}.
Context `{Cbor (list UserDefinedType)} `{Rfc3339} `{Timestamptz} `{UuidText} `{ObjectPath}.

Lemma migrated_readable db : migrated db -> readable db.
Proof. intros ->. split_and!; by exists []. Qed.

Lemma ingested_readable iter_map calls lake :
  readable (db_pool lake) -> readable (db_pool (foldl (ingest iter_map) lake calls)).
Proof.
  revert lake. induction calls as [|c calls IH]; intros lake Hl; [done|]. cbn [foldl].
  by apply IH, ingest_readable.
Qed.

Context `{LawfulSqlOrder} `{Parquet}.

Lemma limited_in n key (l : list row) r : In r (firstn n (order_by key l)) -> In r l.
Proof.
  intros Hr. eapply Permutation_in; [apply order_by_perm|].
  rewrite <- (firstn_skipn n (order_by key l)). apply in_or_app. by left.
Qed.
Lemma ordered_in key (l : list row) r : In r (order_by key l) -> In r l.
Proof. intros Hr. eapply Permutation_in; [apply order_by_perm|done]. Qed.
Lemma scan_in (l : list row) r : In r (scan l) -> In r l.
Proof. intros Hr. eapply Permutation_in; [apply scan_perm|done]. Qed.

Lemma check_limit_Ok limit : 0 <= limit -> check_limit limit = Ok (Z.to_nat limit).
Proof. intros Hl. unfold check_limit. by rewrite (proj2 (Z.ltb_ge _ _)). Qed.

(** The rows of a table that can be read are answered. *)
Lemma rows_answered lake name tcols columns cond order :
  readable_table (db_pool lake) name tcols -> selectable tcols columns = true ->
  (forall l r, In r (order l) -> In r l) ->
  exists batch, answer lake columns name cond order batch /\
    rows_response (fetch_all columns name cond order (db_pool lake)) = write_parquet batch.
Proof.
  intros Hr Hs Ho. destruct (table_answer lake name tcols columns cond order Hr Hs Ho) as (rows & batch & E1 & E2 & Ha).
  exists batch. split; [done|]. unfold rows_response. rewrite E1. cbn [mbind exec_bind]. by rewrite E2.
Qed.
End reached.

(** ** Properties *)

(** C37. The queries of the tables are answered: whatever was posted to the
    ingestion server of a new lake, with any bodies, a request that is decoded,
    whose times are times, whose tag has no byte 0 (a text of the database has
    none) and whose limit is not negative gets the batch of the
    rows that it asks for: the process with an identifier, the processes that
    started in a range of time, the streams of a time range, of a process and
    with a tag, whichever are given, the blocks of a stream; in the order of
    their times and up to the limit. *)
Theorem service_answers `{Cbor Block} `{Cbor BlockPayload} `{Cbor StreamInfo} `{Cbor ProcessInfo}
    `{Cbor (list UserDefinedType)} `{Rfc3339} `{Timestamptz} `{UuidText} `{ObjectPath}
    `{LawfulSqlOrder} `{Parquet} `{Cbor FindProcessRequest} `{Cbor QueryProcessesRequest}
    `{Cbor QueryStreamsRequest} `{Cbor QueryBlocksRequest} iter_map db root calls :
  migrated db ->
  let lake := foldl (ingest iter_map) (mkDataLakeConnection db (mkBlobStorage ∅ root)) calls in
  (forall body request, from_reader (T := FindProcessRequest) body = Ok request ->
     exists batch,
       answer lake process_select "processes" (holds "process_id" OpEq (VUuid (fp_process_id request)))
         scan batch /\
       service_find_process lake body = write_parquet batch) /\
  (forall body request b e, from_reader (T := QueryProcessesRequest) body = Ok request ->
     parse_from_rfc3339 (qp_begin request) = Ok b -> parse_from_rfc3339 (qp_end request) = Ok e ->
     0 <= qp_limit request ->
     exists batch,
       answer lake process_select "processes"
         (fun r => holds "start_time" OpGe (bind_time b) r && holds "start_time" OpLt (bind_time e) r)
         (fun l => firstn (Z.to_nat (qp_limit request)) (order_by (time_key "start_time") l)) batch /\
       service_query_processes lake body = write_parquet batch) /\
  (forall body request b e, from_reader (T := QueryStreamsRequest) body = Ok request ->
     acceptable request = true -> parsed (qs_begin request) b -> parsed (qs_end request) e ->
     0 <= qs_limit request ->
     exists batch,
       answer lake stream_select "streams" (stream_matches request b e)
         (fun l => firstn (Z.to_nat (qs_limit request)) (order_by (time_key "insert_time") l)) batch /\
       service_query_streams lake body = write_parquet batch) /\
  (forall body request, from_reader (T := QueryBlocksRequest) body = Ok request ->
     exists batch,
       answer lake block_select "blocks" (holds "stream_id" OpEq (VUuid (qb_stream_id request)))
         (order_by (time_key "begin_time")) batch /\
       service_query_blocks lake body = write_parquet batch).
Proof.
  intros Hm lake.
  assert (readable (db_pool lake)) as (Hp & Hs & Hb).
  { apply ingested_readable. by apply migrated_readable. }
  split_and!.
  - intros body request Hr. unfold service_find_process. rewrite Hr. cbn [with_context mbind exec_bind].
    by apply (rows_answered lake _ processes_columns); [|reflexivity|apply scan_in].
  - intros body request b e Hr Eb Ee Hl. unfold service_query_processes. rewrite Hr.
    cbn [with_context mbind exec_bind]. rewrite Eb. cbn [with_context mbind exec_bind]. rewrite Ee.
    cbn [with_context mbind exec_bind]. rewrite check_limit_Ok by done. cbn [mbind exec_bind].
    by apply (rows_answered lake _ processes_columns); [|reflexivity|apply limited_in].
  - intros body request b e Hr Ha Eb Ee Hl. unfold service_query_streams. rewrite Hr.
    cbn [with_context mbind exec_bind].
    pose proof (streams_statement_ok (db_pool lake) request b e Ha Eb Ee) as Hst.
    rewrite check_limit_Ok in Hst by done. cbn [mbind exec_bind] in Hst.
    destruct (rows_answered lake "streams" streams_columns stream_select (stream_matches request b e)
      (fun l => firstn (Z.to_nat (qs_limit request)) (order_by (time_key "insert_time") l)) Hs)
      as (batch & Hans & Hresp); [reflexivity|apply limited_in|].
    exists batch. split; [done|]. rewrite <- Hresp, <- Hst.
    by destruct (make_streams_statement request).
  - intros body request Hr. unfold service_query_blocks. rewrite Hr. cbn [with_context mbind exec_bind].
    by apply (rows_answered lake _ blocks_columns); [|reflexivity|apply ordered_in].
Qed.

(** *** A lake with a process, and a body that is not a block *)
Module ServiceExample.
#[export] Existing Instances block_cbor payload_cbor stream_cbor process_cbor udts_cbor
  rfc3339 timestamptz uuid_text object_path sql_order sql_order_lawful.
Definition constant_cbor {T} (x : T) : Cbor T := {| encode_cbor _ := Ok []; from_reader _ := Ok x |}.
#[export] Instance parquet : Parquet := fun batch =>
  Ok (map (fun c => byte.of_Z (Z.of_nat (length (a_values c)))) (rb_columns batch)).
#[export] Instance find_cbor : Cbor FindProcessRequest := constant_cbor (mkFindProcessRequest 7).
#[export] Instance processes_cbor : Cbor QueryProcessesRequest :=
  constant_cbor (mkQueryProcessesRequest 10 (to_rfc3339 0) (to_rfc3339 100)).
#[export] Instance streams_cbor : Cbor QueryStreamsRequest :=
  constant_cbor (mkQueryStreamsRequest 5 None None (Some "log") (Some 7)).
#[export] Instance blocks_cbor : Cbor QueryBlocksRequest := constant_cbor (mkQueryBlocksRequest 9).
Definition db : Db :=
  match migrate_db ∅ with Ok db => db | _ => ∅ end.
Definition calls : list ingestion_call :=
  [PostProcess 1000 (encoded LakeExample.process); PostBlock [byte.of_Z 1];
   PostStream 2000 (encoded LakeExample.stream)].
Definition lake : DataLakeConnection :=
  foldl (ingest map_to_list) (mkDataLakeConnection db (mkBlobStorage ∅ "root")) calls.
End ServiceExample.
Import ServiceExample.

Lemma service_answers_witness :
  exists batch,
    answer lake stream_select "streams"
      (fun r => holds "process_id" OpEq (VUuid 7) r && holds_tag "tags" (VText "log") r)
      (fun l => firstn 5 (order_by (time_key "insert_time") l)) batch /\
    service_query_streams lake [] = write_parquet batch.
Proof.
  assert (migrated db) as Hm by (unfold db; by destruct migrate_empty as (d & -> & Hd)).
  destruct (service_answers map_to_list db "root" calls Hm) as (_ & _ & Hs & _).
  exact (Hs [] (mkQueryStreamsRequest 5 None None (Some "log") (Some 7)) None None
    eq_refl eq_refl I I ltac:(done)).
Defined.
