(* ===== verification/Delivery.v ===== *)
(** * From the process to the lake

    The parts put together: a process whose dispatcher sends to the ingestion
    server, the thread of the sink that posts what the process recorded, the
    router of the server ([telemetry-ingestion-srv/src/main.rs]) and the lake
    it writes: the blocks of a stream of the process, with the rows that they
    hold, are those that a query finds. *)

From Stdlib Require Import Sorting.Sorted.
From stdpp Require Import sorting.
From S2P Require Import Prelude RustString Float Transit Queue Pod Parser PodParser Blocks.
From S2P Require Import Levels LogFilter Deps LogEvents LogBlock Time Stream Wire LogEntry.
From S2P Require Import MetricsBlock Measure SpanEvents ThreadBlock ThreadBlockProcessor.
From S2P Require Import CallTree.
From S2P Require Import Sink SinkSpec Dispatch StreamSpec DispatchSpec Guards GuardsSpec.
From S2P Require Import HttpSink DispatchFrame HttpSpec.
From S2P Require Import Arrow Tables Sql Lake Metadata LakeSpec Codecs Query QuerySpec.

(** ** The ingestion server *)
Section server.
Context `{Cbor Block} `{Cbor BlockPayload} `{Cbor StreamInfo} `{Cbor ProcessInfo}.
Context `{Cbor (list UserDefinedType)} `{Rfc3339} `{Timestamptz} `{UuidText} `{ObjectPath}.
Context (iter_map : gmap string string -> list (string * string)).

(** The server at the address [addr], with its clock: [now n] is the time of the
    request [n].  The requests are handled one after the other. *)
Record Server := mkServer { sv_requests : nat; sv_lake : DataLakeConnection }.
(** [RequestBodyLimitLayer] answers a longer body itself, with 413. *)
Definition body_limit : Z := 100 * 1024 * 1024.
Definition ingestion_route (path : string) (now : DateTime) (service : DataLakeConnection)
    (body : buffer) : DataLakeConnection :=
  if body_limit <? blen body then service
  else if String.eqb path "/ingestion/insert_process" then insert_process_request iter_map now service body
  else if String.eqb path "/ingestion/insert_stream" then insert_stream_request iter_map now service body
  else if String.eqb path "/ingestion/insert_block" then insert_block_request service body
  else service.
Fixpoint strip_prefix (prefix s : string) : option string :=
  match prefix, s with
  | EmptyString, _ => Some s
  | String c prefix, String c' s => if Ascii.eqb c c' then strip_prefix prefix s else None
  | String _ _, EmptyString => None
  end.
Definition ingestion_server (addr : string) (now : nat -> DateTime) (request : Request) (sv : Server)
  : Server :=
  match strip_prefix addr (rq_url request) with
  | Some path =>
      mkServer (S (sv_requests sv))
        (ingestion_route path (now (sv_requests sv)) (sv_lake sv) (rq_body request))
  | None => sv
  end.

Lemma strip_prefix_append a s : strip_prefix a (String.append a s) = Some s.
Proof.
  induction a as [|c a IH]; [done|].
  change (String.append (String c a) s) with (String c (String.append a s)). cbn [strip_prefix].
  by rewrite Ascii.eqb_refl.
Qed.
End server.

(** ** Encoded blocks *)
Section blocks.
Context `{Compression} `{Rfc3339}.

(** An encoded block, and what it says of the block of the stream *)
Lemma encode_block_inv extract v b p x :
  encode_block extract v b p = Ok x ->
  exists e deps, eb_end b = Some e /\ extract (eb_events b) = Ok deps /\
    in_i 64 (dt_ticks (eb_begin b) - start_ticks p) /\ in_i 64 (dt_ticks e - start_ticks p) /\
    bk_block_id x = v /\ bk_stream_id x = eb_stream_id b /\ bk_process_id x = eb_process_id b /\
    bk_begin_time x = to_rfc3339 (dt_time (eb_begin b)) /\ bk_end_time x = to_rfc3339 (dt_time e) /\
    bk_begin_ticks x = dt_ticks (eb_begin b) - start_ticks p /\
    bk_end_ticks x = dt_ticks e - start_ticks p /\ block_in_range x.
Proof.
  unfold encode_block. destruct (eb_end b) as [e|]; [|discriminate]. cbn [unwrap mbind exec_bind].
  destruct (extract (eb_events b)) as [deps| | | |]; cbn [mbind exec_bind]; try discriminate.
  destruct (compress (as_bytes deps)) as [c1| | | |]; cbn [mbind exec_bind]; try discriminate.
  destruct (compress (as_bytes (eb_events b))) as [c2| | | |]; cbn [mbind exec_bind]; try discriminate.
  destruct (i64_checked (dt_ticks (eb_begin b) - _)) as [t1| | | |] eqn:E1; cbn [mbind exec_bind]; try discriminate.
  destruct (i64_checked (dt_ticks e - _)) as [t2| | | |] eqn:E2; cbn [mbind exec_bind]; try discriminate.
  apply i64_checked_Ok in E1 as [-> R1]. apply i64_checked_Ok in E2 as [-> R2].
  intros E. apply (f_equal (fun r => match r with Ok y => y | _ => x end)) in E. subst x.
  exists e, deps. split_and!; try done. unfold block_in_range. cbn.
  split_and!; [done..| |]; apply wrap_i_range; lia.
Qed.

Lemma encode_block_offset extract v b p x :
  encode_block extract v b p = Ok x -> bk_object_offset x = wrap_i 64 (eb_event_offset b).
Proof.
  unfold encode_block. destruct (eb_end b) as [e|]; [|discriminate]. cbn [unwrap mbind exec_bind].
  destruct (extract (eb_events b)) as [deps| | | |]; cbn [mbind exec_bind]; try discriminate.
  destruct (compress (as_bytes deps)) as [c1| | | |]; cbn [mbind exec_bind]; try discriminate.
  destruct (compress (as_bytes (eb_events b))) as [c2| | | |]; cbn [mbind exec_bind]; try discriminate.
  destruct (i64_checked (dt_ticks (eb_begin b) - _)) as [t1| | | |]; cbn [mbind exec_bind]; try discriminate.
  destruct (i64_checked (dt_ticks e - _)) as [t2| | | |]; cbn [mbind exec_bind]; try discriminate.
  intros E. by apply (f_equal (fun r => match r with Ok y => y | _ => x end)) in E as <-.
Qed.
End blocks.

(** ** The requests of the messages of the sink *)
Definition block_of (m : SinkEvent) : option EventBlock :=
  match m with
  | ProcessLogBlock b | ProcessMetricsBlock b | ProcessThreadBlock b => Some b
  | _ => None
  end.
Definition log_block_of (m : SinkEvent) : option EventBlock :=
  match m with ProcessLogBlock b => Some b | _ => None end.
Definition metrics_block_of (m : SinkEvent) : option EventBlock :=
  match m with ProcessMetricsBlock b => Some b | _ => None end.
Definition thread_block_of (sid : Uuid) (m : SinkEvent) : option EventBlock :=
  match m with ProcessThreadBlock b => if eb_stream_id b =? sid then Some b else None | _ => None end.

Section requests.
Context `{HA : LawfulAbi} `{Compression} `{LawfulRfc3339} `{HB : LawfulCbors}.
Context `{Timestamptz} `{UuidText} `{ObjectPath}.
Context (st : statics) (its : nat -> Iteration) (now : nat -> DateTime).

Definition block_message (p : ProcessInfo) (n : nat) (m : SinkEvent) : option (exec Block) :=
  let encode extract b := Some (encode_block extract (it_new_v4 (its n)) b p) in
  match m with
  | ProcessLogBlock b => encode (extract_logs st) b
  | ProcessMetricsBlock b => encode (extract_metrics st) b
  | ProcessThreadBlock b => encode (extract_thread st) b
  | _ => None
  end.

(** The request of the message [n], of a sink that knows the process *)
Definition request_of (p : ProcessInfo) (n : nat) (m : SinkEvent) : list request :=
  match m with
  | Startup_ p => [ReqProcess p (now n)]
  | InitStream s => [ReqStream s (now n)]
  | _ => match block_message p n m with Some (Ok b) => [ReqBlock b] | _ => [] end
  end.
Fixpoint requests (p : ProcessInfo) (n : nat) (ms : list SinkEvent) : list request :=
  match ms with
  | [] => []
  | m :: ms => request_of p n m ++ requests p (S n) ms
  end.

(** A message that is not the start of a process *)
Definition after_start (m : SinkEvent) : Prop := match m with Startup_ _ => False | _ => True end.
Lemma known_after p m : after_start m -> known (Some p) m = Some p.
Proof. by destruct m. Qed.

(** The server takes the bodies of the messages. *)
Fixpoint within_limit (p : ProcessInfo) (n : nat) (ms : list SinkEvent) : Prop :=
  match ms with
  | [] => True
  | m :: ms =>
      match message_request st (Some p) (it_new_v4 (its n)) m with
      | Some (_, Ok body) => blen body <= body_limit
      | _ => True
      end /\ within_limit p (S n) ms
  end.

(** What the thread posts is what the server is sent. *)
Lemma deliver_requests iter_map addr p n ms sv :
  encodable st its n (Some p) ms -> within_limit p n ms -> Forall after_start ms -> sv_requests sv = n ->
  sv_lake (deliver (ingestion_server iter_map addr now) addr st its n (Some p) ms sv) =
  foldl (serve iter_map) (sv_lake sv) (requests p n ms).
Proof.
  revert n sv. induction ms as [|m ms IH]; intros n sv He Hb Ha Hn; [done|].
  cbn [deliver encodable requests within_limit] in *. inversion_clear Ha as [|? ? Hm Hms].
  rewrite known_after in * by done. destruct He as [(path & body & E) He]. destruct Hb as [Hb1 Hb].
  rewrite E in Hb1. apply Z.ltb_ge in Hb1 as Hlim. rewrite foldl_app, E. set (sv' := ingestion_server _ _ _ _ sv).
  assert (sv_requests sv' = S n /\
    sv_lake sv' = foldl (serve iter_map) (sv_lake sv) (request_of p n m)) as [En El].
  { unfold sv', ingestion_server. cbn [rq_url rq_body]. rewrite strip_prefix_append. rewrite Hn.
    split; [done|]. cbn [sv_lake]. destruct m as [p'|s|b|b|b]; [done|..];
      cbn [message_request request_of block_message foldl serve] in *;
      injection E as <- E; unfold ingestion_route; rewrite Hlim; cbn [String.eqb Ascii.eqb Bool.eqb].
    1: by unfold encoded; rewrite E.
    all: unfold encode_bin in E; destruct (encode_block _ _ _ _) as [x| | | |]; try discriminate E;
      cbn [mbind exec_bind foldl serve] in *; unfold encoded; by rewrite E. }
  rewrite <- El. by apply IH.
Qed.

(** *** What the lake receives *)
Definition announced_stream (m : SinkEvent) : option StreamInfo :=
  match m with InitStream s => Some (received_stream s) | _ => None end.
Definition sent_as (b : Block) : BlockMetadata * BlockPayload :=
  (stored_block b (parsed_time (bk_begin_time b)) (parsed_time (bk_end_time b))
     (blen (encoded (bk_payload b))), bk_payload b).
Fixpoint received_blocks (p : ProcessInfo) (n : nat) (ms : list SinkEvent) : list (BlockMetadata * BlockPayload) :=
  match ms with
  | [] => []
  | m :: ms =>
      match block_message p n m with Some (Ok b) => [sent_as b] | _ => [] end
      ++ received_blocks p (S n) ms
  end.

Lemma receive_requests p n ms a :
  Forall after_start ms ->
  foldl receive a (requests p n ms) =
  mkAbstract (al_processes a) (al_streams a ++ omap announced_stream ms)
    (al_blocks a ++ received_blocks p n ms).
Proof.
  revert n a. induction ms as [|m ms IH]; intros n a Ha.
  { cbn. rewrite !app_nil_r. by destruct a. }
  inversion_clear Ha as [|? ? Hm Hms]. cbn [requests received_blocks omap list_omap].
  rewrite foldl_app, IH by done. destruct m as [p'|s|b|b|b]; [done|..]; cbn [request_of block_message announced_stream].
  { cbn. by rewrite <- app_assoc. }
  all: destruct (encode_block _ _ _ _) as [x| | | |]; cbn; by rewrite <- ?app_assoc.
Qed.

End requests.

(** ** The requests are well formed *)
Section well_formed.
Context `{HA : LawfulAbi} `{HC : LawfulCompression} `{HR : LawfulRfc3339} `{HB : LawfulCbors}.
Context `{Timestamptz} `{UuidText} `{ObjectPath}.
Context (st : statics) (its : nat -> Iteration).

Lemma block_message_inv p n m x :
  block_message st its p n m = Some (Ok x) ->
  exists extract b, block_of m = Some b /\
    encode_block extract (it_new_v4 (its n)) b p = Ok x.
Proof.
  destruct m as [p'|s|b|b|b]; cbn [block_message]; try discriminate; intros E;
    (eexists _, b; split; [done|by apply (f_equal (fun o => from_option id Panic o)) in E]).
Qed.

(** A message that can be sent has a block that can be encoded. *)
Lemma request_block p n m path body r :
  message_request st (Some p) (it_new_v4 (its n)) m = Some (path, Ok body) ->
  block_message st its p n m = Some r -> exists x, r = Ok x.
Proof.
  intros Er Em. destruct m as [p'|s|b|b|b]; try discriminate Em; cbn [message_request block_message] in *;
    apply (f_equal (from_option id Panic)) in Em; cbn [from_option id] in Em; subst r;
    injection Er as _ Er; unfold encode_bin in Er; destruct (encode_block _ _ b p) as [x| | | |];
    try discriminate Er; by exists x.
Qed.

Context (now : nat -> DateTime).
(** A body is never empty, and a buffer is shorter than 2^63 bytes. *)
Context (Hbody : forall b : Block, encoded b <> []).
Definition payloads_fit (p : ProcessInfo) : nat -> list SinkEvent -> Prop :=
  fix go n ms :=
    match ms with
    | [] => True
    | m :: ms =>
        match block_message st its p n m with
        | Some (Ok b) => blen (encoded (bk_payload b)) < 2 ^ 63
        | _ => True
        end /\ go (S n) ms
    end.
(** The thread draws new identifiers. *)
Context (Hids : forall i j, it_new_v4 (its i) = it_new_v4 (its j) -> i = j).

Lemma posts_well_formed p n ms a :
  Forall after_start ms -> payloads_fit p n ms -> Forall stream_fits (omap announced_stream ms) ->
  (forall x, In x (al_blocks a) -> exists j, (j < n)%nat /\ bm_block_id x.1 = it_new_v4 (its j)) ->
  all_well_formed a (requests st its now p n ms).
Proof.
  revert n a. induction ms as [|m ms IH]; intros n a Ha Hp Hs Hb; [done|].
  inversion_clear Ha as [|? ? Hm Hms]. destruct Hp as [Hpm Hp]. cbn [requests].
  destruct m as [p'|s|b|b|b]; [done|cbn [request_of app all_well_formed]|..].
  { inversion_clear Hs as [|? ? Hs1 Hs2]. split; [exact Hs1|]. apply IH; [done|done|done|]. intros x Hx. destruct (Hb x Hx) as (j & Hj & E). exists j. split; [lia|done]. }
  all: cbn [request_of]; destruct (block_message st its p n _) as [[x| | | |]|] eqn:Em;
    cbn [app all_well_formed];
    try (apply IH; [done|done|done|]; intros x' Hx; destruct (Hb x' Hx) as (j & Hj & E); exists j; split; [lia|done]).
  all: apply block_message_inv in Em as (extract & b' & _ & E);
    apply encode_block_inv in E as (e & deps & _ & _ & _ & _ & Eid & _ & _ & Eb & Ee & _ & _ & Hr).
  all: split; [|apply IH; [done|done|done|]; intros x' Hx; cbn [receive al_blocks] in Hx;
    apply in_app_or in Hx as [Hx|[<-|[]]];
    [destruct (Hb x' Hx) as (j & Hj & E); exists j; split; [lia|done]|exists n; split; [lia|exact Eid]]].
  all: split_and!; [done|done|done|rewrite Eb, rfc3339_round_trip; by eexists
    |rewrite Ee, rfc3339_round_trip; by eexists|].
  all: intros x' Hx _ _ E; destruct (Hb x' Hx) as (j & Hj & E'); rewrite E', Eid in E;
    apply Hids in E; lia.
Qed.
End well_formed.

(** ** The blocks of the lake, and the rows that they hold *)
Section rows.
Context `{HA : LawfulAbi} `{HC : LawfulCompression} `{HR : LawfulRfc3339} `{HB : LawfulCbors}.
Context `{Timestamptz} `{UuidText} `{ObjectPath}.
Context (st : statics) (its : nat -> Iteration) (p : ProcessInfo).
Context (Hids : forall i j, it_new_v4 (its i) = it_new_v4 (its j) -> i = j).
(** A stream: its identifier, its blocks among the messages, and how its
    dependencies are extracted *)
Context {E : Type} (id : Uuid) (pick : SinkEvent -> option EventBlock) (extract : Queue -> exec Queue).
Hypothesis Hpick : forall n m b, pick m = Some b ->
  block_of m = Some b /\ block_message st its p n m = Some (encode_block extract (it_new_v4 (its n)) b p).

Definition item : Type := (BlockMetadata * BlockPayload) * list E.
Definition of_stream (it : item) : bool := bm_stream_id it.1.1 =? id.

(** The blocks that are received, with the rows of those of the stream *)
Fixpoint items (n : nat) (ms : list SinkEvent) (bes : list (EventBlock * list E)) : list item :=
  match ms with
  | [] => []
  | m :: ms =>
      match block_message st its p n m, pick m, bes with
      | Some (Ok x), Some _, be :: bes => (sent_as x, be.2) :: items (S n) ms bes
      | Some (Ok x), _, _ => (sent_as x, []) :: items (S n) ms bes
      | _, _, _ => items (S n) ms bes
      end
  end.
Definition item_of (it : item) (be : EventBlock * list E) : Prop :=
  exists n x, encode_block extract (it_new_v4 (its n)) be.1 p = Ok x /\ it = (sent_as x, be.2).

Lemma items_received n ms bes : map fst (items n ms bes) = received_blocks st its p n ms.
Proof.
  revert n bes. induction ms as [|m ms IH]; intros n bes; [done|]. cbn [items received_blocks].
  destruct (block_message st its p n m) as [[x| | | |]|]; try apply IH.
  destruct (pick m), bes; cbn [map fst app]; by rewrite IH.
Qed.

Lemma items_ids n ms bes it :
  In it (items n ms bes) -> exists j, (n <= j)%nat /\ bm_block_id it.1.1 = it_new_v4 (its j).
Proof.
  revert n bes. induction ms as [|m ms IH]; intros n bes; [done|]. cbn [items].
  assert (forall bes, In it (items (S n) ms bes) ->
    exists j, (n <= j)%nat /\ bm_block_id it.1.1 = it_new_v4 (its j)) as Hrec.
  { intros bes' Hi. destruct (IH _ _ Hi) as (j & Hj & E'). exists j. split; [lia|done]. }
  destruct (block_message st its p n m) as [[x| | | |]|] eqn:Em; try apply Hrec.
  apply block_message_inv in Em as (ex & b & _ & E').
  apply encode_block_inv in E' as (e & deps & _ & _ & _ & _ & Eid & _).
  assert (forall bes (es : list E), In it ((sent_as x, es) :: items (S n) ms bes) ->
    exists j, (n <= j)%nat /\ bm_block_id it.1.1 = it_new_v4 (its j)) as Hc.
  { intros bes' es [<-|Hi]; [|by eapply Hrec]. exists n. split; [lia|exact Eid]. }
  destruct (pick m), bes; apply Hc.
Qed.

Lemma items_nodup n ms bes : NoDup (map (fun it : item => bm_block_id it.1.1) (items n ms bes)).
Proof.
  revert n bes. induction ms as [|m ms IH]; intros n bes; [constructor|]. cbn [items].
  destruct (block_message st its p n m) as [[x| | | |]|] eqn:Em; try apply IH.
  apply block_message_inv in Em as (ex & b & _ & E').
  apply encode_block_inv in E' as (e & deps & _ & _ & _ & _ & Eid & _).
  assert (forall bes (es : list E), NoDup (map (fun it : item => bm_block_id it.1.1)
    ((sent_as x, es) :: items (S n) ms bes))) as Hc.
  { intros bes' es. constructor; [|apply IH]. intros Hin. apply list_elem_of_In, in_map_iff in Hin as (it & E1 & Hi).
    apply items_ids in Hi as (j & Hj & E2). cbn [fst] in E1. rewrite E2 in E1.
    change (it_new_v4 (its j) = bk_block_id x) in E1. rewrite Eid in E1. apply Hids in E1. lia. }
  destruct (pick m), bes; apply Hc.
Qed.

(** The blocks of the stream, in order; the others hold no rows. *)
Lemma items_of_stream n ms bes :
  encodable st its n (Some p) ms -> Forall after_start ms ->
  map fst bes = omap pick ms ->
  (forall b, In b (omap pick ms) -> eb_stream_id b = id) ->
  (forall m b, In m ms -> pick m = None -> block_of m = Some b -> eb_stream_id b <> id) ->
  Forall2 item_of (List.filter of_stream (items n ms bes)) bes /\
  Forall (fun it => of_stream it = false -> it.2 = []) (items n ms bes).
Proof.
  revert n bes. induction ms as [|m ms IH]; intros n bes He Ha Hb Hl Ho.
  { destruct bes; [by split|discriminate]. }
  inversion_clear Ha as [|? ? Hm Hms]. cbn [encodable] in He. rewrite known_after in He by done.
  destruct He as [(path & body & Er) He]. cbn [items omap list_omap] in *.
  assert (forall bes, map fst bes = omap pick ms ->
    Forall2 item_of (List.filter of_stream (items (S n) ms bes)) bes /\
    Forall (fun it => of_stream it = false -> it.2 = []) (items (S n) ms bes)) as Hrec.
  { intros bes' Hb'. apply IH; [done|done|done| |].
    - intros b Hi. apply Hl. destruct (pick m); [by right|done].
    - intros m' b Hi. apply Ho. by right. }
  destruct (pick m) as [b|] eqn:Ep.
  - destruct (Hpick n m b Ep) as [_ Em]. rewrite Em.
    destruct (request_block st its p n m path body _ Er Em) as [x Ex]. rewrite Ex.
    destruct bes as [|be bes]; [discriminate Hb|]. injection Hb as Hb1 Hb. destruct (Hrec bes Hb) as [Hx1 Hx2].
    pose proof (encode_block_inv _ _ _ _ _ Ex) as (e & deps & _ & _ & _ & _ & Eid & Est & _).
    assert (of_stream (sent_as x, be.2) = true) as Hof.
    { unfold of_stream. cbn. rewrite Est. apply Z.eqb_eq, Hl. by left. }
    cbn [List.filter]. rewrite Hof. split; [constructor; [|done]|constructor; [|done]].
    + exists n, x. by rewrite Hb1.
    + by rewrite Hof.
  - destruct (Hrec bes Hb) as [Hx1 Hx2].
    destruct (block_message st its p n m) as [[x| | | |]|] eqn:Em; try done.
    apply block_message_inv in Em as (ex & b & Hbm & Ex).
    pose proof (encode_block_inv _ _ _ _ _ Ex) as (e & deps & _ & _ & _ & _ & Eid & Est & _).
    assert (of_stream (sent_as x, []) = false) as Hof.
    { unfold of_stream. cbn. rewrite Est. apply Z.eqb_neq. apply (Ho m); [by left|done|done]. }
    cbn [List.filter]. rewrite Hof. split; [done|by constructor].
Qed.

(** What the metadata of a block of the stream says *)
Lemma item_of_inv it be :
  item_of it be ->
  it.2 = be.2 /\ bm_stream_id it.1.1 = eb_stream_id be.1 /\ bm_process_id it.1.1 = eb_process_id be.1 /\
  bm_begin_ticks it.1.1 = dt_ticks (eb_begin be.1) - start_ticks p /\
  (exists e, eb_end be.1 = Some e /\ bm_end_ticks it.1.1 = dt_ticks e - start_ticks p) /\
  exists v x, encode_block extract v be.1 p = Ok x /\ it.1.2 = bk_payload x.
Proof.
  intros (n & x & Ex & ->). pose proof (encode_block_inv _ _ _ _ _ Ex)
    as (e & deps & Ee & _ & _ & _ & _ & Est & Epr & _ & _ & Ebt & Eet & _).
  split; [done|]. split; [exact Est|]. split; [exact Epr|]. split; [exact Ebt|].
  split; [by exists e|]. by exists (it_new_v4 (its n)), x.
Qed.
Lemma items_sorted l bes :
  Forall2 item_of l bes ->
  StronglySorted (fun x y => dt_ticks (eb_begin x) < dt_ticks (eb_begin y)) (map fst bes) ->
  StronglySorted (fun x y => bm_begin_ticks x < bm_begin_ticks y) (map (fun it : item => it.1.1) l).
Proof.
  induction 1 as [|it be l bes Hit Hl IH]; [constructor|]. cbn [map]. intros Hs.
  inversion_clear Hs as [|? ? Hs1 Hx]. constructor; [by apply IH|].
  apply item_of_inv in Hit as (_ & _ & _ & Eb & _). clear IH Hs1.
  induction Hl as [|it' be' l bes Hit' _ IHl]; [constructor|]. cbn [map] in *.
  inversion_clear Hx as [|? ? Hx1 Hx2]. constructor; [|by apply IHl].
  apply item_of_inv in Hit' as (_ & _ & _ & Eb' & _). rewrite Eb, Eb'. lia.
Qed.
Lemma items_rows l bes : Forall2 item_of l bes -> map snd l = map snd bes.
Proof.
  induction 1 as [|it be l bes Hit _ IH]; [done|]. cbn [map]. apply item_of_inv in Hit as (Er & _).
  by rewrite Er, IH.
Qed.
Lemma items_in l bes it :
  Forall2 item_of l bes -> In it l -> exists be, In be bes /\ item_of it be.
Proof.
  induction 1 as [|it' be l bes Hit _ IH]; [by intros []|]. intros [->|Hi].
  - exists be. split; [by left|done].
  - destruct (IH Hi) as (be' & Hb & Er). exists be'. split; [by right|done].
Qed.

(** The rows of a block *)
Definition rows_in (l : list item) (m : BlockMetadata) : list E :=
  match List.find (fun it => bm_block_id it.1.1 =? bm_block_id m) l with Some it => it.2 | None => [] end.
Lemma rows_in_item l it :
  NoDup (map (fun it : item => bm_block_id it.1.1) l) -> In it l -> rows_in l it.1.1 = it.2.
Proof.
  unfold rows_in. induction l as [|x l IH]; [done|]. intros Hnd [->|Hi]; cbn [List.find].
  { by rewrite Z.eqb_refl. }
  cbn [map] in Hnd. apply list.NoDup_cons in Hnd as [Hx Hnd].
  destruct (Z.eqb_spec (bm_block_id x.1.1) (bm_block_id it.1.1)) as [Ei|Ei]; [|by apply IH].
  exfalso. apply Hx, list_elem_of_In, in_map_iff. by exists it.
Qed.
Lemma rows_of_items l l' :
  NoDup (map (fun it : item => bm_block_id it.1.1) l) -> incl l' l ->
  map (rows_in l) (map (fun it : item => it.1.1) l') = map snd l'.
Proof.
  intros Hnd Hi. rewrite map_map. apply map_ext_in. intros it Hin. by apply rows_in_item, Hi.
Qed.
Lemma concat_items l :
  Forall (fun it => of_stream it = false -> it.2 = []) l ->
  concat (map snd (List.filter of_stream l)) = concat (map snd l).
Proof.
  induction 1 as [|it l Hit _ IH]; [done|]. cbn [List.filter map concat].
  destruct (of_stream it) eqn:Eof; cbn [map concat]; rewrite IH; [done|]. by rewrite Hit.
Qed.
End rows.

Lemma filter_map_of {A B} (q : B -> bool) (f : A -> B) l :
  List.filter q (map f l) = map f (List.filter (fun x => q (f x)) l).
Proof. induction l as [|x l IH]; [done|]. cbn. rewrite IH. by destruct (q (f x)). Qed.

(** A list in strict order of a key is the only one in the order of the key. *)
Lemma sorted_unique {A} (key : A -> Z) (l l' : list A) :
  l ≡ₚ l' -> Sorted (fun x y => key x <= key y) l -> StronglySorted (fun x y => key x < key y) l' -> l = l'.
Proof.
  intros Hp Hs. apply Sorted_StronglySorted in Hs; [|intros x y z; lia]. revert l Hp Hs.
  induction l' as [|x' l' IH]; intros l Hp Hs Hs'; [by apply Permutation_nil_r|].
  destruct l as [|x l]; [by apply Permutation_nil_cons in Hp|].
  inversion_clear Hs as [|? ? Hs1 Hx]. inversion_clear Hs' as [|? ? Hs1' Hx'].
  assert (x = x') as ->.
  { assert (In x (x' :: l')) as [E|Hi] by (rewrite <- Hp; by left); [done|].
    assert (In x' (x :: l)) as [E|Hi'] by (rewrite Hp; by left); [done|].
    rewrite List.Forall_forall in Hx, Hx'. specialize (Hx x' Hi'). specialize (Hx' x Hi). lia. }
  f_equal. apply IH; [|done|done]. by apply Permutation_cons_inv in Hp.
Qed.

Lemma sent_blocks_ids {Any} `{EventKind Any} size pid sid offset chunks blocks b :
  sent_blocks size pid sid offset chunks blocks -> In b blocks -> eb_stream_id b = sid.
Proof.
  revert offset blocks. induction chunks as [|ch chs IH]; intros offset [|b' blocks]; try done.
  cbn. intros [(_ & _ & _ & _ & _ & E & _) Hbs] [->|Hi]; [done|by eapply IH].
Qed.

(** ** The process *)
Section process.
Context `{HA : LawfulAbi} `{Alloc} `{UuidText} `{UuidParse}.
Context (into_iter : gmap string UserDefinedType -> list (string * UserDefinedType)).
#[local] Instance posting_sink : EventSink HttpEventSink := HttpEventSink_EventSink into_iter.
#[local] Instance posting_lawful : LawfulSink HttpEventSink SinkEvent := http_lawful into_iter.
#[local] Existing Instance counted_preorder.
Implicit Type w : World HttpEventSink.

Definition greeted (w : World HttpEventSink) (su : Startup) : ProcessInfo :=
  make_process_info (su_machine su) (su_start su) (su_process_id su)
    match w_parent_process w with Some s => try_parse s | None => None end.

(** What the process does to the channel: it sends, and the counter counts. *)
Lemma run_counted cmds w w' evs :
  run w cmds = Ok (w', evs) -> counted (w_sink w) (w_sink w').
Proof.
  revert w evs. induction cmds as [|cmd cmds IH]; intros w evs; cbn [run].
  { intros E. apply (f_equal (fun r => match r with Ok (x, _) => x | _ => w end)) in E. by subst w'. }
  destruct (exec_command cmd w) as [w1| | | |] eqn:E1; cbn [mbind exec_bind]; try discriminate.
  destruct (run w1 cmds) as [[w2 evs2]| | | |] eqn:E2; cbn [mbind exec_bind]; try discriminate.
  intros E. apply (f_equal (fun r => match r with Ok (x, _) => x | _ => w end)) in E. subst w'.
  apply (command_moving counted (counted_notify into_iter) (counted_log into_iter)) in E1.
  etransitivity; [exact E1|by eapply IH].
Qed.

Lemma start_counted su lsz msz tsz w w1 :
  Dispatch_new su lsz msz tsz w = Ok w1 -> counted (w_sink w) (w_sink w1).
Proof.
  unfold Dispatch_new. destruct (EventStream_new _ _ lsz _ _ _) as [ls| | | |]; cbn [mbind exec_bind]; try discriminate.
  destruct (EventStream_new _ _ msz _ _ _) as [ms| | | |]; cbn [mbind exec_bind]; try discriminate.
  intros E. apply (f_equal (fun r => match r with Ok x => x | _ => w end)) in E. subst w1.
  set (d := mkDispatch _ _ _ _ _ _ _ _).
  etransitivity; [apply (counted_notify into_iter (Started (greeted w su)))|].
  etransitivity; [apply (counted_notify into_iter (LogStream ls))|].
  apply (counted_notify into_iter (MetricsStream ms)).
Qed.

Lemma shutdown_counted c w w' : shutdown_telemetry c w = Ok w' -> counted (w_sink w) (w_sink w').
Proof.
  unfold shutdown_telemetry.
  destruct (flush_log_buffer c w) as [w1| | | |] eqn:E1; cbn [mbind exec_bind]; try discriminate.
  destruct (flush_metrics_buffer c w1) as [w2| | | |] eqn:E2; cbn [mbind exec_bind]; try discriminate.
  intros E. apply (f_equal (fun r => match r with Ok x => x | _ => w end)) in E. subst w'.
  apply (flush_log_buffer_moving counted (counted_notify into_iter)) in E1.
  apply (flush_metrics_buffer_moving counted (counted_notify into_iter)) in E2.
  etransitivity; [exact E1|]. etransitivity; [exact E2|]. unfold shutdown_dispatch.
  destruct (w_dispatch w2) as [d|]; [|reflexivity]. unfold Dispatch_shutdown, call_sink.
  by destruct (d_sink d).
Qed.

(** The messages that wait when a process is shut down: the process, its two
    streams, then streams of threads and blocks *)
Lemma messages_of_process su lsz msz tsz w w1 w2 cmds evs c :
  big_enough (startup_config su lsz msz tsz) -> w_sink w = HttpEventSink_new ->
  w_thread_streams w = ∅ -> Dispatch_new su lsz msz tsz w = Ok w1 ->
  run_ok w1 cmds -> Z.of_nat (length cmds) < 2 ^ 64 -> NoDup (drawn cmds) ->
  (existsb is_exit cmds = true -> existsb is_set_full cmds = false) ->
  run w1 cmds = Ok (w2, evs) ->
  exists w3 ls ms ns, shutdown_telemetry c w2 = Ok w3 /\
    he_received (w_sink w3) = 0%nat /\
    (Z.of_nat (length (he_sent (w_sink w3))) < 2 ^ 63 ->
     he_queue_size (w_sink w3) = Z.of_nat (length (he_sent (w_sink w3)))) /\
    he_sent (w_sink w3) = map (message_of into_iter) (Started (greeted w su) :: LogStream ls :: MetricsStream ms :: ns) /\
    stream_id ls = su_log_stream_id su /\ stream_process_id ls = su_process_id su /\
    stream_id ms = su_metrics_stream_id su /\ stream_process_id ms = su_process_id su /\
    (exists chunks, concat chunks = logs_of evs /\
       sent_blocks lsz (su_process_id su) (su_log_stream_id su) 0 chunks (log_blocks ns)) /\
    (exists chunks, concat chunks = metrics_of evs /\
       sent_blocks msz (su_process_id su) (su_metrics_stream_id su) 0 chunks (metrics_blocks ns)) /\
    (forall b, In (ThreadBlock_ b) ns -> eb_stream_id b ∈ drawn cmds) /\
    NoDup (thread_ids ns) /\ (forall i, i ∈ thread_ids ns -> i ∈ drawn cmds) /\
    Forall (fun n => is_greeting n = false) ns /\
    (forall t s, w_thread_streams w2 !! t = Some s -> is_empty s = true ->
     (exists s0, In (ThreadStream s0) ns /\ stream_id s0 = stream_id s /\
        stream_process_id s0 = su_process_id su) /\
     exists chunks, concat chunks = thread_of t evs /\
       sent_blocks tsz (su_process_id su) (stream_id s) 0 chunks (thread_blocks (stream_id s) ns)).
Proof.
  intros Hbig Hsink Hts Hnew Hok Hl Hnd Hx Hrun.
  assert (is_open (w_sink w)) as Ho by (by rewrite Hsink).
  destruct (dispatch_new_ok su lsz msz tsz w Hbig Ho Hts) as (w1' & d' & E & Hd' & Eid & Eid2 & _).
  rewrite Hnew in E. apply (f_equal (fun r => match r with Ok x => x | _ => w1' end)) in E. subst w1'.
  destruct (run_and_shutdown su lsz msz tsz w w1 w2 cmds evs c Hbig Ho Hts Hnew Hok Hl Hnd Hx Hrun)
    as (d & w3 & s & ns & Hd & Hsd & Hs & _ & Hsent & Hlog & Hm & Hb & (A1 & A2 & A3 & A4) & Hth).
  assert (d' = d) as -> by (rewrite Hd in Hd'; by apply (f_equal (from_option id d')) in Hd').
  exists w3, (d_log_stream d), (d_metrics_stream d), ns. split; [done|].
  pose proof (start_counted _ _ _ _ _ _ Hnew) as C1. pose proof (run_counted _ _ _ _ Hrun) as C2.
  pose proof (shutdown_counted _ _ _ Hsd) as C3.
  assert (counted (w_sink w) (w_sink w3)) as (_ & _ & Er & _ & Hq) by
    (etransitivity; [exact C1|]; etransitivity; [exact C2|exact C3]).
  rewrite Hsink in Er, Hq. split; [exact Er|]. split.
  { intros Hlen. destruct (Hq 0) as (_ & Hi & k & Ek); [split; [cbn; lia|]; split; [done|by exists 0]|].
    unfold pending in Ek. rewrite Er in Ek. unfold in_i in Hi. change (64 - 1) with 63 in Hi.
    cbn in Ek. assert (k = 0) as -> by lia. lia. }
  change (w_sink w3 = s) in Hs. rewrite Hs. split; [rewrite Hsink in Hsent; exact Hsent|].
  assert (stream_process_id (d_log_stream d) = su_process_id su /\
    stream_process_id (d_metrics_stream d) = su_process_id su) as [Ep1 Ep2].
  { unfold Dispatch_new in Hnew. unfold EventStream_new in Hnew.
    destruct (usize_sub lsz _) as [z| | | |]; cbn [mbind exec_bind] in Hnew; try discriminate Hnew.
    destruct (usize_sub msz _) as [z'| | | |]; cbn [mbind exec_bind] in Hnew; try discriminate Hnew.
    apply (f_equal (fun r => match r with Ok x => x | _ => w1 end)) in Hnew. subst w1.
    cbn in Hd. apply (f_equal (from_option id d)) in Hd. cbn in Hd. by subst d. }
  split; [done|]. split; [done|]. split; [done|]. split; [done|]. split; [done|].
  split; [exact Hm|]. split; [|split; [done|split; [done|split]]].
  - intros b Hin. apply Hb. apply elem_of_app. right. by apply list_elem_of_In.
  - cbn in A3. assert (length (List.filter is_greeting ns) = 0%nat) as A5 by lia.
    apply length_zero_iff_nil in A5. apply List.Forall_forall. intros n Hn.
    destruct (is_greeting n) eqn:En; [|done].
    assert (In n (List.filter is_greeting ns)) as Hf by (by apply filter_In).
    by rewrite A5 in Hf.
  - intros t st Est Hemp. destruct (Hth t st Est Hemp) as [Hid Hch]. split; [|exact Hch].
    change (stream_id st ∈ thread_ids ns) in Hid. apply list_elem_of_omap in Hid as (n & Hn & E).
    destruct n as [| | |s0| | |]; try discriminate E. injection E as E. exists s0.
    split; [by apply list_elem_of_In|]. split; [done|].
    apply (proj1 (list.Forall_forall _ _) A4 (ThreadStream s0)). apply elem_of_app. by right.
Qed.
End process.

