(* ===== verification/SpanGaps.v ===== *)
(** * The spans that a query does not see

    [query_spans] makes one tree of the blocks that begin exactly where the one
    before ends.  The dispatcher reads the clock for the begin of the next block
    before it reads it again for the end of the block that it closes, so that
    the blocks of a thread overlap, and the query drops every second one. *)

From S2P Require Import Prelude RustString Float Transit Queue Pod Parser PodParser Blocks.
From S2P Require Import Levels Deps LogEvents LogBlock Time Stream Wire LogEntry MetricsBlock.
From S2P Require Import Measure SpanEvents ThreadBlock ThreadBlockProcessor CallTree Sink.
From S2P Require Import Dispatch.
From S2P Require Import Arrow Tables Sql Lake Metadata LakeSpec Codecs Query QuerySpec.
From S2P Require Import SpanQuery.
From S2P Require Import Delivery QueryExamples.

(** ** The blocks of a thread *)
Section thread.
Context `{Abi}.

(** A thread records events, and its block is flushed, again and again. *)
Fixpoint flushed (mem : rodata) (buffer_size process_id : Z) (s : EventStream)
    (script : list (list ThreadEventQueueAny * Clock)) : exec (list EventBlock) :=
  match script with
  | [] => Ok []
  | (evs, c) :: script =>
      s ← foldM (fun s a => with_events_mut (fun q => push_thread_event mem q a) s) s evs;
      '(b, s) ← swap_block c buffer_size process_id s;
      bs ← flushed mem buffer_size process_id s script;
      Ok (b :: bs)
  end.

(** The clock moves between two readings. *)
Definition ticking (c : Clock) : Prop := dt_ticks (c_begin c) < dt_ticks (c_end c).

(** Each block begins before the end of the one that precedes it. *)
Fixpoint overlapping (bs : list EventBlock) : Prop :=
  match bs with
  | b :: (b' :: _) as rest =>
      (exists e, eb_end b = Some e /\ dt_ticks (eb_begin b') < dt_ticks e) /\ overlapping rest
  | _ => True
  end.

Lemma with_events_mut_begin f s s' :
  with_events_mut f s = Ok s' -> eb_begin (es_current_block s') = eb_begin (es_current_block s).
Proof. unfold with_events_mut. destruct (f _); cbn [mbind exec_bind]; try done. by intros [= <-]. Qed.
Lemma push_events_begin mem s evs s' :
  foldM (fun s a => with_events_mut (fun q => push_thread_event mem q a) s) s evs = Ok s' ->
  eb_begin (es_current_block s') = eb_begin (es_current_block s).
Proof.
  revert s. induction evs as [|a evs IH]; intros s; cbn [foldM]; [by intros [= ->]|].
  destruct (with_events_mut _ s) as [s1| | | |] eqn:E; cbn [mbind exec_bind]; try done.
  intros E'. apply IH in E'. rewrite E'. by eapply with_events_mut_begin.
Qed.

Lemma swap_block_clock c size pid s b s' :
  swap_block c size pid s = Ok (b, s') ->
  eb_begin b = eb_begin (es_current_block s) /\ eb_end b = Some (c_end c) /\
  eb_begin (es_current_block s') = c_begin c.
Proof.
  unfold swap_block, replace_block.
  destruct (usize_add _ _) as [o| | | |]; cbn [mbind exec_bind]; try done.
  destruct (usize_sub _ _) as [t| | | |]; cbn [mbind exec_bind]; try done.
  destruct (assert_true _) as [[]| | | |]; cbn [mbind exec_bind]; try done. by intros [= <- <-].
Qed.

Lemma flushed_overlap mem size pid s script bs :
  Forall (fun ec => ticking ec.2) script -> flushed mem size pid s script = Ok bs ->
  overlapping bs /\ forall b bs', bs = b :: bs' -> eb_begin b = eb_begin (es_current_block s).
Proof.
  intros Ht. revert s bs. induction Ht as [|[evs c] script Hc _ IH]; intros s bs; cbn [flushed].
  { by intros [= <-]. }
  destruct (foldM _ s evs) as [s1| | | |] eqn:E1; cbn [mbind exec_bind]; try done.
  destruct (swap_block _ _ _ s1) as [[b s2]| | | |] eqn:E2; cbn [mbind exec_bind]; try done.
  destruct (flushed _ _ _ s2 script) as [bs2| | | |] eqn:E3; cbn [mbind exec_bind]; try done.
  intros [= <-]. apply push_events_begin in E1. apply swap_block_clock in E2 as (B1 & B2 & B3).
  destruct (IH _ _ E3) as [Ho Hf]. split.
  - destruct bs2 as [|b' bs2]; [done|]. split; [|exact Ho]. exists (c_end c).
    split; [done|]. by rewrite (Hf b' bs2 eq_refl), B3.
  - intros b' bs' [= <- <-]. by rewrite B1.
Qed.
End thread.

(** ** Blocks that do not follow each other *)
Fixpoint never_contiguous (l : list BlockMetadata) : Prop :=
  match l with
  | m :: (m' :: _) as rest => bm_begin_ticks m' <> bm_end_ticks m /\ never_contiguous rest
  | _ => True
  end.
(** The first, the third, the fifth block, ... *)
Fixpoint every_other {A} (l : list A) : list A :=
  match l with
  | x :: _ :: l => x :: every_other l
  | _ => l
  end.

(** What the lake knows of a block that was sent *)
Definition described `{Compression} `{Rfc3339} `{Timestamptz} (extract : Queue -> exec Queue) (p : ProcessInfo)
    (b : EventBlock) (m : BlockMetadata) : Prop :=
  exists v x begin_time end_time payload_size,
    encode_block extract v b p = Ok x /\ m = stored_block x begin_time end_time payload_size.

Lemma overlapping_never_contiguous `{Compression} `{Rfc3339} `{Timestamptz} extract p bs l :
  overlapping bs -> Forall2 (described extract p) bs l -> never_contiguous l.
Proof.
  intros Ho Hl. induction Hl as [|b m bs l (v & x & bt & et & sz & Ex & ->) Hl IH]; [done|].
  inversion Hl as [|b' m' bs' l' (v' & x' & bt' & et' & sz' & Ex' & ->) Hl']; subst; [done|].
  destruct Ho as [(e & Ee & Hlt) Ho]. split; [|by apply IH]. cbn.
  apply encode_block_inv in Ex as (e1 & _ & Ee1 & _ & _ & _ & _ & _ & _ & _ & _ & _ & -> & _).
  apply encode_block_inv in Ex' as (e2 & _ & _ & _ & _ & _ & _ & _ & _ & _ & _ & -> & _ & _).
  rewrite Ee in Ee1. injection Ee1 as <-. lia.
Qed.

Lemma pairs_ind {A} (P : list A -> Prop) :
  P [] -> (forall x, P [x]) -> (forall x y l, P l -> P (x :: y :: l)) -> forall l, P l.
Proof. intros P0 P1 P2. fix IH 1. intros [|x [|y l]]; [exact P0|exact (P1 x)|]. apply P2, IH. Qed.

Section query.
Context `{Compression} `{Cbor BlockPayload} `{UuidText} `{ObjectPath} `{Arrow} `{Xxh32}.
Context (p : ProcessInfo) (rb re lim : Z) (blobs : BlobStorage) (s : StreamInfo).

(** Each block has a tree of its own, until there are enough rows. *)
Fixpoint each_alone (l : list BlockMetadata) (record_builder : SpanRecordBuilder) : exec SpanRecordBuilder :=
  match l with
  | [] => Ok record_builder
  | m :: l =>
      '(record_builder, cont) ← append_call_tree record_builder p [m] rb re lim blobs s;
      if cont : bool then each_alone l record_builder else Ok record_builder
  end.

Lemma query_every_other l :
  never_contiguous l ->
  query_spans_batch p rb re lim blobs s l =
  (record_builder ← each_alone (every_other l) (spans_with_capacity 1024);
   with_context "finalizing span record builder" (finish_spans record_builder)).
Proof.
  unfold query_spans_batch. generalize (spans_with_capacity 1024) as builder.
  induction l as [|m|m m' l IH] using pairs_ind; intros builder Hl.
  - done.
  - cbn [spans_of_blocks every_other each_alone default]. unfold default. cbn [from_option]. rewrite Z.eqb_refl.
    cbn [app mbind exec_bind].
    by destruct (append_call_tree _ _ _ _ _ _ _ _) as [[? []]| | | |].
  - destruct Hl as [Hgap Hl]. cbn [spans_of_blocks every_other each_alone]. unfold default at 1. cbn [from_option].
    rewrite Z.eqb_refl. cbn [app spans_of_blocks default from_option id].
    rewrite (proj2 (Z.eqb_neq _ _) Hgap).
    destruct (append_call_tree _ _ _ _ _ _ _ _) as [[builder' []]| | | |]; cbn [mbind exec_bind negb]; try done.
    apply IH. destruct l as [|m'' l]; [done|]. apply Hl.
Qed.
End query.

(** ** Properties *)

(** C20. The spans of every second block are lost: the dispatcher starts the next
    block of a thread before it reads the end of the block that it closes, so
    that, with a clock that ticks, no block begins where the one before ends.
    Whatever the thread recorded, a query over its blocks makes a tree for the
    first one, the third one, and so on, and never reads the others. *)
Theorem every_second_block_lost `{Abi} `{Compression} `{Rfc3339} `{Timestamptz} `{Cbor BlockPayload} `{UuidText}
    `{ObjectPath} `{Arrow} `{Xxh32} st mem size pid stream script bs p l rb re lim blobs s :
  Forall (fun ec => ticking ec.2) script ->
  flushed mem size pid stream script = Ok bs ->
  Forall2 (described (extract_thread st) p) bs l ->
  query_spans_batch p rb re lim blobs s l =
  (record_builder ← each_alone p rb re lim blobs s (every_other l) (spans_with_capacity 1024);
   with_context "finalizing span record builder" (finish_spans record_builder)).
Proof.
  intros Ht Hf Hd. apply query_every_other. eapply overlapping_never_contiguous; [|exact Hd].
  by eapply flushed_overlap.
Qed.

(** *** A thread whose block is flushed inside of a scope *)
Module GapExample.
#[local] Existing Instances natural_abi natural_lawful identity_compression
  identity_compression_lawful block_cbor payload_cbor stream_cbor process_cbor udts_cbor cbors_lawful
  rfc3339 rfc3339_lawful timestamptz uuid_text uuid_text_lawful object_path object_path_lawful
  sql_order sql_order_lawful simple_arrow.
#[local] Existing Instance ThreadExample.xxh.

(** Five ticks pass between the two readings of the clock. *)
Definition script : list (list ThreadEventQueueAny * Clock) :=
  [(SpanExample.evs1, mkClock 1275 (mkDualTime 1275 0) (mkDualTime 1280 0));
   (SpanExample.evs2, mkClock 2000 (mkDualTime 2000 0) (mkDualTime 2005 0))].
Definition stream : EventStream :=
  mkEventStream (mkStreamDesc 9 7 [] ∅) (EventBlock_new (mkDualTime 1000 0) 1024 7 9 0) 896.
Definition bs : list EventBlock :=
  QueryExample.ok_or_default [] (flushed (st_bytes ThreadExample.st) 1024 7 stream script).
Definition flushed_block (n : nat) : EventBlock := nth n bs (EventBlock_new (mkDualTime 0 0) 0 0 0 0).
Definition block (n : nat) : Block :=
  QueryExample.ok_or_default QueryExample.no_block
    (encode_block (extract_thread ThreadExample.st) (21 + Z.of_nat n) (flushed_block n) LogExample.process).
Definition stored (n : nat) : BlockMetadata := stored_block (block n) 0 0 0.
Definition lake : DataLakeConnection :=
  QueryExample.lake_of (QueryExample.ok_or_default ∅ (migrate_db ∅))
    [ReqBlock (block 0); ReqBlock (block 1); ReqStream SpanExample.stream 1].

Lemma example_flushed : flushed (st_bytes ThreadExample.st) 1024 7 stream script = Ok bs.
Proof. vm_compute. reflexivity. Qed.
Lemma example_described :
  Forall2 (described (extract_thread ThreadExample.st) LogExample.process) bs [stored 0; stored 1].
Proof.
  assert (bs = [flushed_block 0; flushed_block 1]) as -> by (vm_compute; reflexivity).
  repeat apply Forall2_cons; try apply Forall2_nil.
  - exists 21, (block 0), 0, 0, 0. split; [vm_compute|]; reflexivity.
  - exists 22, (block 1), 0, 0, 0. split; [vm_compute|]; reflexivity.
Qed.
End GapExample.

(** The rows of the two begins, and nothing of the two ends *)
Lemma every_second_block_lost_witness :
  exists batch,
    @query_spans_batch identity_compression payload_cbor uuid_text object_path simple_arrow
      ThreadExample.xxh SpanExample.process 0 1000 100 (blob_storage GapExample.lake)
      (received_stream SpanExample.stream) [GapExample.stored 0; GapExample.stored 1] = Ok batch /\
    map a_values (firstn 6 (rb_columns batch)) =
      map (map CInt) [[0; 1]; [0; 0]; [0; 1]; [2569600228; 3893232248]; [100; 200]; [280; 280]].
Proof.
  eexists. split.
  - rewrite (@every_second_block_lost natural_abi identity_compression rfc3339 timestamptz payload_cbor
      uuid_text object_path simple_arrow ThreadExample.xxh ThreadExample.st (st_bytes ThreadExample.st) 1024 7
      GapExample.stream GapExample.script GapExample.bs LogExample.process
      [GapExample.stored 0; GapExample.stored 1]).
    + vm_compute. reflexivity.
    + repeat apply Forall_cons; try apply Forall_nil; vm_compute; reflexivity.
    + exact GapExample.example_flushed.
    + exact GapExample.example_described.
  - vm_compute. reflexivity.
Defined.
