(* ===== verification/DeliverySpec.v ===== *)
(** * What a query finds of a process

    When a process has posted what it recorded, the lake of the server finds
    its stream, its process, and the blocks of the stream, which hold the rows
    that the process recorded: for the log and for the metrics alike. *)

From Stdlib Require Import Sorting.Sorted.
From stdpp Require Import sorting.
From S2P Require Import Prelude RustString Float Transit Queue Pod Parser PodParser Blocks.
From S2P Require Import Levels LogFilter Deps LogEvents LogBlock Time Stream Wire LogEntry.
From S2P Require Import MetricsBlock Measure SpanEvents ThreadBlock ThreadBlockProcessor.
From S2P Require Import CallTree.
From S2P Require Import Sink SinkSpec Dispatch StreamSpec DispatchSpec Guards GuardsSpec.
From S2P Require Import HttpSink DispatchFrame HttpSpec.
From S2P Require Import Arrow Tables Sql Lake Metadata LakeSpec Codecs Query QuerySpec.
From S2P Require Import Delivery.

(** ** Rows block by block *)
Lemma Forall2_concat {A B} (P : A -> B -> Prop) ls ys :
  Forall2 P (concat ls) ys -> exists yss, concat yss = ys /\ Forall2 (Forall2 P) ls yss.
Proof.
  revert ys. induction ls as [|l ls IH]; intros ys; cbn [concat].
  { intros E. apply Forall2_nil_inv_l in E as ->. by exists []. }
  intros E. apply Forall2_app_inv_l in E as (y1 & y2 & E1 & E2 & ->).
  destruct (IH _ E2) as (yss & <- & E3). exists (y1 :: yss). by split; [|constructor].
Qed.
Lemma omap_map {A B C} (f : B -> option C) (g : A -> B) (l : list A) : omap f (map g l) = omap (fun x => f (g x)) l.
Proof. induction l as [|x l IH]; [done|]. cbn. destruct (f (g x)); by rewrite IH. Qed.
Lemma omap_ext_all {A B} (f g : A -> option B) (l : list A) : (forall x, f x = g x) -> omap f l = omap g l.
Proof. intros H. induction l as [|x l IH]; [done|]. cbn. rewrite H. by destruct (g x); rewrite IH. Qed.

Lemma picked_log_blocks `{LawfulAbi} into_iter ns :
  omap log_block_of (map (message_of into_iter) ns) = log_blocks ns.
Proof. rewrite omap_map. unfold log_blocks. apply omap_ext_all. by intros []. Qed.
Lemma picked_metrics_blocks `{LawfulAbi} into_iter ns :
  omap metrics_block_of (map (message_of into_iter) ns) = metrics_blocks ns.
Proof. rewrite omap_map. unfold metrics_blocks. apply omap_ext_all. by intros []. Qed.

Lemma picked_thread_blocks `{LawfulAbi} into_iter sid ns :
  omap (thread_block_of sid) (map (message_of into_iter) ns) = thread_blocks sid ns.
Proof. rewrite omap_map. unfold thread_blocks. apply omap_ext_all. by intros []. Qed.

Lemma pick_log st its p `{Compression} `{Rfc3339} `{LawfulAbi} n m b :
  log_block_of m = Some b ->
  block_of m = Some b /\
  block_message st its p n m = Some (encode_block (extract_logs st) (it_new_v4 (its n)) b p).
Proof. destruct m; try discriminate. by intros [= ->]. Qed.
Lemma pick_metrics st its p `{Compression} `{Rfc3339} `{LawfulAbi} n m b :
  metrics_block_of m = Some b ->
  block_of m = Some b /\
  block_message st its p n m = Some (encode_block (extract_metrics st) (it_new_v4 (its n)) b p).
Proof. destruct m; try discriminate. by intros [= ->]. Qed.

Lemma pick_thread sid st its p `{Compression} `{Rfc3339} `{LawfulAbi} n m b :
  thread_block_of sid m = Some b ->
  block_of m = Some b /\
  block_message st its p n m = Some (encode_block (extract_thread st) (it_new_v4 (its n)) b p).
Proof.
  destruct m as [| | | |b']; try discriminate. cbn [thread_block_of].
  destruct (eb_stream_id b' =? sid); [|discriminate]. by intros [= ->].
Qed.

(** The buffers of blocks and of their dependencies are shorter than 2^63 bytes. *)
Definition addressable (extract : Queue -> exec Queue) (blocks : list EventBlock) : Prop :=
  forall b deps, In b blocks -> extract (eb_events b) = Ok deps ->
    blen (as_bytes deps) < 2 ^ 63 /\ blen (as_bytes (eb_events b)) < 2 ^ 63.

(** The blocks begin one after the other, and a range of ticks meets them all. *)
Record covered (p : ProcessInfo) (begin_ticks end_ticks : Z) (blocks : list EventBlock) : Prop := {
  cv_order : StronglySorted (fun x y => dt_ticks (eb_begin x) < dt_ticks (eb_begin y)) blocks;
  cv_range : Forall (fun b => dt_ticks (eb_begin b) - start_ticks p <= end_ticks /\
    forall e, eb_end b = Some e -> begin_ticks <= dt_ticks e - start_ticks p) blocks
}.

(** Streams have identifiers of their own. *)
Lemma distinct_of_nodup {A} (key : A -> Z) l : NoDup (map key l) -> distinct key l.
Proof.
  induction l as [|z l IH]; [by intros _ ? ? []|]. cbn [map]. intros Hnd x y. apply list.NoDup_cons in Hnd as [Hz Hnd].
  assert (forall x, In x l -> key x <> key z) as Hne.
  { intros x' Hx E. apply Hz, list_elem_of_In. rewrite <- E. by apply in_map. }
  intros [->|Hx] [->|Hy] E; [done|by destruct (Hne y Hy)|by destruct (Hne x Hx)|by apply IH].
Qed.

(** ** A stream of the process *)
Section stream.
Context `{HA : LawfulAbi} `{HC : LawfulCompression} `{HR : LawfulRfc3339} `{HB : LawfulCbors}.
Context `{Timestamptz} `{HU : LawfulUuidText} `{HP : LawfulObjectPath} `{HO : LawfulSqlOrder}.
Context {A : Type} `{EventKind A} {E : Type}.
Context (st : statics) (its : nat -> Iteration) (p : ProcessInfo) (id : Uuid).
Context (pick : SinkEvent -> option EventBlock) (extract : Queue -> exec Queue).
(** How a payload is read, and the rows that events become *)
Context (decodes : BlockPayload -> list E -> Prop) (ok : A -> Prop) (row : A -> E -> Prop).

(** The blocks that a sink encodes are decoded. *)
Definition chunks_decode : Prop := forall size chunk es,
  Forall ok chunk -> Forall2 row chunk es ->
  exists q deps, foldM (push_event (st_bytes st)) (queue_new size) chunk = Ok q /\ extract q = Ok deps /\
    (blen (as_bytes deps) < 2 ^ 63 -> blen (as_bytes q) < 2 ^ 63 ->
     forall new_v4 b e p,
       eb_events b = q -> eb_end b = Some e ->
       in_i 64 (dt_ticks (eb_begin b) - start_ticks p) -> in_i 64 (dt_ticks e - start_ticks p) ->
       exists block, encode_block extract new_v4 b p = Ok block /\ decodes (bk_payload block) es).

(** A block with its rows *)
Definition block_rows (pid : Uuid) (be : EventBlock * list E) : Prop :=
  eb_process_id be.1 = pid /\ eb_stream_id be.1 = id /\
  forall v p x, encode_block extract v be.1 p = Ok x -> decodes (bk_payload x) be.2.

Lemma sent_block_rows size pid offset chunk b es :
  chunks_decode -> sent_block size pid id offset chunk b -> Forall ok chunk -> Forall2 row chunk es ->
  addressable extract [b] -> block_rows pid (b, es).
Proof.
  intros Hd (Hh & _ & _ & _ & Hp & Hsid & _) Hok Hr Hfit. split; [done|]. split; [done|]. intros v p' x Ex.
  destruct (Hd size chunk es Hok Hr) as (q & deps & Hq & Hx & Hdec).
  pose proof (holds_events_mem _ (st_bytes st) _ _ Hh) as Hq'.
  rewrite Hq in Hq'. apply (f_equal (fun r => match r with Ok y => y | _ => q end)) in Hq'. subst q.
  destruct (Hfit b deps (or_introl eq_refl) Hx) as [F1 F2].
  pose proof (encode_block_inv _ _ _ _ _ Ex) as (e & _ & Ee & _ & R1 & R2 & _).
  destruct (Hdec F1 F2 v b e p' eq_refl Ee R1 R2) as (x' & Ex' & Hd').
  cbn [fst] in Ex. rewrite Ex in Ex'. apply (f_equal (fun r => match r with Ok y => y | _ => x end)) in Ex'. by subst x'.
Qed.

(** The offset of a block is the number of the rows before it. *)
Fixpoint counted_from (offset : Z) (bes : list (EventBlock * list E)) : Prop :=
  match bes with
  | [] => True
  | be :: bes => eb_event_offset be.1 = offset /\ counted_from (offset + Z.of_nat (length be.2)) bes
  end.

Lemma blocks_with_rows size pid offset chunks blocks es :
  chunks_decode -> sent_blocks size pid id offset chunks blocks ->
  Forall ok (concat chunks) -> Forall2 row (concat chunks) es -> addressable extract blocks ->
  exists bes, map fst bes = blocks /\ concat (map snd bes) = es /\ Forall (block_rows pid) bes /\
    counted_from offset bes.
Proof.
  intros Hd Hs Hok Hr Hfit. destruct (Forall2_concat _ _ _ Hr) as (ess & <- & Hess). clear Hr.
  revert offset blocks Hs Hok Hfit.
  induction Hess as [|chunk es chunks ess Hce _ IH]; intros offset [|b blocks] Hs Hok Hfit; try done.
  { by exists []. }
  cbn [sent_blocks concat] in Hs, Hok. destruct Hs as [Hb Hs]. apply list.Forall_app in Hok as [Hok1 Hok].
  destruct (IH _ blocks Hs Hok) as (bes & <- & E2 & Hbes & Hcnt).
  { intros b' deps Hin. apply Hfit. by right. }
  exists ((b, es) :: bes). split; [done|]. split; [cbn; by rewrite E2|]. split; [constructor; [|done]|].
  - eapply sent_block_rows; [done|done|done|done|]. intros b' deps [<-|[]]. apply Hfit. by left.
  - split; [apply Hb|]. cbn [snd]. by rewrite <- (Forall2_length Hce).
Qed.

Hypothesis Hpick : forall n m b, pick m = Some b ->
  block_of m = Some b /\ block_message st its p n m = Some (encode_block extract (it_new_v4 (its n)) b p).

Lemma block_unique (l : list (item (E := E))) it it' :
  NoDup (map (fun it : item => bm_block_id it.1.1) l) -> In it l -> In it' l -> it'.1.1 = it.1.1 -> it' = it.
Proof.
  intros Hnd Hi Hi' E1. eapply (distinct_of_nodup (fun it : item => bm_block_id it.1.1)); [exact Hnd|done|done|by rewrite E1].
Qed.

(** The blocks of the stream that the database finds *)
Lemma items_found begin_ticks end_ticks (l : list (item (E := E))) bes l' :
  let own := List.filter (of_stream id) l in
  Forall2 (item_of its p extract) own bes -> covered p begin_ticks end_ticks (map fst bes) ->
  l' ≡ₚ List.filter (in_range_block id begin_ticks end_ticks) (map fst (map fst l)) ->
  Sorted (fun x y => bm_begin_ticks x <= bm_begin_ticks y) l' ->
  l' = map (fun it : item => it.1.1) own.
Proof.
  intros own Hown [Hcv1 Hcv2] Hperm Hsort. rewrite map_map, filter_map_of in Hperm.
  rewrite (@filter_ext_in (BlockMetadata * BlockPayload * list E) _ (of_stream id)) in Hperm.
  - apply (sorted_unique bm_begin_ticks); [done|done|]. by apply (items_sorted its p extract _ bes).
  - intros it Hi. unfold in_range_block. change (bm_stream_id it.1.1 =? id) with (of_stream id it).
    destruct (of_stream id it) eqn:Hof; [|done]. cbn [andb].
    destruct (items_in its p extract own bes it Hown) as (be & Hbe & Hit); [by apply filter_In|].
    apply item_of_inv in Hit as (_ & _ & _ & Eb & (e & Ee & Eend) & _).
    eapply List.Forall_forall in Hcv2 as [Hr1 Hr2]; [|by apply in_map].
    rewrite Eb, Eend. apply andb_true_iff. split; apply Z.leb_le; [done|by apply Hr2].
Qed.

(** The times of a block, in ticks of the process [p] *)
Definition times_of (p : ProcessInfo) (m : BlockMetadata) (b : EventBlock) : Prop :=
  bm_begin_ticks m = dt_ticks (eb_begin b) - start_ticks p /\
  exists e, eb_end b = Some e /\ bm_end_ticks m = dt_ticks e - start_ticks p.

(** What the lake knows of a block of the process [p], and what it reads in it *)
Definition block_found (lake : DataLakeConnection) (stream : StreamInfo)
    (rows : BlockMetadata -> list E) (m : BlockMetadata) (be : EventBlock * list E) : Prop :=
  rows m = be.2 /\ bm_object_offset m = wrap_i 64 (eb_event_offset be.1) /\ times_of p m be.1 /\
  exists payload,
    fetch_block_payload (blob_storage lake) (si_process_id stream) (si_stream_id stream) (bm_block_id m)
      = Ok payload /\
    decodes payload be.2.

(** What a query begins with: the stream, its process and the blocks of the
    range, which are those of [bes] *)
Definition found_in (lake : DataLakeConnection) (stream : StreamInfo) (process : ProcessInfo)
    (begin_ticks end_ticks : Z) (bes : list (EventBlock * list E)) : Prop :=
  exists l rows,
    find_stream (db_pool lake) (si_stream_id stream) = Ok stream /\
    find_process (db_pool lake) (si_process_id stream) = Ok process /\
    find_stream_blocks_in_range (db_pool lake) (si_stream_id stream) begin_ticks end_ticks = Ok l /\
    Forall2 (block_found lake stream rows) l bes.

Lemma blocks_found_rows lake stream rows l bes :
  Forall2 (block_found lake stream rows) l bes ->
  map rows l = map snd bes /\
  forall b, In b l -> exists payload,
    fetch_block_payload (blob_storage lake) (si_process_id stream) (si_stream_id stream) (bm_block_id b)
      = Ok payload /\
    decodes payload (rows b).
Proof.
  induction 1 as [|m be l bes (Er & _ & _ & payload & Hp & Hd) _ [IH1 IH2]]; [by split|].
  split; [cbn [map]; by rewrite Er, IH1|]. intros b [<-|Hb]; [|by apply IH2].
  exists payload. by rewrite Er.
Qed.

Lemma found_of_items lake stream streams (l : list (item (E := E))) bes begin_ticks end_ticks :
  represents lake (mkAbstract [stored_process p] streams (map fst l)) -> distinct si_stream_id streams ->
  In stream streams -> si_stream_id stream = id -> si_process_id stream = process_id p ->
  NoDup (map (fun it : item => bm_block_id it.1.1) l) ->
  Forall2 (item_of its p extract) (List.filter (of_stream id) l) bes ->
  Forall (block_rows (process_id p)) bes -> covered p begin_ticks end_ticks (map fst bes) ->
  found_in lake stream (stored_process p) begin_ticks end_ticks bes.
Proof.
  intros Hrep Hds Hin Hid Hpid Hnd Hown Hbes Hcv. set (own := List.filter _ l) in *.
  destruct (find_blocks_in_lake lake _ stream (stored_process p) begin_ticks end_ticks Hrep)
    as (Hfs & Hfp & l' & Hfb & Hperm & Hsort & Hpay); try done.
  { intros x y [<-|[]] [<-|[]] _; done. }
  { by left. }
  rewrite Hid in Hperm. cbn [al_blocks] in Hperm, Hpay.
  pose proof (items_found begin_ticks end_ticks l bes l' Hown Hcv Hperm Hsort) as El. fold own in El.
  exists l', (rows_in l). split; [done|]. split; [done|]. split; [done|]. rewrite El.
  assert (forall it, In it own -> In it l /\ In it.1.1 l') as Hl'.
  { intros it Hi. split; [by apply filter_In in Hi as [Hi _]|]. rewrite El. by apply (in_map (fun it : item => it.1.1)). }
  clear Hcv Hperm Hsort Hfb El. clearbody own. induction Hown as [|it be own' bes Hit _ IH]; [constructor|].
  cbn [map]. inversion_clear Hbes as [|? ? (Hpb & _ & Hdb) Hbes']. constructor.
  - destruct (Hl' it (or_introl eq_refl)) as [Hi Hb].
    pose proof Hit as (n & x0 & Ex0 & Eit). apply item_of_inv in Hit as (E2 & Es & Ep & Eb & Ee & v & x1 & Ex & Epay).
    split; [by rewrite <- E2, <- (rows_in_item l it Hnd Hi)|]. split; [|split; [by split|]].
    + rewrite Eit. cbn. by eapply encode_block_offset.
    + destruct (Hpay _ Hb) as (payload & Hbin & Hst & Hfetch). exists (bk_payload x1).
      split; [|by eapply Hdb]. rewrite <- Hst, Hpid, <- Hpb, <- Ep, Hfetch, <- Epay. f_equal.
      apply in_map_iff in Hbin as (it' & Eit' & Hi').
      assert (it' = it) as -> by (apply (block_unique l); [done|done|done|by rewrite Eit']).
      by rewrite Eit'.
  - apply IH; [done|]. intros it' Hi'. apply Hl'. by right.
Qed.
End stream.

(** ** The process and the server *)
Section process.
Context `{HA : LawfulAbi} `{Alloc} `{UuidParse} `{HC : LawfulCompression} `{HR : LawfulRfc3339}.
Context `{HB : LawfulCbors} `{Timestamptz} `{HU : LawfulUuidText} `{HP : LawfulObjectPath}.
Context `{HO : LawfulSqlOrder}.
Context (into_iter : gmap string UserDefinedType -> list (string * UserDefinedType)).
Context (iter_map : gmap string string -> list (string * string)).
Context (Hinto : iterates into_iter) (Hiter : forall m, iter_map m ≡ₚ map_to_list m).
Context (Hbody : forall b : Block, encoded b <> []).
#[local] Instance delivering_sink : EventSink HttpEventSink := HttpEventSink_EventSink into_iter.
#[local] Instance delivering_lawful : LawfulSink HttpEventSink SinkEvent := http_lawful into_iter.
#[local] Existing Instance TrivialRequestDecorator.

(** The messages can be posted: each one is encoded in buffers that exist. *)
Record can_post (st : statics) (its : nat -> Iteration) (p : ProcessInfo) (ms : list SinkEvent) : Prop := {
  cp_encodable : encodable st its 1 (Some p) ms;
  cp_process : blen (encoded p) <= body_limit;
  cp_bodies : within_limit st its p 1 ms;
  cp_payloads : payloads_fit st its p 1 ms;
  cp_streams : Forall stream_fits (omap announced_stream ms)
}.

(** The server answers, the identifiers that are drawn are new, the clock goes
    forward, and the channel has room for the messages. *)
Record posting (its : nat -> Iteration) (valid_url : string -> bool) (t0 max_queue_size : Z)
    (messages : list SinkEvent) : Prop := {
  po_url : forall url, valid_url url = true;
  po_answered : forall k, it_outcomes (its k) 0%nat = Answered;
  po_ids : forall i j, it_new_v4 (its i) = it_new_v4 (its j) -> i = j;
  po_clock : forall k, exists r, time_to_flush_seconds (it_now (its k)) (FlushMonitor_default t0) = Ok r;
  po_room : Z.of_nat (length messages) < max_queue_size < 2 ^ 63
}.

(** The lake, when a process has posted everything *)
Lemma lake_of_process st its now addr p ls ms ns db root :
  migrated db -> (forall i j, it_new_v4 (its i) = it_new_v4 (its j) -> i = j) ->
  process_fits p ->
  can_post st its p (map (message_of into_iter) (LogStream ls :: MetricsStream ms :: ns)) ->
  Forall (fun n => is_greeting n = false) ns ->
  let messages := map (message_of into_iter) (Started p :: LogStream ls :: MetricsStream ms :: ns) in
  represents
    (sv_lake (deliver (ingestion_server iter_map addr now) addr st its 0 None messages
       (mkServer 0 (mkDataLakeConnection db (mkBlobStorage ∅ root)))))
    (mkAbstract [stored_process p] (omap announced_stream messages)
       (received_blocks st its p 1 (tail messages))).
Proof.
  intros Hdb Hids Hfit [He Hproc Hwithin Hpay Hstr] Hns messages. unfold messages. clear messages.
  remember (map (message_of into_iter) (LogStream ls :: MetricsStream ms :: ns)) as rest eqn:Er.
  assert (Forall after_start rest) as Ha.
  { subst rest. cbn [map]. constructor; [done|]. constructor; [done|]. apply List.Forall_map.
    eapply List.Forall_impl; [|exact Hns]. by intros []. }
  change (map (message_of into_iter) (Started p :: LogStream ls :: MetricsStream ms :: ns))
    with (Startup_ p :: map (message_of into_iter) (LogStream ls :: MetricsStream ms :: ns)).
  rewrite <- Er. cbn [tail deliver known message_request omap list_omap announced_stream].
  rewrite encoded_ok.
  rewrite deliver_requests; [|done|done|done|].
  2:{ unfold ingestion_server. cbn [rq_url]. by rewrite strip_prefix_append. }
  pose proof (receive_requests st its now p 1 rest (mkAbstract [stored_process p] [] []) Ha) as Hrec.
  cbn [al_processes al_streams al_blocks app] in Hrec. rewrite <- Hrec.
  apply serve_all_represents; [done| |].
  - unfold ingestion_server. cbn [rq_url rq_body]. rewrite strip_prefix_append.
    unfold ingestion_route. rewrite (proj2 (Z.ltb_ge _ _) Hproc).
    exact (serve_represents iter_map _ (mkAbstract [] [] []) (ReqProcess p (now 0%nat)) Hiter
      (represents_migrated _ _ Hdb) Hfit).
  - by apply posts_well_formed.
Qed.

Lemma announced_ids ns :
  Forall (fun n => is_greeting n = false) ns ->
  map si_stream_id (omap announced_stream (map (message_of into_iter) ns)) = thread_ids ns.
Proof.
  induction ns as [|n ns IH]; intros Hg; [done|]. inversion_clear Hg as [|? ? Hn Hns].
  specialize (IH Hns). cbn [map]. unfold thread_ids in *.
  destruct n; try discriminate Hn; cbn [message_of omap list_omap announced_stream map];
    try exact IH. f_equal. exact IH.
Qed.
(** The streams of a process have identifiers of their own. *)
Lemma streams_distinct p ls ms ns ids :
  NoDup (stream_id ls :: stream_id ms :: ids) -> NoDup (thread_ids ns) ->
  (forall i, i ∈ thread_ids ns -> i ∈ ids) -> Forall (fun n => is_greeting n = false) ns ->
  distinct si_stream_id
    (omap announced_stream (map (message_of into_iter) (Started p :: LogStream ls :: MetricsStream ms :: ns))).
Proof.
  intros [Hn1 [Hn2 _]%list.NoDup_cons]%list.NoDup_cons Hti Htd Hg.
  apply distinct_of_nodup. cbn [map message_of omap list_omap announced_stream].
  rewrite announced_ids by done. change (NoDup (stream_id ls :: stream_id ms :: thread_ids ns)).
  apply list.NoDup_cons. split; [|apply list.NoDup_cons; split; [|done]].
  - intros [E|Hi]%elem_of_cons; apply Hn1; [rewrite E; by left|right; by apply Htd].
  - intros Hi. by apply Hn2, Htd.
Qed.

(** The thread of the sink that is dropped posts what waits. *)
Lemma sink_delivers st its now addr valid_url max_queue_size retries t0 sv w p rest :
  w_memory w = st -> he_received (w_sink w) = 0%nat -> he_sent (w_sink w) = Startup_ p :: rest ->
  he_queue_size (w_sink w) = Z.of_nat (length (he_sent (w_sink w))) ->
  encodable st its 1 (Some p) rest ->
  (forall url, valid_url url = true) -> (forall k, it_outcomes (its k) 0%nat = Answered) ->
  (forall k, exists r, time_to_flush_seconds (it_now (its k)) (FlushMonitor_default t0) = Ok r) ->
  Z.of_nat (length (he_sent (w_sink w))) < max_queue_size -> max_queue_size < 2 ^ 63 ->
  exists s wk,
    HttpEventSink_drop valid_url (ingestion_server iter_map addr now) into_iter addr max_queue_size
      retries 0 its w (Worker_new t0) sv =
    Ok (set_sink s w, wk,
        deliver (ingestion_server iter_map addr now) addr st its 0 None (Startup_ p :: rest) sv).
Proof.
  intros <- Hr Hsent Hq He Hurl Hans Htime Hlen Hmax. rewrite Hsent in Hq, Hlen.
  destruct (loop_delivers into_iter valid_url (ingestion_server iter_map addr now) addr max_queue_size
    retries Hurl (Startup_ p :: rest) 0 its (set_sink (drop_sender (w_sink w)) w) (Worker_new t0) sv)
    as (s & E & _); cbn [w_sink set_sink he_queue_size he_received he_sent drop_sender w_memory]; try done.
  1: by rewrite Hr, drop_0.
  1-3: rewrite Hq; unfold in_i; change (64 - 1) with 63; lia.
  { split; [|exact He]. eexists _, (encoded p). cbn [message_request]. by rewrite encoded_ok. }
  eexists s, _. unfold HttpEventSink_drop. cbn [w_sink set_sink he_sent he_received drop_sender]. rewrite Hsent, Hr. exact E.
Qed.

(** Whose blocks they are *)
Lemma log_blocks_ids ns size pid sid (chunks : list (list LogMsgQueueAny)) b :
  sent_blocks size pid sid 0 chunks (log_blocks ns) -> In (LogBlock_ b) ns -> eb_stream_id b = sid.
Proof.
  intros Hs Hi. apply (sent_blocks_ids size pid sid 0 chunks (log_blocks ns)); [done|].
  apply list_elem_of_In, list_elem_of_omap. exists (LogBlock_ b). by split; [apply list_elem_of_In|].
Qed.
Lemma metrics_blocks_ids ns size pid sid (chunks : list (list MetricsMsgQueueAny)) b :
  sent_blocks size pid sid 0 chunks (metrics_blocks ns) -> In (MetricsBlock_ b) ns -> eb_stream_id b = sid.
Proof.
  intros Hs Hi. apply (sent_blocks_ids size pid sid 0 chunks (metrics_blocks ns)); [done|].
  apply list_elem_of_In, list_elem_of_omap. exists (MetricsBlock_ b). by split; [apply list_elem_of_In|].
Qed.

(** A block among the messages is one of the notices. *)
Lemma block_of_message ls ms ns m b :
  In m (map (message_of into_iter) (LogStream ls :: MetricsStream ms :: ns)) -> block_of m = Some b ->
  In (LogBlock_ b) ns /\ m = ProcessLogBlock b \/ In (MetricsBlock_ b) ns /\ m = ProcessMetricsBlock b \/
  In (ThreadBlock_ b) ns /\ m = ProcessThreadBlock b.
Proof.
  intros Hin Hb. apply in_map_iff in Hin as (n & <- & Hin).
  destruct n; try discriminate Hb; injection Hb as ->; destruct Hin as [Hin|[Hin|Hin]]; try discriminate Hin; tauto.
Qed.

(** What the server finds of a stream, when the process has posted everything *)
Lemma found_of_process {A} `{EventKind A} {E} st its now addr p ls ms ns db root (stream : StreamInfo)
    pick extract (decodes : BlockPayload -> list E -> Prop) ok row size (evs : list A) es begin_ticks end_ticks :
  let rest := map (message_of into_iter) (LogStream ls :: MetricsStream ms :: ns) in
  (forall n m b, pick m = Some b -> block_of m = Some b /\
     block_message st its p n m = Some (encode_block extract (it_new_v4 (its n)) b p)) ->
  migrated db -> (forall i j, it_new_v4 (its i) = it_new_v4 (its j) -> i = j) ->
  process_fits p -> can_post st its p rest -> Forall (fun n => is_greeting n = false) ns ->
  distinct si_stream_id (omap announced_stream (Startup_ p :: rest)) ->
  In stream (omap announced_stream rest) -> si_process_id stream = process_id p ->
  chunks_decode st extract decodes ok row ->
  (exists chunks, concat chunks = evs /\
     sent_blocks size (process_id p) (si_stream_id stream) 0 chunks (omap pick rest)) ->
  Forall ok evs -> Forall2 row evs es -> addressable extract (omap pick rest) ->
  (forall m b, In m rest -> pick m = None -> block_of m = Some b -> eb_stream_id b <> si_stream_id stream) ->
  covered p begin_ticks end_ticks (omap pick rest) ->
  exists bes, map fst bes = omap pick rest /\ concat (map snd bes) = es /\ counted_from 0 bes /\
    found_in p decodes
      (sv_lake (deliver (ingestion_server iter_map addr now) addr st its 0 None (Startup_ p :: rest)
         (mkServer 0 (mkDataLakeConnection db (mkBlobStorage ∅ root)))))
      stream (stored_process p) begin_ticks end_ticks bes.
Proof.
  intros rest Hpick Hdb Hids Hfit Hpost Hg Hdist Hin Hpid Hd (chunks & <- & Hs) Hok Hr Haddr Hother Hcv.
  pose proof (lake_of_process st its now addr p ls ms ns db root Hdb Hids Hfit Hpost Hg) as Hrep.
  cbv zeta in Hrep. change (tail _) with rest in Hrep.
  destruct (blocks_with_rows st (si_stream_id stream) extract decodes ok row _ _ _ _ _ es Hd Hs Hok Hr Haddr)
    as (bes & Ef & Ees & Hbes & Hcnt).
  exists bes. split; [done|]. split; [done|]. split; [done|].
  assert (Forall after_start rest) as Hafter.
  { apply List.Forall_map. repeat constructor. eapply List.Forall_impl; [|exact Hg]. by intros []. }
  destruct (items_of_stream st its p (si_stream_id stream) pick extract Hpick 1 rest bes
    (cp_encodable _ _ _ _ Hpost) Hafter Ef) as [Hown _]; [|done|].
  { intros b Hb. by eapply sent_blocks_ids. }
  rewrite <- (items_received st its p pick 1 rest bes) in Hrep.
  eapply (found_of_items its p (si_stream_id stream) extract decodes _ _ _ _ bes);
    [exact Hrep|done| |done|done|by apply items_nodup|exact Hown|exact Hbes|by rewrite Ef].
  exact Hin.
Qed.
End process.
