(* ===== verification/EndToEnd.v ===== *)
(** * From the process to the query

    What a process recorded is what a query returns: the log entries and the
    measures of a process that sends to the ingestion server, and is shut down. *)

From Stdlib Require Import Sorting.Sorted.
From stdpp Require Import sorting.
From S2P Require Import Prelude RustString Float Transit Queue Pod Parser PodParser Blocks.
From S2P Require Import Levels LogFilter Deps LogEvents LogBlock Time Stream Wire LogEntry.
From S2P Require Import MetricsBlock Measure Scan SpanEvents ThreadBlock ThreadBlockProcessor.
From S2P Require Import CallTree.
From S2P Require Import Sink SinkSpec Dispatch StreamSpec DispatchSpec Guards GuardsSpec.
From S2P Require Import HttpSink DispatchFrame HttpSpec.
From S2P Require Import Arrow Tables Sql Lake Metadata LakeSpec Codecs Query QuerySpec.
From S2P Require Import RowQueries.
From S2P Require Import Delivery DeliverySpec.

(** ** Events that are read *)
Lemma in_order_concat ess : in_order (concat ess) -> Forall in_order ess.
Proof.
  induction ess as [|es ess IH]; [constructor|]. cbn [concat]. unfold in_order in *.
  intros Hs. apply StronglySorted_app in Hs as (_ & H1 & H2). constructor; [done|by apply IH].
Qed.

Section read.
Context `{HA : LawfulAbi} (st : statics) (strs : gmap Z string).

(** The events of a process are read as entries: their descriptions are in
    memory, and the entries are in the order of their times. *)
Record read_as (ct : ConvertTicks) (evs : list LogMsgQueueAny) (es : list LogEntry) : Prop := {
  ra_metadata : log_metadata_ok st strs;
  ra_events : Forall (log_event_ok st strs) evs;
  ra_entries : Forall2 (fun a e => event_entry st strs ct a = Ok e) evs es;
  ra_order : in_order es;
  ra_targets : log_entries_fit es
}.

(** The events of a process are read as measures, in the order of their times. *)
Record measured_as (ct : ConvertTicks) (evs : list MetricsMsgQueueAny) (ms : list Measure) : Prop := {
  ma_metadata : metric_metadata_ok st strs;
  ma_events : Forall (metric_event_ok st) evs;
  ma_measures : Forall2 (fun a m => event_measure st strs ct a = Ok m) evs ms;
  ma_order : in_time me_time ms
}.
End read.

(** ** Properties *)
Section end_to_end.
Context `{HA : LawfulAbi} `{Alloc} `{UuidParse} `{HC : LawfulCompression} `{HR : LawfulRfc3339}.
Context `{HB : LawfulCbors} `{Timestamptz} `{HU : LawfulUuidText} `{HP : LawfulObjectPath}.
Context `{HO : LawfulSqlOrder} `{HAr : LawfulArrow}.
Context (into_iter : gmap string UserDefinedType -> list (string * UserDefinedType)).
Context (iter_map : gmap string string -> list (string * string)).
Context (Hinto : iterates into_iter) (Hiter : forall m, iter_map m ≡ₚ map_to_list m).
Context (Hbody : forall b : Block, encoded b <> []).
#[local] Instance end_sink : EventSink HttpEventSink := HttpEventSink_EventSink into_iter.
#[local] Instance end_lawful : LawfulSink HttpEventSink SinkEvent := http_lawful into_iter.
#[local] Existing Instance TrivialRequestDecorator.

(** What the queries have in common: the messages of the process, and their
    delivery when the sink is dropped *)
Lemma process_posts su lsz msz tsz (w w1 w2 : World HttpEventSink) cmds evs c :
  let p := greeted w su in
  big_enough (startup_config su lsz msz tsz) -> w_sink w = HttpEventSink_new ->
  w_thread_streams w = ∅ -> Dispatch_new su lsz msz tsz w = Ok w1 ->
  run_ok w1 cmds -> Z.of_nat (length cmds) < 2 ^ 64 ->
  NoDup (su_log_stream_id su :: su_metrics_stream_id su :: drawn cmds) ->
  (existsb is_exit cmds = true -> existsb is_set_full cmds = false) ->
  run w1 cmds = Ok (w2, evs) ->
  exists w3 ls ms ns, shutdown_telemetry c w2 = Ok w3 /\
    let rest := map (message_of into_iter) (LogStream ls :: MetricsStream ms :: ns) in
    he_sent (w_sink w3) = Startup_ p :: rest /\
    stream_id ls = su_log_stream_id su /\ stream_process_id ls = process_id p /\
    stream_id ms = su_metrics_stream_id su /\ stream_process_id ms = process_id p /\
    distinct si_stream_id (omap announced_stream (Startup_ p :: rest)) /\
    Forall (fun n => is_greeting n = false) ns /\
    (exists chunks, concat chunks = logs_of evs /\
       sent_blocks lsz (process_id p) (stream_id ls) 0 chunks (omap log_block_of rest)) /\
    (exists chunks, concat chunks = metrics_of evs /\
       sent_blocks msz (process_id p) (stream_id ms) 0 chunks (omap metrics_block_of rest)) /\
    (forall m b, In m rest -> log_block_of m = None -> block_of m = Some b -> eb_stream_id b <> stream_id ls) /\
    (forall m b, In m rest -> metrics_block_of m = None -> block_of m = Some b -> eb_stream_id b <> stream_id ms) /\
    (forall t s, w_thread_streams w2 !! t = Some s -> is_empty s = true ->
     (exists s0, stream_id s0 = stream_id s /\ stream_process_id s0 = process_id p /\
        In (received_stream (make_stream_info into_iter ThreadEventQueueAny ThreadDepsQueueAny s0))
          (omap announced_stream rest)) /\
     (exists chunks, concat chunks = thread_of t evs /\
        sent_blocks tsz (process_id p) (stream_id s) 0 chunks (omap (thread_block_of (stream_id s)) rest)) /\
     forall m b, In m rest -> thread_block_of (stream_id s) m = None -> block_of m = Some b ->
       eb_stream_id b <> stream_id s) /\
    forall its now addr valid_url max_queue_size retries t0 sv,
      posting its valid_url t0 max_queue_size (he_sent (w_sink w3)) ->
      can_post (w_memory w3) its p rest ->
      exists s3 wk,
        HttpEventSink_drop valid_url (ingestion_server iter_map addr now) into_iter addr max_queue_size
          retries 0 its w3 (Worker_new t0) sv =
        Ok (set_sink s3 w3, wk,
            deliver (ingestion_server iter_map addr now) addr (w_memory w3) its 0 None (Startup_ p :: rest) sv).
Proof.
  intros p Hbig Hsink Hts Hnew Hok Hl Hnd Hx Hrun.
  pose proof Hnd as [Hn1 [Hn2 Hnd']%list.NoDup_cons]%list.NoDup_cons.
  destruct (messages_of_process into_iter su lsz msz tsz w w1 w2 cmds evs c Hbig Hsink Hts Hnew Hok Hl Hnd' Hx Hrun)
    as (w3 & ls & ms & ns & Hsd & Hr & Hq & Hsent & Els & Epls & Ems & Epms & Hlog & Hmet & Ht & Hti & Htd & Hg & Hth).
  rewrite <- Els, <- Ems in *. exists w3, ls, ms, ns. split; [done|]. intros rest.
  change (he_sent (w_sink w3) = Startup_ p :: rest) in Hsent.
  pose proof Hlog as (lchunks & _ & Hls). pose proof Hmet as (mchunks & _ & Hms).
  split; [done|]. split; [done|]. split; [done|]. split; [done|]. split; [done|].
  split; [by eapply (streams_distinct into_iter p ls ms ns)|]. split; [done|].
  unfold rest. cbn [map omap list_omap log_block_of metrics_block_of message_of].
  rewrite picked_log_blocks, picked_metrics_blocks. split; [done|]. split; [done|].
  split; [|split; [|split]].
  - intros m b Hin Hp Hb. destruct (block_of_message into_iter ls ms ns m b Hin Hb) as [[Hi ->]|[[Hi ->]|[Hi ->]]];
      [done|rewrite (metrics_blocks_ids _ _ _ _ _ _ Hms Hi)|]; intros E; apply Hn1; rewrite <- E; [by left|right; by apply Ht].
  - intros m b Hin Hp Hb. destruct (block_of_message into_iter ls ms ns m b Hin Hb) as [[Hi ->]|[[Hi ->]|[Hi ->]]];
      [rewrite (log_blocks_ids _ _ _ _ _ _ Hls Hi)|done|]; intros E; [apply Hn1; rewrite E; by left|].
    apply Hn2. rewrite <- E. by apply Ht.
  - intros t s Hs Hemp. destruct (Hth t s Hs Hemp) as [(s0 & Hs0 & E0 & Ep0) Hch].
    assert (stream_id s ∈ drawn cmds) as Hsd2.
    { apply Htd. rewrite <- E0. apply list_elem_of_omap. exists (ThreadStream s0).
      split; [by apply list_elem_of_In|done]. }
    split; [|split].
    + exists s0. split; [done|]. split; [done|]. right. right. apply list_elem_of_In, list_elem_of_omap.
      eexists (message_of into_iter (ThreadStream s0)). split; [|done].
      apply list_elem_of_In. by apply (in_map (message_of into_iter)).
    + cbn [thread_block_of]. by rewrite picked_thread_blocks.
    + intros m b Hin Hp Hb. destruct (block_of_message into_iter ls ms ns m b Hin Hb) as [[Hi ->]|[[Hi ->]|[Hi ->]]].
      * rewrite (log_blocks_ids _ _ _ _ _ _ Hls Hi). intros E. apply Hn1. rewrite E. by right.
      * rewrite (metrics_blocks_ids _ _ _ _ _ _ Hms Hi). intros E. apply Hn2. by rewrite E.
      * cbn [thread_block_of] in Hp. by destruct (Z.eqb_spec (eb_stream_id b) (stream_id s)).
  - intros its now addr valid_url max_queue_size retries t0 sv [P1 P2 P3 P4 [P5 P6]] Hpost.
    apply (sink_delivers into_iter iter_map (w_memory w3) its now addr valid_url max_queue_size retries t0 sv w3 p rest);
      try done; [apply Hq; lia|apply Hpost].
Qed.

(** C1. From the process to the query: a process starts its dispatcher with the
    sink of a server, runs any commands and is shut down; then the sink is
    dropped, and its thread posts what waits to the router of the ingestion
    server, whose lake was empty.  A query of the log stream of the process,
    over a range of time that meets all its blocks, answers with the rows of the
    entries that the process logged between the two times, exactly, in order,
    up to the limit, when the process logged its entries in the order of their
    times.  Needed: the commands are valid ([run_ok]) and do not both end a
    thread and visit the streams of all threads; the descriptions of the entries
    are in memory, their times are in order and their targets fit the dictionary
    ([read_as]); the process fits its columns ([process_fits]); the messages are
    encoded within the limits ([can_post], [addressable]); the blocks begin one
    after the other and the range meets each of them ([covered]); the thread of
    the sink has handled nothing before the drop, there is room in its queue,
    the server answers the first attempt of each post and the identifiers that
    are drawn are new ([posting]).  Without them the answer may be less: a post
    that fails or a full queue loses a block, and a late entry hides others. *)
Theorem process_to_query su lsz msz tsz (w w1 w2 : World HttpEventSink) cmds evs c
    strs es its now addr valid_url max_queue_size retries t0 db root begin_ end_ limit :
  let p := greeted w su in
  let ct := ConvertTicks_new (stored_process p) in
  let start := start_time (stored_process p) in
  big_enough (startup_config su lsz msz tsz) -> w_sink w = HttpEventSink_new ->
  w_thread_streams w = ∅ -> Dispatch_new su lsz msz tsz w = Ok w1 ->
  run_ok w1 cmds -> Z.of_nat (length cmds) < 2 ^ 64 ->
  NoDup (su_log_stream_id su :: su_metrics_stream_id su :: drawn cmds) ->
  (existsb is_exit cmds = true -> existsb is_set_full cmds = false) ->
  run w1 cmds = Ok (w2, evs) ->
  exists w3, shutdown_telemetry c w2 = Ok w3 /\
    let messages := he_sent (w_sink w3) in
    let st := w_memory w3 in
    let blocks := omap log_block_of messages in
    (read_as st strs ct (logs_of evs) es -> process_fits p -> can_post st its p (tail messages) ->
     addressable (extract_logs st) blocks ->
     covered p (to_ticks ct (begin_ - start)) (to_ticks ct (end_ - start)) blocks ->
     posting its valid_url t0 max_queue_size messages -> migrated db ->
     exists s3 wk sv,
       HttpEventSink_drop valid_url (ingestion_server iter_map addr now) into_iter addr max_queue_size
         retries 0 its w3 (Worker_new t0)
         (mkServer 0 (mkDataLakeConnection db (mkBlobStorage ∅ root))) = Ok (set_sink s3 w3, wk, sv) /\
       query_log_entries (sv_lake sv) (su_log_stream_id su) begin_ end_ limit =
       Ok (log_entries_batch (firstn (Z.to_nat limit)
             (List.filter (selected (default 0 (timestamp_nanos_opt begin_))
                             (default 0 (timestamp_nanos_opt end_))) es)))).
Proof.
  intros p ct start Hbig Hsink Hts Hnew Hok Hl Hnd Hx Hrun.
  destruct (process_posts su lsz msz tsz w w1 w2 cmds evs c Hbig Hsink Hts Hnew Hok Hl Hnd Hx Hrun)
    as (w3 & ls & ms & ns & Hsd & Hsent & Els & Epls & _ & _ & Hdist & Hg & Hchunks & _ & Hother & _ & _ & Hdrop).
  exists w3. split; [done|]. intros messages st blocks [Rm Re Rr Ro Rf] Hfit Hpost Haddr Hcv Hpo Hdb.
  unfold blocks, messages in *. rewrite Hsent in Hpost, Haddr, Hcv.
  destruct (Hdrop its now addr valid_url max_queue_size retries t0
    (mkServer 0 (mkDataLakeConnection db (mkBlobStorage ∅ root))) Hpo Hpost) as (s3 & wk & E).
  eexists s3, wk, _. split; [exact E|]. clear E Hdrop. rewrite <- Els.
  set (stream := received_stream (make_stream_info into_iter LogMsgQueueAny LogDepsQueueAny ls)).
  assert (chunks_decode (A := LogMsgQueueAny) st (extract_logs st) (decodes_log ct stream) (log_event_ok st strs)
    (fun a e => event_entry st strs ct a = Ok e)) as Hdec
    by exact (fun size chunk es => log_block_decodes into_iter st strs chunk size ls ct es Hinto Rm).
  destruct (found_of_process (A := LogMsgQueueAny) into_iter iter_map Hiter Hbody st its now addr p ls ms ns db root stream log_block_of
    (extract_logs st) (decodes_log ct stream) (log_event_ok st strs) (fun a e => event_entry st strs ct a = Ok e) lsz
    (logs_of evs) es _ _ (pick_log st its p) Hdb (po_ids _ _ _ _ _ Hpo) Hfit Hpost Hg Hdist (or_introl eq_refl) Epls
    Hdec Hchunks Re Rr Haddr Hother Hcv)
    as (bes & _ & <- & _ & l & rows & F1 & F2 & F3 & Hf). apply blocks_found_rows in Hf as [Er F4]. rewrite <- Er in *.
  apply (log_rows_of_blocks _ stream (stored_process p) rows begin_ end_ limit l F1 F2 F3); [|done].
  intros b Hb. destruct (F4 b Hb) as (payload & G1 & G2). exists payload. split; [done|]. split; [done|].
  apply in_order_concat in Ro. eapply List.Forall_forall; [exact Ro|]. by apply in_map.
Qed.

(** C2. The metrics of the process: under the same conditions as for the log, a
    query of the metrics stream of the process, over a range that meets all its
    blocks, answers with exactly the measures that it recorded between the two
    times, in order, up to the limit, when it recorded them in the order of
    their times ([measured_as]); a late measure hides others
    ([late_measure_hides]). *)
Theorem process_to_metrics su lsz msz tsz (w w1 w2 : World HttpEventSink) cmds evs c
    strs es its now addr valid_url max_queue_size retries t0 db root begin_ end_ limit :
  let p := greeted w su in
  let ct := ConvertTicks_new (stored_process p) in
  let start := start_time (stored_process p) in
  let rows := firstn (Z.to_nat limit) (List.filter (wanted me_time (default 0 (timestamp_nanos_opt begin_))
    (default 0 (timestamp_nanos_opt end_))) es) in
  big_enough (startup_config su lsz msz tsz) -> w_sink w = HttpEventSink_new ->
  w_thread_streams w = ∅ -> Dispatch_new su lsz msz tsz w = Ok w1 ->
  run_ok w1 cmds -> Z.of_nat (length cmds) < 2 ^ 64 ->
  NoDup (su_log_stream_id su :: su_metrics_stream_id su :: drawn cmds) ->
  (existsb is_exit cmds = true -> existsb is_set_full cmds = false) ->
  run w1 cmds = Ok (w2, evs) -> in_i 64 limit -> measures_fit rows ->
  exists w3, shutdown_telemetry c w2 = Ok w3 /\
    let messages := he_sent (w_sink w3) in
    let st := w_memory w3 in
    let blocks := omap metrics_block_of messages in
    (measured_as st strs ct (metrics_of evs) es -> process_fits p -> can_post st its p (tail messages) ->
     addressable (extract_metrics st) blocks ->
     covered p (to_ticks ct (begin_ - start)) (to_ticks ct (end_ - start)) blocks ->
     posting its valid_url t0 max_queue_size messages -> migrated db ->
     exists s3 wk sv,
       HttpEventSink_drop valid_url (ingestion_server iter_map addr now) into_iter addr max_queue_size
         retries 0 its w3 (Worker_new t0)
         (mkServer 0 (mkDataLakeConnection db (mkBlobStorage ∅ root))) = Ok (set_sink s3 w3, wk, sv) /\
       query_metrics (sv_lake sv) limit (su_metrics_stream_id su) begin_ end_ = Ok (measures_batch rows)).
Proof.
  intros p ct start rows' Hbig Hsink Hts Hnew Hok Hl Hnd Hx Hrun Hlim Hfits.
  destruct (process_posts su lsz msz tsz w w1 w2 cmds evs c Hbig Hsink Hts Hnew Hok Hl Hnd Hx Hrun)
    as (w3 & ls & ms & ns & Hsd & Hsent & _ & _ & Ems & Epms & Hdist & Hg & _ & Hchunks & _ & Hother & _ & Hdrop).
  exists w3. split; [done|]. intros messages st blocks [Rm Re Rr Ro] Hfit Hpost Haddr Hcv Hpo Hdb.
  unfold blocks, messages in *. rewrite Hsent in Hpost, Haddr, Hcv.
  destruct (Hdrop its now addr valid_url max_queue_size retries t0
    (mkServer 0 (mkDataLakeConnection db (mkBlobStorage ∅ root))) Hpo Hpost) as (s3 & wk & E).
  eexists s3, wk, _. split; [exact E|]. clear E Hdrop. rewrite <- Ems. unfold rows' in *. clear rows'.
  set (stream := received_stream (make_stream_info into_iter MetricsMsgQueueAny MetricsDepsQueueAny ms)).
  assert (chunks_decode (A := MetricsMsgQueueAny) st (extract_metrics st) (decodes_metrics ct stream)
    (metric_event_ok st) (fun a e => event_measure st strs ct a = Ok e)) as Hdec
    by exact (fun size chunk es => metrics_block_decodes into_iter st strs chunk size ms ct es Hinto Rm).
  destruct (found_of_process (A := MetricsMsgQueueAny) into_iter iter_map Hiter Hbody st its now addr p ls ms ns db root stream metrics_block_of
    (extract_metrics st) (decodes_metrics ct stream) (metric_event_ok st) (fun a e => event_measure st strs ct a = Ok e)
    msz (metrics_of evs) es _ _ (pick_metrics st its p) Hdb (po_ids _ _ _ _ _ Hpo) Hfit Hpost Hg Hdist
    (or_intror (or_introl eq_refl)) Epms
    Hdec Hchunks Re Rr Haddr Hother Hcv)
    as (bes & _ & <- & _ & l & rows & F1 & F2 & F3 & Hf). apply blocks_found_rows in Hf as [Er F4]. rewrite <- Er in *.
  by apply (metrics_rows_of_blocks _ stream (stored_process p) rows begin_ end_ limit l F1 F2 F3).
Qed.
End end_to_end.
