(* ===== verification/EndThreads.v ===== *)
(** * From the threads of a process to the query

    What a thread recorded is what a query of its stream returns: the begins
    and the ends of its scopes, numbered from the first event of the thread. *)

From Stdlib Require Import Sorting.Sorted.
From stdpp Require Import sorting.
From S2P Require Import Prelude RustString Float Transit Queue Pod Parser PodParser Blocks.
From S2P Require Import Levels LogFilter Deps LogEvents LogBlock Time Stream Wire LogEntry.
From S2P Require Import MetricsBlock Measure Scan SpanEvents ThreadBlock ThreadBlockProcessor.
From S2P Require Import CallTree.
From S2P Require Import Sink SinkSpec Dispatch StreamSpec DispatchSpec Guards GuardsSpec.
From S2P Require Import HttpSink DispatchFrame HttpSpec.
From S2P Require Import Arrow Tables Sql Lake Metadata LakeSpec Codecs Query QuerySpec.
From S2P Require Import SpanQuery RowQueries.
From S2P Require Import Delivery DeliverySpec EndToEnd.

(** ** The events of the blocks that are found *)
Section events.
Context `{HA : LawfulAbi} `{Compression} `{Cbor BlockPayload} `{UuidText} `{ObjectPath} `{Xxh32}.
Context (st : statics) (strs : gmap Z string).

(** The payload holds the events, wherever the block is in its stream. *)
Definition holds_scopes (stream : StreamInfo) (payload : BlockPayload)
    (evs : list ThreadEventQueueAny) : Prop :=
  forall object_offset,
    - 2 ^ 63 <= object_offset -> object_offset + Z.of_nat (length evs) < 2 ^ 63 ->
    decodes_thread st strs stream payload object_offset evs.

(** The end of the last block, in ticks of the process [p] *)
Definition last_end (p : ProcessInfo) (end_ticks : Z) (blocks : list EventBlock) : Z :=
  match list_last blocks with
  | Some b =>
      match eb_end b with Some e => Z.min end_ticks (dt_ticks e - start_ticks p) | None => end_ticks end
  | None => end_ticks
  end.

(** The begin of the first block *)
Definition first_begin (p : ProcessInfo) (begin_ticks : Z) (blocks : list EventBlock) : Z :=
  match head blocks with
  | Some b => Z.max begin_ticks (dt_ticks (eb_begin b) - start_ticks p)
  | None => begin_ticks
  end.

(** Every block begins when the one before it ends. *)
Fixpoint joined (ended : option Z) (blocks : list EventBlock) : Prop :=
  match blocks with
  | [] => True
  | b :: blocks =>
      dt_ticks (eb_begin b) = default (dt_ticks (eb_begin b)) ended /\
      joined (dt_ticks <$> eb_end b) blocks
  end.

Lemma last_end_of_times p l blocks end_ticks :
  Forall2 (times_of p) l blocks ->
  Z.min end_ticks (match list_last l with Some b => bm_end_ticks b | None => end_ticks end) =
  last_end p end_ticks blocks.
Proof.
  intros Hf. unfold last_end. destruct Hf as [|m b l bes Hm Hf]; [cbn; lia|].
  revert m b Hm. induction Hf as [|m' b' l bes Hm' _ IH]; intros m b Hm; [|by apply IH].
  destruct Hm as (_ & e & Ee & Eend). cbn. by rewrite Ee, Eend.
Qed.

Lemma ends_of_times p l blocks begin_ticks end_ticks :
  Forall2 (times_of p) l blocks -> blocks <> [] ->
  exists first last_, head l = Some first /\ list_last l = Some last_ /\
    Z.max begin_ticks (bm_begin_ticks first) = first_begin p begin_ticks blocks /\
    Z.min end_ticks (bm_end_ticks last_) = last_end p end_ticks blocks.
Proof.
  intros Hf Hne. rewrite <- (last_end_of_times p l blocks end_ticks Hf).
  destruct Hf as [|m b l bes [Eb _] _]; [done|]. exists m.
  destruct (list_last (m :: l)) as [z|] eqn:El; [|by apply list.last_None in El].
  exists z. cbn. by rewrite Eb.
Qed.

Lemma joined_contiguous p l blocks ended :
  Forall2 (times_of p) l blocks -> joined ended blocks ->
  contiguous ((fun t => t - start_ticks p) <$> ended) l.
Proof.
  intros Hf. revert ended. induction Hf as [|m b l blocks (Eb & e & Ee & Eend) _ IH]; intros ended; [done|].
  intros [E Hj]. split.
  - rewrite Eb. destruct ended; cbn in *; lia.
  - rewrite Ee in Hj. rewrite Eend. by apply (IH (Some (dt_ticks e))).
Qed.

Lemma stored_of_found p lake stream rows l bes offset :
  0 <= offset -> offset + Z.of_nat (length (concat (map snd bes))) < 2 ^ 63 -> counted_from offset bes ->
  Forall2 (block_found p (holds_scopes stream) lake stream rows) l bes ->
  Forall (stored_thread_block st strs (blob_storage lake) stream rows) l /\
  concat (map (block_calls st strs rows) l) = numbered st strs offset (concat (map snd bes)).
Proof.
  intros Ho Hlen Hc Hf. revert offset Ho Hlen Hc.
  induction Hf as [|m be l bes (Er & Eo & _ & payload & Hp & Hd) _ IH]; intros offset Ho Hlen Hc; [by split|].
  destruct Hc as [Eb Hc]. cbn [map concat] in *. rewrite length_app, Nat2Z.inj_add in Hlen.
  rewrite Eb, wrap_i_id in Eo by (unfold in_i; change (64 - 1) with 63; lia).
  destruct (IH (offset + Z.of_nat (length be.2))) as [IH1 IH2]; [lia..|done|].
  split.
  - constructor; [|done]. exists payload. split; [done|]. rewrite Er, Eo. apply Hd; lia.
  - rewrite numbered_app, IH2. unfold block_calls. by rewrite Er, Eo.
Qed.

Lemma times_of_found p decodes lake stream (rows : BlockMetadata -> list ThreadEventQueueAny) l bes :
  Forall2 (block_found p decodes lake stream rows) l bes -> Forall2 (times_of p) l (map fst bes).
Proof. induction 1 as [|m be l bes (_ & _ & Ht & _) _ IH]; by constructor. Qed.

Lemma events_of_calls rows l :
  map (fun e => (ev_id e, ev_call e)) (concat (map (block_events st strs rows) l)) =
  concat (map (block_calls st strs rows) l).
Proof.
  rewrite concat_map, map_map. f_equal. apply map_ext. intros b. unfold block_events.
  rewrite map_map. rewrite <- (map_id (block_calls st strs rows b)) at 2. apply map_ext. by intros [].
Qed.
End events.

Section end_to_end.
Context `{HA : LawfulAbi} `{Alloc} `{UuidParse} `{HC : LawfulCompression} `{HR : LawfulRfc3339}.
Context `{HB : LawfulCbors} `{Timestamptz} `{HU : LawfulUuidText} `{HP : LawfulObjectPath}.
Context `{HO : LawfulSqlOrder} `{HAr : LawfulArrow} `{HX : Xxh32}.
Context (into_iter : gmap string UserDefinedType -> list (string * UserDefinedType)).
Context (iter_map : gmap string string -> list (string * string)).
Context (Hinto : iterates into_iter) (Hiter : forall m, iter_map m ≡ₚ map_to_list m).
Context (Hbody : forall b : Block, encoded b <> []).
#[local] Instance threads_sink : EventSink HttpEventSink := HttpEventSink_EventSink into_iter.
#[local] Instance threads_lawful : LawfulSink HttpEventSink SinkEvent := http_lawful into_iter.
#[local] Existing Instance TrivialRequestDecorator.

(** What the server finds of a thread *)
Definition thread_found (st : statics) (strs : gmap Z string) (lake : DataLakeConnection)
    (p : ProcessInfo) (sid : Uuid) (blocks : list EventBlock) (evs : list ThreadEventQueueAny)
    (begin_ticks end_ticks : Z) : Prop :=
  exists stream l rows,
    find_stream (db_pool lake) sid = Ok stream /\
    find_process (db_pool lake) (si_process_id stream) = Ok (stored_process p) /\
    find_stream_blocks_in_range (db_pool lake) sid begin_ticks end_ticks = Ok l /\
    Forall (stored_thread_block st strs (blob_storage lake) stream rows) l /\
    concat (map (block_calls st strs rows) l) = numbered st strs 0 evs /\
    Forall2 (times_of p) l blocks.

Lemma thread_delivered su lsz msz tsz (w w1 w2 : World HttpEventSink) cmds evs c t s
    strs its now addr valid_url max_queue_size retries t0 db root begin_ticks end_ticks :
  let p := greeted w su in
  big_enough (startup_config su lsz msz tsz) -> w_sink w = HttpEventSink_new ->
  w_thread_streams w = ∅ -> Dispatch_new su lsz msz tsz w = Ok w1 ->
  run_ok w1 cmds -> Z.of_nat (length cmds) < 2 ^ 64 ->
  NoDup (su_log_stream_id su :: su_metrics_stream_id su :: drawn cmds) ->
  (existsb is_exit cmds = true -> existsb is_set_full cmds = false) ->
  run w1 cmds = Ok (w2, evs) ->
  w_thread_streams w2 !! t = Some s -> is_empty s = true ->
  exists w3, shutdown_telemetry c w2 = Ok w3 /\
    let messages := he_sent (w_sink w3) in
    let st := w_memory w3 in
    let blocks := omap (thread_block_of (stream_id s)) messages in
    (span_metadata_ok st strs -> Forall (thread_event_ok st strs) (thread_of t evs) ->
     Z.of_nat (length (thread_of t evs)) < 2 ^ 63 ->
     process_fits p -> can_post st its p (tail messages) ->
     addressable (extract_thread st) blocks -> covered p begin_ticks end_ticks blocks ->
     posting its valid_url t0 max_queue_size messages -> migrated db ->
     exists s3 wk sv,
       HttpEventSink_drop valid_url (ingestion_server iter_map addr now) into_iter addr max_queue_size
         retries 0 its w3 (Worker_new t0)
         (mkServer 0 (mkDataLakeConnection db (mkBlobStorage ∅ root))) = Ok (set_sink s3 w3, wk, sv) /\
       thread_found st strs (sv_lake sv) p (stream_id s) blocks (thread_of t evs) begin_ticks end_ticks).
Proof.
  intros p Hbig Hsink Hts Hnew Hok Hl Hnd Hx Hrun Hs Hemp.
  destruct (process_posts into_iter iter_map su lsz msz tsz w w1 w2 cmds evs c Hbig Hsink Hts Hnew Hok Hl Hnd Hx Hrun)
    as (w3 & ls & ms & ns & Hsd & Hsent & _ & _ & _ & _ & Hdist & Hg & _ & _ & _ & _ & Hth & Hdrop).
  destruct (Hth t s Hs Hemp) as ((s0 & Eid & Epid & Hann) & Hchunks & Hother). clear Hth.
  exists w3. split; [done|]. intros messages st blocks Rm Re Hlen Hfit Hpost Haddr Hcv Hpo Hdb.
  unfold blocks, messages in *. rewrite Hsent in Hpost, Haddr, Hcv.
  destruct (Hdrop its now addr valid_url max_queue_size retries t0
    (mkServer 0 (mkDataLakeConnection db (mkBlobStorage ∅ root))) Hpo Hpost) as (s3 & wk & E).
  eexists s3, wk, _. split; [exact E|]. clear E Hdrop. rewrite Hsent. rewrite <- Eid in *.
  set (stream := received_stream (make_stream_info into_iter ThreadEventQueueAny ThreadDepsQueueAny s0)) in *.
  assert (chunks_decode (A := ThreadEventQueueAny) st (extract_thread st) (holds_scopes st strs stream)
    (thread_event_ok st strs) eq) as Hdec.
  { intros size chunk es Hok' Hes. apply list_eq_Forall2 in Hes. subst es.
    exact (thread_block_decodes into_iter st strs chunk size s0 Hinto Rm Hok'). }
  destruct (found_of_process (A := ThreadEventQueueAny) into_iter iter_map Hiter Hbody st its now addr p ls ms ns db
    root stream (thread_block_of (stream_id s0)) (extract_thread st) (holds_scopes st strs stream)
    (thread_event_ok st strs) eq tsz (thread_of t evs) (thread_of t evs) _ _ (pick_thread (stream_id s0) st its p) Hdb
    (po_ids _ _ _ _ _ Hpo) Hfit Hpost Hg Hdist Hann Epid Hdec Hchunks Re (proj1 (list_eq_Forall2 _ _) eq_refl)
    Haddr Hother Hcv) as (bes & Ebes & Ees & Hcnt & l & rows & F1 & F2 & F3 & Hf).
  exists stream, l, rows. split; [done|]. split; [done|]. split; [done|].
  rewrite <- Ees in Hlen.
  destruct (stored_of_found st strs p _ stream rows l bes 0 ltac:(lia) ltac:(lia) Hcnt Hf) as [G1 G2].
  split; [done|]. rewrite <- Ees. split; [done|].
  pose proof (times_of_found p _ _ stream rows l bes Hf) as G. rewrite Ebes in G. exact G.
Qed.
(** C3. From a thread to the query of its events: a process runs any commands,
    in any threads, the stream of the thread [t] is flushed, the process is
    shut down, and its sink posts what waits to the ingestion server.  A query
    of the events of the thread, over a range that meets all its blocks, answers
    with the begins and the ends that the thread recorded, in order, each with
    its number from the first event of the thread: exactly those from the begin
    of the range to its end or that of the last block, up to the limit, when
    they come in the order of their times.  The conditions are those of the log:
    every block in the range ([covered]), every first attempt answered and room
    in the queue ([posting]), messages that can be encoded ([can_post]), and a
    thread of the sink that has handled nothing before the drop. *)
Theorem process_to_thread_events su lsz msz tsz (w w1 w2 : World HttpEventSink) cmds evs c t s
    strs its now addr valid_url max_queue_size retries t0 db root begin_ end_ begin_ns end_ns lim :
  let p := greeted w su in
  let ct := ConvertTicks_new (stored_process p) in
  let start := start_time (stored_process p) in
  let rb := to_ticks ct (Z.max begin_ start - start) in
  let re := to_ticks ct (end_ - start) in
  big_enough (startup_config su lsz msz tsz) -> w_sink w = HttpEventSink_new ->
  w_thread_streams w = ∅ -> Dispatch_new su lsz msz tsz w = Ok w1 ->
  run_ok w1 cmds -> Z.of_nat (length cmds) < 2 ^ 64 ->
  NoDup (su_log_stream_id su :: su_metrics_stream_id su :: drawn cmds) ->
  (existsb is_exit cmds = true -> existsb is_set_full cmds = false) ->
  run w1 cmds = Ok (w2, evs) ->
  w_thread_streams w2 !! t = Some s -> is_empty s = true -> in_i 64 lim ->
  exists w3, shutdown_telemetry c w2 = Ok w3 /\
    let messages := he_sent (w_sink w3) in
    let st := w_memory w3 in
    let blocks := omap (thread_block_of (stream_id s)) messages in
    (span_metadata_ok st strs -> Forall (thread_event_ok st strs) (thread_of t evs) ->
     Z.of_nat (length (thread_of t evs)) < 2 ^ 63 ->
     process_fits p -> can_post st its p (tail messages) ->
     addressable (extract_thread st) blocks -> covered p rb re blocks ->
     posting its valid_url t0 max_queue_size messages -> migrated db ->
     relative_to_nanoseconds ct (stored_process p) rb = Ok begin_ns ->
     relative_to_nanoseconds ct (stored_process p) (last_end p re blocks) = Ok end_ns ->
     exists s3 wk sv events,
       HttpEventSink_drop valid_url (ingestion_server iter_map addr now) into_iter addr max_queue_size
         retries 0 its w3 (Worker_new t0)
         (mkServer 0 (mkDataLakeConnection db (mkBlobStorage ∅ root))) = Ok (set_sink s3 w3, wk, sv) /\
       map (fun e => (ev_id e, ev_call e)) events = numbered st strs 0 (thread_of t evs) /\
       let rows := firstn (Z.to_nat lim) (List.filter (wanted (ev_time ct) begin_ns end_ns) events) in
       (Forall (in_clock ct) events -> in_time (ev_time ct) events -> events_fit rows ->
        query_thread_events (sv_lake sv) lim (stream_id s) begin_ end_ = Ok (events_batch ct rows))).
Proof.
  intros p ct start rb re Hbig Hsink Hts Hnew Hok Hl Hnd Hx Hrun Hs Hemp Hlim.
  destruct (thread_delivered su lsz msz tsz w w1 w2 cmds evs c t s strs its now addr valid_url max_queue_size
    retries t0 db root rb re Hbig Hsink Hts Hnew Hok Hl Hnd Hx Hrun Hs Hemp) as (w3 & Hsd & Hall).
  exists w3. split; [done|]. intros messages st blocks Rm Re Hlen Hfit Hpost Haddr Hcv Hpo Hdb Hb He.
  destruct (Hall Rm Re Hlen Hfit Hpost Haddr Hcv Hpo Hdb) as
    (s3 & wk & sv & Hdrop & stream & l & rows & F1 & F2 & F3 & Hst & Hcs & Ht).
  exists s3, wk, sv, (concat (map (block_events st strs rows) l)). split; [exact Hdrop|].
  split; [by rewrite events_of_calls|]. intros found Hc Hord Hfits.
  rewrite <- (last_end_of_times p l blocks re Ht) in He.
  apply (query_thread_events_rows st strs (sv_lake sv) (stream_id s) begin_ end_ (stored_process p) stream rows l);
    try done.
Qed.

(** C4. From a thread to the query of its spans: as for its events, when every
    block of the thread begins as the one before it ends, and the scopes that
    the thread recorded are nested (some may be open at the end), a query of
    spans answers with the nodes of the tree of these scopes, each with its
    scope, its parent, its depth and its times.  Every event of the thread is in
    the range of the query ([in_view]) and the limit covers all the scopes and
    the root; a query that reaches its limit may fail ([make_call_tree_limit]),
    and one with a gap between blocks loses some ([every_second_block_lost]). *)
Theorem process_to_spans su lsz msz tsz (w w1 w2 : World HttpEventSink) cmds evs c t s
    strs its now addr valid_url max_queue_size retries t0 db root begin_ end_ begin_ns end_ns lim mid opens :
  let p := greeted w su in
  let ct := ConvertTicks_new (stored_process p) in
  let start := start_time (stored_process p) in
  let rb := to_ticks ct (Z.max begin_ start - start) in
  let re := to_ticks ct (end_ - start) in
  big_enough (startup_config su lsz msz tsz) -> w_sink w = HttpEventSink_new ->
  w_thread_streams w = ∅ -> Dispatch_new su lsz msz tsz w = Ok w1 ->
  run_ok w1 cmds -> Z.of_nat (length cmds) < 2 ^ 64 ->
  NoDup (su_log_stream_id su :: su_metrics_stream_id su :: drawn cmds) ->
  (existsb is_exit cmds = true -> existsb is_set_full cmds = false) ->
  run w1 cmds = Ok (w2, evs) ->
  w_thread_streams w2 !! t = Some s -> is_empty s = true ->
  0 < 1 + forest_size mid + open_size opens <= lim -> lim < 2 ^ 63 ->
  exists w3, shutdown_telemetry c w2 = Ok w3 /\
    let messages := he_sent (w_sink w3) in
    let st := w_memory w3 in
    let blocks := omap (thread_block_of (stream_id s)) messages in
    (span_metadata_ok st strs -> Forall (thread_event_ok st strs) (thread_of t evs) ->
     Z.of_nat (length (thread_of t evs)) < 2 ^ 63 ->
     process_fits p -> can_post st its p (tail messages) ->
     addressable (extract_thread st) blocks -> covered p rb re blocks ->
     posting its valid_url t0 max_queue_size messages -> migrated db ->
     blocks <> [] -> joined None blocks ->
     relative_to_nanoseconds ct (stored_process p) (first_begin p rb blocks) = Ok begin_ns ->
     relative_to_nanoseconds ct (stored_process p) (last_end p re blocks) = Ok end_ns ->
     begin_ns <= end_ns -> end_ns - begin_ns < 2 ^ 63 ->
     numbered st strs 0 (thread_of t evs) = calls mid ++ open_calls opens ->
     Forall (in_view ct begin_ns end_ns) (calls mid ++ open_calls opens) ->
     exists s3 wk sv root_hash tree,
       HttpEventSink_drop valid_url (ingestion_server iter_map addr now) into_iter addr max_queue_size
         retries 0 its w3 (Worker_new t0)
         (mkServer 0 (mkDataLakeConnection db (mkBlobStorage ∅ root))) = Ok (set_sink s3 w3, wk, sv) /\
       call_tree_root tree = expected_root ct begin_ns end_ns root_hash [] mid opens /\
       Forall (node_ok (ct_scopes tree) begin_ns end_ns) (tree_nodes tree) /\ scopes_ok (ct_scopes tree) /\
       (Z.of_nat (length (tree_nodes tree)) <= 2 ^ 32 -> spans_fit (tree_rows tree) ->
        query_spans (sv_lake sv) lim (stream_id s) begin_ end_ = Ok (spans_batch (tree_rows tree)))).
Proof.
  intros p ct start rb re Hbig Hsink Hts Hnew Hok Hl Hnd Hx Hrun Hs Hemp Hn Hlim.
  destruct (thread_delivered su lsz msz tsz w w1 w2 cmds evs c t s strs its now addr valid_url max_queue_size
    retries t0 db root rb re Hbig Hsink Hts Hnew Hok Hl Hnd Hx Hrun Hs Hemp) as (w3 & Hsd & Hall).
  exists w3. split; [done|].
  intros messages st blocks Rm Re Hlen Hfit Hpost Haddr Hcv Hpo Hdb Hne Hj Hb He Hle Hrange Hcalls Hview.
  destruct (Hall Rm Re Hlen Hfit Hpost Haddr Hcv Hpo Hdb) as
    (s3 & wk & sv & Hdrop & stream & l & rows & F1 & F2 & F3 & Hst & Hcs & Ht).
  fold blocks in Ht. pose proof (joined_contiguous p l blocks None Ht Hj) as Hcont.
  destruct (ends_of_times p l blocks rb re Ht Hne) as (first & last_ & Hf & Hla & E1 & E2).
  rewrite <- E1 in Hb. rewrite <- E2 in He.
  destruct (query_spans_rows st strs (sv_lake sv) (stream_id s) begin_ end_ (stored_process p) stream rows l lim
    begin_ns end_ns first last_ [] mid opens F1 F2 F3 Hcont Hf Hla Hb He Hle Hrange Hlim Hst)
    as (tree & G); [exact (eq_trans Hcs Hcalls)|done|done|done|].
  by exists s3, wk, sv, (compute_scope_hash (get_thread_name uuid_to_string stream) EmptyString EmptyString 0), tree.
Qed.
End end_to_end.
