(* ===== verification/EndExamples.v ===== *)
(** * Processes from their start to the queries

    A process that logs twice, in two blocks, one that records measures, and
    one with a thread that has nested scopes: the hypotheses of the theorems of
    [EndToEnd.v] and [EndThreads.v] hold together. *)

From Stdlib Require Import Sorting.Sorted.
From stdpp Require Import sorting.
From S2P Require Import Prelude RustString Float Transit Queue Pod Parser PodParser Blocks.
From S2P Require Import Levels LogFilter Deps LogEvents LogBlock Time Stream Wire LogEntry.
From S2P Require Import MetricsBlock Measure Scan SpanEvents ThreadBlock ThreadBlockProcessor.
From S2P Require Import CallTree.
From S2P Require Import Sink SinkSpec Dispatch StreamSpec DispatchSpec Guards GuardsSpec.
From S2P Require Import HttpSink DispatchFrame HttpSpec.
From S2P Require Import Arrow Tables Sql Lake Metadata LakeSpec Codecs Query QuerySpec.
From S2P Require Import RowQueries.
From S2P Require Import SpanQuery QueryExamples.
From S2P Require Import Delivery DeliverySpec EndToEnd EndThreads.

(** ** A process, from its memory and its commands *)
Module EndExample.
#[export] Existing Instances natural_abi natural_lawful identity_compression
  identity_compression_lawful block_cbor payload_cbor stream_cbor process_cbor udts_cbor cbors_lawful
  rfc3339 rfc3339_lawful timestamptz uuid_text uuid_text_lawful object_path object_path_lawful
  sql_order sql_order_lawful simple_arrow simple_arrow_lawful TrivialRequestDecorator.
#[export] Existing Instance ThreadExample.xxh.
#[export] Instance alloc_after : Alloc := fun _ _ => 100000.
#[export] Instance uuid_parse : UuidParse := fun _ => None.
#[export] Instance end_example_sink : EventSink HttpEventSink := HttpEventSink_EventSink map_to_list.
#[export] Instance end_example_lawful : LawfulSink HttpEventSink SinkEvent := http_lawful map_to_list.
Definition machine : Machine := mkMachine "app" "u" "u" "c" "d" "cpu" 1000000000.
Definition su : Startup :=
  mkStartup 7 8 9 (mkDualTime 1001 0) (mkDualTime 1002 0) (mkDualTime 1000 0) machine.
Definition c (n : Z) : Clock := mkClock n (mkDualTime n 0) (mkDualTime n 0).
Definition input (n : nat) : Iteration :=
  mkIteration 1000 (fun _ => Answered) (100 + Z.of_nat n) 1000 1000 (c 2000).
Definition db : Db := match migrate_db ∅ with Ok db => db | _ => ∅ end.
Lemma example_db : migrated db.
Proof. unfold db. by destruct migrate_empty as (d & -> & Hd). Qed.
Lemma example_body (b : Block) : encoded b <> [].
Proof.
  unfold encoded. cbn [encode_cbor block_cbor cbor_via ser pair_serial fst snd].
  intros E. apply app_eq_nil in E as [_ E]. apply app_eq_nil in E as [E _]. by destruct (bk_object_offset b).
Qed.
Lemma input_ids i j : it_new_v4 (input i) = it_new_v4 (input j) -> i = j.
Proof. cbn. lia. Qed.
Lemma posting_input messages :
  Z.of_nat (length messages) < 16 -> posting input (fun _ => true) 1000 16 messages.
Proof. intros Hl. split; try done; [apply input_ids|intros k; by eexists]. Qed.

Section run.
Context (st : statics) (cmds : list command).
Definition w : World HttpEventSink :=
  mkWorld None ∅ 0 st ∅ None initial_max_filters HttpEventSink_new.
Definition w1 : World HttpEventSink := QueryExample.ok_or_default w (Dispatch_new su 1024 1024 1024 w).
Definition result : World HttpEventSink * list event := QueryExample.ok_or_default (w, []) (run w1 cmds).
Definition w3 : World HttpEventSink :=
  QueryExample.ok_or_default w (shutdown_telemetry (c 1030) result.1).

Lemma run_shutdown w' : shutdown_telemetry (c 1030) result.1 = Ok w' -> w' = w3.
Proof. intros E. unfold w3. by rewrite E. Qed.
End run.

Definition is_ok {A} (e : exec A) : bool := match e with Ok _ => true | _ => false end.
Lemma ok_or_default_Ok {A} (d : A) e : is_ok e = true -> e = Ok (QueryExample.ok_or_default d e).
Proof. by destruct e. Qed.
Lemma ok_or_default_pair {A B} (d : A * B) e :
  is_ok e = true -> e = Ok ((QueryExample.ok_or_default d e).1, (QueryExample.ok_or_default d e).2).
Proof. destruct e as [[]| | | |]; done. Qed.
(** Everything is computed. *)
Ltac run_can_post :=
  split;
  [vm_compute; repeat split; by do 2 eexists
  |vm_compute; discriminate
  |vm_compute; repeat split; discriminate
  |vm_compute; by repeat split
  |vm_compute; repeat constructor].
End EndExample.
Import EndExample.

(** ** A process that logs twice, in two blocks *)
Module LogRun.
Definition cmds : list command :=
  [Log (c 1010) 5000 (mkArguments (Some (mkStr 1000 14)) "server started"); FlushLogs (c 1015);
   Log (c 1020) 5000 (mkArguments None "x = 1")].
Definition es : list LogEntry :=
  [mkLogEntry 10 4 "app" "server started"; mkLogEntry 20 4 "app" "x = 1"].
Definition st : statics := LogExample.st.
Abbreviation messages := (he_sent (w_sink (w3 st cmds))).

Lemma end_run_ok : run_ok (w1 st) cmds.
Proof. unfold cmds. do 3 run_command. exact I. Qed.
Lemma log_run_start : Dispatch_new su 1024 1024 1024 (w st) = Ok (w1 st).
Proof. apply (ok_or_default_Ok (w st) (Dispatch_new su 1024 1024 1024 (w st))). vm_compute. reflexivity. Qed.
Lemma log_run_result : run (w1 st) cmds = Ok ((result st cmds).1, (result st cmds).2).
Proof. apply (ok_or_default_pair (w st, []) (run (w1 st) cmds)). vm_compute. reflexivity. Qed.
Lemma log_run_memory : w_memory (w3 st cmds) = st.
Proof. vm_compute. reflexivity. Qed.
Lemma log_run_read : read_as st LogExample.strs
  (ConvertTicks_new (stored_process (greeted (w st) su))) (logs_of (result st cmds).2) es.
Proof.
  split; [exact LogExample.log_md_ok| | | |vm_compute; discriminate].
  - assert (logs_of (result st cmds).2 = firstn 2 LogExample.evs) as -> by (vm_compute; reflexivity).
    apply Forall_take, LogExample.log_evs_ok.
  - assert (logs_of (result st cmds).2 = firstn 2 LogExample.evs) as -> by (vm_compute; reflexivity).
    repeat apply Forall2_cons; try apply Forall2_nil; vm_compute; reflexivity.
  - repeat constructor; vm_compute; discriminate.
Qed.
Lemma log_run_can_post : can_post st input (greeted (w st) su) (tail messages).
Proof. run_can_post. Qed.
Lemma log_run_addressable : addressable (extract_logs st) (omap log_block_of messages).
Proof.
  intros b deps Hin Hx. vm_compute in Hin. destruct Hin as [<-|[<-|[]]]; vm_compute in Hx;
    apply (f_equal (fun r => match r with Ok q => q | _ => deps end)) in Hx; subst deps; vm_compute; by split.
Qed.
Lemma log_run_covered : covered (greeted (w st) su) 5 18 (omap log_block_of messages).
Proof.
  assert (map (fun b => (dt_ticks (eb_begin b), dt_ticks <$> eb_end b)) (omap log_block_of messages) =
    [(1001, Some 1015); (1015, Some 1030)]) as E by (vm_compute; reflexivity).
  destruct (omap log_block_of messages) as [|b1 [|b2 [|b3 l]]]; try discriminate E.
  injection E as E1 E2 E3 E4. split.
  - repeat constructor. rewrite E1, E3. done.
  - repeat constructor; cbn; rewrite ?E1, ?E3; try done; intros e Ee; rewrite Ee in *; cbn in *;
      try injection E2 as ->; try injection E4 as ->; done.
Qed.
End LogRun.

Lemma process_to_query_witness :
  exists s3 wk sv,
    HttpEventSink_drop (fun _ => true) (ingestion_server map_to_list "http://localhost" Z.of_nat) map_to_list
      "http://localhost" 16 3 0 input (w3 LogRun.st LogRun.cmds) (Worker_new 1000)
      (mkServer 0 (mkDataLakeConnection EndExample.db (mkBlobStorage ∅ "root"))) =
    Ok (set_sink s3 (w3 LogRun.st LogRun.cmds), wk, sv) /\
    query_log_entries (sv_lake sv) 8 5 18 10 =
    Ok (log_entries_batch [mkLogEntry 10 4 "app" "server started"]).
Proof.
  destruct (process_to_query map_to_list map_to_list (fun m => Permutation_refl _) (fun m => Permutation_refl _)
    example_body su 1024 1024 1024 (w LogRun.st) (w1 LogRun.st) (result LogRun.st LogRun.cmds).1 LogRun.cmds
    (result LogRun.st LogRun.cmds).2 (EndExample.c 1030) LogExample.strs LogRun.es input Z.of_nat
    "http://localhost" (fun _ => true) 16 3 1000 EndExample.db "root" 5 18 10) as (w3' & E & Hq).
  - by split.
  - reflexivity.
  - reflexivity.
  - exact LogRun.log_run_start.
  - exact LogRun.end_run_ok.
  - reflexivity.
  - repeat constructor; set_solver.
  - discriminate.
  - exact LogRun.log_run_result.
  - apply run_shutdown in E. subst w3'. cbv zeta in Hq. rewrite LogRun.log_run_memory in Hq.
    destruct (Hq LogRun.log_run_read) as (s3 & wk & sv & Hdrop & Hquery).
    + split_and!; [repeat constructor; vm_compute; discriminate|split; vm_compute; congruence..].
    + exact LogRun.log_run_can_post.
    + exact LogRun.log_run_addressable.
    + exact LogRun.log_run_covered.
    + apply posting_input. vm_compute. reflexivity.
    + exact example_db.
    + exists s3, wk, sv. split; [exact Hdrop|exact Hquery].
Defined.

(** ** A process that records measures, in two blocks *)
Module MetricsRun.
Definition cmds : list command :=
  [IntMetric (c 1010) 6000 16; FlushMetrics (c 1015); FloatMetric (c 1020) 6000 (f64_of_Z 17)].
Definition es : list Measure :=
  [mkMeasure 10 "app" "frame time" "ms" (f64_of_Z 16); mkMeasure 20 "app" "frame time" "ms" (f64_of_Z 17)].
Definition st : statics := MetricExample.st.
Abbreviation messages := (he_sent (w_sink (w3 st cmds))).

Lemma metrics_run_ok : run_ok (w1 st) cmds.
Proof. unfold cmds. do 3 run_command. exact I. Qed.
Lemma metrics_run_start : Dispatch_new su 1024 1024 1024 (w st) = Ok (w1 st).
Proof. apply (ok_or_default_Ok (w st) (Dispatch_new su 1024 1024 1024 (w st))). vm_compute. reflexivity. Qed.
Lemma metrics_run_result : run (w1 st) cmds = Ok ((result st cmds).1, (result st cmds).2).
Proof. apply (ok_or_default_pair (w st, []) (run (w1 st) cmds)). vm_compute. reflexivity. Qed.
Lemma metrics_run_memory : w_memory (w3 st cmds) = st.
Proof. vm_compute. reflexivity. Qed.
Lemma metrics_run_read : measured_as st MetricExample.strs
  (ConvertTicks_new (stored_process (greeted (w st) su))) (metrics_of (result st cmds).2) es.
Proof.
  assert (metrics_of (result st cmds).2 =
    [MetricsMsgQueueAny.IntegerMetricEvent (mkIntegerMetricEvent 6000 16 1010);
     MetricsMsgQueueAny.FloatMetricEvent (mkFloatMetricEvent 6000 (f64_of_Z 17) 1020)]) as ->
    by (vm_compute; reflexivity).
  split; [exact MetricExample.metric_md_ok| | |].
  - repeat apply Forall_cons; try apply Forall_nil; unfold metric_event_ok, item_ok; cbn;
      split_and!; try (vm_compute; done); by eexists.
  - repeat apply Forall2_cons; try apply Forall2_nil; vm_compute; reflexivity.
  - repeat constructor; vm_compute; discriminate.
Qed.
Lemma metrics_run_can_post : can_post st input (greeted (w st) su) (tail messages).
Proof. run_can_post. Qed.
Lemma metrics_run_addressable : addressable (extract_metrics st) (omap metrics_block_of messages).
Proof.
  intros b deps Hin Hx. vm_compute in Hin. destruct Hin as [<-|[<-|[]]]; vm_compute in Hx;
    apply (f_equal (fun r => match r with Ok q => q | _ => deps end)) in Hx; subst deps; vm_compute; by split.
Qed.
Lemma metrics_run_covered : covered (greeted (w st) su) 15 1000 (omap metrics_block_of messages).
Proof.
  assert (map (fun b => (dt_ticks (eb_begin b), dt_ticks <$> eb_end b)) (omap metrics_block_of messages) =
    [(1002, Some 1015); (1015, Some 1030)]) as E by (vm_compute; reflexivity).
  destruct (omap metrics_block_of messages) as [|b1 [|b2 [|b3 l]]]; try discriminate E.
  injection E as E1 E2 E3 E4. split.
  - repeat constructor. rewrite E1, E3. done.
  - repeat constructor; cbn; rewrite ?E1, ?E3; try done; intros e Ee; rewrite Ee in *; cbn in *;
      try injection E2 as ->; try injection E4 as ->; done.
Qed.
End MetricsRun.

Lemma process_to_metrics_witness :
  exists s3 wk sv,
    HttpEventSink_drop (fun _ => true) (ingestion_server map_to_list "http://localhost" Z.of_nat) map_to_list
      "http://localhost" 16 3 0 input (w3 MetricsRun.st MetricsRun.cmds) (Worker_new 1000)
      (mkServer 0 (mkDataLakeConnection EndExample.db (mkBlobStorage ∅ "root"))) =
    Ok (set_sink s3 (w3 MetricsRun.st MetricsRun.cmds), wk, sv) /\
    query_metrics (sv_lake sv) 10 9 15 1000 =
    Ok (measures_batch [mkMeasure 20 "app" "frame time" "ms" (f64_of_Z 17)]).
Proof.
  destruct (process_to_metrics map_to_list map_to_list (fun m => Permutation_refl _) (fun m => Permutation_refl _)
    example_body su 1024 1024 1024 (w MetricsRun.st) (w1 MetricsRun.st) (result MetricsRun.st MetricsRun.cmds).1
    MetricsRun.cmds (result MetricsRun.st MetricsRun.cmds).2 (EndExample.c 1030) MetricExample.strs MetricsRun.es
    input Z.of_nat "http://localhost" (fun _ => true) 16 3 1000 EndExample.db "root" 15 1000 10) as (w3' & E & Hq).
  - by split.
  - reflexivity.
  - reflexivity.
  - exact MetricsRun.metrics_run_start.
  - exact MetricsRun.metrics_run_ok.
  - reflexivity.
  - repeat constructor; set_solver.
  - discriminate.
  - exact MetricsRun.metrics_run_result.
  - by split.
  - split_and!; apply fits_short; vm_compute; discriminate.
  - apply run_shutdown in E. subst w3'. cbv zeta in Hq. rewrite MetricsRun.metrics_run_memory in Hq.
    destruct (Hq MetricsRun.metrics_run_read) as (s3 & wk & sv & Hdrop & Hquery).
    + split_and!; [repeat constructor; vm_compute; discriminate|split; vm_compute; congruence..].
    + exact MetricsRun.metrics_run_can_post.
    + exact MetricsRun.metrics_run_addressable.
    + exact MetricsRun.metrics_run_covered.
    + apply posting_input. vm_compute. reflexivity.
    + exact example_db.
    + exists s3, wk, sv. split; [exact Hdrop|exact Hquery].
Defined.

(** ** A thread whose scopes begin in a block and end in the next one *)
Module ThreadRun.
Definition cmds : list command :=
  [InitThread 50 (mkDualTime 1005 0) 3 "3" (Some "main"); BeginScope (c 1100) 3 6000;
   BeginNamedScope (c 1200) 3 7000 (mkStr 5000 7); FlushThread (c 1250) 3;
   EndNamedScope (c 1300) 3 7000 (mkStr 5000 7); EndScope (c 1400) 3 6000; FlushThread (c 1500) 3].
Definition st : statics := ThreadExample.st.
Abbreviation messages := (he_sent (w_sink (w3 st cmds))).
Abbreviation blocks := (omap (thread_block_of 50) messages).
Definition stream : EventStream :=
  default LogExample.stream (w_thread_streams (result st cmds).1 !! 3).
Definition process : ProcessInfo := greeted (w st) su.
Definition ct : ConvertTicks := ConvertTicks_new (stored_process process).
Definition update : ScopeDesc := ScopeDesc_new "update" "src/main.rs" "app" 7.
Definition asset : ScopeDesc := ScopeDesc_new "asset 7" "src/main.rs" "app" 7.
Definition mid : forest := Span 0 update 1100 1400 3 (Span 1 asset 1200 1300 2 Nil Nil) Nil.

Lemma thread_run_ok : run_ok (w1 st) cmds.
Proof. unfold cmds. do 7 run_command. exact I. Qed.
Lemma thread_run_start : Dispatch_new su 1024 1024 1024 (w st) = Ok (w1 st).
Proof. apply (ok_or_default_Ok (w st) (Dispatch_new su 1024 1024 1024 (w st))). vm_compute. reflexivity. Qed.
Lemma thread_run_result : run (w1 st) cmds = Ok ((result st cmds).1, (result st cmds).2).
Proof. apply (ok_or_default_pair (w st, []) (run (w1 st) cmds)). vm_compute. reflexivity. Qed.
Lemma thread_run_stream : w_thread_streams (result st cmds).1 !! 3 = Some stream.
Proof. vm_compute. reflexivity. Qed.
Lemma thread_run_memory : w_memory (w3 st cmds) = st.
Proof. vm_compute. reflexivity. Qed.
Lemma thread_run_id : stream_id stream = 50.
Proof. vm_compute. reflexivity. Qed.
Lemma thread_run_events : thread_of 3 (result st cmds).2 =
  firstn 2 ThreadExample.evs ++ skipn 3 ThreadExample.evs.
Proof. vm_compute. reflexivity. Qed.
Lemma thread_run_events_ok :
  Forall (thread_event_ok st ThreadExample.strs) (thread_of 3 (result st cmds).2).
Proof.
  rewrite thread_run_events.
  apply list.Forall_app. split; [apply list.Forall_take|apply list.Forall_drop]; exact ThreadExample.thread_evs_ok.
Qed.
Lemma thread_run_can_post : can_post st input process (tail messages).
Proof. run_can_post. Qed.
Lemma thread_run_addressable : addressable (extract_thread st) blocks.
Proof.
  intros b deps Hin Hx. vm_compute in Hin. destruct Hin as [<-|[<-|[]]]; vm_compute in Hx;
    apply (f_equal (fun r => match r with Ok q => q | _ => deps end)) in Hx; subst deps; vm_compute; by split.
Qed.
Lemma thread_run_times :
  map (fun b => (dt_ticks (eb_begin b), dt_ticks <$> eb_end b)) blocks =
  [(1005, Some 1250); (1250, Some 1500)].
Proof. vm_compute. reflexivity. Qed.
Lemma thread_run_covered rb re : rb <= 250 -> 250 <= re -> covered process rb re blocks.
Proof.
  intros Hrb Hre. pose proof thread_run_times as E.
  destruct blocks as [|b1 [|b2 [|b3 l]]]; try discriminate E. injection E as E1 E2 E3 E4. split.
  - repeat constructor. rewrite E1, E3. done.
  - repeat apply Forall_cons; try apply Forall_nil; (split; [rewrite ?E1, ?E3; cbn; lia|]);
      intros e Ee; rewrite Ee in *; cbn in *; try injection E2 as ->; try injection E4 as ->; lia.
Qed.
Lemma thread_run_joined : joined None blocks.
Proof.
  pose proof thread_run_times as E.
  destruct blocks as [|b1 [|b2 [|b3 l]]]; try discriminate E. injection E as E1 E2 E3 E4.
  cbn [joined default from_option]. by rewrite E2, E3.
Qed.
Lemma thread_run_calls : numbered st ThreadExample.strs 0 (thread_of 3 (result st cmds).2) = calls mid ++ open_calls [].
Proof. vm_compute. reflexivity. Qed.
End ThreadRun.

Lemma process_to_thread_events_witness :
  exists s3 wk sv batch,
    HttpEventSink_drop (fun _ => true) (ingestion_server map_to_list "http://localhost" Z.of_nat) map_to_list
      "http://localhost" 16 3 0 input (w3 ThreadRun.st ThreadRun.cmds) (Worker_new 1000)
      (mkServer 0 (mkDataLakeConnection EndExample.db (mkBlobStorage ∅ "root"))) =
    Ok (set_sink s3 (w3 ThreadRun.st ThreadRun.cmds), wk, sv) /\
    query_thread_events (sv_lake sv) 10 50 150 350 = Ok batch /\
    map a_values (firstn 3 (rb_columns batch)) =
      [map CInt [1; 2]; map CStr ["begin"; "end"]; map CInt [200; 300]].
Proof.
  destruct (process_to_thread_events map_to_list map_to_list (fun m => Permutation_refl _)
    (fun m => Permutation_refl _) example_body su 1024 1024 1024 (w ThreadRun.st) (w1 ThreadRun.st)
    (result ThreadRun.st ThreadRun.cmds).1 ThreadRun.cmds (result ThreadRun.st ThreadRun.cmds).2
    (EndExample.c 1030) 3 ThreadRun.stream ThreadExample.strs input Z.of_nat "http://localhost" (fun _ => true)
    16 3 1000 EndExample.db "root" 150 350 150 350 10) as (w3' & E & Hq).
  - by split.
  - reflexivity.
  - reflexivity.
  - exact ThreadRun.thread_run_start.
  - exact ThreadRun.thread_run_ok.
  - reflexivity.
  - repeat constructor; set_solver.
  - discriminate.
  - exact ThreadRun.thread_run_result.
  - exact ThreadRun.thread_run_stream.
  - vm_compute. reflexivity.
  - by split.
  - apply run_shutdown in E. subst w3'. cbv zeta in Hq.
    rewrite ThreadRun.thread_run_memory, ThreadRun.thread_run_id in Hq.
    destruct (Hq ThreadExample.thread_md_ok ThreadRun.thread_run_events_ok)
      as (s3 & wk & sv & events & Hdrop & Hev & Hquery).
    + rewrite ThreadRun.thread_run_events. reflexivity.
    + split_and!; [repeat constructor; vm_compute; discriminate|split; vm_compute; congruence..].
    + exact ThreadRun.thread_run_can_post.
    + exact ThreadRun.thread_run_addressable.
    + apply ThreadRun.thread_run_covered; vm_compute; discriminate.
    + apply posting_input. vm_compute. reflexivity.
    + exact example_db.
    + vm_compute. reflexivity.
    + vm_compute. reflexivity.
    + exists s3, wk, sv. rewrite ThreadRun.thread_run_calls in Hev.
      destruct events as [|[] [|[] [|[] [|[] [|]]]]]; try discriminate Hev.
      injection Hev as -> -> -> -> -> -> -> ->. eexists. split; [exact Hdrop|]. split.
      * apply Hquery.
        -- repeat apply Forall_cons; try apply Forall_nil; vm_compute; reflexivity.
        -- repeat constructor; vm_compute; discriminate.
        -- split_and!; apply fits_short; vm_compute; discriminate.
      * vm_compute. reflexivity.
Defined.

Lemma process_to_spans_witness :
  exists s3 wk sv batch,
    HttpEventSink_drop (fun _ => true) (ingestion_server map_to_list "http://localhost" Z.of_nat) map_to_list
      "http://localhost" 16 3 0 input (w3 ThreadRun.st ThreadRun.cmds) (Worker_new 1000)
      (mkServer 0 (mkDataLakeConnection EndExample.db (mkBlobStorage ∅ "root"))) =
    Ok (set_sink s3 (w3 ThreadRun.st ThreadRun.cmds), wk, sv) /\
    query_spans (sv_lake sv) 100 50 0 1000 = Ok batch /\
    map a_values (skipn 4 (firstn 7 (rb_columns batch))) =
      map (map CInt) [[5; 100; 200]; [500; 400; 300]; [495; 300; 100]].
Proof.
  destruct (process_to_spans map_to_list map_to_list (fun m => Permutation_refl _)
    (fun m => Permutation_refl _) example_body su 1024 1024 1024 (w ThreadRun.st) (w1 ThreadRun.st)
    (result ThreadRun.st ThreadRun.cmds).1 ThreadRun.cmds (result ThreadRun.st ThreadRun.cmds).2
    (EndExample.c 1030) 3 ThreadRun.stream ThreadExample.strs input Z.of_nat "http://localhost" (fun _ => true)
    16 3 1000 EndExample.db "root" 0 1000 5 500 100 ThreadRun.mid []) as (w3' & E & Hq).
  - by split.
  - reflexivity.
  - reflexivity.
  - exact ThreadRun.thread_run_start.
  - exact ThreadRun.thread_run_ok.
  - reflexivity.
  - repeat constructor; set_solver.
  - discriminate.
  - exact ThreadRun.thread_run_result.
  - exact ThreadRun.thread_run_stream.
  - vm_compute. reflexivity.
  - vm_compute. split; [reflexivity|discriminate].
  - reflexivity.
  - apply run_shutdown in E. subst w3'. cbv zeta in Hq.
    rewrite ThreadRun.thread_run_memory, ThreadRun.thread_run_id in Hq.
    destruct (Hq ThreadExample.thread_md_ok ThreadRun.thread_run_events_ok)
      as (s3 & wk & sv & rh & tree & Hdrop & Hroot & _ & _ & Hquery).
    + rewrite ThreadRun.thread_run_events. reflexivity.
    + split_and!; [repeat constructor; vm_compute; discriminate|split; vm_compute; congruence..].
    + exact ThreadRun.thread_run_can_post.
    + exact ThreadRun.thread_run_addressable.
    + apply ThreadRun.thread_run_covered; vm_compute; discriminate.
    + apply posting_input. vm_compute. reflexivity.
    + exact example_db.
    + intros E. pose proof ThreadRun.thread_run_times as Et. by rewrite E in Et.
    + exact ThreadRun.thread_run_joined.
    + vm_compute. reflexivity.
    + vm_compute. reflexivity.
    + discriminate.
    + reflexivity.
    + exact ThreadRun.thread_run_calls.
    + repeat apply Forall_cons; try apply Forall_nil; eexists; (split; [vm_compute; reflexivity|lia]).
    + exists s3, wk, sv. destruct tree as [sc tree]. cbn [call_tree_root] in Hroot. subst tree.
      eexists. split; [exact Hdrop|]. split.
      * apply Hquery; [vm_compute; discriminate|]. apply spans_fit_short. vm_compute. discriminate.
      * vm_compute. reflexivity.
Defined.
