(* ===== verification/SpanTable.v ===== *)
(** * The tables of spans of the lakehouse

    [analytics-srv/src/lakehouse/column.rs], [parquet_buffer.rs] and
    [span_table.rs]: the rows of a call tree, the columns that hold them, the
    Parquet files they are written to, and the trees and levels of detail that
    are read back.  The call tree of this older server has times in
    milliseconds; its nodes, and the spans and tracks of an answer, were
    declared in another package, and are the records of the fields that the
    source uses. *)

From Stdlib Require Import Floats.SpecFloat.
From S2P Require Import Prelude Float Time.

(** ** column.rs *)

(** A column of a Parquet file *)
Inductive parquet_type := PInt32 | PInt64 | PDouble | PByteArray.
Inductive cell := CInt32 (z : Z) | CInt64 (z : Z) | CDouble (x : f64) | CBytes (b : buffer).
Definition cell_type (c : cell) : parquet_type :=
  match c with CInt32 _ => PInt32 | CInt64 _ => PInt64 | CDouble _ => PDouble | CBytes _ => PByteArray end.
#[export] Instance parquet_type_eq_dec : EqDecision parquet_type.
Proof. solve_decision. Defined.

Definition Column_append {T} (values : list T) (v : T) : list T := values ++ [v].
Definition Column_get {T} (values : list T) (i : nat) : exec T :=
  match values !! i with Some v => Ok v | None => bail "out of bounds reading column" end.

(** A column as a [TableColumn]: its type and its values *)
Record TableColumn := mkTableColumn { tc_type : parquet_type; tc_cells : list cell }.
Definition int32_column (values : list Z) : TableColumn := mkTableColumn PInt32 (map CInt32 values).
Definition int64_column (values : list Z) : TableColumn := mkTableColumn PInt64 (map CInt64 values).
Definition double_column (values : list f64) : TableColumn := mkTableColumn PDouble (map CDouble values).
Definition bytes_column (values : list buffer) : TableColumn := mkTableColumn PByteArray (map CBytes values).

(** The writer of a row group: the columns of the schema that are left, and
    those that were closed.  Nothing is written when no column is left, and a
    column of another type is closed as it is. *)
Record RowGroupWriter := mkRowGroupWriter { rg_next : list parquet_type; rg_columns : list (list cell) }.
Definition write_batch (c : TableColumn) (w : RowGroupWriter) : RowGroupWriter :=
  match rg_next w with
  | [] => w
  | ty :: next =>
      mkRowGroupWriter next (rg_columns w ++ [if decide (ty = tc_type c) then tc_cells c else []])
  end.

(** ** parquet_buffer.rs

    The library encodes the row groups of a schema, and reads the rows of a
    file. *)
Class ParquetFile := {
  close_row_group : list parquet_type -> list (list cell) -> exec unit;
  parquet_bytes : list parquet_type -> list (list (list cell)) -> exec buffer;
  get_row_iter : buffer -> exec (list (list cell))
}.
Record ParquetBufferWriter := mkParquetBufferWriter {
  pw_schema : list parquet_type;
  pw_groups : list (list (list cell))
}.
Definition ParquetBufferWriter_create (schema : list parquet_type) : ParquetBufferWriter :=
  mkParquetBufferWriter schema [].
Definition write_row_group `{ParquetFile} (columns : list TableColumn) (w : ParquetBufferWriter)
  : exec ParquetBufferWriter :=
  let row_group_writer := foldl (fun w c => write_batch c w) (mkRowGroupWriter (pw_schema w) []) columns in
  _ ← with_context "closing row group" (close_row_group (pw_schema w) (rg_columns row_group_writer));
  Ok (mkParquetBufferWriter (pw_schema w) (pw_groups w ++ [rg_columns row_group_writer])).
Definition ParquetBufferWriter_close `{ParquetFile} (w : ParquetBufferWriter) : exec buffer :=
  parquet_bytes (pw_schema w) (pw_groups w).

(** [row.get_int(i)] and the others *)
Definition get_cell {T} (f : cell -> option T) (row : list cell) (i : nat) : exec T :=
  match c ← row !! i; f c with Some x => Ok x | None => bail "cannot access column" end.
Definition get_int : list cell -> nat -> exec Z :=
  get_cell (fun c => match c with CInt32 z => Some z | _ => None end).
Definition get_long : list cell -> nat -> exec Z :=
  get_cell (fun c => match c with CInt64 z => Some z | _ => None end).
Definition get_double : list cell -> nat -> exec f64 :=
  get_cell (fun c => match c with CDouble x => Some x | _ => None end).
Definition get_bytes_cell : list cell -> nat -> exec buffer :=
  get_cell (fun c => match c with CBytes b => Some b | _ => None end).

(** ** span_table.rs *)
Record SpanRow := mkSpanRow {
  sr_hash : Z;
  sr_depth : Z;
  sr_begin_ms : f64;
  sr_end_ms : f64;
  sr_id : Z;
  sr_parent : Z
}.
Record SpanRowGroup := mkSpanRowGroup {
  hashes : list Z;
  depths : list Z;
  begins : list f64;
  ends : list f64;
  ids : list Z;
  parents : list Z
}.
Definition SpanRowGroup_new : SpanRowGroup := mkSpanRowGroup [] [] [] [] [] [].
Definition SpanRowGroup_len (g : SpanRowGroup) : nat := length (hashes g).
Definition SpanRowGroup_get (g : SpanRowGroup) (i : nat) : exec SpanRow :=
  hash ← Column_get (hashes g) i;
  depth ← Column_get (depths g) i;
  begin_ms ← Column_get (begins g) i;
  end_ms ← Column_get (ends g) i;
  id ← Column_get (ids g) i;
  parent ← Column_get (parents g) i;
  Ok (mkSpanRow (wrap_u 32 hash) (wrap_u 32 depth) begin_ms end_ms id parent).
Definition SpanRowGroup_append (g : SpanRowGroup) (row : SpanRow) : SpanRowGroup :=
  mkSpanRowGroup (Column_append (hashes g) (wrap_i 32 (sr_hash row)))
    (Column_append (depths g) (wrap_i 32 (sr_depth row))) (Column_append (begins g) (sr_begin_ms row))
    (Column_append (ends g) (sr_end_ms row)) (Column_append (ids g) (sr_id row))
    (Column_append (parents g) (sr_parent row)).
Definition SpanRowGroup_get_columns (g : SpanRowGroup) : list TableColumn :=
  [int32_column (hashes g); int32_column (depths g); double_column (begins g); double_column (ends g);
   int64_column (ids g); int64_column (parents g)].
Definition spans_schema : list parquet_type := [PInt32; PInt32; PDouble; PDouble; PInt64; PInt64].
Definition make_spans_table_writer : ParquetBufferWriter := ParquetBufferWriter_create spans_schema.

(** A node of the older call tree *)
Inductive SpanNode := mkSpanNode {
  sn_hash : Z;
  sn_begin_ms : f64;
  sn_end_ms : f64;
  sn_children : list SpanNode
}.

Definition u32_checked (z : Z) : exec Z := if (0 <=? z) && (z <? 2 ^ 32) then Ok z else Panic.

(** The closure appends the row to the table. *)
Fixpoint make_rows_from_tree_impl (tree : SpanNode) (parent depth next_id : Z) (table : SpanRowGroup)
  : exec (Z * SpanRowGroup) :=
  _ ← assert_true (negb (sn_hash tree =? 0));
  let span_id := next_id in
  next_id ← i64_checked (next_id + 1);
  let table := SpanRowGroup_append table
    (mkSpanRow (sn_hash tree) depth (sn_begin_ms tree) (sn_end_ms tree) span_id parent) in
  foldM (fun '(next_id, table) child =>
    depth ← u32_checked (depth + 1);
    make_rows_from_tree_impl child span_id depth next_id table) (next_id, table) (sn_children tree).
Definition make_rows_from_tree (tree : SpanNode) (next_id : Z) (table : SpanRowGroup)
  : exec (Z * SpanRowGroup) :=
  if sn_hash tree =? 0 then
    foldM (fun '(next_id, table) child => make_rows_from_tree_impl child 0 0 next_id table) (next_id, table)
      (sn_children tree)
  else make_rows_from_tree_impl tree 0 0 next_id table.

(** *** Levels of detail *)
Record Span_ := mkSpan_ { sp_scope_hash : Z; sp_begin_ms : f64; sp_end_ms : f64; sp_alpha : Z }.
Record SpanBlockLod := mkSpanBlockLod { sl_lod_id : Z; sl_tracks : list (list Span_) }.

(** The body of the loops; [depth as usize] is the index of a track. *)
Definition add_span (tracks : list (list Span_)) (depth : Z) (span : Span_) : exec (list (list Span_)) :=
  let tracks := if Z.of_nat (length tracks) <=? depth then tracks ++ [[]] else tracks in
  match tracks !! Z.to_nat depth with
  | Some spans => Ok (<[Z.to_nat depth := spans ++ [span]]> tracks)
  | None => Panic
  end.
Definition build_spans_lod0 (rows : list (list cell)) : exec SpanBlockLod :=
  tracks ← foldM (fun tracks row =>
      hash ← get_int row 0;
      depth ← get_int row 1;
      begin ← get_double row 2;
      end_ ← get_double row 3;
      add_span tracks (wrap_u 64 depth) (mkSpan_ (wrap_u 32 hash) begin end_ 255)) [] rows;
  Ok (mkSpanBlockLod 0 tracks).

(** *** Trees *)
Definition f64_MAX : f64 := S754_finite false (2 ^ 53 - 1)%positive 971.
Definition f64_MIN : f64 := S754_finite true (2 ^ 53 - 1)%positive 971.
Definition is_nan (x : f64) : bool := match x with S754_nan => true | _ => false end.
Definition f64_min (x y : f64) : f64 :=
  if is_nan x then y else if is_nan y then x else if SFltb y x then y else x.
Definition f64_max (x y : f64) : f64 :=
  if is_nan x then y else if is_nan y then x else if SFltb x y then y else x.

Record TabularSpanTree := mkTabularSpanTree {
  tt_span_rows : gmap Z SpanRow;
  tt_span_children : gmap Z (list Z);
  tt_roots : list Z;
  tt_ids : list Z;
  tt_begin_ms : f64;
  tt_end_ms : f64
}.
Definition TabularSpanTree_new : TabularSpanTree := mkTabularSpanTree ∅ ∅ [] [] f64_MAX f64_MIN.
Definition is_empty (t : TabularSpanTree) : bool := match tt_ids t with [] => true | _ => false end.
Definition get_span (t : TabularSpanTree) (id : Z) : exec SpanRow :=
  match tt_span_rows t !! id with Some row => Ok row | None => bail "accessing span in TabularSpanTree" end.
Definition get_row (t : TabularSpanTree) (index : nat) : exec SpanRow :=
  match tt_ids t !! index with
  | Some id => get_span t id
  | None => bail "out of bounds reading id in TabularSpanTree"
  end.

(** The body of the loops of [from_rows] and [build_span_tree] *)
Definition insert_row (tree : TabularSpanTree) (row : SpanRow) : TabularSpanTree :=
  let begin_ms := f64_min (tt_begin_ms tree) (sr_begin_ms row) in
  let end_ms := f64_max begin_ms (sr_end_ms row) in
  mkTabularSpanTree (<[sr_id row := row]> (tt_span_rows tree))
    (<[sr_parent row := default [] (tt_span_children tree !! sr_parent row) ++ [sr_id row]]>
       (tt_span_children tree))
    (if sr_depth row =? 0 then tt_roots tree ++ [sr_id row] else tt_roots tree)
    (tt_ids tree ++ [sr_id row]) begin_ms end_ms.
Definition from_rows (rows : SpanRowGroup) : exec TabularSpanTree :=
  foldM (fun tree i => row ← SpanRowGroup_get rows i; Ok (insert_row tree row)) TabularSpanTree_new
    (seq 0 (SpanRowGroup_len rows)).
Definition build_span_tree (rows : list (list cell)) : exec TabularSpanTree :=
  foldM (fun tree row =>
      id ← get_long row 4;
      parent ← get_long row 5;
      depth ← get_int row 1;
      hash ← get_int row 0;
      begin_ms ← get_double row 2;
      end_ms ← get_double row 3;
      Ok (insert_row tree (mkSpanRow (wrap_u 32 hash) (wrap_u 32 depth) begin_ms end_ms id parent)))
    TabularSpanTree_new rows.
Definition lod0_from_span_tree (tree : TabularSpanTree) : exec SpanBlockLod :=
  tracks ← foldM (fun tracks index =>
      row ← get_row tree index;
      add_span tracks (sr_depth row) (mkSpan_ (sr_hash row) (sr_begin_ms row) (sr_end_ms row) 255)) []
    (seq 0 (length (tt_ids tree)));
  Ok (mkSpanBlockLod 0 tracks).
