(* ===== verification/Lakehouse.v ===== *)
(** * The just-in-time lakehouse

    [analytics-srv/src/lakehouse/scope_table.rs], [jit_lakehouse.rs],
    [local_jit_lakehouse.rs] and [remote_jit_lakehouse.rs]: the tables of a
    block are made when they are first asked for, and read afterwards.  The
    local and the remote lakehouse differ in where tables are stored
    ([TableStore]): [write_to_file] of [parquet_buffer.rs], or an object store.
    How the older server processed a thread block is a
    parameter: its sources are not in the repository. *)

From Stdlib Require Import Floats.SpecFloat.
From S2P Require Import Prelude RustString Float Time SpanTable.

(** ** scope_table.rs *)
Record ScopeRow := mkScopeRow {
  sc_name : string;
  sc_filename : string;
  sc_line : Z;
  sc_hash : Z
}.
Abbreviation ScopeMap := (gmap Z ScopeRow).
Record ScopeRowGroup := mkScopeRowGroup {
  sg_hashes : list Z;
  sg_names : list buffer;
  sg_filenames : list buffer;
  sg_lines : list Z
}.
Definition ScopeRowGroup_new : ScopeRowGroup := mkScopeRowGroup [] [] [] [].
Definition ScopeRowGroup_append (g : ScopeRowGroup) (row : ScopeRow) : ScopeRowGroup :=
  mkScopeRowGroup (Column_append (sg_hashes g) (wrap_i 32 (sc_hash row)))
    (Column_append (sg_names g) (bytes_of (sc_name row)))
    (Column_append (sg_filenames g) (bytes_of (sc_filename row)))
    (Column_append (sg_lines g) (wrap_i 32 (sc_line row))).
Definition ScopeRowGroup_get_columns (g : ScopeRowGroup) : list TableColumn :=
  [int32_column (sg_hashes g); bytes_column (sg_names g); bytes_column (sg_filenames g);
   int32_column (sg_lines g)].
Definition scopes_schema : list parquet_type := [PInt32; PByteArray; PByteArray; PInt32].
Definition make_scopes_table_writer : ParquetBufferWriter := ParquetBufferWriter_create scopes_schema.

(** ** Stores of tables *)
Class TableStore (Sigma : Type) := {
  table_exists : Sigma -> string -> exec bool;
  read_table : Sigma -> string -> exec buffer;
  write_table : Sigma -> string -> buffer -> exec Sigma
}.

(** A file is opened to be written from its start, and is not truncated. *)
Record LocalFiles := mkLocalFiles { lf_files : gmap string buffer }.
Definition write_to_file (s : LocalFiles) (filepath : string) (b : buffer) : LocalFiles :=
  let old := default [] (lf_files s !! filepath) in
  mkLocalFiles (<[filepath := b ++ drop (length b) old]> (lf_files s)).
#[export] Instance LocalFiles_TableStore : TableStore LocalFiles := {|
  table_exists s path := Ok (bool_decide (is_Some (lf_files s !! path)));
  read_table s path := match lf_files s !! path with Some b => Ok b | None => bail "No such file or directory" end;
  write_table s path b := Ok (write_to_file s path b)
|}.

(** An object is replaced. *)
Record RemoteObjects := mkRemoteObjects { ro_objects : gmap string buffer }.
#[export] Instance RemoteObjects_TableStore : TableStore RemoteObjects := {|
  table_exists s key := Ok (bool_decide (is_Some (ro_objects s !! key)));
  read_table s key := match ro_objects s !! key with Some b => Ok b | None => bail "NoSuchKey" end;
  write_table s key b := Ok (mkRemoteObjects (<[key := b]> (ro_objects s)))
|}.

(** ** The lakehouse *)
Record BlockSpansReply := mkBlockSpansReply {
  br_scopes : ScopeMap;
  br_lod : option SpanBlockLod;
  br_block_id : string;
  br_begin_ms : f64;
  br_end_ms : f64
}.

Section lakehouse.
Context {Sigma : Type} `{TableStore Sigma} `{ParquetFile}.
(** The order in which the map of scopes is iterated *)
Context (iter_scopes : ScopeMap -> list (Z * ScopeRow)).

Definition make_scope_rows (scopes : ScopeMap) : ScopeRowGroup :=
  foldl (fun rows kv => ScopeRowGroup_append rows kv.2) ScopeRowGroup_new (iter_scopes scopes).
Definition write_scopes (scopes : ScopeMap) (path : string) (s : Sigma) : exec Sigma :=
  writer ← write_row_group (ScopeRowGroup_get_columns (make_scope_rows scopes)) make_scopes_table_writer;
  b ← ParquetBufferWriter_close writer;
  write_table s path b.
Definition write_spans (rows : SpanRowGroup) (path : string) (s : Sigma) : exec Sigma :=
  writer ← write_row_group (SpanRowGroup_get_columns rows) make_spans_table_writer;
  b ← ParquetBufferWriter_close writer;
  write_table s path b.

Definition read_spans_lod0 (path : string) (s : Sigma) : exec SpanBlockLod :=
  b ← read_table s path;
  rows ← get_row_iter b;
  build_spans_lod0 rows.
Definition read_tree (path : string) (s : Sigma) : exec TabularSpanTree :=
  b ← read_table s path;
  rows ← get_row_iter b;
  build_span_tree rows.
Definition read_scopes (path : string) (s : Sigma) : exec ScopeMap :=
  b ← read_table s path;
  rows ← get_row_iter b;
  foldM (fun (scopes : ScopeMap) row =>
    hash ← get_int row 0;
    name ← get_bytes_cell row 1;
    filename ← get_bytes_cell row 2;
    line ← get_int row 3;
    Ok (<[wrap_u 32 hash := mkScopeRow (from_utf8_lossy name) (from_utf8_lossy filename) (wrap_u 32 line)
            (wrap_u 32 hash)]> scopes)) ∅ rows.

(** [process_thread_block], for a block: its scopes and the root of its tree *)
Context (process_thread_block : string -> exec (ScopeMap * option SpanNode)).

Definition write_call_tree (block_id spans_path scopes_path : string) (s : Sigma)
  : exec (ScopeMap * TabularSpanTree * Sigma) :=
  '(scopes, call_tree_root) ← process_thread_block block_id;
  match call_tree_root with
  | None => Ok (∅, TabularSpanTree_new, s)
  | Some root =>
      '(_, rows) ← make_rows_from_tree root 1 SpanRowGroup_new;
      s ← write_spans rows spans_path s;
      s ← write_scopes scopes scopes_path s;
      tree ← from_rows rows;
      Ok (scopes, tree, s)
  end.

Definition read_thread_block (block_id spans_path scopes_path : string) (s : Sigma)
  : exec BlockSpansReply :=
  lod ← read_spans_lod0 spans_path s;
  scopes ← read_scopes scopes_path s;
  let '(min_begin, max_end) :=
    match sl_tracks lod with
    | (first :: rest) :: _ => (sp_begin_ms first, sp_end_ms (List.last rest first))
    | _ => (f64_MAX, f64_MIN)
    end in
  Ok (mkBlockSpansReply scopes (Some lod) block_id min_begin max_end).
Definition read_tree_block (spans_path scopes_path : string) (s : Sigma)
  : exec (ScopeMap * TabularSpanTree) :=
  scopes ← read_scopes scopes_path s;
  tree ← read_tree spans_path s;
  Ok (scopes, tree).

(** The two tables of a block: [get_table_files], or [get_table_keys] *)
Definition table_path (root table process_id block_id : string) : string :=
  String.append root (String.append table (String.append "/process_id=" (String.append process_id
    (String.append "/block_id=" (String.append block_id (String.append "/" (String.append table ".parquet"))))))).
Definition get_table_paths (root process_id block_id : string) : string * string :=
  (table_path root "spans" process_id block_id, table_path root "scopes" process_id block_id).

Definition tables_missing (spans_path scopes_path : string) (s : Sigma) : exec bool :=
  spans_exist ← table_exists s spans_path;
  if negb spans_exist then Ok true else
  scopes_exist ← table_exists s scopes_path;
  Ok (negb scopes_exist).

Definition get_thread_block (root process_id block_id : string) (s : Sigma) : exec (BlockSpansReply * Sigma) :=
  let '(spans_path, scopes_path) := get_table_paths root process_id block_id in
  missing ← tables_missing spans_path scopes_path s;
  if missing : bool then
    '(scopes, tree, s) ← write_call_tree block_id spans_path scopes_path s;
    if is_empty tree then
      Ok (mkBlockSpansReply ∅ (Some (mkSpanBlockLod 0 [])) block_id f64_MAX f64_MIN, s)
    else
      lod ← lod0_from_span_tree tree;
      root_span ← get_row tree 0;
      Ok (mkBlockSpansReply scopes (Some lod) block_id (sr_begin_ms root_span) (sr_end_ms root_span), s)
  else
    reply ← read_thread_block block_id spans_path scopes_path s;
    Ok (reply, s).

Definition get_call_tree (root process_id block_id : string) (s : Sigma)
  : exec (ScopeMap * TabularSpanTree * Sigma) :=
  let '(spans_path, scopes_path) := get_table_paths root process_id block_id in
  missing ← tables_missing spans_path scopes_path s;
  if missing : bool then write_call_tree block_id spans_path scopes_path s
  else
    '(scopes, tree) ← read_tree_block spans_path scopes_path s;
    Ok (scopes, tree, s).
End lakehouse.
