(* ===== verification/LakehouseSpec.v ===== *)
(** * What the lakehouse answers

    The tables of a block hold the nodes of its call tree in preorder, and the
    answers that are read in them are those that were computed when they were
    written, but for the end of a block with several roots. *)

From Stdlib Require Import Floats.SpecFloat.
From S2P Require Import Prelude RustString Float Time SpanTable Lakehouse.

Lemma SpanNode_ind' (P : SpanNode -> Prop) :
  (forall h b e cs, Forall P cs -> P (mkSpanNode h b e cs)) -> forall t, P t.
Proof.
  intros H. fix IH 1. intros [h b e cs]. apply H. induction cs as [|c cs IHcs]; constructor; [apply IH|exact IHcs].
Qed.

(** ** The rows of a tree *)

(** The nodes in preorder, numbered from [id] *)
Fixpoint span_rows (parent depth id : Z) (t : SpanNode) : list SpanRow :=
  mkSpanRow (sn_hash t) depth (sn_begin_ms t) (sn_end_ms t) id parent ::
  (fix go n ts :=
     match ts with
     | [] => []
     | c :: ts => let rows := span_rows id (depth + 1) n c in rows ++ go (n + Z.of_nat (length rows)) ts
     end) (id + 1) (sn_children t).
Fixpoint forest_rows (parent depth id : Z) (ts : list SpanNode) : list SpanRow :=
  match ts with
  | [] => []
  | c :: ts =>
      let rows := span_rows parent depth id c in
      rows ++ forest_rows parent depth (id + Z.of_nat (length rows)) ts
  end.
Definition tree_rows (t : SpanNode) : list SpanRow :=
  if sn_hash t =? 0 then forest_rows 0 0 1 (sn_children t) else span_rows 0 0 1 t.

Lemma span_rows_eq parent depth id t :
  span_rows parent depth id t =
  mkSpanRow (sn_hash t) depth (sn_begin_ms t) (sn_end_ms t) id parent ::
  forest_rows id (depth + 1) (id + 1) (sn_children t).
Proof.
  destruct t as [h b e cs]. cbn [span_rows sn_hash sn_begin_ms sn_end_ms sn_children]. f_equal.
  generalize (id + 1). induction cs as [|c cs IH]; intros n; [done|]. cbn [forest_rows]. by rewrite IH.
Qed.

(** The hash of a scope is not zero, and the tree is not too deep. *)
Inductive node_ok : Z -> SpanNode -> Prop :=
| node_ok_intro depth t :
    0 < sn_hash t < 2 ^ 32 -> 0 <= depth < 2 ^ 31 -> Forall (node_ok (depth + 1)) (sn_children t) ->
    node_ok depth t.
Definition tree_ok (t : SpanNode) : Prop :=
  if sn_hash t =? 0 then Forall (node_ok 0) (sn_children t) else node_ok 0 t.

Definition append_rows (table : SpanRowGroup) (rows : list SpanRow) : SpanRowGroup :=
  foldl SpanRowGroup_append table rows.

Definition makes_rows (t : SpanNode) : Prop :=
  forall parent depth id table,
    node_ok depth t -> - 2 ^ 63 <= id -> id + Z.of_nat (length (span_rows parent depth id t)) < 2 ^ 63 ->
    make_rows_from_tree_impl t parent depth id table =
      Ok (id + Z.of_nat (length (span_rows parent depth id t)), append_rows table (span_rows parent depth id t)).

Lemma make_forest parent depth children (f : Z * SpanRowGroup -> SpanNode -> exec (Z * SpanRowGroup)) :
  (forall child id table, node_ok depth child ->
    f (id, table) child = make_rows_from_tree_impl child parent depth id table) ->
  Forall makes_rows children -> Forall (node_ok depth) children ->
  forall id table, - 2 ^ 63 <= id -> id + Z.of_nat (length (forest_rows parent depth id children)) < 2 ^ 63 ->
  foldM f (id, table) children =
    Ok (id + Z.of_nat (length (forest_rows parent depth id children)),
        append_rows table (forest_rows parent depth id children)).
Proof.
  intros Hf HP Hok. induction HP as [|c cs Hc _ IH]; intros id table Hid Hlen.
  { cbn. do 2 f_equal. lia. }
  inversion_clear Hok as [|? ? Hokc Hoks]. cbn [forest_rows foldM] in *. rewrite length_app in *.
  rewrite Hf, Hc by (done || lia). cbn [mbind exec_bind]. rewrite IH by (done || lia).
  unfold append_rows. rewrite foldl_app. do 2 f_equal. lia.
Qed.

Lemma make_rows t : makes_rows t.
Proof.
  induction t as [h b e cs IH] using SpanNode_ind'. intros parent depth id table Hok Hid Hlen.
  inversion Hok as [? ? Hh Hd Hcs]; subst. rewrite span_rows_eq in *. cbn [sn_hash sn_begin_ms sn_end_ms sn_children] in *.
  cbn [length] in *. cbn [make_rows_from_tree_impl sn_hash sn_begin_ms sn_end_ms sn_children].
  rewrite (proj2 (Z.eqb_neq _ _)) by lia. cbn [negb assert_true mbind exec_bind].
  assert (i64_checked (id + 1) = Ok (id + 1)) as -> by (apply i64_checked_Ok; split; [done|unfold in_i; lia]).
  cbn [mbind exec_bind]. rewrite (make_forest id (depth + 1)); [| |done|done|lia|lia].
  - unfold append_rows. cbn [foldl]. do 2 f_equal. lia.
  - intros child n tab Hc. assert (u32_checked (depth + 1) = Ok (depth + 1)) as ->; [|done].
    unfold u32_checked. rewrite (proj2 (andb_true_iff _ _)); [done|]. lia.
Qed.

Lemma make_tree_rows t :
  tree_ok t -> Z.of_nat (length (tree_rows t)) < 2 ^ 63 - 1 ->
  exists n, make_rows_from_tree t 1 SpanRowGroup_new = Ok (n, append_rows SpanRowGroup_new (tree_rows t)).
Proof.
  unfold tree_ok, tree_rows, make_rows_from_tree. destruct (sn_hash t =? 0); intros Hok Hlen; eexists.
  - rewrite (make_forest 0 0); [reflexivity|done| |done|lia..]. apply List.Forall_forall. intros c _. apply make_rows.
  - apply make_rows; [done|lia..].
Qed.

(** ** What the rows are *)
Definition row_ok (r : SpanRow) : Prop := in_u 32 (sr_hash r) /\ 0 <= sr_depth r < 2 ^ 31.
(** A row is at most one level deeper than those before it. *)
Fixpoint depths_ok (k : Z) (rows : list SpanRow) : Prop :=
  match rows with
  | [] => True
  | r :: rows => 0 <= sr_depth r <= k /\ depths_ok (Z.max k (sr_depth r + 1)) rows
  end.
Lemma depths_ok_app k rows rows' :
  depths_ok k rows -> depths_ok k rows' -> depths_ok k (rows ++ rows').
Proof.
  assert (forall k k' rows, k <= k' -> depths_ok k rows -> depths_ok k' rows) as Hmono.
  { intros j j' l. revert j j'. induction l as [|r l IH]; intros j j' Hj; [done|]. cbn [depths_ok].
    intros [H1 H2]. split; [lia|]. eapply IH; [|done]. lia. }
  revert k. induction rows as [|r rows IH]; intros k; [done|]. cbn [depths_ok app].
  intros [H1 H2] H3. split; [done|]. apply IH; [done|]. eapply Hmono; [|done]. lia.
Qed.

Record rows_ok (depth id : Z) (rows : list SpanRow) : Prop := {
  ro_rows : Forall row_ok rows;
  ro_ids : map sr_id rows = seqZ id (Z.of_nat (length rows));
  ro_depths : forall k, depth <= k -> depths_ok k rows;
  ro_deep : Forall (fun r => depth <= sr_depth r) rows
}.
Lemma rows_ok_nil depth id : rows_ok depth id [].
Proof. by split; [constructor| |intros|constructor]. Qed.
Lemma rows_ok_app depth id rows rows' :
  rows_ok depth id rows -> rows_ok depth (id + Z.of_nat (length rows)) rows' -> rows_ok depth id (rows ++ rows').
Proof.
  intros [R1 I1 D1 L1] [R2 I2 D2 L2]. split; [by apply Forall_app| | |by apply Forall_app].
  - rewrite map_app, length_app, I1, I2, Nat2Z.inj_add. by rewrite seqZ_app by lia.
  - intros k Hk. by apply depths_ok_app; [apply D1|apply D2].
Qed.

Lemma forest_rows_ok parent depth ts :
  Forall (fun t => forall parent depth id, node_ok depth t -> rows_ok depth id (span_rows parent depth id t)) ts ->
  Forall (node_ok depth) ts -> forall id, rows_ok depth id (forest_rows parent depth id ts).
Proof.
  intros HP Hok. induction HP as [|t ts Ht _ IH]; intros id; [apply rows_ok_nil|].
  inversion_clear Hok as [|? ? Hokt Hokts]. cbn [forest_rows].
  apply rows_ok_app; [by apply Ht|by apply IH].
Qed.
Lemma span_rows_ok t : forall parent depth id, node_ok depth t -> rows_ok depth id (span_rows parent depth id t).
Proof.
  induction t as [h b e cs IH] using SpanNode_ind'. intros parent depth id Hok.
  inversion Hok as [? ? Hh Hd Hcs]; subst. rewrite span_rows_eq. cbn [sn_hash sn_begin_ms sn_end_ms sn_children] in *.
  destruct (forest_rows_ok id (depth + 1) cs IH Hcs (id + 1)) as [R I D L]. split.
  - constructor; [|done]. split; cbn; unfold in_u; lia.
  - cbn [map length sr_id]. rewrite I. rewrite (seqZ_cons id) by lia. f_equal. f_equal; lia.
  - intros k Hk. cbn [depths_ok sr_depth]. split; [lia|]. apply D. lia.
  - constructor; [cbn; lia|]. eapply List.Forall_impl; [|exact L]. cbn. intros; lia.
Qed.
Lemma tree_rows_ok t : tree_ok t -> rows_ok 0 1 (tree_rows t).
Proof.
  unfold tree_ok, tree_rows. destruct (sn_hash t =? 0); intros Hok; [|by apply span_rows_ok].
  apply forest_rows_ok; [|done]. apply List.Forall_forall. intros t' _. apply span_rows_ok.
Qed.

(** ** The columns of the rows *)
Definition group_of (rows : list SpanRow) : SpanRowGroup :=
  mkSpanRowGroup (map (fun r => wrap_i 32 (sr_hash r)) rows) (map (fun r => wrap_i 32 (sr_depth r)) rows)
    (map sr_begin_ms rows) (map sr_end_ms rows) (map sr_id rows) (map sr_parent rows).
Lemma append_rows_group rows : append_rows SpanRowGroup_new rows = group_of rows.
Proof.
  unfold append_rows. induction rows as [|r rows IH] using rev_ind; [done|].
  rewrite foldl_app, IH. unfold group_of. rewrite !map_app. done.
Qed.

Lemma wrap_u_i z : in_u 32 z -> wrap_u 32 (wrap_i 32 z) = z.
Proof.
  unfold in_u, wrap_u, wrap_i. intros Hz.
  destruct (Z.lt_ge_cases z (2 ^ 31)) as [H|H].
  - rewrite (Z.mod_small (z + 2 ^ (32 - 1))) by lia. replace (z + 2 ^ (32 - 1) - 2 ^ (32 - 1)) with z by lia.
    by apply Z.mod_small.
  - replace (z + 2 ^ (32 - 1)) with (z - 2 ^ 31 + 1 * 2 ^ 32) by lia. rewrite Z.mod_add by lia.
    rewrite (Z.mod_small (z - 2 ^ 31)) by lia.
    replace (z - 2 ^ 31 - 2 ^ (32 - 1)) with (z + (-1) * 2 ^ 32) by lia. rewrite Z.mod_add by lia.
    by apply Z.mod_small.
Qed.

Lemma Column_get_map {T} (f : SpanRow -> T) rows i r :
  rows !! i = Some r -> Column_get (map f rows) i = Ok (f r).
Proof. intros E. unfold Column_get. by rewrite list_lookup_fmap, E. Qed.
Lemma group_get rows i r :
  Forall row_ok rows -> rows !! i = Some r -> SpanRowGroup_get (group_of rows) i = Ok r.
Proof.
  intros Hok E. pose proof (Forall_lookup_1 _ _ _ _ Hok E) as [Hh Hd].
  unfold SpanRowGroup_get, group_of. cbn [hashes depths begins ends ids parents].
  rewrite !(Column_get_map _ rows i r E). cbn [mbind exec_bind]. rewrite !wrap_u_i by (unfold in_u in *; lia).
  by destruct r.
Qed.

(** A loop over the indices of a list *)
Lemma foldM_indexed {A S} (g : nat -> exec A) (f : S -> A -> exec S) rows k s :
  (forall i r, rows !! i = Some r -> g (k + i)%nat = Ok r) ->
  foldM (fun s i => r ← g i; f s r) s (seq k (length rows)) = foldM f s rows.
Proof.
  revert k s. induction rows as [|r rows IH]; intros k s Hg; [done|]. cbn [length seq foldM].
  pose proof (Hg 0%nat r eq_refl) as H0. rewrite Nat.add_0_r in H0. rewrite H0. cbn [mbind exec_bind].
  destruct (f s r); try done. cbn [mbind exec_bind]. apply IH. intros i r' E. rewrite Nat.add_succ_comm. by apply Hg.
Qed.
Lemma foldM_pure {A S} (f : S -> A -> S) rows s : foldM (fun s r => Ok (f s r)) s rows = Ok (foldl f s rows).
Proof. revert s. induction rows as [|r rows IH]; intros s; [done|]. apply IH. Qed.

Lemma foldM_map {A B S} (f : S -> B -> exec S) (f' : S -> A -> exec S) (g : A -> B) rows s :
  (forall s r, r ∈ rows -> f s (g r) = f' s r) -> foldM f s (map g rows) = foldM f' s rows.
Proof.
  revert s. induction rows as [|r rows IH]; intros s H; [done|]. cbn [map foldM]. rewrite H by left.
  destruct (f' s r); try done. cbn [mbind exec_bind]. apply IH. intros s' r' Hr. apply H. by right.
Qed.

Definition tree_of (rows : list SpanRow) : TabularSpanTree := foldl insert_row TabularSpanTree_new rows.
Lemma from_rows_group rows : Forall row_ok rows -> from_rows (group_of rows) = Ok (tree_of rows).
Proof.
  intros Hok. unfold from_rows, SpanRowGroup_len, group_of. cbn [hashes]. rewrite length_map. fold (group_of rows).
  rewrite (foldM_indexed _ (fun t r => Ok (insert_row t r))); [apply foldM_pure|].
  intros i r E. by apply group_get.
Qed.

(** ** The cells of the rows *)
Definition span_cells (r : SpanRow) : list cell :=
  [CInt32 (wrap_i 32 (sr_hash r)); CInt32 (wrap_i 32 (sr_depth r)); CDouble (sr_begin_ms r);
   CDouble (sr_end_ms r); CInt64 (sr_id r); CInt64 (sr_parent r)].
Lemma build_span_tree_cells rows :
  Forall row_ok rows -> build_span_tree (map span_cells rows) = Ok (tree_of rows).
Proof.
  unfold build_span_tree, tree_of. generalize TabularSpanTree_new.
  induction rows as [|r rows IH]; intros t Hok; [done|]. inversion_clear Hok as [|? ? [Hh Hd] Hrows].
  cbn. rewrite !wrap_u_i by (unfold in_u in *; lia).
  replace (mkSpanRow (sr_hash r) (sr_depth r) (sr_begin_ms r) (sr_end_ms r) (sr_id r) (sr_parent r)) with r
    by by destruct r.
  by apply IH.
Qed.

(** ** Levels of detail *)
Definition span_of (r : SpanRow) : Span_ := mkSpan_ (sr_hash r) (sr_begin_ms r) (sr_end_ms r) 255.
Definition track (rows : list SpanRow) (depth : Z) : list Span_ :=
  map span_of (List.filter (fun r => sr_depth r =? depth) rows).
Definition levels (k : Z) (rows : list SpanRow) : list (list Span_) := map (track rows) (seqZ 0 k).
(** The number of levels of rows *)
Definition height (rows : list SpanRow) : Z := foldl (fun k r => Z.max k (sr_depth r + 1)) 0 rows.
Definition lod_of (rows : list SpanRow) : SpanBlockLod := mkSpanBlockLod 0 (levels (height rows) rows).

Lemma track_app rows r d :
  track (rows ++ [r]) d = track rows d ++ (if sr_depth r =? d then [span_of r] else []).
Proof. unfold track. rewrite List.filter_app, map_app. cbn. by destruct (sr_depth r =? d). Qed.

Lemma track_none rows d : Forall (fun r => sr_depth r < d) rows -> track rows d = [].
Proof.
  unfold track. induction 1 as [|r rows Hr _ IH]; [done|]. cbn.
  by rewrite (proj2 (Z.eqb_neq _ _)) by lia.
Qed.
Lemma add_span_level k rows r :
  0 <= k -> Forall (fun r => sr_depth r < k) rows -> 0 <= sr_depth r <= k ->
  add_span (levels k rows) (sr_depth r) (span_of r) = Ok (levels (Z.max k (sr_depth r + 1)) (rows ++ [r])).
Proof.
  intros Hk Hrows Hd. set (d := sr_depth r) in *. set (k' := Z.max k (d + 1)).
  assert (Z.of_nat (length (levels k rows)) = k) as Hlen.
  { unfold levels. rewrite length_map, length_seqZ. lia. }
  unfold add_span. rewrite Hlen.
  assert ((if k <=? d then levels k rows ++ [[]] else levels k rows) = levels k' rows) as ->.
  { destruct (Z.leb_spec k d); [|unfold k'; by rewrite Z.max_l by lia].
    assert (d = k) as E by lia. unfold k', levels. rewrite E, Z.max_r by lia.
    rewrite seqZ_app, map_app by lia. f_equal. change (seqZ (0 + k) 1) with [0 + k]. cbn.
    by rewrite track_none. }
  assert (levels k' rows !! Z.to_nat d = Some (track rows d)) as E.
  { unfold levels. rewrite list_lookup_fmap, lookup_seqZ_lt by lia. cbn. f_equal. f_equal. lia. }
  rewrite E. f_equal. apply list_eq. intros i. destruct (decide (i = Z.to_nat d)) as [->|Hi].
  - rewrite list_lookup_insert_eq by by eapply lookup_lt_Some. unfold levels.
    rewrite list_lookup_fmap, lookup_seqZ_lt by lia. cbn. rewrite track_app. rewrite Z2Nat.id by lia.
    fold d. by rewrite Z.eqb_refl.
  - rewrite list_lookup_insert_ne by done. unfold levels. rewrite !list_lookup_fmap.
    destruct (seqZ 0 k' !! i) as [e|] eqn:Ee; [|done]. apply lookup_seqZ in Ee as [-> ?]. cbn.
    rewrite track_app. fold d. rewrite (proj2 (Z.eqb_neq _ _)) by lia. by rewrite app_nil_r.
Qed.
Lemma add_spans rows : forall k seen,
  0 <= k -> Forall (fun r => sr_depth r < k) seen -> depths_ok k rows ->
  foldM (fun tracks r => add_span tracks (sr_depth r) (span_of r)) (levels k seen) rows =
    Ok (levels (foldl (fun k r => Z.max k (sr_depth r + 1)) k rows) (seen ++ rows)).
Proof.
  induction rows as [|r rows IH]; intros k seen Hk Hseen Hok; [by rewrite app_nil_r|].
  destruct Hok as [Hd Hok]. cbn [foldM foldl]. rewrite add_span_level by done. cbn [mbind exec_bind].
  rewrite IH; [by rewrite <- app_assoc|lia| |done]. apply Forall_app. split; [|constructor; [lia|constructor]].
  eapply List.Forall_impl; [|exact Hseen]. cbn. intros; lia.
Qed.
Lemma add_all_spans rows :
  depths_ok 0 rows ->
  foldM (fun tracks r => add_span tracks (sr_depth r) (span_of r)) [] rows = Ok (levels (height rows) rows).
Proof. intros H. apply (add_spans rows 0 []); [done|constructor|done]. Qed.

Lemma build_spans_lod0_cells rows :
  Forall row_ok rows -> depths_ok 0 rows -> build_spans_lod0 (map span_cells rows) = Ok (lod_of rows).
Proof.
  intros Hok Hd. unfold build_spans_lod0.
  rewrite (foldM_map _ (fun tracks r => add_span tracks (sr_depth r) (span_of r))).
  { by rewrite add_all_spans. }
  intros tracks r Hr. pose proof (proj1 (List.Forall_forall _ _) Hok r (proj1 (list_elem_of_In _ _) Hr)) as [Hh Hdr]. cbn.
  rewrite wrap_u_i by done. unfold in_u in *. unfold wrap_i, wrap_u. f_equal.
  rewrite (Z.mod_small (sr_depth r + _)) by lia. replace (_ + _ - _) with (sr_depth r) by lia.
  by rewrite Z.mod_small by lia.
Qed.

(** ** The tree of the rows *)
Lemma tree_of_ids rows : tt_ids (tree_of rows) = map sr_id rows.
Proof.
  unfold tree_of. induction rows as [|r rows IH] using rev_ind; [done|].
  rewrite foldl_app, map_app. cbn. by rewrite IH.
Qed.
Lemma tree_of_row rows r :
  NoDup (map sr_id rows) -> r ∈ rows -> tt_span_rows (tree_of rows) !! sr_id r = Some r.
Proof.
  unfold tree_of. induction rows as [|r' rows IH] using rev_ind; [by intros _ H%elem_of_nil|].
  rewrite map_app, foldl_app. intros (Hnd & Hdis & _)%list.NoDup_app Hr. cbn.
  apply elem_of_app in Hr as [Hr| ->%list_elem_of_singleton]; [|apply lookup_insert_eq].
  rewrite lookup_insert_ne; [by apply IH|]. intros E. apply (Hdis (sr_id r)).
  - by apply list_elem_of_fmap_2.
  - rewrite <- E. by left.
Qed.
Lemma tree_of_get_row rows i r :
  NoDup (map sr_id rows) -> rows !! i = Some r -> get_row (tree_of rows) i = Ok r.
Proof.
  intros Hnd Hr. unfold get_row, get_span. rewrite tree_of_ids, list_lookup_fmap, Hr. cbn.
  by rewrite (tree_of_row _ _ Hnd) by by eapply list_elem_of_lookup_2.
Qed.
Lemma lod0_of_tree rows :
  NoDup (map sr_id rows) -> depths_ok 0 rows -> lod0_from_span_tree (tree_of rows) = Ok (lod_of rows).
Proof.
  intros Hnd Hd. unfold lod0_from_span_tree. rewrite tree_of_ids, length_map.
  rewrite (foldM_indexed (get_row (tree_of rows)) (fun tracks r => add_span tracks (sr_depth r) (span_of r))).
  - by rewrite add_all_spans.
  - intros i r Hr. by apply tree_of_get_row.
Qed.

(** ** Tables *)

(** The rows of columns *)
Definition table_rows (n : nat) (cols : list (list cell)) : list (list cell) :=
  map (fun i => omap (fun col => col !! i) cols) (seq 0 n).
Definition column_ok (n : nat) (ty : parquet_type) (col : list cell) : Prop :=
  length col = n /\ Forall (fun c => cell_type c = ty) col.

(** What is written of one group of well-typed columns of a length is read *)
Class LawfulParquet `{ParquetFile} := {
  close_row_group_ok n schema cols : Forall2 (column_ok n) schema cols -> close_row_group schema cols = Ok tt;
  parquet_bytes_read n schema cols :
    schema <> [] -> Forall2 (column_ok n) schema cols ->
    exists b, parquet_bytes schema [cols] = Ok b /\ get_row_iter b = Ok (table_rows n cols)
}.

Lemma table_rows_map {A} (fs : list (A -> cell)) (l : list A) :
  table_rows (length l) (map (fun f => map f l) fs) = map (fun r => map (fun f => f r) fs) l.
Proof.
  unfold table_rows. apply list_eq. intros i. rewrite !list_lookup_fmap.
  destruct (l !! i) as [r|] eqn:Hr.
  - rewrite lookup_seq_lt by by eapply lookup_lt_Some. cbn. f_equal.
    induction fs as [|f fs IH]; [done|]. cbn. rewrite list_lookup_fmap, Hr. cbn. by rewrite <- IH.
  - rewrite lookup_seq_ge by by apply lookup_ge_None_1. done.
Qed.

(** Columns that are written under their own schema *)
Lemma write_batches ts : forall cols,
  foldl (fun w c => write_batch c w) (mkRowGroupWriter (map tc_type ts) cols) ts =
    mkRowGroupWriter [] (cols ++ map tc_cells ts).
Proof.
  induction ts as [|t ts IH]; intros cols; [by rewrite app_nil_r|]. cbn [map foldl]. unfold write_batch at 2.
  cbn [rg_next rg_columns]. rewrite decide_True by done. rewrite IH. by rewrite <- app_assoc.
Qed.
Definition field_column {A} (l : list A) (tf : parquet_type * (A -> cell)) : TableColumn :=
  mkTableColumn tf.1 (map tf.2 l).
Definition typed_field {A} (tf : parquet_type * (A -> cell)) : Prop := forall r, cell_type (tf.2 r) = tf.1.
Lemma written_table `{LawfulParquet} {A} (fields : list (parquet_type * (A -> cell))) (l : list A) :
  fields <> [] -> Forall typed_field fields ->
  exists b, (w ← write_row_group (map (field_column l) fields) (ParquetBufferWriter_create (map fst fields));
             ParquetBufferWriter_close w) = Ok b /\
    get_row_iter b = Ok (map (fun r => map (fun tf => tf.2 r) fields) l).
Proof.
  intros Hne Ht. assert (Forall2 (column_ok (length l)) (map fst fields) (map (fun tf => map tf.2 l) fields)) as Hc.
  { clear Hne. induction Ht as [|tf fields Htf _ IH]; constructor; [|done]. split; [by rewrite length_map|].
    apply List.Forall_map, List.Forall_forall. intros r _. apply Htf. }
  destruct (parquet_bytes_read (length l) (map fst fields) _ ltac:(by destruct fields) Hc) as (b & Hb & Hr). exists b. split.
  - unfold write_row_group, ParquetBufferWriter_create. cbn [pw_schema pw_groups].
    pose proof (write_batches (map (field_column l) fields) []) as E. rewrite !map_map in E.
    change (map (fun x => tc_type (field_column l x)) fields) with (map fst fields) in E.
    rewrite E. cbn [app rg_columns field_column tc_cells].
    rewrite (close_row_group_ok _ _ _ Hc). cbn. exact Hb.
  - rewrite Hr. f_equal. pose proof (table_rows_map (map snd fields) l) as E. rewrite map_map in E. rewrite E.
    apply map_ext. intros r. by rewrite map_map.
Qed.

(** The columns of the tables *)
Definition span_fields : list (parquet_type * (SpanRow -> cell)) :=
  [(PInt32, fun r => CInt32 (wrap_i 32 (sr_hash r))); (PInt32, fun r => CInt32 (wrap_i 32 (sr_depth r)));
   (PDouble, fun r => CDouble (sr_begin_ms r)); (PDouble, fun r => CDouble (sr_end_ms r));
   (PInt64, fun r => CInt64 (sr_id r)); (PInt64, fun r => CInt64 (sr_parent r))].
Definition scope_fields : list (parquet_type * (ScopeRow -> cell)) :=
  [(PInt32, fun r => CInt32 (wrap_i 32 (sc_hash r))); (PByteArray, fun r => CBytes (bytes_of (sc_name r)));
   (PByteArray, fun r => CBytes (bytes_of (sc_filename r))); (PInt32, fun r => CInt32 (wrap_i 32 (sc_line r)))].
Lemma span_columns rows : SpanRowGroup_get_columns (group_of rows) = map (field_column rows) span_fields.
Proof. unfold SpanRowGroup_get_columns, group_of, int32_column, int64_column, double_column. cbn. by rewrite !map_map. Qed.

Definition scope_group (rows : list ScopeRow) : ScopeRowGroup := foldl ScopeRowGroup_append ScopeRowGroup_new rows.
Lemma scope_columns rows : ScopeRowGroup_get_columns (scope_group rows) = map (field_column rows) scope_fields.
Proof.
  assert (scope_group rows =
    mkScopeRowGroup (map (fun r => wrap_i 32 (sc_hash r)) rows) (map (fun r => bytes_of (sc_name r)) rows)
      (map (fun r => bytes_of (sc_filename r)) rows) (map (fun r => wrap_i 32 (sc_line r)) rows)) as ->.
  { unfold scope_group. induction rows as [|r rows IH] using rev_ind; [done|]. rewrite foldl_app, IH.
    unfold ScopeRowGroup_append, Column_append. cbn. by rewrite !map_app. }
  unfold ScopeRowGroup_get_columns, int32_column, bytes_column. cbn. by rewrite !map_map.
Qed.

(** ** Stores *)

(** A table that is written where there was none is what is read, and the
    other tables are as they were. *)
Class LawfulTableStore (Sigma : Type) `{TableStore Sigma} := {
  write_new_table s path b :
    table_exists s path = Ok false ->
    exists s', write_table s path b = Ok s' /\ table_exists s' path = Ok true /\ read_table s' path = Ok b /\
      forall path', path' <> path ->
        table_exists s' path' = table_exists s path' /\ read_table s' path' = read_table s path'
}.
#[export] Instance LocalFiles_lawful : LawfulTableStore LocalFiles.
Proof.
  split. intros [files] path b E. injection E as E%bool_decide_eq_false%eq_None_not_Some. cbn [lf_files] in E.
  eexists. split; [reflexivity|]. unfold write_to_file. cbn [lf_files]. rewrite E. cbn [default].
  rewrite drop_nil, app_nil_r. cbn. rewrite lookup_insert_eq.
  split; [done|]. split; [done|]. intros path' Hne. by rewrite lookup_insert_ne.
Qed.
#[export] Instance RemoteObjects_lawful : LawfulTableStore RemoteObjects.
Proof.
  split. intros [objects] path b _. eexists. split; [reflexivity|]. cbn. rewrite lookup_insert_eq.
  split; [done|]. split; [done|]. intros path' Hne. by rewrite lookup_insert_ne.
Qed.

Lemma append_inj r s s' : String.append r s = String.append r s' -> s = s'.
Proof. induction r as [|c r IH]; cbn; intros E; [done|]. apply IH. by injection E. Qed.
Lemma table_paths_differ root process_id block_id :
  table_path root "spans" process_id block_id <> table_path root "scopes" process_id block_id.
Proof. by intros E%append_inj. Qed.

(** ** The scopes *)
Definition scope_ok (h : Z) (r : ScopeRow) : Prop :=
  sc_hash r = h /\ in_u 32 h /\ in_u 32 (sc_line r) /\ valid_string (sc_name r) /\ valid_string (sc_filename r).
Definition scopes_ok (scopes : ScopeMap) : Prop := map_Forall scope_ok scopes.

Lemma insert_scopes (kvs : list (Z * ScopeRow)) : forall m : ScopeMap,
  NoDup kvs.*1 -> (forall k, k ∈ kvs.*1 -> m !! k = None) ->
  foldl (fun (m : ScopeMap) kv => <[kv.1 := kv.2]> m) m kvs = list_to_map kvs ∪ m.
Proof.
  induction kvs as [|[k v] kvs IH]; intros m Hnd Hm; [cbn; by rewrite (left_id_L ∅ (∪))|].
  inversion_clear Hnd as [|? ? Hk Hnd']. cbn [foldl fst snd]. rewrite IH; [|done|].
  - cbn. rewrite <- insert_union_l. symmetry. apply insert_union_r. by apply not_elem_of_list_to_map_1.
  - intros k' Hk'. rewrite lookup_insert_ne; [apply Hm; by right|]. by intros <-.
Qed.

Section lakehouse.
Context {Sigma : Type} `{LawfulTableStore Sigma} `{LawfulParquet}.
Context (iter_scopes : ScopeMap -> list (Z * ScopeRow)).
Hypothesis iter_scopes_perm : forall scopes, iter_scopes scopes ≡ₚ map_to_list scopes.

Lemma scopes_read_back scopes s path :
  scopes_ok scopes -> table_exists s path = Ok false ->
  exists s', write_scopes iter_scopes scopes path s = Ok s' /\ table_exists s' path = Ok true /\
    read_scopes path s' = Ok scopes /\
    forall path', path' <> path ->
      table_exists s' path' = table_exists s path' /\ read_table s' path' = read_table s path'.
Proof.
  intros Hok Hs. set (rows := map snd (iter_scopes scopes)).
  destruct (written_table scope_fields rows) as (b & Hb & Hrows); [done|by repeat constructor|].
  destruct (write_new_table s path b Hs) as (s' & Hw & He & Hread & Hother). exists s'.
  split; [|split; [done|split; [|done]]].
  - unfold write_scopes, make_scope_rows.
    assert (foldl (fun rows kv => ScopeRowGroup_append rows kv.2) ScopeRowGroup_new (iter_scopes scopes) =
      scope_group rows) as -> by (unfold scope_group, rows; by rewrite foldl_fmap).
    rewrite scope_columns. change make_scopes_table_writer with (ParquetBufferWriter_create (map fst scope_fields)).
    destruct (write_row_group _ _) as [w| | | |]; try done. cbn in Hb |- *. by rewrite Hb.
  - unfold read_scopes. rewrite Hread. cbn [mbind exec_bind]. rewrite Hrows. cbn [mbind exec_bind].
    unfold rows. rewrite map_map.
    rewrite (foldM_map _ (fun m kv => Ok (<[kv.1 := kv.2]> m))).
    + rewrite foldM_pure, insert_scopes.
      * rewrite map_union_empty. f_equal. rewrite <- (list_to_map_to_list scopes) at 2.
        apply list_to_map_proper; [|apply iter_scopes_perm].
        rewrite iter_scopes_perm. apply NoDup_fst_map_to_list.
      * rewrite iter_scopes_perm. apply NoDup_fst_map_to_list.
      * done.
    + intros m [h r] Hr. rewrite iter_scopes_perm in Hr. apply elem_of_map_to_list in Hr.
      destruct (Hok h r Hr) as (<- & Hh & Hl & Hn & Hf). cbn.
      rewrite !wrap_u_i, !from_utf8_lossy_id by done. by destruct r.
Qed.

Lemma spans_read_back rows s path :
  Forall row_ok rows -> depths_ok 0 rows -> table_exists s path = Ok false ->
  exists s', write_spans (group_of rows) path s = Ok s' /\ table_exists s' path = Ok true /\
    read_spans_lod0 path s' = Ok (lod_of rows) /\ read_tree path s' = Ok (tree_of rows) /\
    forall path', path' <> path ->
      table_exists s' path' = table_exists s path' /\ read_table s' path' = read_table s path'.
Proof.
  intros Hok Hd Hs. destruct (written_table span_fields rows) as (b & Hb & Hrows); [done|by repeat constructor|].
  destruct (write_new_table s path b Hs) as (s' & Hw & He & Hread & Hother). exists s'.
  split; [|split; [done|split; [|split; [|done]]]].
  - unfold write_spans. rewrite span_columns.
    change make_spans_table_writer with (ParquetBufferWriter_create (map fst span_fields)).
    destruct (write_row_group _ _) as [w| | | |]; try done. cbn in Hb |- *. by rewrite Hb.
  - unfold read_spans_lod0. rewrite Hread. cbn [mbind exec_bind]. rewrite Hrows. by apply build_spans_lod0_cells.
  - unfold read_tree. rewrite Hread. cbn [mbind exec_bind]. rewrite Hrows. by apply build_span_tree_cells.
Qed.

Context (process_thread_block : string -> exec (ScopeMap * option SpanNode)).
Abbreviation get_call_tree := (get_call_tree iter_scopes process_thread_block).
Abbreviation get_thread_block := (get_thread_block iter_scopes process_thread_block).

(** A block that was processed, and the paths of its tables *)
Record processed (block_id : string) (scopes : ScopeMap) (root : SpanNode) : Prop := {
  pr_block : process_thread_block block_id = Ok (scopes, Some root);
  pr_tree : tree_ok root;
  pr_length : Z.of_nat (length (tree_rows root)) < 2 ^ 63 - 1;
  pr_scopes : scopes_ok scopes
}.

Lemma write_call_tree_ok block_id scopes root s spans_path scopes_path :
  processed block_id scopes root -> spans_path <> scopes_path ->
  table_exists s spans_path = Ok false -> table_exists s scopes_path = Ok false ->
  exists s', write_call_tree iter_scopes process_thread_block block_id spans_path scopes_path s =
      Ok (scopes, tree_of (tree_rows root), s') /\
    tables_missing spans_path scopes_path s' = Ok false /\
    read_scopes scopes_path s' = Ok scopes /\
    read_spans_lod0 spans_path s' = Ok (lod_of (tree_rows root)) /\
    read_tree spans_path s' = Ok (tree_of (tree_rows root)).
Proof.
  intros [Hp Ht Hlen Hsc] Hne Hs1 Hs2. destruct (tree_rows_ok root Ht) as [Hrows _ Hd _].
  destruct (make_tree_rows root Ht Hlen) as [n Hmake]. rewrite append_rows_group in Hmake.
  destruct (spans_read_back (tree_rows root) s spans_path) as (s1 & Hw1 & He1 & Hl1 & Hr1 & Ho1); [done|by apply Hd|done|].
  destruct (scopes_read_back scopes s1 scopes_path) as (s2 & Hw2 & He2 & Hr2 & Ho2); [done|by rewrite (proj1 (Ho1 _ (not_eq_sym Hne)))|].
  destruct (Ho2 spans_path Hne) as [He3 Hr3]. exists s2.
  unfold write_call_tree. rewrite Hp. cbn [mbind exec_bind]. rewrite Hmake. cbn [mbind exec_bind].
  rewrite Hw1. cbn [mbind exec_bind]. rewrite Hw2. cbn [mbind exec_bind]. rewrite from_rows_group by done.
  split; [done|]. split; [unfold tables_missing; by rewrite He3, He1; cbn; rewrite He2|].
  split; [done|]. unfold read_spans_lod0, read_tree in *. by rewrite !Hr3.
Qed.

Lemma height_pos k rows : 0 <= k -> k <= foldl (fun k r => Z.max k (sr_depth r + 1)) k rows.
Proof.
  revert k. induction rows as [|r rows IH]; intros k Hk; [done|]. cbn. etransitivity; [|apply IH]; lia.
Qed.
Lemma lod_of_first r rows :
  sr_depth r = 0 -> exists tracks, sl_tracks (lod_of (r :: rows)) = (span_of r :: track rows 0) :: tracks.
Proof.
  intros E. unfold lod_of, levels, height. cbn [sl_tracks foldl]. rewrite E. change (Z.max 0 (0 + 1)) with 1.
  pose proof (height_pos 1 rows ltac:(lia)) as Hh. rewrite seqZ_cons by lia. cbn [map]. eexists.
  f_equal. unfold track. cbn [List.filter]. by rewrite E.
Qed.
(** The last of the roots *)
Definition last_root (r : SpanRow) (rows : list SpanRow) : SpanRow :=
  List.last (List.filter (fun r => sr_depth r =? 0) rows) r.
Lemma last_map {A B} (f : A -> B) l d : List.last (map f l) (f d) = f (List.last l d).
Proof. induction l as [|x [|y l] IH]; [done|done|]. apply IH. Qed.

(** C40. The call tree, the scopes and the levels of detail of a block are the
    same whether they are computed or read in the tables that the first
    request wrote, in any lawful store: the nodes of the tree in preorder, one
    track for each depth.  The answers of [get_thread_block] differ in their
    end alone: the end of the first root when it is computed, and of the last
    root when it is read. *)
Theorem cached_block root_path process_id block_id scopes root s :
  processed block_id scopes root ->
  table_exists s (table_path root_path "spans" process_id block_id) = Ok false ->
  table_exists s (table_path root_path "scopes" process_id block_id) = Ok false ->
  exists s', get_call_tree root_path process_id block_id s = Ok (scopes, tree_of (tree_rows root), s') /\
    get_call_tree root_path process_id block_id s' = Ok (scopes, tree_of (tree_rows root), s') /\
    match tree_rows root with
    | [] => True
    | r :: rows =>
        let reply := mkBlockSpansReply scopes (Some (lod_of (r :: rows))) block_id (sr_begin_ms r) in
        get_thread_block root_path process_id block_id s = Ok (reply (sr_end_ms r), s') /\
        get_thread_block root_path process_id block_id s' = Ok (reply (sr_end_ms (last_root r rows)), s')
    end.
Proof.
  intros Hp Hspans Hscopes.
  destruct (write_call_tree_ok _ _ _ s _ _ Hp (table_paths_differ root_path process_id block_id) Hspans Hscopes)
    as (s' & Hw & Hm & Hsc & Hl & Ht).
  exists s'. unfold Lakehouse.get_call_tree, Lakehouse.get_thread_block, get_table_paths.
  assert (tables_missing (table_path root_path "spans" process_id block_id)
    (table_path root_path "scopes" process_id block_id) s = Ok true) as -> by (unfold tables_missing; by rewrite Hspans).
  rewrite Hm. cbn [mbind exec_bind]. rewrite Hw. unfold read_tree_block, read_thread_block.
  rewrite Hsc, Ht, Hl. cbn [mbind exec_bind]. split; [done|]. split; [done|].
  destruct (tree_rows_ok root (pr_tree _ _ _ Hp)) as [Hrows Hids Hd _]. specialize (Hd 0 ltac:(done)).
  assert (NoDup (map sr_id (tree_rows root))) as Hnd by (rewrite Hids; apply NoDup_seqZ).
  destruct (tree_rows root) as [|r rows] eqn:E; [done|]. split.
  - unfold is_empty. rewrite tree_of_ids. cbn [map]. rewrite lod0_of_tree by done. cbn [mbind exec_bind].
    by rewrite (tree_of_get_row _ 0 r).
  - destruct Hd as [Hr _]. destruct (lod_of_first r rows ltac:(lia)) as [tracks ->].
    unfold track. by rewrite last_map.
Qed.
End lakehouse.

(** A local table that replaces a longer one keeps its end. *)
Lemma local_write_stale s path old b :
  lf_files s !! path = Some old -> (length b < length old)%nat ->
  exists b', read_table (write_to_file s path b) path = Ok b' /\ b' <> b.
Proof.
  intros E Hlen. exists (b ++ drop (length b) old). split.
  - unfold write_to_file. rewrite E. cbn. by rewrite lookup_insert_eq.
  - intros Hb. apply (f_equal length) in Hb. rewrite length_app, length_drop in Hb. lia.
Qed.

(** ** A library that encodes tables, and a block with two roots *)
Module LakehouseExample.

Fixpoint bytes_of_pos (p : positive) : buffer :=
  match p with
  | xH => [Byte.x01]
  | xO p => Byte.x00 :: bytes_of_pos p
  | xI p => Byte.x01 :: bytes_of_pos p
  end.
Fixpoint pos_of_bytes (b : buffer) : positive :=
  match b with
  | [] | [_] => xH
  | c :: b => if Byte.eqb c Byte.x00 then xO (pos_of_bytes b) else xI (pos_of_bytes b)
  end.
Lemma pos_of_bytes_of p : pos_of_bytes (bytes_of_pos p) = p.
Proof. induction p as [p IH|p IH|]; [| |done]; destruct p; by rewrite <- IH at 2. Qed.

Instance byte_eq_dec : EqDecision Byte.byte := Byte.byte_eq_dec.
Instance byte_countable : Countable Byte.byte := inj_countable Byte.to_N Byte.of_N Byte.of_to_N.
Instance f64_eq_dec : EqDecision f64.
Proof. solve_decision. Defined.
Instance f64_countable : Countable f64.
Proof.
  refine (inj_countable'
    (fun x => match x with
      | S754_zero s => inl s | S754_infinity s => inr (inl s) | S754_nan => inr (inr (inl ()))
      | S754_finite s m e => inr (inr (inr (s, m, e))) end)
    (fun x => match x with
      | inl s => S754_zero s | inr (inl s) => S754_infinity s | inr (inr (inl ())) => S754_nan
      | inr (inr (inr (s, m, e))) => S754_finite s m e end) _). by intros [].
Defined.
Instance cell_eq_dec : EqDecision cell.
Proof. solve_decision. Defined.
Instance cell_countable : Countable cell.
Proof.
  refine (inj_countable'
    (fun c => match c with
      | CInt32 z => inl z | CInt64 z => inr (inl z) | CDouble x => inr (inr (inl x)) | CBytes b => inr (inr (inr b)) end)
    (fun c => match c with
      | inl z => CInt32 z | inr (inl z) => CInt64 z | inr (inr (inl x)) => CDouble x | inr (inr (inr b)) => CBytes b end)
    _). by intros [].
Defined.

(** The rows of the groups, encoded *)
Instance encoded_parquet : ParquetFile := {|
  close_row_group _ _ := Ok tt;
  parquet_bytes _ groups :=
    Ok (bytes_of_pos (encode (concat (map (fun g => table_rows (length (hd [] g)) g) groups))));
  get_row_iter b :=
    match decode (pos_of_bytes b) with Some rows => Ok rows | None => bail "Invalid Parquet file" end
|}.
Instance encoded_lawful : LawfulParquet.
Proof.
  split; [done|]. intros n schema cols Hne Hc. eexists. split; [reflexivity|]. cbn [get_row_iter encoded_parquet].
  rewrite pos_of_bytes_of, decode_encode. cbn [map concat]. rewrite app_nil_r.
  destruct Hc as [|ty col schema cols [Hn _] Hc]; [done|]. cbn [hd]. by rewrite Hn.
Qed.

(** A root that calls another function, and a second root *)
Definition example_tree : SpanNode :=
  mkSpanNode 0 f64_MAX f64_MIN
    [mkSpanNode 7 (f64_of_Z 1) (f64_of_Z 4) [mkSpanNode 9 (f64_of_Z 2) (f64_of_Z 3) []];
     mkSpanNode 8 (f64_of_Z 5) (f64_of_Z 6) []].
Definition example_scopes : ScopeMap := {[7 := mkScopeRow "main" "main.rs" 12 7]}.
Definition example_process (block_id : string) : exec (ScopeMap * option SpanNode) :=
  Ok (example_scopes, Some example_tree).
Lemma example_processed : processed example_process "b" example_scopes example_tree.
Proof.
  split; [done| |done|].
  - repeat (constructor; cbn; try lia).
  - apply map_Forall_singleton. unfold scope_ok, in_u, valid_string. cbn. by repeat split.
Qed.

Lemma empty_store path : table_exists (mkRemoteObjects ∅) path = Ok false.
Proof. reflexivity. Qed.

Lemma cached_block_witness :
  processed example_process "b" example_scopes example_tree /\
  exists s' : RemoteObjects,
    get_thread_block map_to_list example_process "lake/" "p" "b" (mkRemoteObjects ∅) =
      Ok (mkBlockSpansReply example_scopes (Some (lod_of (tree_rows example_tree))) "b" (f64_of_Z 1) (f64_of_Z 4), s') /\
    get_thread_block map_to_list example_process "lake/" "p" "b" s' =
      Ok (mkBlockSpansReply example_scopes (Some (lod_of (tree_rows example_tree))) "b" (f64_of_Z 1) (f64_of_Z 6), s').
Proof.
  split; [exact example_processed|].
  destruct (cached_block map_to_list (fun _ => reflexivity _) example_process "lake/" "p" "b" example_scopes example_tree
    (mkRemoteObjects ∅) example_processed (empty_store _) (empty_store _)) as (s' & _ & _ & H1 & H2).
  exists s'. split; [exact H1|exact H2].
Defined.
End LakehouseExample.
