(* ===== verification/OldServer.v ===== *)
(** * The older analytics server

    [analytics-srv/src/log_entry.rs], [analytics_service.rs] and [metrics.rs],
    which no target compiles: the slice of the log of a process that a page
    shows, the points of a metric and their levels of detail.  The packages
    that it called ([find_process], [find_process_log_streams],
    [for_each_log_entry_in_block], the cache, [reduce_lod] of spans) are not
    in the repository with the interface it used, and are parameters. *)

From Stdlib Require Import Floats.SpecFloat.
From stdpp Require Import pretty.
From S2P Require Import Prelude RustString Float Transit Parser Blocks Levels Time Stream Wire.
From S2P Require Import LogEntry.
From S2P Require Import ThreadBlockProcessor Sql Lake Metadata SpanTable Lakehouse.

Definition u64_checked (z : Z) : exec Z := if (0 <=? z) && (z <? 2 ^ 64) then Ok z else Panic.
Definition i32_checked (z : Z) : exec Z := if (- 2 ^ 31 <=? z) && (z <? 2 ^ 31) then Ok z else Panic.

(** ** log_entry.rs *)

(** [str::contains] *)
Fixpoint contains (haystack needle : string) : bool :=
  String.prefix needle haystack ||
  match haystack with EmptyString => false | String _ haystack => contains haystack needle end.

Section log.
(** [LogEntry::level] and [str::to_lowercase] *)
Context (entry_level : LogEntry -> Level.t) (to_lowercase : string -> string).

Definition matches_level (e : LogEntry) (level : Level.t) : bool :=
  Level.as_u32 (entry_level e) <=? Level.as_u32 level.
Definition matches_needles (e : LogEntry) (needles : list string) : bool :=
  existsb (fun needle =>
    contains (to_lowercase (le_target e)) needle || contains (to_lowercase (le_msg e)) needle) needles.

(** ** analytics_service.rs: the log of a process *)

(** [search.split(' ')] *)
Fixpoint split_spaces (s : string) : list string :=
  match s with
  | EmptyString => [EmptyString]
  | String c s =>
      match split_spaces s with
      | part :: parts => if Ascii.eqb c (Ascii.ascii_of_nat 32) then EmptyString :: part :: parts else String c part :: parts
      | [] => [EmptyString]
      end
  end.
Definition is_empty_string (s : string) : bool := match s with EmptyString => true | _ => false end.
Definition make_needles (search : option string) : option (list string) :=
  match search with
  | Some search =>
      if is_empty_string search then None
      else Some (map to_lowercase (List.filter (fun part => negb (is_empty_string part)) (split_spaces search)))
  | None => None
  end.

Record ProcessLogReply := mkProcessLogReply { pl_entries : list LogEntry; pl_begin : Z; pl_end : Z }.

Definition valid_entry (needles : option (list string)) (level_threshold : option Level.t) (e : LogEntry)
  : bool :=
  match needles with None => true | Some needles => matches_needles e needles end &&
  match level_threshold with None => true | Some level => matches_level e level end.
(** The closure that is called with each entry of a block *)
Definition on_process_log_entry (begin_ end_ : Z) (valid : LogEntry -> bool)
    (s : list LogEntry * Z) (log_entry : LogEntry) : exec ((list LogEntry * Z) * bool) :=
  let '(entries, entry_index) := s in
  if end_ <=? entry_index then Ok (s, false)
  else if begin_ <=? entry_index then
    if valid log_entry then
      entry_index ← u64_checked (entry_index + 1);
      Ok ((entries ++ [log_entry], entry_index), true)
    else Ok (s, true)
  else
    entry_index ← u64_checked (entry_index + 1);
    Ok ((entries, entry_index), true).

Context (find_process_log_streams : Uuid -> exec (list StreamInfo)).
Context (find_stream_blocks : Uuid -> exec (list BlockMetadata)).
Context (for_each_log_entry_in_block : forall S, StreamInfo -> BlockMetadata ->
  (S -> LogEntry -> exec (S * bool)) -> S -> exec S).

Definition process_log_block (begin_ end_ : Z) (valid : LogEntry -> bool) (stream : StreamInfo)
    (s : list LogEntry * Z) (block : BlockMetadata) : exec (list LogEntry * Z) :=
  let '(entries, entry_index) := s in
  next ← u64_checked (entry_index + wrap_u 64 (bm_nb_objects block));
  if next <? begin_ then Ok (entries, next)
  else
    with_context "error in for_each_log_entry_in_block"
      (for_each_log_entry_in_block _ stream block (on_process_log_entry begin_ end_ valid) s).
Definition process_log_impl (process_id : Uuid) (begin_ end_ : Z) (search : option string)
    (level_threshold : option Level.t) : exec ProcessLogReply :=
  let valid := valid_entry (make_needles search) level_threshold in
  streams ← with_context "error in find_process_log_streams" (find_process_log_streams process_id);
  '(entries, entry_index) ← foldM (fun s stream =>
      blocks ← with_context "error in find_stream_blocks" (find_stream_blocks (si_stream_id stream));
      foldM (process_log_block begin_ end_ valid stream) s blocks) ([], 0) streams;
  Ok (mkProcessLogReply entries begin_ entry_index).

Definition nb_process_log_entries_impl (process_id : Uuid) : exec Z :=
  streams ← find_process_log_streams process_id;
  foldM (fun count stream =>
    blocks ← find_stream_blocks (si_stream_id stream);
    foldM (fun count b => u64_checked (count + wrap_u 64 (bm_nb_objects b))) count blocks) 0 streams.
End log.

(** ** analytics_service.rs: the spans of a block *)
Section spans.
Context {Sigma : Type}.
(** [get_thread_block] of the lakehouse, [reduce_lod], and the cache *)
Context (get_thread_block : string -> Sigma -> exec (BlockSpansReply * Sigma)).
Context (reduce_span_lod : SpanBlockLod -> Z -> SpanBlockLod).
Context (get_or_put : string -> (Sigma -> exec (BlockSpansReply * Sigma)) -> Sigma ->
  exec (BlockSpansReply * Sigma)).

Definition compute_spans_lod (block_id : string) (lod_id : Z) (s : Sigma) : exec (BlockSpansReply * Sigma) :=
  '(lod0_reply, s) ← get_thread_block block_id s;
  if lod_id =? 0 then Ok (lod0_reply, s)
  else
    lod0 ← unwrap (br_lod lod0_reply);
    Ok (mkBlockSpansReply (br_scopes lod0_reply) (Some (reduce_span_lod lod0 lod_id)) block_id
          (br_begin_ms lod0_reply) (br_end_ms lod0_reply), s).
Definition block_spans_impl (block_id : string) (lod_id : Z) (s : Sigma) : exec (BlockSpansReply * Sigma) :=
  if lod_id =? 0 then get_thread_block block_id s
  else
    get_or_put (String.append "spans_" (String.append block_id (String.append "_" (pretty lod_id))))
      (compute_spans_lod block_id lod_id) s.
End spans.

(** ** metrics.rs *)
Record MetricDataPoint := mkMetricDataPoint { mp_time_ms : f64; mp_value : f64 }.
Record MetricBlockData := mkMetricBlockData { mb_points : list MetricDataPoint; mb_lod : Z }.
Record MetricDesc := mkMetricDesc { md_name : string; md_unit : string }.
Record MetricBlockDesc := mkMetricBlockDesc {
  mbd_block_id : Uuid;
  mbd_stream_id : string;
  mbd_begin_time_ms : f64;
  mbd_end_time_ms : f64;
  mbd_begin_ticks : Z;
  mbd_end_ticks : Z
}.
Record MetricBlockManifest := mkMetricBlockManifest { mm_desc : MetricBlockDesc; mm_metrics : list MetricDesc }.

Definition f64_sub (x y : f64) : f64 := SFsub 53 1024 x y.

Section metrics.
(** [f64::powi], whose precision is not specified *)
Context (powi : f64 -> Z -> f64).

Definition merge_threshold (lod : Z) : exec f64 :=
  n ← i32_checked (wrap_i 32 lod - 2);
  Ok (f64_div (powi (f64_of_Z 100) n) (f64_of_Z 10)).
(** The loop over the points and the next ones *)
Fixpoint merge_points (threshold max acc : f64) (points : list MetricDataPoint) : list MetricDataPoint :=
  match points with
  | point :: (next_point :: _) as rest =>
      let max := f64_max (mp_value point) max in
      let delta := f64_sub (mp_time_ms next_point) (mp_time_ms point) in
      let acc := f64_add acc delta in
      if SFltb threshold acc then
        mkMetricDataPoint (mp_time_ms point) max :: merge_points threshold f64_MIN (f64_of_Z 0) rest
      else merge_points threshold max acc rest
  | _ => []
  end.
Definition reduce_lod (source : MetricBlockData) (lod : Z) : exec (list MetricDataPoint) :=
  threshold ← merge_threshold lod;
  Ok (merge_points threshold f64_MIN (f64_of_Z 0) (mb_points source)).

Definition get_lod_block_key `{Xxh32} (block_id metric_name : string) (lod : Z) : string :=
  String.concat "_" [pretty (xxh32 (bytes_of metric_name) 0); block_id; pretty lod].

Record MetricBlockRequest := mkMetricBlockRequest {
  mr_process_id : string;
  mr_block_id : string;
  mr_stream_id : string;
  mr_metric_name : string;
  mr_lod : Z
}.
Context `{Compression} `{Xxh32}.
Context (find_process : string -> exec ProcessInfo) (find_stream : string -> exec StreamInfo).
Context (find_block : string -> exec BlockMetadata) (fetch_block_payload : string -> exec BlockPayload).
Context {Cache : Type}.
Context (get_or_put : string -> (Cache -> exec (MetricBlockData * Cache)) -> Cache ->
  exec (MetricBlockData * Cache)).

(** The value of a metric, when it is a number *)
Definition metric_number (v : exec Value) : option f64 :=
  match v with
  | Ok (U8 v) | Ok (U32 v) | Ok (U64 v) | Ok (I64 v) => Some (f64_of_Z v)
  | Ok (F64 v) => Some v
  | _ => None
  end.
Definition must_get {T} (m : exec T) : exec T := match m with Err _ => Panic | m => m end.
Definition on_metric_value (metric_name : string) (start_ticks : Z) (inv_tsc_frequency : f64)
    (points : list MetricDataPoint) (val : Value) : exec (list MetricDataPoint * bool) :=
  match val with
  | Object_ obj =>
      metric_desc ← must_get (get get_object obj "desc");
      name_value ← must_get (get_ref metric_desc "name");
      name ← unwrap (as_str name_value);
      if String.eqb name metric_name then
        time ← must_get (get get_i64 obj "time");
        ticks ← i64_checked (time - start_ticks);
        let time_ms := f64_mul (f64_of_Z ticks) inv_tsc_frequency in
        match metric_number (get_ref obj "value") with
        | Some v => Ok (points ++ [mkMetricDataPoint time_ms v], true)
        | None => Ok (points, true)
        end
      else Ok (points, true)
  | _ => Ok (points, true)
  end.
Definition get_raw_block_data (process_id block_id stream_id metric_name : string) : exec MetricBlockData :=
  process ← find_process process_id;
  payload ← fetch_block_payload block_id;
  let inv_tsc_frequency := get_process_tick_length_ms process in
  stream ← find_stream stream_id;
  '(points, _) ← parse_block stream payload
    (on_metric_value metric_name (start_ticks process) inv_tsc_frequency) [];
  Ok (mkMetricBlockData points 0).

Definition get_block_lod_data (request : MetricBlockRequest) (c : Cache) : exec (MetricBlockData * Cache) :=
  get_or_put (get_lod_block_key (mr_block_id request) (mr_metric_name request) (mr_lod request)) (fun c =>
    '(raw, c) ← get_or_put (get_lod_block_key (mr_block_id request) (mr_metric_name request) 0) (fun c =>
        raw ← get_raw_block_data (mr_process_id request) (mr_block_id request) (mr_stream_id request)
          (mr_metric_name request);
        Ok (raw, c)) c;
    if 0 <? mr_lod request then
      points ← reduce_lod raw (mr_lod request);
      Ok (mkMetricBlockData points (mr_lod request), c)
    else Ok (raw, c)) c.

(** The closure of [get_block_manifest]: the first unit of a name is kept *)
Definition on_manifest_value (metrics : gmap string MetricDesc) (val : Value)
  : exec (gmap string MetricDesc * bool) :=
  match val with
  | Object_ obj =>
      metric_desc ← with_context "reading desc from {:?}" (get get_object obj "desc");
      name_value ← with_context "reading name from {:?}" (get_ref metric_desc "name");
      name ← match as_str name_value with Some name => Ok name | None => bail "as_str on desc name" end;
      match metrics !! name with
      | Some _ => Ok (metrics, true)
      | None =>
          unit_value ← must_get (get_ref metric_desc "unit");
          unit ← unwrap (as_str unit_value);
          Ok (<[name := mkMetricDesc name unit]> metrics, true)
      end
  | _ => Ok (metrics, true)
  end.
Definition get_block_manifest (map_values : gmap string MetricDesc -> list MetricDesc)
    (process_id block_id stream_id : string) : exec MetricBlockManifest :=
  process ← find_process process_id;
  let inv_tsc_frequency := get_process_tick_length_ms process in
  block ← find_block block_id;
  begin_tick_offset ← i64_checked (bm_begin_ticks block - start_ticks process);
  end_tick_offset ← i64_checked (bm_end_ticks block - start_ticks process);
  let desc := mkMetricBlockDesc (bm_block_id block) stream_id
    (f64_mul (f64_of_Z begin_tick_offset) inv_tsc_frequency)
    (f64_mul (f64_of_Z end_tick_offset) inv_tsc_frequency) begin_tick_offset end_tick_offset in
  payload ← fetch_block_payload block_id;
  stream ← find_stream stream_id;
  '(metrics, _) ← parse_block stream payload on_manifest_value ∅;
  Ok (mkMetricBlockManifest desc (map_values metrics)).

(** The closest and the farthest ticks of the blocks of the metrics of a
    process *)
Definition extend_ticks_range (process_start : Z) (range : Z * Z) (block : BlockMetadata) : exec (Z * Z) :=
  block_begin ← i64_checked (bm_begin_ticks block - process_start);
  block_end ← i64_checked (bm_end_ticks block - process_start);
  Ok (Z.min range.1 block_begin, Z.max range.2 block_end).
Definition get_process_metrics_time_range (find_process_metrics_streams : string -> exec (list StreamInfo))
    (find_stream_blocks : Uuid -> exec (list BlockMetadata)) (process_id : string) : exec (f64 * f64) :=
  process ← find_process process_id;
  streams ← find_process_metrics_streams process_id;
  '(min_ticks, max_ticks) ← foldM (fun range stream =>
      blocks ← find_stream_blocks (si_stream_id stream);
      foldM (extend_ticks_range (start_ticks process)) range blocks)
    (2 ^ 63 - 1, - 2 ^ 63) streams;
  let inv_tsc_frequency := get_process_tick_length_ms process in
  Ok (f64_mul (f64_of_Z min_ticks) inv_tsc_frequency, f64_mul (f64_of_Z max_ticks) inv_tsc_frequency).
End metrics.
