(* ===== verification/OldServerSpec.v ===== *)
(** * What the older server answers

    The slice of the log of a process is that of all its entries, whatever the
    blocks that hold them; the points of a metric are those of the events that
    were recorded; a metric that is reduced never shows the value of the last
    point of a block. *)

From Stdlib Require Import Floats.SpecFloat.
From S2P Require Import Prelude RustString Float Transit Parser Blocks Levels Time Stream Wire.
From S2P Require Import LogEntry.
From S2P Require Import ThreadBlockProcessor Sql Lake Metadata SpanTable Query QuerySpec.
From S2P Require Import Lakehouse OldServer Queue Pod PodParser Deps MetricsBlock Measure.
From S2P Require Import LogEvents LogBlock.

Lemma u64_checked_ok z : 0 <= z < 2 ^ 64 -> u64_checked z = Ok z.
Proof. intros Hz. unfold u64_checked. rewrite (proj2 (andb_true_iff _ _)); [done|]. lia. Qed.

(** ** The log of a process *)
Section slice.
Context (begin_ end_ : Z) (valid : LogEntry -> bool).
Hypothesis begin_end : 0 <= begin_ <= end_ /\ end_ < 2 ^ 64.

(** The valid entries after the first [begin_], up to [end_ - begin_] of them *)
Definition slice (es : list LogEntry) : list LogEntry :=
  firstn (Z.to_nat (end_ - begin_)) (List.filter valid (skipn (Z.to_nat begin_) es)).
(** The entries and the index after some entries *)
Definition after (seen : list LogEntry) : list LogEntry * Z :=
  (slice seen, Z.min (Z.of_nat (length seen)) begin_ + Z.of_nat (length (slice seen))).

Lemma slice_length es : Z.of_nat (length (slice es)) <= end_ - begin_.
Proof. unfold slice. rewrite length_firstn. lia. Qed.
Lemma slice_short es : Z.of_nat (length es) <= begin_ -> slice es = [].
Proof. intros Hl. unfold slice. rewrite skipn_all2 by lia. apply firstn_nil. Qed.
Lemma slice_app es es' :
  begin_ <= Z.of_nat (length es) ->
  slice (es ++ es') = firstn (Z.to_nat (end_ - begin_))
    (List.filter valid (skipn (Z.to_nat begin_) es) ++ List.filter valid es').
Proof.
  intros Hl. unfold slice. rewrite skipn_app, List.filter_app.
  by replace (Z.to_nat begin_ - length es)%nat with 0%nat by lia.
Qed.
Lemma after_before es : Z.of_nat (length es) <= begin_ -> after es = ([], Z.of_nat (length es)).
Proof. intros Hl. unfold after. rewrite slice_short by done. cbn. f_equal. lia. Qed.
Lemma after_beyond es : begin_ <= Z.of_nat (length es) -> (after es).2 = begin_ + Z.of_nat (length (slice es)).
Proof. intros Hl. unfold after. cbn. lia. Qed.
(** Nothing is added to a slice that is complete. *)
Lemma after_full es es' : end_ <= (after es).2 -> after (es ++ es') = after es.
Proof.
  intros He. destruct (Z.lt_ge_cases (Z.of_nat (length es)) begin_) as [Hl|Hl].
  { rewrite after_before in He by lia. cbn in He. lia. }
  rewrite after_beyond in He by done. pose proof (slice_length es) as Hs.
  assert (slice (es ++ es') = slice es) as E.
  { rewrite slice_app by done. unfold slice in *. rewrite firstn_app. rewrite length_firstn in He.
    replace (Z.to_nat (end_ - begin_) - length (List.filter valid (skipn (Z.to_nat begin_) es)))%nat with 0%nat by lia.
    by rewrite app_nil_r. }
  unfold after. rewrite E, length_app. f_equal. lia.
Qed.
(** A slice that is not complete has all the valid entries. *)
Lemma slice_growing es es' :
  begin_ <= (after es).2 -> (after es).2 < end_ ->
  begin_ <= Z.of_nat (length es) /\ slice es = List.filter valid (skipn (Z.to_nat begin_) es) /\
  slice (es ++ es') = slice es ++ firstn (Z.to_nat (end_ - (after es).2)) (List.filter valid es').
Proof.
  intros Hb He. assert (begin_ <= Z.of_nat (length es)) as Hl.
  { destruct (Z.lt_ge_cases (Z.of_nat (length es)) begin_) as [Hl|Hl]; [|done].
    rewrite after_before in Hb by lia. cbn in Hb. lia. }
  rewrite after_beyond in * by done. unfold slice in He. rewrite length_firstn in He.
  assert (slice es = List.filter valid (skipn (Z.to_nat begin_) es)) as E by (apply firstn_all2; lia).
  split; [done|]. split; [done|]. rewrite slice_app, firstn_app, <- E by done.
  rewrite firstn_all2 by (rewrite E; lia). do 2 f_equal. rewrite E. lia.
Qed.

Lemma on_entry_after seen e :
  Z.of_nat (length seen) + 1 < 2 ^ 64 ->
  exists continue, on_process_log_entry begin_ end_ valid (after seen) e = Ok (after (seen ++ [e]), continue) /\
    (continue = false -> forall es, after (seen ++ e :: es) = after (seen ++ [e])).
Proof.
  intros Hlen. unfold on_process_log_entry. rewrite (surjective_pairing (after seen)).
  destruct (Z.leb_spec end_ (after seen).2) as [He|He].
  { exists false. rewrite <- surjective_pairing. split; [by rewrite after_full|]. intros _ es. by rewrite !after_full. }
  exists true. split; [|done]. destruct (Z.leb_spec begin_ (after seen).2) as [Hb|Hb].
  - destruct (slice_growing seen [e] Hb He) as (Hl & _ & Hs). rewrite after_beyond in * by done.
    cbn [List.filter] in Hs. destruct (valid e).
    + rewrite u64_checked_ok by lia. cbn [mbind exec_bind]. do 2 f_equal.
      rewrite firstn_all2 in Hs by (cbn; lia). unfold after at 2. rewrite Hs, !length_app. f_equal. cbn. lia.
    + rewrite firstn_nil, app_nil_r in Hs. do 2 f_equal. unfold after. rewrite Hs, length_app. f_equal. cbn. lia.
  - assert (Z.of_nat (length seen) < begin_) as Hl.
    { destruct (Z.lt_ge_cases (Z.of_nat (length seen)) begin_) as [Hl|Hl]; [done|].
      rewrite after_beyond in Hb by done. lia. }
    rewrite !after_before by (rewrite ?length_app; cbn; lia). cbn [fst snd].
    rewrite u64_checked_ok by lia. cbn [mbind exec_bind]. rewrite length_app. cbn. do 3 f_equal. lia.
Qed.

Lemma visit_after es : forall seen,
  Z.of_nat (length (seen ++ es)) < 2 ^ 64 ->
  visit Ok (on_process_log_entry begin_ end_ valid) (after seen) es = Ok (after (seen ++ es)).
Proof.
  induction es as [|e es IH]; intros seen Hlen; [by rewrite app_nil_r|]. rewrite length_app in Hlen. cbn in Hlen.
  destruct (on_entry_after seen e ltac:(lia)) as (continue & E & Hstop).
  cbn [visit mbind exec_bind]. rewrite E. cbn [mbind exec_bind]. destruct continue.
  - rewrite IH by (rewrite !length_app; cbn; lia). by rewrite <- app_assoc.
  - by rewrite (Hstop eq_refl es).
Qed.

Lemma after_le seen : (after seen).2 <= Z.of_nat (length seen).
Proof.
  destruct (Z.lt_ge_cases (Z.of_nat (length seen)) begin_) as [Hl|Hl]; [rewrite after_before by lia; cbn; lia|].
  rewrite after_beyond by done. unfold slice. rewrite length_firstn.
  pose proof (List.filter_length_le valid (skipn (Z.to_nat begin_) seen)) as Hf. rewrite length_skipn in Hf. lia.
Qed.

Context (for_each_log_entry_in_block : forall S, StreamInfo -> BlockMetadata ->
  (S -> LogEntry -> exec (S * bool)) -> S -> exec S).
(** The entries of a block: they are all its objects, and are visited in order
    until the closure stops. *)
Definition block_has (stream : StreamInfo) (block : BlockMetadata) (es : list LogEntry) : Prop :=
  wrap_u 64 (bm_nb_objects block) = Z.of_nat (length es) /\
  forall S f s s', visit Ok f s es = Ok s' -> for_each_log_entry_in_block S stream block f s = Ok s'.

Lemma block_after stream block es seen :
  block_has stream block es -> Z.of_nat (length (seen ++ es)) < 2 ^ 64 ->
  process_log_block for_each_log_entry_in_block begin_ end_ valid stream (after seen) block = Ok (after (seen ++ es)).
Proof.
  intros [Hn Hread] Hlen. pose proof (after_le seen) as Hle. rewrite length_app in Hlen.
  assert (0 <= (after seen).2) as H0 by (unfold after; cbn; lia).
  unfold process_log_block. rewrite (Hread _ _ _ _ (visit_after es seen ltac:(rewrite length_app; lia))).
  destruct (after seen) as [entries index] eqn:E. cbn [snd] in *. rewrite Hn, u64_checked_ok by lia.
  cbn [mbind exec_bind with_context]. destruct (Z.ltb_spec (index + Z.of_nat (length es)) begin_) as [Hlt|Hge]; [|done].
  assert (Z.of_nat (length seen) < begin_) as Hl.
  { destruct (Z.lt_ge_cases (Z.of_nat (length seen)) begin_) as [Hl|Hl]; [done|].
    apply (after_beyond seen) in Hl. rewrite E in Hl. cbn in Hl. lia. }
  rewrite after_before in E by lia. injection E as <- <-.
  rewrite after_before by (rewrite length_app; lia). rewrite length_app. do 2 f_equal. lia.
Qed.
Lemma blocks_after stream blocks : forall seen,
  Forall (fun b => block_has stream b.1 b.2) blocks ->
  Z.of_nat (length (seen ++ concat (map snd blocks))) < 2 ^ 64 ->
  foldM (process_log_block for_each_log_entry_in_block begin_ end_ valid stream) (after seen) (map fst blocks) =
    Ok (after (seen ++ concat (map snd blocks))).
Proof.
  induction blocks as [|[block es] blocks IH]; intros seen Hb Hlen; [by rewrite app_nil_r|].
  inversion_clear Hb as [|? ? H Hbs]. cbn [map concat foldM fst snd] in *. rewrite app_assoc in Hlen |- *.
  rewrite (block_after _ _ _ _ H) by (rewrite length_app in Hlen; lia). cbn [mbind exec_bind]. by apply IH.
Qed.
End slice.

(** The log of a process: its streams, their blocks and the entries of each *)
Abbreviation process_log := (list (StreamInfo * list (BlockMetadata * list LogEntry))).
Definition stream_entries (s : StreamInfo * list (BlockMetadata * list LogEntry)) : list LogEntry :=
  concat (map snd s.2).
Definition all_entries (log : process_log) : list LogEntry := concat (map stream_entries log).

Section log.
Context (entry_level : LogEntry -> Level.t) (to_lowercase : string -> string).
Context (find_process_log_streams : Uuid -> exec (list StreamInfo)).
Context (find_stream_blocks : Uuid -> exec (list BlockMetadata)).
Context (for_each_log_entry_in_block : forall S, StreamInfo -> BlockMetadata ->
  (S -> LogEntry -> exec (S * bool)) -> S -> exec S).

Lemma count_blocks stream blocks : forall count,
  Forall (fun b => block_has for_each_log_entry_in_block stream b.1 b.2) blocks ->
  0 <= count -> count + Z.of_nat (length (concat (map snd blocks))) < 2 ^ 64 ->
  foldM (fun count b => u64_checked (count + wrap_u 64 (bm_nb_objects b))) count (map fst blocks) =
    Ok (count + Z.of_nat (length (concat (map snd blocks)))).
Proof.
  induction blocks as [|[block es] blocks IH]; intros count Hb Hc Hlen; [cbn; f_equal; lia|].
  inversion_clear Hb as [|? ? [Hn _] Hbs]. cbn [map concat foldM fst snd] in *. rewrite length_app in *.
  rewrite Hn, u64_checked_ok by lia. cbn [mbind exec_bind]. rewrite IH by (done || lia). f_equal. lia.
Qed.

(** The streams that have a log *)
Definition streams_ok (log : process_log) : Prop :=
  Forall (fun s => find_stream_blocks (si_stream_id s.1) = Ok (map fst s.2) /\
    Forall (fun b => block_has for_each_log_entry_in_block s.1 b.1 b.2) s.2) log.
Lemma streams_after begin_ end_ valid log : forall seen,
  0 <= begin_ <= end_ /\ end_ < 2 ^ 64 -> streams_ok log ->
  Z.of_nat (length (seen ++ all_entries log)) < 2 ^ 64 ->
  foldM (fun s stream =>
    blocks ← with_context "error in find_stream_blocks" (find_stream_blocks (si_stream_id stream));
    foldM (process_log_block for_each_log_entry_in_block begin_ end_ valid stream) s blocks)
    (after begin_ end_ valid seen) (map fst log) = Ok (after begin_ end_ valid (seen ++ all_entries log)).
Proof.
  unfold all_entries. induction log as [|s log IH]; intros seen Hbe Hok Hlen; [by rewrite app_nil_r|].
  inversion_clear Hok as [|? ? [Hs Hb] Hok']. cbn [map concat foldM] in *. rewrite Hs.
  rewrite app_assoc in Hlen |- *. cbn [with_context mbind exec_bind].
  rewrite blocks_after by (done || (fold (stream_entries s); rewrite length_app in Hlen; lia)).
  cbn [mbind exec_bind]. by apply IH.
Qed.
Lemma count_streams log : forall count,
  streams_ok log -> 0 <= count -> count + Z.of_nat (length (all_entries log)) < 2 ^ 64 ->
  foldM (fun count stream =>
    blocks ← find_stream_blocks (si_stream_id stream);
    foldM (fun count b => u64_checked (count + wrap_u 64 (bm_nb_objects b))) count blocks) count (map fst log) =
    Ok (count + Z.of_nat (length (all_entries log))).
Proof.
  unfold all_entries. induction log as [|s log IH]; intros count Hok Hc Hlen; [cbn; f_equal; lia|].
  inversion_clear Hok as [|? ? [Hs Hb] Hok']. cbn [map concat foldM] in *. rewrite Hs. rewrite length_app in *.
  cbn [mbind exec_bind]. rewrite (count_blocks s.1) by (done || (fold (stream_entries s); lia)).
  fold (stream_entries s). cbn [mbind exec_bind]. rewrite IH by (done || lia). f_equal. lia.
Qed.

Record has_log (process_id : Uuid) (log : process_log) : Prop := {
  hl_streams : find_process_log_streams process_id = Ok (map fst log);
  hl_blocks : streams_ok log;
  hl_length : Z.of_nat (length (all_entries log)) < 2 ^ 64
}.

(** C39. The log of a process is sliced as one sequence: a request for the
    entries from [begin] to [end] gives the entries after the first [begin]
    ones that the search and the level select, up to [end - begin] of them,
    wherever the blocks begin and end, and the end of the reply is [begin]
    plus their number, or the number of all the entries when there are fewer
    than [begin].  The number of entries of the process is that of its
    blocks. *)
Theorem process_log_slice process_id log begin_ end_ search level :
  has_log process_id log -> 0 <= begin_ <= end_ /\ end_ < 2 ^ 64 ->
  let valid := valid_entry entry_level to_lowercase (make_needles to_lowercase search) level in
  let entries := firstn (Z.to_nat (end_ - begin_)) (List.filter valid (skipn (Z.to_nat begin_) (all_entries log))) in
  process_log_impl entry_level to_lowercase find_process_log_streams find_stream_blocks for_each_log_entry_in_block
    process_id begin_ end_ search level =
    Ok (mkProcessLogReply entries begin_
          (Z.min (Z.of_nat (length (all_entries log))) begin_ + Z.of_nat (length entries))) /\
  nb_process_log_entries_impl find_process_log_streams find_stream_blocks process_id =
    Ok (Z.of_nat (length (all_entries log))).
Proof.
  intros [Hs Hb Hlen] Hbe valid entries. unfold process_log_impl, nb_process_log_entries_impl.
  rewrite Hs. cbn [with_context mbind exec_bind]. split.
  - assert (after begin_ end_ valid [] = ([], 0)) as <- by (apply after_before; cbn; lia).
    by rewrite streams_after.
  - by rewrite (count_streams log 0).
Qed.
End log.

(** The reader of the blocks of today is such a visitor. *)
Lemma stored_block_has `{Compression} `{Cbor BlockPayload} `{UuidText} `{ObjectPath} blobs ct stream block payload es :
  fetch_block_payload blobs (si_process_id stream) (si_stream_id stream) (bm_block_id block) = Ok payload ->
  decodes_log ct stream payload es -> wrap_u 64 (bm_nb_objects block) = Z.of_nat (length es) ->
  block_has (fun S st b f s => for_each_log_entry_in_stored_block blobs ct st b f s) stream block es.
Proof.
  intros Hp Hd Hn. split; [done|]. intros S f s s' Hv. unfold for_each_log_entry_in_stored_block.
  rewrite Hp. cbn [mbind exec_bind]. by rewrite Hd, Hv.
Qed.

(** ** Metrics *)

(** Only the time of the last point of a block is used, to know how long the
    one before it lasted: its value is never shown. *)
Lemma merge_points_last threshold points last value : forall max acc,
  merge_points threshold max acc (points ++ [last]) =
  merge_points threshold max acc (points ++ [mkMetricDataPoint (mp_time_ms last) value]).
Proof.
  induction points as [|p points IH]; intros max acc; [done|].
  destruct points as [|p' points]; [done|]. cbn [app merge_points] in *. by rewrite !IH.
Qed.
Lemma reduce_lod_last powi points last value lod :
  reduce_lod powi (mkMetricBlockData (points ++ [last]) 0) lod =
  reduce_lod powi (mkMetricBlockData (points ++ [mkMetricDataPoint (mp_time_ms last) value]) 0) lod.
Proof.
  unfold reduce_lod. cbn [mb_points]. destruct (merge_threshold powi lod); [|done..].
  cbn [mbind exec_bind]. by rewrite (merge_points_last _ _ _ value).
Qed.

(** The point of an event of the metric [name], with the ticks of the process *)
Definition metric_point (st : statics) (strs : gmap Z string) (name : string) (start_ticks : Z) (tick_ms : f64)
    (a : MetricsMsgQueueAny) : exec (list MetricDataPoint) :=
  match measured st strs a with
  | Some (ticks, value, _, n, _) =>
      if String.eqb n name then
        elapsed ← i64_checked (ticks - start_ticks);
        Ok [mkMetricDataPoint (f64_mul (f64_of_Z elapsed) tick_ms) value]
      else Ok []
  | None => Ub
  end.
Definition metric_points st strs name start_ticks tick_ms (evs : list MetricsMsgQueueAny)
  : exec (list MetricDataPoint) :=
  foldM (fun points a => ps ← metric_point st strs name start_ticks tick_ms a; Ok (points ++ ps)) [] evs.

Section points.
Context `{HA : LawfulAbi} (st : statics) (strs : gmap Z string) (name : string) (start_ticks : Z) (tick_ms : f64).
Hypothesis metadata : metric_metadata_ok st strs.

Lemma on_metric_value_event a points :
  metric_event_ok st a ->
  on_metric_value name start_ticks tick_ms points (metric_event_value (metric_dep_value st strs) a) =
  (ps ← metric_point st strs name start_ticks tick_ms a; Ok (points ++ ps, true)).
Proof.
  intros [_ [md Ha]]. destruct (metadata _ _ Ha) as (_ & _ & _ & Hs).
  assert (forall r, In r [mm_name md; mm_unit md; mm_target md] -> exists s, strs !! str_ptr r = Some s) as Hlook.
  { intros r Hr. apply (str_ok_lookup strs (st_bytes st)).
    eapply List.Forall_forall; [exact Hs|]. cbn in *. tauto. }
  destruct (Hlook (mm_target md)) as [t Ht]; [cbn; tauto|].
  destruct (Hlook (mm_name md)) as [n Hn]; [cbn; tauto|].
  destruct (Hlook (mm_unit md)) as [u Hu]; [cbn; tauto|].
  unfold metric_point, measured. rewrite Ha. cbn [mbind option_bind]. rewrite Ht. cbn [mbind option_bind].
  rewrite Hn. cbn [mbind option_bind]. rewrite Hu. cbn [mbind option_bind].
  destruct a as [e|e]; cbn [metric_event_desc metric_event_value metric_event_time metric_event_number] in *;
    unfold metric_dep_value; rewrite Ha; unfold metric_record_value, str_dep; rewrite Ht, Hn, Hu; cbn - [i64_checked];
    destruct (String.eqb n name); cbn - [i64_checked]; try (by rewrite app_nil_r);
    by destruct (i64_checked _).
Qed.
Lemma fold_metric_values evs : forall points,
  Forall (metric_event_ok st) evs ->
  fold_until (on_metric_value name start_ticks tick_ms) points
    (map (metric_event_value (metric_dep_value st strs)) evs) =
  (points ← foldM (fun points a => ps ← metric_point st strs name start_ticks tick_ms a; Ok (points ++ ps)) points evs;
   Ok (points, true)).
Proof.
  induction evs as [|a evs IH]; intros points Hok; [done|]. inversion_clear Hok as [|? ? Ha Hevs].
  cbn [map fold_until foldM]. rewrite on_metric_value_event by done.
  destruct (metric_point _ _ _ _ _ a); try done. cbn [mbind exec_bind]. by rewrite IH.
Qed.
End points.

(** The points of a metric are those of its events in the block that was sent,
    in order: the value of the event, and the time since the start of the
    process. *)
Theorem raw_block_points `{HA : LawfulAbi} `{HC : LawfulCompression} `{Rfc3339}
    into_iter st strs evs size stream (find_process : string -> exec ProcessInfo)
    (find_stream : string -> exec StreamInfo) (fetch_block_payload : string -> exec BlockPayload)
    process process_id block_id stream_id name :
  iterates into_iter -> metric_metadata_ok st strs -> Forall (metric_event_ok st) evs ->
  find_process process_id = Ok process ->
  find_stream stream_id =
    Ok (received_stream (make_stream_info into_iter MetricsMsgQueueAny MetricsDepsQueueAny stream)) ->
  exists q deps,
    foldM (push_metric_event (st_bytes st)) (queue_new size) evs = Ok q /\
    extract_metrics st q = Ok deps /\
    (blen (as_bytes deps) < 2 ^ 63 -> blen (as_bytes q) < 2 ^ 63 ->
     forall new_v4 b e p,
       eb_events b = q -> eb_end b = Some e ->
       in_i 64 (dt_ticks (eb_begin b) - start_ticks p) -> in_i 64 (dt_ticks e - start_ticks p) ->
       exists block, encode_block (extract_metrics st) new_v4 b p = Ok block /\
       (fetch_block_payload block_id = Ok (bk_payload block) ->
        forall points,
          metric_points st strs name (start_ticks process) (get_process_tick_length_ms process) evs = Ok points ->
          get_raw_block_data find_process find_stream fetch_block_payload process_id block_id stream_id name =
          Ok (mkMetricBlockData points 0))).
Proof.
  intros Hit Hmd Hok Hfp Hfs.
  destruct (metrics_stream_udts into_iter stream Hit) as [Hu Hdu].
  destruct (metrics_block_values st strs _ _ evs size Hu Hdu Hmd Hok) as (q & deps & Hq & _ & Hx & Hv).
  exists q, deps. split; [done|]. split; [done|].
  intros Hbd Hbq new_v4 b e p <- He Hb1 Hb2. destruct (Hv Hbd Hbq) as (h & Hh & Hparse).
  destruct (encode_block_Ok _ new_v4 b e deps p He Hx Hb1 Hb2) as (block & -> & Hcd & Hco).
  exists block. split; [done|]. intros Hfetch points Hpoints. unfold get_raw_block_data.
  rewrite Hfp, Hfetch, Hfs. cbn [mbind exec_bind].
  rewrite (parse_block_Ok _ _ _ _ h _ _ Hcd Hco Hh), Hparse, fold_metric_values by done.
  unfold metric_points in Hpoints. by rewrite Hpoints.
Qed.

(** ** Two streams, three blocks *)
Module OldServerExample.
Definition example_entry (level : Z) (msg : string) : LogEntry := mkLogEntry 0 level "app" msg.
Definition example_stream (id : Z) : StreamInfo := mkStreamInfo 1 id [] [] ["log"] ∅.
Definition example_block (id nb : Z) : BlockMetadata := mkBlockMetadata id 0 1 0 0 0 0 nb 0 0.
Definition example_log : process_log :=
  [(example_stream 1, [(example_block 1 2, [example_entry 2 "disk full"; example_entry 4 "started"]);
                       (example_block 2 2, [example_entry 6 "disk read"; example_entry 2 "disk error"])]);
   (example_stream 2, [(example_block 3 2, [example_entry 3 "slow disk"; example_entry 2 "disk lost"])])].
Definition example_level (e : LogEntry) : Level.t := default Level.Trace (Level.from_value (le_level e)).
Definition example_streams (process_id : Uuid) : exec (list StreamInfo) := Ok (map fst example_log).
Definition example_blocks (stream_id : Uuid) : exec (list BlockMetadata) :=
  match List.find (fun s => si_stream_id s.1 =? stream_id) example_log with
  | Some s => Ok (map fst s.2)
  | None => Ok []
  end.
Definition example_for_each (S : Type) (stream : StreamInfo) (block : BlockMetadata)
    (f : S -> LogEntry -> exec (S * bool)) (s : S) : exec S :=
  match List.find (fun b => bm_block_id b.1 =? bm_block_id block) (concat (map snd example_log)) with
  | Some b => visit Ok f s b.2
  | None => bail "no such block"
  end.

Lemma process_log_slice_witness :
  has_log example_streams example_blocks example_for_each 1 example_log /\
  process_log_impl example_level (fun s => s) example_streams example_blocks example_for_each 1 1 3
    (Some "disk") (Some Level.Warn) =
    Ok (mkProcessLogReply [example_entry 2 "disk error"; example_entry 3 "slow disk"] 1 3).
Proof.
  assert (has_log example_streams example_blocks example_for_each 1 example_log) as H.
  { split; [reflexivity| |cbn; lia]. repeat constructor; intros; assumption. }
  split; [exact H|].
  exact (proj1 (process_log_slice example_level (fun s => s) example_streams example_blocks example_for_each 1
    example_log 1 3 (Some "disk"%string) (Some Level.Warn) H ltac:(lia))).
Defined.
End OldServerExample.
